(** * Dashcam recording session orchestrator: a shallow embedding

    The development follows the JavaScript sources of the repository:
    - [Js]       : the fragment of JavaScript values the code manipulates
                   (truthiness, [||], [parseInt]);
    - [Trim]     : [trimLogs] (lib/logs/index), the trim/normalize stage;
    - [Recorder] : [startRecording] / [stopRecording] (lib/recorder.js);
    - [Tracking] : [WebTrackerManager] dispatch (lib/tracking.js);
    - [Perf]     : [PerformanceTracker] (lib/performanceTracker.js), each
                   method run to its end;
    - [Sampler]  : the same tracker in time: [collectSample] is [async]
                   and not awaited, so calls in flight interleave with
                   ticks, [start] and [stop];
    - [Router]   : the life cycle of [WebTrackerManager] (lib/tracking.js);
    - [Logs]     : the log tracking stack, [FileTracker],
                   [FileTrackerManager], [CLILogsTracker] and
                   [LogsTrackerManager] (lib/logs).

    Integers are [Z]: every quantity the code computes on (millisecond
    timestamps, byte counters, indices) is an integer far below 2^53, where
    JavaScript numbers are exact.  Quotients are exact rationals ([Q]),
    where the code has the nearest double; statements about a quotient are
    limited to what rounding preserves. *)

From Stdlib Require Import Ascii QArith.
From stdpp Require Import base numbers option list strings gmap pretty.

Local Open Scope string_scope.
Local Open Scope list_scope.
Local Open Scope Z_scope.

(* ================================================================== *)
(** * JavaScript values *)
(* ================================================================== *)
Module Js.

(** The values a JSON event field holds, as far as the code inspects them:
    absent/[null], a number, the not-a-number result of a failed
    conversion, or a string. *)
Inductive value :=
| Undefined
| Num (z : Z)
| NaN
| Str (s : string).

(** [Boolean(v)]: what [if (v)], [!v] and [v || w] test. *)
Definition truthy (v : value) : bool :=
  match v with
  | Undefined => false
  | Num z => negb (z =? 0)
  | NaN => false
  | Str s => negb (String.eqb s "")
  end.

(** [a || b] *)
Definition or (a b : value) : value := if truthy a then a else b.

(** White space skipped by [parseInt] (the ASCII part of it). *)
Definition is_space (c : Ascii.ascii) : bool :=
  let n := Z.of_nat (Ascii.nat_of_ascii c) in
  (n =? 32) || ((9 <=? n) && (n <=? 13)).

Fixpoint skip_space (s : string) : string :=
  match s with
  | String c r => if is_space c then skip_space r else s
  | EmptyString => s
  end.

(** Value of a digit in the given radix, if the character is one. *)
Definition digit_val (radix : Z) (c : Ascii.ascii) : option Z :=
  let n := Z.of_nat (Ascii.nat_of_ascii c) in
  let d :=
    if (48 <=? n) && (n <=? 57) then Some (n - 48)
    else if (97 <=? n) && (n <=? 122) then Some (n - 87)
    else if (65 <=? n) && (n <=? 90) then Some (n - 55)
    else None in
  match d with
  | Some v => if v <? radix then Some v else None
  | None => None
  end.

(** Longest prefix of digits; [None] when there is no digit at all. *)
Fixpoint digits (radix : Z) (s : string) (acc : option Z) : option Z :=
  match s with
  | String c r =>
      match digit_val radix c with
      | Some d => digits radix r (Some (radix * default 0 acc + d))
      | None => acc
      end
  | EmptyString => acc
  end.

Definition strip_sign (s : string) : Z * string :=
  match s with
  | String c r =>
      if Ascii.eqb c "-"%char then (-1, r)
      else if Ascii.eqb c "+"%char then (1, r)
      else (1, s)
  | EmptyString => (1, s)
  end.

Definition strip_hex (s : string) : Z * string :=
  match s with
  | String c0 (String c1 r) =>
      if Ascii.eqb c0 "0"%char && (Ascii.eqb c1 "x"%char || Ascii.eqb c1 "X"%char)
      then (16, r) else (10, s)
  | _ => (10, s)
  end.

(** [parseInt(s)] on a string, no radix argument; [None] is NaN. *)
Definition parseInt_string (s : string) : option Z :=
  let '(sign, s1) := strip_sign (skip_space s) in
  let '(radix, s2) := strip_hex s1 in
  Z.mul sign <$> digits radix s2 None.

(** The first decimal digit of a positive integer, and the number of its
    decimal digits. *)
Fixpoint leading (fuel : nat) (z : Z) : Z :=
  match fuel with
  | O => z
  | S fuel' => if z <? 10 then z else leading fuel' (z / 10)
  end.

Definition leadingDigit (z : Z) : Z := leading (Z.to_nat (Z.log2 z)) z.

Fixpoint countDigits (fuel : nat) (z : Z) : Z :=
  match fuel with
  | O => 1
  | S fuel' => if z <? 10 then 1 else 1 + countDigits fuel' (z / 10)
  end.

Definition digitCount (z : Z) : Z := countDigits (Z.to_nat (Z.log2 z)) z.

(** The distance from a double of magnitude [z] to the next one: a double
    has 53 significant bits. *)
Definition ulp (z : Z) : Z := 2 ^ Z.max 0 (Z.log2 z - 52).

(** Whether the decimal [x] reads as the double [z]: [z] is the double
    nearest to [x], the one with the even significand on a tie. *)
Definition readsAs (x z : Z) : bool :=
  let u := ulp z in
  let below := if (z =? 2 ^ Z.log2 z) && (1 <? u) then u / 2 else u in
  let even := Z.even (z / u) in
  if x <? z
  then (2 * (z - x) <? below) || ((2 * (z - x) =? below) && even)
  else (2 * (x - z) <? u) || ((2 * (x - z) =? u) && even).

(** [Number::toString]: the digits [s] and the exponent [e] of the decimal
    [s * 10^e] with the fewest digits that reads as [z], the nearest to
    [z] when several have as few. *)
Fixpoint shortest (fuel : nat) (e : Z) (z : Z) : Z * Z :=
  match fuel with
  | O => (z, 0)
  | S fuel' =>
      let p := 10 ^ e in
      let lo := z / p in
      let hi := lo + 1 in
      match readsAs (lo * p) z, readsAs (hi * p) z with
      | true, true =>
          if z - lo * p <? hi * p - z then (lo, e)
          else if hi * p - z <? z - lo * p then (hi, e)
          else if Z.even lo then (lo, e) else (hi, e)
      | true, false => (lo, e)
      | false, true => (hi, e)
      | false, false => shortest fuel' (e - 1) z
      end
  end.

(** [parseInt(String(z))] for a positive integer [z]: up to 21 digits the
    number prints as the digits of its shortest decimal followed by
    zeros; beyond, in exponent notation ([1e+21], [2.5e+21]), of which
    [parseInt] reads the digit before the point or the [e]. *)
Definition readBack (z : Z) : Z :=
  let '(s, e) := shortest (S (Z.to_nat (digitCount z))) (digitCount z) z in
  if digitCount s + e <=? 21 then s * 10 ^ e else leadingDigit s.

(** [parseInt(v)]: the argument is first converted to a string.  An
    integer below 2^53 in magnitude prints as its decimal digits and reads
    back as itself.  A larger number (a double, with 53 significant bits)
    prints as the shortest decimal that denotes it, and [parseInt] reads
    that: [parseInt(2**64)] is [18446744073709552000] and [parseInt(1e21)]
    is [1]. *)
Definition parseInt (v : value) : option Z :=
  match v with
  | Num z =>
      if Z.abs z <? 2 ^ 53 then Some z
      else Some (Z.sgn z * readBack (Z.abs z))
  | Str s => parseInt_string s
  | Undefined | NaN => None
  end.

(** A number that may be NaN, back as a value. *)
Definition of_number (n : option Z) : value :=
  match n with Some z => Num z | None => NaN end.

(** [v >= lo && v <= hi] on a value holding a number: false on NaN. *)
Definition between (lo hi : Z) (v : value) : bool :=
  match v with
  | Num z => (lo <=? z) && (z <=? hi)
  | _ => false
  end.

(** The property names a plain object inherits from [Object.prototype]
    (ECMAScript, with the legacy accessors of its Annex B, which Node.js
    provides): read off [{}], such a name yields the inherited member, a
    function or an object, and not [undefined]. *)
Definition objectPrototypeMembers : list string :=
  [ "constructor"; "hasOwnProperty"; "isPrototypeOf"; "propertyIsEnumerable";
    "toLocaleString"; "toString"; "valueOf"; "__proto__";
    "__defineGetter__"; "__defineSetter__"; "__lookupGetter__";
    "__lookupSetter__" ].

(** [({})[k] !== undefined] *)
Definition inherited (k : string) : bool :=
  existsb (String.eqb k) objectPrototypeMembers.

End Js.

(* ================================================================== *)
(** * Trim / normalize stage: [trimLogs] *)
(* ================================================================== *)
Module Trim.

(** A parsed log event.  [time] and [timestamp] are whatever the log line
    carried; [logFile] is the numeric file index the CLI tracker stamps on
    every event it appends ([logFile: index] in lib/logs/cli/index.js and
    lib/tracking/LogsTracker.js), [None] when the property is absent;
    [fields] are the remaining properties, which trimming copies unchanged
    ([...event]). *)
Record event := Event {
  time : Js.value;
  timestamp : Js.value;
  logFile : option Z;
  fields : list (string * string)
}.

(** One entry of [groupLogStatuses]. *)
Record logStatus := LogStatus {
  id : string;
  type : string;
  fileLocation : string;
  count : Z;
  trimmedFileLocation : option string
}.

Definition set_time (ev : event) (t : Js.value) : event :=
  {| time := t; timestamp := timestamp ev; logFile := logFile ev;
     fields := fields ev |}.

Definition set_logFile (ev : event) (f : Z) : event :=
  {| time := time ev; timestamp := timestamp ev; logFile := Some f;
     fields := fields ev |}.

(** The absolute-timestamp threshold, [1_000_000_000_000]. *)
Definition threshold : Z := 1000000000000.

(** [parseInt(event.time || event.timestamp || Date.now())] *)
Definition eventTime (now : Z) (ev : event) : option Z :=
  Js.parseInt (Js.or (Js.or (time ev) (timestamp ev)) (Js.Num now)).

(** The body of the [events.map] callback that computes the relative
    time: subtract [startMS]; when the result is above the threshold,
    subtract [clientStartDate] as well. *)
Definition relativeTime (startMS clientStartDate now : Z) (ev : event)
  : option Z :=
  t ← eventTime now ev;
  let t := t - startMS in
  Some (if threshold <? t then t - clientStartDate else t).

Definition toRelative (startMS clientStartDate now : Z) (ev : event) : event :=
  set_time ev (Js.of_number (relativeTime startMS clientStartDate now ev)).

(** [event.time >= 0 && event.time <= duration] *)
Definition inWindow (duration : Z) (ev : event) : bool :=
  Js.between 0 duration (time ev).

(** [if (event.logFile)] on the numeric index. *)
Definition hasLogFile (ev : event) : option Z :=
  match logFile ev with
  | Some f => if f =? 0 then None else Some f
  | None => None
  end.

(** [fileMap[k] ?? Object.keys(fileMap).length + 1].  [fileMap] starts as
    [{}] and is keyed by the numeric index: a finite map of the entries
    set so far. *)
Definition anonymizedName (fileMap : gmap Z Z) (k : Z) : Z :=
  default (Z.of_nat (size fileMap) + 1) (fileMap !! k).

(** [if (!fileMap[k]) fileMap[k] = anonymizedName] *)
Definition remember (fileMap : gmap Z Z) (k : Z) : gmap Z Z :=
  match fileMap !! k with
  | Some v => if v =? 0 then <[k := anonymizedName fileMap k]> fileMap
              else fileMap
  | None => <[k := anonymizedName fileMap k]> fileMap
  end.

(** The anonymizing [filteredEvents.map], with the [fileMap] it closes
    over threaded through the traversal. *)
Fixpoint anonymize (fileMap : gmap Z Z) (evs : list event) : list event :=
  match evs with
  | [] => []
  | ev :: rest =>
      match hasLogFile ev with
      | Some k =>
          set_logFile ev (anonymizedName fileMap k)
            :: anonymize (remember fileMap k) rest
      | None => ev :: anonymize fileMap rest
      end
  end.

(** The [fileMap] at the end of the traversal. *)
Fixpoint finalMap (fileMap : gmap Z Z) (evs : list event) : gmap Z Z :=
  match evs with
  | [] => fileMap
  | ev :: rest =>
      match hasLogFile ev with
      | Some k => finalMap (remember fileMap k) rest
      | None => finalMap fileMap rest
      end
  end.

(** The invariant of [fileMap]: the names handed out so far are
    [1 .. size], each to one key. *)
Definition fileMap_ok (m : gmap Z Z) : Prop :=
  (∀ k v, m !! k = Some v → 1 ≤ v ≤ Z.of_nat (size m))
  ∧ (∀ k1 k2 v, m !! k1 = Some v → m !! k2 = Some v → k1 = k2)
  ∧ (∀ v, 1 ≤ v ≤ Z.of_nat (size m) → ∃ k, m !! k = Some v).

Section TrimLogs.

(** Node's [path] module, used as a library. *)
Variable path_base : string → string.       (* path.parse(p).base *)
Variable path_dirname : string → string.    (* path.dirname(p) *)
Variable path_join : string → string → string.

(** [Date.now()] when it is consulted for the [i]-th parsed event of a
    given file (an event with neither [time] nor [timestamp]). *)
Variable now : string → nat → Z.

(** The file system as the function sees it: an existing file is the list
    of its non-blank lines, each either parsed by [JSON.parse] into an
    event or dropped ([None]: the parse threw, or the value was falsy). *)
Abbreviation fsys := (gmap string (list (option event))).

Variables (startMS endMS clientStartDate : Z) (clipId : string).

(** Events of one file with their relative time, before filtering. *)
Definition relativeEvents (file : string) (lines : list (option event))
  : list event :=
  imap (λ i ev, toRelative startMS clientStartDate (now file i) ev)
       (omap (λ x, x) lines).

(** Events that survive the window filter. *)
Definition survivors (file : string) (lines : list (option event))
  : list event :=
  List.filter (inWindow (endMS - startMS)) (relativeEvents file lines).

(** [filteredEvents] for one status. *)
Definition filteredEvents (status : logStatus) (lines : list (option event))
  : list event :=
  if String.eqb (type status) "cli"
  then anonymize ∅ (survivors (fileLocation status) lines)
  else survivors (fileLocation status) lines.

Definition set_count (s : logStatus) (n : Z) : logStatus :=
  {| id := id s; type := type s; fileLocation := fileLocation s;
     count := n; trimmedFileLocation := trimmedFileLocation s |}.

Definition set_trimmed (s : logStatus) (p : string) : logStatus :=
  {| id := id s; type := type s; fileLocation := fileLocation s;
     count := count s; trimmedFileLocation := Some p |}.

(** What one pass leaves behind. *)
Record outcome := Outcome {
  disk : fsys;                                  (* files after the pass *)
  written : list (string * list event);         (* jsonl.write calls *)
  statuses : list logStatus                     (* returned array *)
}.

(** One iteration of [for (const status of groupLogStatuses)]. *)
Definition trimOne (acc : outcome) (status : logStatus) : outcome :=
  match disk acc !! fileLocation status with
  | None =>
      (* log file not found: continue *)
      {| disk := disk acc; written := written acc;
         statuses := statuses acc ++ [status] |}
  | Some lines =>
      let filtered := filteredEvents status lines in
      let status := set_count status (Z.of_nat (length filtered)) in
      if 0 <? Z.of_nat (length filtered) then
        let trimmedFileName := clipId +:+ "_" +:+ path_base (fileLocation status) in
        let p := path_join (path_dirname (fileLocation status)) trimmedFileName in
        {| disk := <[p := Some <$> filtered]> (disk acc);
           written := written acc ++ [(p, filtered)];
           statuses := statuses acc ++ [set_trimmed status p] |}
      else
        {| disk := disk acc; written := written acc;
           statuses := statuses acc ++ [status] |}
  end.

(** [trimLogs(groupLogStatuses, startMS, endMS, clientStartDate, clipId)] *)
Definition trimLogs (files : fsys) (groupLogStatuses : list logStatus)
  : outcome :=
  foldl trimOne {| disk := files; written := []; statuses := [] |}
        (List.filter (λ status, 0 <? count status) groupLogStatuses).

End TrimLogs.

End Trim.

(* ================================================================== *)
(** * Capture supervisor: lib/recorder.js *)
(* ================================================================== *)
Module Recorder.

(** ** String helpers used by the module *)

(** [s.replace(/[:.]/g, '-')] *)
Fixpoint dashify (s : string) : string :=
  match s with
  | String c r =>
      String (if Ascii.eqb c ":"%char || Ascii.eqb c "."%char
              then "-"%char else c) (dashify r)
  | EmptyString => EmptyString
  end.

(** [s.split('/').pop()] *)
Fixpoint lastSegment (s acc : string) : string :=
  match s with
  | String c r =>
      if Ascii.eqb c "/"%char then lastSegment r ""
      else lastSegment r (acc +:+ String c "")
  | EmptyString => acc
  end.

(** [s.replace(pat, '')] with a string pattern: the first occurrence. *)
Fixpoint removeFirst (pat s : string) : string :=
  if String.prefix pat s then String.substring (String.length pat)
                                (String.length s - String.length pat) s
  else match s with
       | String c r => String c (removeFirst pat r)
       | EmptyString => EmptyString
       end.

(** [s.lastIndexOf('.')], or [None] for -1. *)
Fixpoint lastDot (s : string) (i : nat) (found : option nat) : option nat :=
  match s with
  | String c r =>
      lastDot r (S i) (if Ascii.eqb c "."%char then Some i else found)
  | EmptyString => found
  end.

(** [s.substring(0, s.lastIndexOf('.'))]; a negative end is clamped to 0. *)
Definition dropExtension (s : string) : string :=
  match lastDot s 0%nat None with
  | Some k => String.substring 0 k s
  | None => ""
  end.

(** ** Errors, collaborators and effects *)

(** What the two functions throw. *)
Inductive error :=
| AlreadyInProgress     (* Error('Recording already in progress') *)
| NoRecording           (* Error('No recording in progress') *)
| EmptyOrMissing        (* Error('Recording file is empty or missing') *)
| FinalizeFailed        (* Error('Failed to finalize recording after all attempts') *)
| External (who : string).  (* an exception raised by a collaborator *)

(** How a call into a collaborator (process, file system, tracker) ends. *)
Inductive answer (A : Type) :=
| Returns (a : A)
| Raises (who : string).
Arguments Returns {A} a.
Arguments Raises {A} who.

(** The handle [execa] returns. *)
Record child := Child {
  pid : Z;
  stdin : bool;             (* stdin pipe present *)
  killed : bool;
  spawnargs : list string   (* command and arguments *)
}.

(** What one finalization subprocess leaves: its exit code and the size of
    the output file if it exists; or an exception inside the attempt. *)
Inductive attemptResult :=
| Exited (exitCode : Z) (output : option Z)
| Crashed (who : string).

Record appResults := AppResults {
  apps : list string;
  icons : list string;
  events : list string
}.

Inductive signal := SIGTERM | SIGKILL.

(** Calls that leave the module, in the order they are issued. *)
Inductive action :=
| Mkdir (directory : string)
| Spawn (command : list string)
| AppTrackerStart
| AppTrackerStop
| LogsStartNew (recorderId screenId directory : string)
| LogsStop (recorderId screenId : string)
| StdinWrite (data : string)
| SetTimer (ms : Z) (s : signal)
| Kill (p : Z) (s : signal)
| AwaitExit
| ClearTimers
| Sleep (ms : Z)
| Finalize (attempt : nat) (command : list string)
| Unlink (file : string)
| CreateGif (input output : string)
| CreateSnapshot (input output : string) (at_ : Z).

(** Everything outside the module that a run consults.  Clock readings
    are named by the place that reads them. *)
Record host := Host {
  ffmpeg : string;                       (* ffmpeg-static *)
  platform : string;                     (* os.platform() *)
  cwd : string;                          (* process.cwd() *)
  dirname : string → string;             (* path.dirname *)
  basename : string → string;            (* path.basename *)
  join : list string → string;           (* path.join *)
  dateNow : string → Z;                  (* Date.now() *)
  isoString : string → string;           (* new Date().toISOString() *)
  mkdir : answer ();
  spawn : list string → answer child;
  appStart : answer ();
  logsStartNew : answer ();
  stdinWrite : answer ();
  exitAfter : Z;                         (* ms until the child has exited *)
  awaitExit : answer ();
  tempExists : bool;                     (* fs.existsSync(tempFile) *)
  tempSize : answer Z;                   (* fs.statSync(tempFile).size *)
  attempt : nat → attemptResult;         (* i-th finalization, from 0 *)
  unlink : answer ();
  appStop : nat → answer appResults;     (* k-th call, from 0 *)
  logsStop : answer (list Trim.logStatus);
  createGif : answer ();
  createSnapshot : answer ();
  finalSize : answer Z                   (* fs.statSync(outputPath).size *)
}.

(** ** Module state and the monad of the two functions *)

(** The three module-level variables. *)
Record state := State {
  currentRecording : option child;
  outputPath : option string;
  recordingStartTime : option Z
}.

Definition initial : state :=
  {| currentRecording := None; outputPath := None;
     recordingStartTime := None |}.

Record world := World {
  vars : state;
  trace : list action
}.

Inductive completion (A : Type) :=
| Normal (a : A)
| Throw (e : error).
Arguments Normal {A} a.
Arguments Throw {A} e.

Definition M (A : Type) : Type := world → completion A * world.

#[global] Instance M_ret : MRet M := λ A a w, (Normal a, w).
#[global] Instance M_bind : MBind M := λ A B f m w,
  match m w with
  | (Normal a, w') => f a w'
  | (Throw e, w') => (Throw e, w')
  end.

Definition ret {A} (a : A) : M A := mret a.

Definition throw {A} (e : error) : M A := λ w, (Throw e, w).

(** [try { m } catch (e) { handler e }] *)
Definition try_catch {A} (m : M A) (handler : error → M A) : M A := λ w,
  match m w with
  | (Normal a, w') => (Normal a, w')
  | (Throw e, w') => handler e w'
  end.

Definition get : M state := λ w, (Normal (vars w), w).

Definition gets {A} (f : state → A) : M A := λ w, (Normal (f (vars w)), w).

Definition put (s : state) : M () := λ w,
  (Normal (), {| vars := s; trace := trace w |}).

Definition emit (a : action) : M () := λ w,
  (Normal (), {| vars := vars w; trace := trace w ++ [a] |}).

(** A call into a collaborator: recorded, then it returns or raises. *)
Definition call {A} (a : action) (r : answer A) : M A :=
  emit a;;
  match r with
  | Returns x => ret x
  | Raises who => throw (External who)
  end.

(** A read of the environment that may raise, without a recorded call. *)
Definition ask {A} (r : answer A) : M A :=
  match r with
  | Returns x => ret x
  | Raises who => throw (External who)
  end.

Definition set_currentRecording (c : option child) : M () :=
  s ← get;
  put {| currentRecording := c; outputPath := outputPath s;
         recordingStartTime := recordingStartTime s |}.

Definition set_outputPath (p : option string) : M () :=
  s ← get;
  put {| currentRecording := currentRecording s; outputPath := p;
         recordingStartTime := recordingStartTime s |}.

Definition set_recordingStartTime (t : option Z) : M () :=
  s ← get;
  put {| currentRecording := currentRecording s; outputPath := outputPath s;
         recordingStartTime := t |}.

(** ** Platform configuration *)

Record platformConfig := PlatformConfig {
  inputFormat : string;
  screenInput : string;
  audioInput : string;
  audioFormat : string;
  extraArgs : option (list string)
}.

Definition darwin : platformConfig :=
  {| inputFormat := "avfoundation"; screenInput := "1:none";
     audioInput := "1"; audioFormat := "avfoundation";
     extraArgs := Some ["-capture_cursor"; "1"; "-capture_mouse_clicks"; "1";
                        "-pixel_format"; "yuyv422"; "-probesize"; "42M";
                        "-analyzeduration"; "2147483647"; "-framerate"; "30"] |}.

Definition win32 : platformConfig :=
  {| inputFormat := "gdigrab"; screenInput := "desktop";
     audioInput := "audio=" +:+ String (Ascii.ascii_of_nat 34) ""
                   +:+ "virtual-audio-capturer"
                   +:+ String (Ascii.ascii_of_nat 34) "";
     audioFormat := "dshow"; extraArgs := None |}.

Definition linux : platformConfig :=
  {| inputFormat := "x11grab"; screenInput := ":0.0";
     audioInput := "default"; audioFormat := "pulse"; extraArgs := None |}.

Definition PLATFORM_CONFIG (p : string) : option platformConfig :=
  if String.eqb p "darwin" then Some darwin
  else if String.eqb p "win32" then Some win32
  else if String.eqb p "linux" then Some linux
  else None.

Section WithHost.
Variable h : host.

(** [getPlatformArgs({ fps, includeAudio })] *)
Definition getPlatformArgs (fps : Z) (includeAudio : bool) : list string :=
  let config := default darwin (PLATFORM_CONFIG (platform h)) in
  ["-f"; inputFormat config]
  ++ default [] (extraArgs config)
  ++ ["-framerate"; pretty fps; "-i"; screenInput config]
  ++ (if includeAudio
      then ["-f"; audioFormat config; "-i"; audioInput config] else []).

(** [generateOutputPath()]; [site] names the call, for the clock. *)
Definition generateOutputPath (site : string) : M string :=
  let timestamp := dashify (isoString h site) in
  let directory := join h [cwd h; "tmp"; "recordings"] in
  let filepath := join h [directory; "recording-" +:+ timestamp +:+ ".webm"] in
  call (Mkdir directory) (mkdir h);;
  ret filepath.

Record startOptions := StartOptions {
  fps : Z;
  includeAudio : bool;
  customOutputPath : option string
}.

Record started := Started {
  started_outputPath : string;
  startTime : Z
}.

(** [startRecording({ fps, includeAudio, customOutputPath })] *)
Definition startRecording (o : startOptions) : M started :=
  s ← get;
  match currentRecording s with
  | Some _ => throw AlreadyInProgress
  | None =>
    out ← match customOutputPath o with
          | Some p => if String.eqb p "" then generateOutputPath "outputPath"
                      else ret p
          | None => generateOutputPath "outputPath"
          end;
    set_outputPath (Some out);;
    let platformArgs := getPlatformArgs (fps o) (includeAudio o) in
    let outputArgs :=
      ["-c:v"; "libvpx"; "-b:v"; "1M"; "-pix_fmt"; "yuv420p";
       "-r"; pretty (fps o); "-g"; "30"; "-f"; "webm";
       "-flush_packets"; "1"; "-max_muxing_queue_size"; "1024"]
      ++ (if includeAudio o then ["-c:a"; "libopus"; "-b:a"; "128k"] else []) in
    let tempDir := dirname h out in
    let tempFile :=
      join h [tempDir; "temp-" +:+ pretty (dateNow h "tempFile") +:+ ".webm"] in
    let args := platformArgs ++ outputArgs ++ ["-y"; tempFile] in
    try_catch
      (proc ← call (Spawn (ffmpeg h :: args)) (spawn h (ffmpeg h :: args));
       set_currentRecording (Some proc);;
       set_recordingStartTime (Some (dateNow h "start"));;
       call AppTrackerStart (appStart h);;
       idPath ← generateOutputPath "recorderId";
       call (LogsStartNew (removeFirst ".webm" (lastSegment idPath "")) "1"
                          (dirname h out))
            (logsStartNew h);;
       ret {| started_outputPath := out; startTime := dateNow h "start" |})
      (λ e,
         set_currentRecording None;;
         set_recordingStartTime None;;
         throw e)
  end.

(** [applicationTracker.stop()]: the answer depends on how many times it
    has been called before. *)
Definition stopApplicationTracker : M appResults := λ w,
  let k := length (List.filter
                     (λ a, match a with AppTrackerStop => true | _ => false end)
                     (trace w)) in
  call AppTrackerStop (appStop h k) w.

(** [exitCode === 0 && fs.existsSync(outputPath) && fs.statSync(outputPath).size > 0] *)
Definition attemptSucceeded (r : attemptResult) : bool :=
  match r with
  | Exited exitCode (Some size) => (exitCode =? 0) && (0 <? size)
  | Exited _ None => false
  | Crashed _ => false
  end.

(** The finalization loop,
    [for (let i = 0; i < attempts && !success; i++) { ... }],
    returning [success].  [todo] counts the iterations still allowed
    ([attempts - i]). *)
Fixpoint finalizeLoop (finalizeArgs : list string) (attempts : nat)
    (todo : nat) (i : nat) : M bool :=
  match todo with
  | O => ret false
  | S todo' =>
      emit (Sleep ((Z.of_nat i + 1) * 2000));;
      success ← try_catch (A := bool)
        (emit (Finalize (S i) (ffmpeg h :: finalizeArgs));;
         match attempt h i with
         | Crashed who => throw (External who)
         | r => ret (attemptSucceeded r)
         end)
        (λ err, if Nat.eqb i (attempts - 1)%nat then throw err else ret false);
      if (success : bool) then ret true
      else finalizeLoop finalizeArgs attempts todo' (S i)
  end.

Record result := Result {
  result_outputPath : string;
  gifPath : string;
  snapshotPath : string;
  duration : Z;
  fileSize : Z;
  clientStartDate : option Z;
  result_apps : list string;
  result_icons : list string;
  logs : list Trim.logStatus
}.

(** The [try] block of [stopRecording], in the four steps its comments
    mark.  First: ask the child to quit, arm the two escalation timers,
    wait for the child, wait for the file system. *)
Definition haltCapture : M (option child) :=
  cur ← gets currentRecording;
  match (cur : option child) with
  | Some p => if stdin p then call (StdinWrite "q") (stdinWrite h) else ret ()
  | None => ret ()
  end;;
  emit (SetTimer 2000 SIGTERM);;
  emit (SetTimer 5000 SIGKILL);;
  match cur with
  | Some p =>
      (* the timers that expire while the child is awaited *)
      (if (2000 <? exitAfter h) && negb (killed p)
       then emit (Kill (pid p) SIGTERM) else ret ());;
      (if (5000 <? exitAfter h) && negb (killed p)
       then emit (Kill (pid p) SIGKILL) else ret ());;
      call AwaitExit (awaitExit h)
  | None => ret ()
  end;;
  emit ClearTimers;;
  emit (Sleep 1000);;
  ret cur.

(** Second: the temporary file is the last argument of the child; it must
    exist and be non-empty. *)
Definition checkCapture (cur : option child) : M string :=
  args ← match cur with
         | Some p => ret (spawnargs p)
         | None => throw (External "TypeError")
         end;
  let tempFile := default "undefined" (last args) in
  size ← (if tempExists h then ask (tempSize h) else ret 0);
  (if negb (tempExists h) || (size =? 0)
   then throw EmptyOrMissing else ret ());;
  ret tempFile.

Definition finalizeArgs (tempFile : string) (out : option string) : list string :=
  ["-f"; "webm"; "-i"; tempFile; "-c:v"; "libvpx"; "-c:a"; "libopus";
   "-b:v"; "1M"; "-map"; "0"; "-y"; default "null" out].

(** Third: finalize in at most three attempts, then delete the temporary
    file; a failing delete is only logged. *)
Definition finalize (tempFile : string) : M () :=
  out ← gets outputPath;
  success ← finalizeLoop (finalizeArgs tempFile out) 3 3 0;
  (if (success : bool) then ret () else throw FinalizeFailed);;
  try_catch (call (Unlink tempFile) (unlink h)) (λ _, ret ()).

(** Fourth: stop the trackers, derive the preview assets, assemble the
    result and clear the session. *)
Definition assemble : M result :=
  out ← gets outputPath;
  out ← match (out : option string) with
        | Some o => ret o
        | None => throw (External "TypeError")
        end;
  let basePath := dropExtension out in
  let gifPath := basePath +:+ ".gif" in
  let snapshotPath := basePath +:+ ".png" in
  appTrackingResults ← stopApplicationTracker;
  let recorderId := removeFirst ".webm" (basename h out) in
  logTrackingResults ← call (LogsStop recorderId "1") (logsStop h);
  emit (CreateGif out gifPath);;
  emit (CreateSnapshot out snapshotPath 0);;
  ask (createGif h);;
  ask (createSnapshot h);;
  start ← gets recordingStartTime;
  size ← ask (finalSize h);
  let result :=
    {| result_outputPath := out; gifPath := gifPath;
       snapshotPath := snapshotPath;
       duration := dateNow h "result" - default 0 start;
       fileSize := size; clientStartDate := start;
       result_apps := apps appTrackingResults;
       result_icons := icons appTrackingResults;
       logs := logTrackingResults |} in
  set_currentRecording None;;
  set_recordingStartTime None;;
  stopApplicationTracker;;
  ret result.

Definition stopBody : M result :=
  cur ← haltCapture;
  tempFile ← checkCapture cur;
  finalize tempFile;;
  assemble.

(** [stopRecording()] *)
Definition stopRecording : M result :=
  s ← get;
  match currentRecording s with
  | None => throw NoRecording
  | Some _ =>
      try_catch stopBody
        (λ e,
           set_currentRecording None;;
           set_recordingStartTime None;;
           stopApplicationTracker;;
           throw e)
  end.

(** [getRecordingStatus()] *)
Definition getRecordingStatus (s : state) : bool * option (Z * option string) :=
  match currentRecording s with
  | None => (false, None)
  | Some _ =>
      (true,
       Some (match recordingStartTime s with
             | Some t => if t =? 0 then 0 else dateNow h "status" - t
             | None => 0
             end,
             outputPath s))
  end.

End WithHost.

(** ** Vocabulary for stating what a run does *)

(** [wp m Q E w]: run from [w], [m] ends normally in a world satisfying
    [Q], or throws in a world satisfying [E]. *)
Definition wp {A} (m : M A) (Q : A → world → Prop) (E : error → world → Prop)
    (w : world) : Prop :=
  match m w with
  | (Normal a, w') => Q a w'
  | (Throw e, w') => E e w'
  end.

(** The session slot is free. *)
Definition cleared (w : world) : Prop :=
  currentRecording (vars w) = None ∧ recordingStartTime (vars w) = None.

(** The way out that both the [try] block and the [catch] clause end
    with: clear the two variables, stop the application tracker, then
    return ([finish = ret r]) or rethrow ([finish = throw e]). *)
Definition release {A} (h : host) (finish : M A) : M A :=
  set_currentRecording None;; set_recordingStartTime None;;
  stopApplicationTracker h;; finish.

(** The world with further calls recorded. *)
Definition addTrace (w : world) (l : list action) : world :=
  {| vars := vars w; trace := trace w ++ l |}.

(** What attempts [i+1 .. i+n] leave in the trace: before each, a pause
    of 2000 ms times the number of the attempt. *)
Fixpoint backoffTrace (h : host) (args : list string) (i n : nat) : list action :=
  match n with
  | O => []
  | S n' =>
      Sleep ((Z.of_nat i + 1) * 2000) :: Finalize (S i) (ffmpeg h :: args)
        :: backoffTrace h args (S i) n'
  end.

(** How many iterations the loop runs from attempt [i] with [todo] left:
    it stops with the first attempt that succeeds. *)
Fixpoint attemptsFrom (h : host) (i todo : nat) : nat :=
  match todo with
  | O => O
  | S todo' =>
      if attemptSucceeded (attempt h i) then 1%nat
      else S (attemptsFrom h (S i) todo')
  end.

(** How the loop ends: with [success], or with the exception of the last
    attempt. *)
Fixpoint loopResult (h : host) (i todo : nat) : completion bool :=
  match todo with
  | O => Normal false
  | S todo' =>
      if attemptSucceeded (attempt h i) then Normal true
      else match attempt h i, todo' with
           | Crashed who, O => Throw (External who)
           | _, _ => loopResult h (S i) todo'
           end
  end.

(** The calls of the first step. *)
Definition haltTrace (h : host) (p : child) : list action :=
  (if stdin p then [StdinWrite "q"] else [])
  ++ [SetTimer 2000 SIGTERM; SetTimer 5000 SIGKILL]
  ++ (if (2000 <? exitAfter h) && negb (killed p)
      then [Kill (pid p) SIGTERM] else [])
  ++ (if (5000 <? exitAfter h) && negb (killed p)
      then [Kill (pid p) SIGKILL] else [])
  ++ [AwaitExit; ClearTimers; Sleep 1000].

(** The calls of the fourth step. *)
Definition afterTrace (h : host) (out : string) : list action :=
  [AppTrackerStop;
   LogsStop (removeFirst ".webm" (basename h out)) "1";
   CreateGif out (dropExtension out +:+ ".gif");
   CreateSnapshot out (dropExtension out +:+ ".png") 0;
   AppTrackerStop].

(** The child quits when asked and leaves a non-empty temporary file. *)
Definition captureDelivered (h : host) : Prop :=
  stdinWrite h = Returns () ∧ awaitExit h = Returns ()
  ∧ tempExists h = true ∧ ∃ size, tempSize h = Returns size ∧ size ≠ 0.

(** The collaborators of the fourth step answer. *)
Definition othersReturn (h : host) : Prop :=
  (∀ k, ∃ r, appStop h k = Returns r)
  ∧ (∃ l, logsStop h = Returns l)
  ∧ createGif h = Returns () ∧ createSnapshot h = Returns ()
  ∧ ∃ size, finalSize h = Returns size.

(** The module state once the session is released. *)
Definition released (s : state) : state :=
  {| currentRecording := None; outputPath := outputPath s;
     recordingStartTime := None |}.

(** The call that stops the log tracker. *)
Definition isLogsStop (a : action) : bool :=
  match a with LogsStop _ _ => true | _ => false end.

End Recorder.

(* ================================================================== *)
(** * Log router: [WebTrackerManager] of lib/tracking.js *)
(* ================================================================== *)
Module Tracking.

Record tab := Tab {
  url : option string;
  previousUrl : option string;
  title : string;
  active : bool
}.

Record eventPayload := Payload {
  tabId : option Z;
  payload_url : option string;
  requestUrl : option string
}.

(** An inbound message [{type, payload}]. *)
Record event := Event {
  type : string;
  payload : option eventPayload
}.

(** Handlers are compared by identity; a number stands for one. *)
Definition callback := nat.

(** The fields of the manager that dispatch reads and writes.
    [patternsByCallback] is the [Map] from handler to pattern, in insertion
    order; [globalTabsAndNavigationCallbacks] the [Set] of global handlers. *)
Record manager := Manager {
  tabs : gmap Z tab;
  patternsByCallback : list (callback * string);
  globalTabsAndNavigationCallbacks : list callback
}.

(** [Map.prototype.get] *)
Fixpoint map_get (cb : callback) (m : list (callback * string)) : option string :=
  match m with
  | [] => None
  | (k, v) :: rest => if Nat.eqb k cb then Some v else map_get cb rest
  end.

(** [Map.prototype.set]: an existing key keeps its position. *)
Fixpoint map_set (cb : callback) (p : string) (m : list (callback * string))
  : list (callback * string) :=
  match m with
  | [] => [(cb, p)]
  | (k, v) :: rest =>
      if Nat.eqb k cb then (k, p) :: rest else (k, v) :: map_set cb p rest
  end.

(** [Map.prototype.delete] *)
Definition map_delete (cb : callback) (m : list (callback * string))
  : list (callback * string) :=
  List.filter (λ kv, negb (Nat.eqb (fst kv) cb)) m.

(** [Set.prototype.add] *)
Definition set_add (cb : callback) (s : list callback) : list callback :=
  if existsb (Nat.eqb cb) s then s else s ++ [cb].

(** [subscribe(pattern, callback)], as far as the subscription map goes. *)
Definition subscribe (pattern : string) (cb : callback) (m : manager) : manager :=
  {| tabs := tabs m;
     patternsByCallback := map_set cb pattern (patternsByCallback m);
     globalTabsAndNavigationCallbacks := globalTabsAndNavigationCallbacks m |}.

(** [unsubscribe(callback)] *)
Definition unsubscribe (cb : callback) (m : manager) : manager :=
  {| tabs := tabs m;
     patternsByCallback := map_delete cb (patternsByCallback m);
     globalTabsAndNavigationCallbacks := globalTabsAndNavigationCallbacks m |}.

(** [subscribeToGlobalTabsAndNavigation(callback)], likewise. *)
Definition subscribeToGlobalTabsAndNavigation (cb : callback) (m : manager)
  : manager :=
  {| tabs := tabs m;
     patternsByCallback := patternsByCallback m;
     globalTabsAndNavigationCallbacks :=
       set_add cb (globalTabsAndNavigationCallbacks m) |}.

(** [eventCallbacks.value]: [new Set(this.patternsByCallback.keys())] *)
Definition eventCallbacks (m : manager) : list callback :=
  fst <$> patternsByCallback m.

(** The case labels of the [switch] in [#handleEvent]. *)
Definition isNavigation (t : string) : bool :=
  String.eqb t "INITIAL_TABS" || String.eqb t "TAB_REMOVED"
  || String.eqb t "TAB_ACTIVATED" || String.eqb t "NAVIGATION_STARTED"
  || String.eqb t "NAVIGATION_COMPLETED".

(** How one dispatch ends: the handlers called, in order, and whether the
    dispatch was cut short by the [TypeError] of reading [tabId] off a
    missing payload. *)
Record dispatched := Dispatched {
  delivered : list callback;
  typeError : bool
}.

Section Dispatch.

(** The two helpers imported from [./helpers.js]. *)
Variable verifyPattern : string → option string → bool.
Variable updateTabsState : event → gmap Z tab → gmap Z tab.

(** [#shouldSendEvent(pattern, event, cache)]: whether the answer is
    truthy and the cache after the call; [None] when [event.payload.tabId]
    throws.  [cache] starts as the plain object [{}] for each dispatch: its
    own properties are the entries set during the dispatch, and for a
    pattern named like a member of [Object.prototype] the test
    [cache[pattern] !== undefined] holds from the start, so that the
    inherited member, a truthy value, is returned before the payload is
    looked at. *)
Definition shouldSendEvent (tbs : gmap Z tab) (pattern : string) (ev : event)
    (cache : gmap string bool) : option (bool * gmap string bool) :=
  if Js.inherited pattern then Some (true, cache)
  else
  match cache !! pattern with
  | Some b => Some (b, cache)
  | None =>
      match payload ev with
      | None => None
      | Some p =>
          match tabId p ≫= (λ i, tbs !! i) with
          | Some tb =>
              let urlMatches := verifyPattern pattern (url tb) in
              let previousUrlMatches := verifyPattern pattern (previousUrl tb) in
              let b := urlMatches || previousUrlMatches in
              Some (b, <[pattern := b]> cache)
          | None => Some (false, <[pattern := false]> cache)
          end
      end
  end.

(** The [forEach] over [eventCallbacks.value] in the default branch.  A
    handler is called through [#tryCallback], which swallows what it
    throws; handlers are taken not to subscribe or unsubscribe while the
    event is being dispatched. *)
Fixpoint forEachCallback (m : manager) (ev : event) (cache : gmap string bool)
    (cbs : list callback) : dispatched :=
  match cbs with
  | [] => {| delivered := []; typeError := false |}
  | cb :: rest =>
      match map_get cb (patternsByCallback m) with
      | Some pattern =>
          if String.eqb pattern "" then forEachCallback m ev cache rest
          else
            match shouldSendEvent (tabs m) pattern ev cache with
            | None => {| delivered := []; typeError := true |}
            | Some (true, cache') =>
                let r := forEachCallback m ev cache' rest in
                {| delivered := cb :: delivered r; typeError := typeError r |}
            | Some (false, cache') => forEachCallback m ev cache' rest
            end
      | None => forEachCallback m ev cache rest
      end
  end.

(** [#handleEvent(event)]: the manager afterwards and the handlers called. *)
Definition handleEvent (m : manager) (ev : event) : manager * dispatched :=
  let m := {| tabs := updateTabsState ev (tabs m);
              patternsByCallback := patternsByCallback m;
              globalTabsAndNavigationCallbacks :=
                globalTabsAndNavigationCallbacks m |} in
  if isNavigation (type ev)
  then (m, {| delivered := globalTabsAndNavigationCallbacks m;
              typeError := false |})
  else (m, forEachCallback m ev ∅ (eventCallbacks m)).

(** *** Vocabulary for stating who is called *)

(** The tab an event refers to, if its payload names a known one. *)
Definition resolved (tbs : gmap Z tab) (ev : event) : option tab :=
  p ← payload ev; i ← tabId p; tbs !! i.

(** The pattern matches the current or the previous URL of the tab. *)
Definition matches (tbs : gmap Z tab) (ev : event) (pattern : string) : bool :=
  match resolved tbs ev with
  | Some tb => verifyPattern pattern (url tb) || verifyPattern pattern (previousUrl tb)
  | None => false
  end.

(** The per-dispatch cache only ever holds answers [matches] would give. *)
Definition cache_ok (tbs : gmap Z tab) (ev : event) (cache : gmap string bool) : Prop :=
  ∀ pattern b, cache !! pattern = Some b → b = matches tbs ev pattern.

(** Who is called, given a payload: the handlers whose pattern is
    non-empty and either matches or is named like a member of
    [Object.prototype]. *)
Definition wanted (m : manager) (ev : event) (cb : callback) : bool :=
  match map_get cb (patternsByCallback m) with
  | Some pattern =>
      negb (String.eqb pattern "")
      && (Js.inherited pattern || matches (tabs m) ev pattern)
  | None => false
  end.

End Dispatch.

End Tracking.

(* ================================================================== *)
(** * Telemetry sampler: [PerformanceTracker] of lib/performanceTracker.js *)
(* ================================================================== *)
Module Perf.

Local Open Scope Q_scope.

(** A quotient, kept in lowest terms so that equal readings are equal.
    It is the exact quotient, and [0] when the divisor is [0]; the code
    divides doubles, which rounds the quotient and gives [NaN] or an
    infinity at a zero divisor.  What is proved of a quotient below is
    limited to what holds of the rounded quotient as well: its sign, its
    order with respect to the dividend, and its value where the division
    is exact. *)
Definition qdiv (a b : Q) : Q := Qred (a / b).
Definition qmul (a b : Q) : Q := Qred (a * b).
Definition qadd (a b : Q) : Q := Qred (a + b).
(** [Math.max] *)
Definition qmax (a b : Q) : Q := if Qle_bool a b then b else a.

(** How a probe of the host ends. *)
Inductive answer (A : Type) :=
| Returns (a : A)
| Raises (message : string).
Arguments Returns {A} a.
Arguments Raises {A} message.

(** One entry of [os.cpus()]: its [times]. *)
Record cpuTimes := CpuTimes {
  user : Z; nice : Z; sys : Z; idle : Z; irq : Z
}.

Record systemMetrics := SystemMetrics {
  totalMemory : Z;
  freeMemory : Z;
  usedMemory : Z;
  memoryUsagePercent : Q;
  cpuCount : Z;
  totalIdle : Z;
  totalTick : Z
}.

(** What [pidusage] reports. *)
Record pidStats := PidStats {
  stats_cpu : Q;
  stats_memory : Z;
  stats_ppid : Z;
  stats_pid : Z;
  stats_ctime : Z;
  stats_elapsed : Z;
  stats_timestamp : Z
}.

(** The [process] group of a sample; the last four fields are absent from
    the fallback reading. *)
Record processMetrics := ProcessMetrics {
  cpu : Q;
  memory : Z;
  process_pid : Z;
  ppid : option Z;
  ctime : option Z;
  elapsed : option Z;
  process_timestamp : option Z
}.

Record networkMetrics := NetworkMetrics {
  bytesReceived : Z;
  bytesSent : Z;
  bytesReceivedPerSec : Q;
  bytesSentPerSec : Q;
  mbReceivedPerSec : Q;
  mbSentPerSec : Q
}.

(** [this.lastNetworkStats] *)
Record networkStats := NetworkStats {
  last_bytesReceived : Z;
  last_bytesSent : Z;
  last_timestamp : Z
}.

(** A sample; [topProcesses: []] and [totalProcesses: 0] are constant. *)
Record sample := Sample {
  timestamp : Z;
  elapsedMs : Z;
  system : systemMetrics;
  process : processMetrics;
  network : networkMetrics
}.

Record summary := Summary {
  durationMs : Z;
  sampleCount : Z;
  summary_monitorInterval : Z;
  avgProcessCPU : Q;
  maxProcessCPU : Q;
  avgProcessMemoryBytes : Q;
  avgProcessMemoryMB : Q;
  maxProcessMemoryBytes : Z;
  maxProcessMemoryMB : Q;
  avgSystemMemoryUsagePercent : Q;
  maxSystemMemoryUsagePercent : Q;
  totalSystemMemoryBytes : Z;
  totalSystemMemoryGB : Q;
  totalBytesReceived : Z;
  totalBytesSent : Z;
  totalMBReceived : Q;
  totalMBSent : Q
}.

(** The tracker object. *)
Record tracker := Tracker {
  interval : option Z;                 (* the timer, by its period *)
  samples : list sample;
  startTime : option Z;
  pid : Z;
  monitorInterval : Z;
  lastNetworkStats : option networkStats;
  performanceFile : option string
}.

(** [new PerformanceTracker()] in a process with the given pid. *)
Definition create (pid : Z) : tracker :=
  {| interval := None; samples := []; startTime := None; pid := pid;
     monitorInterval := 5000; lastNetworkStats := None;
     performanceFile := None |}.

(** The sample file on disk: the samples appended to it, one per line. *)
Abbreviation disk := (gmap string (list sample)).

(** What the host answers during one run of [collectSample]. *)
Record probes := Probes {
  now : Z;                               (* Date.now() on entry *)
  os_system : answer (Z * Z * list cpuTimes);
                                         (* os.totalmem(), os.freemem(), os.cpus() *)
  pidusage : answer pidStats;
  networkInterfaces : answer ();         (* os.networkInterfaces() *)
  platform : string;                     (* process.platform *)
  importModule : answer ();              (* await import(...) *)
  counters : answer (list (Z * Z));      (* the rows read off netstat or
                                            /proc/net/dev: bytes in, out *)
  network_now : Z;                       (* Date.now() in the network probe *)
  appendFile : answer ()                 (* fs.appendFileSync *)
}.

(** [getSystemMetrics()]: no handler of its own. *)
Definition getSystemMetrics (p : probes) : answer systemMetrics :=
  match os_system p with
  | Raises m => Raises m
  | Returns (totalMem, freeMem, cpus) =>
      let usedMem := (totalMem - freeMem)%Z in
      Returns
        {| totalMemory := totalMem;
           freeMemory := freeMem;
           usedMemory := usedMem;
           memoryUsagePercent :=
             qmul (qdiv (inject_Z usedMem) (inject_Z totalMem)) 100;
           cpuCount := Z.of_nat (length cpus);
           totalIdle := foldl (λ acc c, acc + idle c)%Z 0%Z cpus;
           totalTick :=
             foldl (λ acc c, acc + user c + nice c + sys c + idle c + irq c)%Z
                   0%Z cpus |}
  end.

(** [getProcessMetrics()]: its own [try]/[catch]. *)
Definition getProcessMetrics (t : tracker) (p : probes) : processMetrics :=
  match pidusage p with
  | Returns stats =>
      {| cpu := stats_cpu stats; memory := stats_memory stats;
         process_pid := stats_pid stats; ppid := Some (stats_ppid stats);
         ctime := Some (stats_ctime stats);
         elapsed := Some (stats_elapsed stats);
         process_timestamp := Some (stats_timestamp stats) |}
  | Raises _ =>
      {| cpu := 0; memory := 0; process_pid := pid t; ppid := None;
         ctime := None; elapsed := None; process_timestamp := None |}
  end.

(** The reading of the outer [catch] of [getNetworkMetrics]. *)
Definition zeroNetwork : networkMetrics :=
  {| bytesReceived := 0; bytesSent := 0; bytesReceivedPerSec := 0;
     bytesSentPerSec := 0; mbReceivedPerSec := 0; mbSentPerSec := 0 |}.

(** The totals the platform branch accumulates; its inner [try]/[catch]
    leaves them at zero when the read throws. *)
Definition networkTotals (p : probes) : answer (Z * Z) :=
  if String.eqb (platform p) "darwin" || String.eqb (platform p) "linux" then
    match importModule p with
    | Raises m => Raises m
    | Returns _ =>
        match counters p with
        | Returns rows =>
            Returns (foldl (λ acc r, acc + fst r)%Z 0%Z rows,
                     foldl (λ acc r, acc + snd r)%Z 0%Z rows)
        | Raises _ => Returns (0%Z, 0%Z)
        end
    end
  else Returns (0%Z, 0%Z).

(** [getNetworkMetrics()]: the reading and [this.lastNetworkStats] after
    the call. *)
Definition getNetworkMetrics (t : tracker) (p : probes)
  : networkMetrics * option networkStats :=
  match networkInterfaces p with
  | Raises _ => (zeroNetwork, lastNetworkStats t)
  | Returns _ =>
      match networkTotals p with
      | Raises _ => (zeroNetwork, lastNetworkStats t)
      | Returns (totalBytesReceived, totalBytesSent) =>
          let currentStats :=
            {| last_bytesReceived := totalBytesReceived;
               last_bytesSent := totalBytesSent;
               last_timestamp := network_now p |} in
          let '(bytesReceivedPerSec, bytesSentPerSec) :=
            match lastNetworkStats t with
            | Some last =>
                let timeDelta :=
                  qdiv (inject_Z (network_now p - last_timestamp last)) 1000 in
                if Qle_bool timeDelta 0 then (0, 0)
                else
                  (qdiv (inject_Z (totalBytesReceived - last_bytesReceived last))
                        timeDelta,
                   qdiv (inject_Z (totalBytesSent - last_bytesSent last))
                        timeDelta)
            | None => (0, 0)
            end in
          ({| bytesReceived := totalBytesReceived;
              bytesSent := totalBytesSent;
              bytesReceivedPerSec := bytesReceivedPerSec;
              bytesSentPerSec := bytesSentPerSec;
              mbReceivedPerSec := qdiv bytesReceivedPerSec (1024 * 1024);
              mbSentPerSec := qdiv bytesSentPerSec (1024 * 1024) |},
           Some currentStats)
      end
  end.

Definition set_lastNetworkStats (t : tracker) (l : option networkStats)
  : tracker :=
  {| interval := interval t; samples := samples t; startTime := startTime t;
     pid := pid t; monitorInterval := monitorInterval t;
     lastNetworkStats := l; performanceFile := performanceFile t |}.

Definition set_samples (t : tracker) (l : list sample) : tracker :=
  {| interval := interval t; samples := l; startTime := startTime t;
     pid := pid t; monitorInterval := monitorInterval t;
     lastNetworkStats := lastNetworkStats t;
     performanceFile := performanceFile t |}.

(** [fs.appendFileSync(file, line)] *)
Definition append (d : disk) (file : string) (s : sample) : disk :=
  <[file := default [] (d !! file) ++ [s]]> d.

(** [collectSample()], run from its call to its end with no other call of
    the tracker in between.  The three probes are started together; each
    runs to its end whatever the others do.  [Promise.all] rejects when the
    system probe does, and the [catch] around it only logs.  The function
    is [async] and its callers do not await it: [Sampler] below follows a
    call through its [await]s, with the calls that run in between. *)
Definition collectSample (p : probes) (w : tracker * disk) : tracker * disk :=
  let '(t, d) := w in
  let timestamp := now p in
  let elapsedMs :=
    match startTime t with
    | Some s => if (s =? 0)%Z then 0%Z else (timestamp - s)%Z
    | None => 0%Z
    end in
  let systemMetrics := getSystemMetrics p in
  let processMetrics := getProcessMetrics t p in
  let '(networkMetrics, last) := getNetworkMetrics t p in
  let t := set_lastNetworkStats t last in
  match systemMetrics with
  | Raises _ => (t, d)
  | Returns systemMetrics =>
      let sample :=
        {| timestamp := timestamp; elapsedMs := elapsedMs;
           system := systemMetrics; process := processMetrics;
           network := networkMetrics |} in
      let t := set_samples t (samples t ++ [sample]) in
      match performanceFile t with
      | Some file =>
          match appendFile p with
          | Returns _ => (t, append d file sample)
          | Raises _ => (t, d)
          end
      | None => (t, d)
      end
  end.

(** [start(outputDir)] without its call of [collectSample()], which
    [Sampler.start] issues: the fields are set, the stale file is deleted
    and the timer is armed.  [joined] is
    [path.join(outputDir, 'performance.jsonl')] and [unlinkFile] what
    [fs.unlinkSync] answers. *)
Definition start (joined : option string) (unlinkFile : answer ())
    (clock : Z) (w : tracker * disk) : tracker * disk :=
  let '(t, d) := w in
  match interval t with
  | Some _ => (t, d)
  | None =>
      let file := match joined with
                  | Some f => Some f
                  | None => performanceFile t
                  end in
      let d := match joined with
               | Some f =>
                   match d !! f, unlinkFile with
                   | Some _, Returns _ => delete f d
                   | _, _ => d
                   end
               | None => d
               end in
      ({| interval := Some (monitorInterval t); samples := [];
          startTime := Some clock; pid := pid t;
          monitorInterval := monitorInterval t;
          lastNetworkStats := lastNetworkStats t;
          performanceFile := file |}, d)
  end.

(** [calculateSummary()] *)
Definition calculateSummary (t : tracker) : option summary :=
  match samples t, last (samples t) with
  | firstSample :: _, Some lastSample =>
      let totalProcessCPU := foldl (λ acc s, qadd acc (cpu (process s))) 0 (samples t) in
      let totalProcessMemory :=
        foldl (λ acc s, acc + memory (process s))%Z 0%Z (samples t) in
      let totalSystemMemoryUsage :=
        foldl (λ acc s, qadd acc (memoryUsagePercent (system s))) 0 (samples t) in
      let maxProcessCPU := foldl (λ acc s, qmax acc (cpu (process s))) 0 (samples t) in
      let maxProcessMemory :=
        foldl (λ acc s, Z.max acc (memory (process s))) 0%Z (samples t) in
      let maxSystemMemoryUsage :=
        foldl (λ acc s, qmax acc (memoryUsagePercent (system s))) 0 (samples t) in
      let count := inject_Z (Z.of_nat (length (samples t))) in
      let totalBytesReceived := bytesReceived (network lastSample) in
      let totalBytesSent := bytesSent (network lastSample) in
      Some
        {| durationMs := (timestamp lastSample - timestamp firstSample)%Z;
           sampleCount := Z.of_nat (length (samples t));
           summary_monitorInterval := monitorInterval t;
           avgProcessCPU := qdiv totalProcessCPU count;
           maxProcessCPU := maxProcessCPU;
           avgProcessMemoryBytes := qdiv (inject_Z totalProcessMemory) count;
           avgProcessMemoryMB :=
             qdiv (qdiv (inject_Z totalProcessMemory) count) (1024 * 1024);
           maxProcessMemoryBytes := maxProcessMemory;
           maxProcessMemoryMB := qdiv (inject_Z maxProcessMemory) (1024 * 1024);
           avgSystemMemoryUsagePercent := qdiv totalSystemMemoryUsage count;
           maxSystemMemoryUsagePercent := maxSystemMemoryUsage;
           totalSystemMemoryBytes := totalMemory (system firstSample);
           totalSystemMemoryGB :=
             qdiv (inject_Z (totalMemory (system firstSample)))
                  (1024 * 1024 * 1024);
           totalBytesReceived := totalBytesReceived;
           totalBytesSent := totalBytesSent;
           totalMBReceived := qdiv (inject_Z totalBytesReceived) (1024 * 1024);
           totalMBSent := qdiv (inject_Z totalBytesSent) (1024 * 1024) |}
  | _, _ => None
  end.

(** What [stop()] returns: [{ samples, summary }]. *)
Record stopped := Stopped {
  stopped_samples : list sample;
  stopped_summary : option summary
}.

(** [stop()].  [readFile] is whether reading and parsing the sample file
    goes through, [unlinkFile] whether deleting it does. *)
Definition stop (readFile unlinkFile : answer ()) (w : tracker * disk)
  : stopped * (tracker * disk) :=
  let '(t, d) := w in
  (* clearInterval *)
  let t := {| interval := None; samples := samples t; startTime := startTime t;
              pid := pid t; monitorInterval := monitorInterval t;
              lastNetworkStats := lastNetworkStats t;
              performanceFile := performanceFile t |} in
  (* reload the samples from the file *)
  let t :=
    match performanceFile t ≫= (λ f, d !! f), readFile with
    | Some lines, Returns _ => set_samples t lines
    | _, _ => t
    end in
  match samples t with
  | [] => ({| stopped_samples := []; stopped_summary := None |}, (t, d))
  | _ :: _ =>
      let result := {| stopped_samples := samples t;
                       stopped_summary := calculateSummary t |} in
      let d :=
        match performanceFile t with
        | Some f =>
            match d !! f, unlinkFile with
            | Some _, Returns _ => delete f d
            | _, _ => d
            end
        | None => d
        end in
      (result,
       ({| interval := None; samples := []; startTime := None; pid := pid t;
           monitorInterval := monitorInterval t;
           lastNetworkStats := lastNetworkStats t;
           performanceFile := None |}, d))
  end.

(** [isTracking()] *)
Definition isTracking (t : tracker) : bool :=
  match interval t with Some _ => true | None => false end.

(** The reading of the [catch] of [getProcessMetrics]. *)
Definition zeroProcess (t : tracker) : processMetrics :=
  {| cpu := 0; memory := 0; process_pid := pid t; ppid := None;
     ctime := None; elapsed := None; process_timestamp := None |}.

End Perf.

(* ================================================================== *)
(** * Telemetry sampler in time: [collectSample] is not awaited *)
(* ================================================================== *)
Module Sampler.
Import Perf.

(** How far a call of [collectSample()] has got.  The network probe
    suspends at [await import(...)] on darwin and linux, and the call
    itself at [await Promise.all([...])]. *)
Inductive stage :=
| Suspended                        (* the network probe awaits its import *)
| Answered (reading : networkMetrics)   (* the network probe has returned *)
| Settled (reading : networkMetrics).   (* the code after the await has run *)

(** A call of [collectSample()].  [start] and the timer issue it without
    awaiting it, so that other calls of the tracker run before it ends. *)
Record flight := Flight {
  answers : probes;                  (* what the host answers to this call *)
  flight_elapsedMs : Z;              (* const elapsedMs, computed on entry *)
  progress : stage
}.

Definition settled (fl : flight) : bool :=
  match progress fl with Settled _ => true | _ => false end.

(** The tracker object, the sample files and the calls of [collectSample]
    issued so far. *)
Record state := State {
  this : Perf.tracker;
  files : disk;
  flights : list flight
}.

(** Whether the network probe reaches an [await]: [os.networkInterfaces()]
    answered and the platform is one of the two that import a module. *)
Definition suspends (p : probes) : bool :=
  match networkInterfaces p with
  | Returns _ =>
      String.eqb (platform p) "darwin" || String.eqb (platform p) "linux"
  | Raises _ => false
  end.

(** [collectSample()], up to the first [await]: the clock is read, the
    system probe runs to its end, [pidusage] is called, and the network
    probe runs to its [await import(...)], or to its end where there is
    none. *)
Definition collectSample (p : probes) (s : state) : state :=
  let t := this s in
  let timestamp := now p in
  let elapsedMs :=
    match startTime t with
    | Some c => if (c =? 0)%Z then 0%Z else (timestamp - c)%Z
    | None => 0%Z
    end in
  if suspends p then
    {| this := t; files := files s;
       flights := flights s ++ [Flight p elapsedMs Suspended] |}
  else
    let '(networkMetrics, last) := getNetworkMetrics t p in
    {| this := set_lastNetworkStats t last; files := files s;
       flights := flights s ++ [Flight p elapsedMs (Answered networkMetrics)] |}.

(** The network probe of call [i] resumes after its import: the counters
    are read and compared with [this.lastNetworkStats] as it is then. *)
Definition networkResumes (i : nat) (s : state) : state :=
  match flights s !! i with
  | Some fl =>
      match progress fl with
      | Suspended =>
          let '(networkMetrics, last) :=
            getNetworkMetrics (this s) (answers fl) in
          {| this := set_lastNetworkStats (this s) last; files := files s;
             flights := <[i := Flight (answers fl) (flight_elapsedMs fl)
                                  (Answered networkMetrics)]> (flights s) |}
      | _ => s
      end
  | None => s
  end.

(** The sample of a call whose probes have all answered; none when the
    system probe threw, which makes [Promise.all] reject. *)
Definition sampleOf (t : Perf.tracker) (fl : flight) : option sample :=
  match getSystemMetrics (answers fl), progress fl with
  | Returns systemMetrics, (Answered networkMetrics | Settled networkMetrics) =>
      Some {| timestamp := now (answers fl);
              elapsedMs := flight_elapsedMs fl;
              system := systemMetrics;
              process := getProcessMetrics t (answers fl);
              network := networkMetrics |}
  | _, _ => None
  end.

(** Call [i] resumes after [await Promise.all([...])], once [pidusage] and
    the network probe have answered: the sample is pushed to
    [this.samples], and appended to [this.performanceFile] if one is set
    at that moment. *)
Definition sampleResumes (i : nat) (s : state) : state :=
  match flights s !! i with
  | Some fl =>
      match progress fl with
      | Answered networkMetrics =>
          let rest := <[i := Flight (answers fl) (flight_elapsedMs fl)
                               (Settled networkMetrics)]> (flights s) in
          match sampleOf (this s) fl with
          | None => {| this := this s; files := files s; flights := rest |}
          | Some sample =>
              let t := set_samples (this s) (samples (this s) ++ [sample]) in
              match performanceFile t with
              | Some file =>
                  match appendFile (answers fl) with
                  | Returns _ =>
                      {| this := t; files := append (files s) file sample;
                         flights := rest |}
                  | Raises _ => {| this := t; files := files s; flights := rest |}
                  end
              | None => {| this := t; files := files s; flights := rest |}
              end
          end
      | _ => s
      end
  | None => s
  end.

(** [start(outputDir)]: the initial sample is issued, not awaited. *)
Definition start (joined : option string) (unlinkFile : answer ())
    (clock : Z) (first : probes) (s : state) : state :=
  match interval (this s) with
  | Some _ => s
  | None =>
      let '(t, d) := Perf.start joined unlinkFile clock (this s, files s) in
      collectSample first {| this := t; files := d; flights := flights s |}
  end.

(** [stop()] runs to its end at once; it cancels no call in flight. *)
Definition stop (readFile unlinkFile : answer ()) (s : state)
  : stopped * state :=
  let '(result, (t, d)) := Perf.stop readFile unlinkFile (this s, files s) in
  (result, {| this := t; files := d; flights := flights s |}).

(** What happens to a tracker between two calls of its methods: the timer
    fires, which issues a call of [collectSample], or a call in flight
    resumes. *)
Inductive event :=
| Tick (p : probes)
| NetworkResumes (i : nat)
| SampleResumes (i : nat).

Definition step (s : state) (e : event) : state :=
  match e with
  | Tick p =>
      match interval (this s) with
      | Some _ => collectSample p s
      | None => s                   (* a cleared timer does not fire *)
      end
  | NetworkResumes i => networkResumes i s
  | SampleResumes i => sampleResumes i s
  end.

Definition run (events : list event) (s : state) : state :=
  foldl step s events.

(** The probes of the ticks among some events. *)
Definition ticks (events : list event) : list probes :=
  omap (λ e, match e with Tick p => Some p | _ => None end) events.

(** Call [i] has run to its end. *)
Definition settledAt (s : state) (i : nat) : Prop :=
  ∃ fl, flights s !! i = Some fl ∧ settled fl = true.

(** [s'] comes after [s] in the life of one tracker with no [start] or
    [stop] in between: the timer, the start time, the sample file and the
    pid are the same, the calls issued in [s] are still known, and those
    that had run to their end are unchanged. *)
Definition evolves (s s' : state) : Prop :=
  interval (this s') = interval (this s)
  ∧ startTime (this s') = startTime (this s)
  ∧ performanceFile (this s') = performanceFile (this s)
  ∧ pid (this s') = pid (this s)
  ∧ ∀ i fl, flights s !! i = Some fl →
      ∃ fl', flights s' !! i = Some fl'
             ∧ answers fl' = answers fl
             ∧ flight_elapsedMs fl' = flight_elapsedMs fl
             ∧ (settled fl = true → fl' = fl).

(** The samples [new] are those of the calls [arrived], which ran to
    their end between [s] and [s'] with a sample, each once. *)
Definition arrivedBetween (s s' : state) (new : list sample)
    (arrived : list nat) : Prop :=
  NoDup arrived
  ∧ (∀ i, i ∈ arrived
          ↔ ¬ settledAt s i
            ∧ ∃ fl, flights s' !! i = Some fl ∧ settled fl = true
                    ∧ is_Some (sampleOf (this s') fl))
  ∧ Forall2 (λ smp i, ∃ fl, flights s' !! i = Some fl ∧ settled fl = true
                            ∧ sampleOf (this s') fl = Some smp)
      new arrived.

End Sampler.

(* ================================================================== *)
(** * Log router, life cycle: the rest of [WebTrackerManager] *)
(* ================================================================== *)
Module Router.
Import Tracking.

(** What the manager sends to the browser extension. *)
Inductive message :=
| START_RECORDING (patterns : list string)
| STOP_RECORDING.

(** What leaves the manager, in order: calls on the WebSocket server and
    handlers run through [#tryCallback] (by the type of the event handed
    over). *)
Inductive effect :=
| Broadcast (msg : message)            (* server.broadcast(msg) *)
| Send (client : nat) (msg : message)  (* server.send(client, msg) *)
| Listen (channel : string)            (* server.on(channel, handler) *)
| Unlisten (channel : string)          (* the cleanup [server.on] returned *)
| Handed (cb : callback) (type : string).

(** The manager: its subscriptions and tabs, the cleanup functions it
    holds (each named by the channel it unregisters from), the value of
    [isListening] and what it has done so far. *)
Record router := Router {
  subscriptions : manager;
  cleanups : list string;
  isListening : bool;
  effects : list effect
}.

Definition emit (l : list effect) (r : router) : router :=
  {| subscriptions := subscriptions r; cleanups := cleanups r;
     isListening := isListening r; effects := effects r ++ l |}.

Definition set_subscriptions (m : manager) (r : router) : router :=
  {| subscriptions := m; cleanups := cleanups r;
     isListening := isListening r; effects := effects r |}.

Definition set_cleanups (l : list string) (r : router) : router :=
  {| subscriptions := subscriptions r; cleanups := l;
     isListening := isListening r; effects := effects r |}.

(** [Array.from(new Set(l))]: the members of [l] without repetition, each
    at the place of its first occurrence. *)
Fixpoint distinct (seen l : list string) : list string :=
  match l with
  | [] => []
  | x :: rest =>
      if existsb (String.eqb x) seen then distinct seen rest
      else x :: distinct (x :: seen) rest
  end.

(** [Array.from(new Set(this.patternsByCallback.values()))] *)
Definition patterns (m : manager) : list string :=
  distinct [] (snd <$> patternsByCallback m).

(** [eventCallbacks.value.size + globalTabsAndNavigationCallbacks.size] *)
Definition size (m : manager) : nat :=
  (length (eventCallbacks m) + length (globalTabsAndNavigationCallbacks m))%nat.

(** [get isStarted()] *)
Definition isStarted (r : router) : bool :=
  (0 <? length (cleanups r))%nat && isListening r.

(** [#start()] *)
Definition start (r : router) : router :=
  if negb (isListening r) then r
  else if (0 <? length (cleanups r))%nat then r
  else
    let patterns := patterns (subscriptions r) in
    let startMessage :=
      START_RECORDING (match patterns with [] => ["*"] | _ => patterns end) in
    set_cleanups (cleanups r ++ ["message"; "connection"])
      (emit [Broadcast startMessage; Listen "message"; Listen "connection"] r).

(** [#stop()] *)
Definition stop (r : router) : router :=
  let r := if isListening r then emit [Broadcast STOP_RECORDING] r else r in
  set_cleanups [] (emit (Unlisten <$> cleanups r) r).

(** [new WebTrackerManager(server)]: the effect set up by the constructor
    runs once, at once, with no subscription yet: it calls [#stop()]. *)
Definition create (listening : bool) : router :=
  stop {| subscriptions := {| tabs := ∅; patternsByCallback := [];
                              globalTabsAndNavigationCallbacks := [] |};
          cleanups := []; isListening := listening; effects := [] |}.

(** [subscribe(pattern, callback)] *)
Definition subscribe (pattern : string) (cb : callback) (r : router) : router :=
  let r := set_subscriptions (Tracking.subscribe pattern cb (subscriptions r)) r in
  let r := if (0 <? length (cleanups r))%nat && isListening r
           then emit [Broadcast (START_RECORDING (patterns (subscriptions r)))] r
           else r in
  if isListening r && (0 <? size (subscriptions r))%nat then start r else r.

(** [unsubscribe(callback)] *)
Definition unsubscribe (cb : callback) (r : router) : router :=
  set_subscriptions (Tracking.unsubscribe cb (subscriptions r)) r.

(** [subscribeToGlobalTabsAndNavigation(callback)]: the handler is handed
    the initial tabs at once. *)
Definition subscribeToGlobalTabsAndNavigation (cb : callback) (r : router)
  : router :=
  let r := set_subscriptions
             (Tracking.subscribeToGlobalTabsAndNavigation cb (subscriptions r)) r in
  let r := emit [Handed cb "INITIAL_TABS"] r in
  if isListening r && (0 <? size (subscriptions r))%nat then start r else r.

(** [unsubscribeFromGlobalTabsAndNavigation(callback)] *)
Definition unsubscribeFromGlobalTabsAndNavigation (cb : callback) (r : router)
  : router :=
  let m := subscriptions r in
  set_subscriptions
    {| tabs := tabs m; patternsByCallback := patternsByCallback m;
       globalTabsAndNavigationCallbacks :=
         List.filter (λ c, negb (Nat.eqb c cb))
                     (globalTabsAndNavigationCallbacks m) |} r.

(** [destroy()] *)
Definition destroy (r : router) : router :=
  let r := stop r in
  set_subscriptions
    {| tabs := tabs (subscriptions r); patternsByCallback := [];
       globalTabsAndNavigationCallbacks := [] |} r.

Section Server.

Variable verifyPattern : string → option string → bool.
Variable updateTabsState : event → gmap Z tab → gmap Z tab.

(** The server emits ['message']: the listener registered by [#start], if
    it is still registered, runs [#handleEvent]. *)
Definition onMessage (ev : event) (r : router) : router :=
  if bool_decide ("message" ∈ cleanups r) then
    let '(m, d) := handleEvent verifyPattern updateTabsState (subscriptions r) ev in
    emit ((λ cb, Handed cb (type ev)) <$> delivered d) (set_subscriptions m r)
  else r.

(** The server emits ['connection']: the new client is sent the current
    patterns. *)
Definition onConnection (client : nat) (r : router) : router :=
  if bool_decide ("connection" ∈ cleanups r) then
    let patterns := patterns (subscriptions r) in
    emit [Send client
            (START_RECORDING (match patterns with [] => ["*"] | _ => patterns end))]
         r
  else r.

(** What can happen to a manager once it is built. *)
Inductive op :=
| Subscribe (pattern : string) (cb : callback)
| Unsubscribe (cb : callback)
| SubscribeGlobal (cb : callback)
| UnsubscribeGlobal (cb : callback)
| Destroy
| Message (ev : event)
| Connection (client : nat).

Definition exec (r : router) (o : op) : router :=
  match o with
  | Subscribe pattern cb => subscribe pattern cb r
  | Unsubscribe cb => unsubscribe cb r
  | SubscribeGlobal cb => subscribeToGlobalTabsAndNavigation cb r
  | UnsubscribeGlobal cb => unsubscribeFromGlobalTabsAndNavigation cb r
  | Destroy => destroy r
  | Message ev => onMessage ev r
  | Connection client => onConnection client r
  end.

(** A history: the manager is built, then the operations happen in order. *)
Definition run (listening : bool) (ops : list op) : router :=
  foldl exec (create listening) ops.

End Server.

(** *** Vocabulary for stating what a history leads to *)

(** Whether a handler has subscribed since the manager was built or last
    destroyed. *)
Definition subscribedSinceDestroy (ops : list op) : bool :=
  foldl (λ b o, match o with
                | Destroy => false
                | Subscribe _ _ | SubscribeGlobal _ => true
                | _ => b
                end) false ops.

(** An effect that reaches the WebSocket server. *)
Definition onServer (e : effect) : bool :=
  match e with Handed _ _ => false | _ => true end.

(** How many listeners of a channel are registered and not removed. *)
Definition listening_on (channel : string) (l : list effect) : Z :=
  foldl (λ n e, match e with
                | Listen c => if String.eqb c channel then n + 1 else n
                | Unlisten c => if String.eqb c channel then n - 1 else n
                | _ => n
                end) 0 l.

(** The state of a manager that its operations maintain: it holds no
    cleanup function or the two of [#start], and the listeners registered
    on the server and not removed are those it holds a cleanup for. *)
Definition router_ok (r : router) : Prop :=
  (cleanups r = [] ∨ cleanups r = ["message"; "connection"] ∧ isListening r = true)
  ∧ ∀ c, listening_on c (effects r)
         = if bool_decide (c ∈ cleanups r) then 1 else 0.

End Router.

(* ================================================================== *)
(** * Log tracking: lib/logs (file trackers, CLI tracker, manager) *)
(* ================================================================== *)
Module Logs.

(** ** Objects used as maps

    [byFilePath], [files], [fileToIndex], [instances] and [cliConfig] are
    plain objects keyed by a file path or an instance key: their own
    properties in insertion order, which is the order of [Object.keys] and
    [Object.values] for keys that are not array indices.  (A key is taken
    to be neither an array index nor the name of a member of
    [Object.prototype].) *)
Section Object.
Context {V : Type}.

(** [o[k]] *)
Fixpoint obj_get (k : string) (o : list (string * V)) : option V :=
  match o with
  | [] => None
  | (k', v) :: rest => if String.eqb k' k then Some v else obj_get k rest
  end.

(** [o[k] = v]: an existing key keeps its place. *)
Fixpoint obj_set (k : string) (v : V) (o : list (string * V))
  : list (string * V) :=
  match o with
  | [] => [(k, v)]
  | (k', v') :: rest =>
      if String.eqb k' k then (k', v) :: rest else (k', v') :: obj_set k v rest
  end.

(** [delete o[k]] *)
Definition obj_delete (k : string) (o : list (string * V)) : list (string * V) :=
  List.filter (λ kv, negb (String.eqb (fst kv) k)) o.

(** [Object.keys(o)] *)
Definition obj_keys (o : list (string * V)) : list string := fst <$> o.

End Object.

(** What the host answers while one operation runs. *)
Record env := Env {
  existsSync : string → bool;     (* fs.existsSync(path) *)
  tailOk : string → bool;         (* [new Tail(path)] goes through *)
  now : string → Z;               (* Date.now(), by the place that reads it *)
  join : string → string → string;  (* path.join *)
  appendOk : string → bool        (* fs.appendFileSync(path, ...) goes through *)
}.

(** ** [FileTracker] *)

Record fileTracker := FileTracker {
  trackedFile : string;
  tail : bool;                    (* [this.tail] is set *)
  eventTimes : list Z;
  totalEvents : Z
}.

(** A line reported by the tail, by what [JSON.parse] makes of it. *)
Inductive line :=
| Json (ev : Trim.event)          (* an object *)
| JsonOther                       (* [null], a number, a string, a boolean *)
| Text (data : string).           (* not JSON *)

(** [new FileTracker(trackedFile, callback)]; when [new Tail] throws,
    [startTracking] logs and leaves [this.tail] at [null]. *)
Definition FileTracker_new (e : env) (file : string) : fileTracker :=
  {| trackedFile := file; tail := tailOk e file; eventTimes := [];
     totalEvents := 0 |}.

(** The ['line'] handler: the tracker afterwards and the event handed to
    the callback, if any.  Setting a property on a value that is not an
    object throws (the module is strict), which the handler catches. *)
Definition FileTracker_onLine (e : env) (data : line) (t : fileTracker)
  : fileTracker * option Trim.event :=
  let accept (ev : Trim.event) :=
    let ev :=
      {| Trim.time := Js.or (Trim.time ev) (Js.Num (now e "time"));
         Trim.timestamp := Trim.timestamp ev;
         Trim.logFile := Trim.logFile ev;
         Trim.fields := obj_set "trackedFile" (trackedFile t) (Trim.fields ev) |} in
    ({| trackedFile := trackedFile t; tail := tail t;
        eventTimes := eventTimes t ++ [now e "eventTimes"];
        totalEvents := totalEvents t + 1 |}, Some ev) in
  match data with
  | Json ev => accept ev
  | JsonOther => (t, None)
  | Text data =>
      accept {| Trim.time := Js.Undefined;
                Trim.timestamp := Js.Num (now e "timestamp");
                Trim.logFile := None;
                Trim.fields := [("message", data); ("raw", "true")] |}
  end.

(** What [getStats] returns; the last two fields are absent from the
    answer the manager gives for a file it does not track. *)
Record fileStats := FileStats {
  stats_item : string;
  stats_count : Z;
  stats_totalEvents : option Z;
  stats_isActive : option bool
}.

(** [getStats()]: the event times older than a minute are dropped. *)
Definition FileTracker_getStats (e : env) (t : fileTracker)
  : fileStats * fileTracker :=
  let times :=
    List.filter (λ time, now e "getStats" - time <=? 60000) (eventTimes t) in
  ({| stats_item := trackedFile t;
      stats_count := Z.of_nat (length times);
      stats_totalEvents := Some (totalEvents t);
      stats_isActive := Some (tail t) |},
   {| trackedFile := trackedFile t; tail := tail t; eventTimes := times;
      totalEvents := totalEvents t |}).

(** [destroy()] *)
Definition FileTracker_destroy (t : fileTracker) : fileTracker :=
  {| trackedFile := trackedFile t; tail := false; eventTimes := [];
     totalEvents := totalEvents t |}.

(** ** [FileTrackerManager] *)

(** A subscriber.  The only subscribers in the module are the closures
    [#startFileTracker] creates, one per call; a closure is determined by
    what it closes over: the CLI tracker ([owner], by the order of
    construction), the index it stamps and the file it was created for. *)
Record callback := Callback {
  owner : nat;
  index : Z;
  originalFile : string
}.

#[global] Instance callback_eq_dec : EqDecision callback.
Proof. solve_decision. Defined.

Record entry := Entry {
  callbacks : list callback;
  tracker : fileTracker
}.

Abbreviation fileTrackerManager := (list (string * entry)).

(** [getStats(filePath)] *)
Definition getStats (e : env) (filePath : string) (m : fileTrackerManager)
  : fileStats * fileTrackerManager :=
  match obj_get filePath m with
  | None =>
      ({| stats_item := filePath; stats_count := 0;
          stats_totalEvents := None; stats_isActive := None |}, m)
  | Some en =>
      let '(stats, t) := FileTracker_getStats e (tracker en) in
      (stats, obj_set filePath {| callbacks := callbacks en; tracker := t |} m)
  end.

(** [subscribe(filePath, callback)] *)
Definition subscribe (e : env) (filePath : string) (cb : callback)
    (m : fileTrackerManager) : fileTrackerManager :=
  match obj_get filePath m with
  | None =>
      obj_set filePath
        {| callbacks := [cb]; tracker := FileTracker_new e filePath |} m
  | Some en =>
      obj_set filePath
        {| callbacks := callbacks en ++ [cb]; tracker := tracker en |} m
  end.

(** [unsubscribe(filePath, callback)] *)
Definition unsubscribe (filePath : string) (cb : callback)
    (m : fileTrackerManager) : fileTrackerManager :=
  match obj_get filePath m with
  | None => m
  | Some en =>
      match List.filter (λ c, bool_decide (c ≠ cb)) (callbacks en) with
      | [] => obj_delete filePath m
      | remaining =>
          obj_set filePath {| callbacks := remaining; tracker := tracker en |} m
      end
  end.

(** [#sendEvent(filePath, event)]: the callbacks it calls, in order; what
    a callback throws is caught and logged. *)
Definition sendEvent (filePath : string) (m : fileTrackerManager)
  : list callback :=
  match obj_get filePath m with
  | None => []
  | Some en => callbacks en
  end.

(** One entry of [getAllStats()]. *)
Record managedStats := ManagedStats {
  managed_filePath : string;
  managed_stats : fileStats;
  callbackCount : nat
}.

(** [getAllStats()] *)
Definition getAllStats (e : env) (m : fileTrackerManager)
  : list managedStats * fileTrackerManager :=
  foldl (λ acc filePath,
           let '(stats, m) := getStats e filePath (snd acc) in
           (fst acc
            ++ [ {| managed_filePath := filePath; managed_stats := stats;
                    callbackCount :=
                      match obj_get filePath m with
                      | Some en => length (callbacks en)
                      | None => 0
                      end |} ], m))
        ([], m) (obj_keys m).

(** ** [CLILogsTracker] *)

(** The [status] object of a tracked file. *)
Record status := Status {
  item : Z;
  count : Z
}.

(** An entry of [this.files]: the status and the closure that
    [unsubscribe] removes. *)
Record fileEntry := FileEntry {
  file_status : status;
  file_callback : callback
}.

Record cliTracker := CliTracker {
  files : list (string * fileEntry);
  fileIndex : Z;
  fileToIndex : list (string * Z);
  config : list string;             (* the keys of [this.config] *)
  isWatchOnly : bool;
  fileLocation : string
}.

(** A [jsonl.append] that went through: the closure that made it, the file
    and the event written. *)
Record appended := Appended {
  by_callback : callback;
  to_file : string;
  written_event : Trim.event
}.

(** An entry of [LogsTrackerManager.instances]; [cli] is the tracker. *)
Record instance := Instance {
  recorderId : string;
  screenId : string;
  directory : string;
  cli : nat;
  startTime : Z
}.

(** The [logsTrackerManager] singleton with everything it reaches: its
    file tracker manager, the CLI trackers constructed so far, its
    instances and configuration, and the appends made so far. *)
Record world := World {
  byFilePath : fileTrackerManager;
  trackers : gmap nat cliTracker;
  constructed : nat;
  instances : list (string * instance);
  cliConfig : list string;          (* the keys of [this.cliConfig] *)
  appends : list appended
}.

Definition initial : world :=
  {| byFilePath := []; trackers := ∅; constructed := 0; instances := [];
     cliConfig := []; appends := [] |}.

Definition set_byFilePath (m : fileTrackerManager) (w : world) : world :=
  {| byFilePath := m; trackers := trackers w; constructed := constructed w;
     instances := instances w; cliConfig := cliConfig w; appends := appends w |}.

Definition set_tracker (o : nat) (t : cliTracker) (w : world) : world :=
  {| byFilePath := byFilePath w; trackers := <[o := t]> (trackers w);
     constructed := constructed w; instances := instances w;
     cliConfig := cliConfig w; appends := appends w |}.

Definition set_instances (l : list (string * instance)) (w : world) : world :=
  {| byFilePath := byFilePath w; trackers := trackers w;
     constructed := constructed w; instances := l; cliConfig := cliConfig w;
     appends := appends w |}.

Definition set_cliConfig (l : list string) (w : world) : world :=
  {| byFilePath := byFilePath w; trackers := trackers w;
     constructed := constructed w; instances := instances w; cliConfig := l;
     appends := appends w |}.

(** [namespace + '.jsonl'] *)
Definition filename : string := "dashcam_cli_logs.jsonl".

(** A key added to a configuration object, unless it is there. *)
Definition config_add (filePath : string) (c : list string) : list string :=
  if existsb (String.eqb filePath) c then c else c ++ [filePath].

Definition config_remove (filePath : string) (c : list string) : list string :=
  List.filter (λ k, negb (String.eqb k filePath)) c.

(** [#startFileTracker(filePath)] of the tracker [o]. *)
Definition startFileTracker (e : env) (o : nat) (filePath : string) (w : world)
  : world :=
  match trackers w !! o with
  | None => w
  | Some t =>
      match obj_get filePath (files t) with
      | Some _ => w
      | None =>
          if negb (existsSync e filePath) then w
          else
            let index := fileIndex t + 1 in
            let cb := {| owner := o; index := index; originalFile := filePath |} in
            let t' :=
              {| files := obj_set filePath
                            {| file_status := {| item := index; count := 0 |};
                               file_callback := cb |} (files t);
                 fileIndex := index;
                 fileToIndex := obj_set filePath index (fileToIndex t);
                 config := config t; isWatchOnly := isWatchOnly t;
                 fileLocation := fileLocation t |} in
            set_tracker o t'
              (set_byFilePath (subscribe e filePath cb (byFilePath w)) w)
      end
  end.

(** [#stopFileTracker(filePath)] *)
Definition stopFileTracker (o : nat) (filePath : string) (w : world) : world :=
  match trackers w !! o with
  | None => w
  | Some t =>
      match obj_get filePath (files t) with
      | None => w
      | Some fe =>
          let t' :=
            {| files := obj_delete filePath (files t);
               fileIndex := fileIndex t;
               fileToIndex := obj_delete filePath (fileToIndex t);
               config := config t; isWatchOnly := isWatchOnly t;
               fileLocation := fileLocation t |} in
          set_tracker o t'
            (set_byFilePath
               (unsubscribe filePath (file_callback fe) (byFilePath w)) w)
      end
  end.

(** [new CLILogsTracker({ config, directory, fileTrackerManager })]: the
    tracker is constructed and [startTracking()] starts a file tracker for
    every key of the configuration.  An empty [directory] stands for a
    missing one. *)
Definition CLILogsTracker_new (e : env) (cfg : list string) (dir : string)
    (w : world) : nat * world :=
  let o := constructed w in
  let watchOnly := String.eqb dir "" in
  let t := {| files := []; fileIndex := 0; fileToIndex := []; config := cfg;
              isWatchOnly := watchOnly;
              fileLocation := if watchOnly then "" else join e dir filename |} in
  let w := {| byFilePath := byFilePath w; trackers := <[o := t]> (trackers w);
              constructed := S o; instances := instances w;
              cliConfig := cliConfig w; appends := appends w |} in
  (o, foldl (λ w filePath, startFileTracker e o filePath w) w cfg).

(** [addFile(filePath)] *)
Definition addFile (e : env) (o : nat) (filePath : string) (w : world) : world :=
  match trackers w !! o with
  | None => w
  | Some t =>
      startFileTracker e o filePath
        (set_tracker o
           {| files := files t; fileIndex := fileIndex t;
              fileToIndex := fileToIndex t;
              config := config_add filePath (config t);
              isWatchOnly := isWatchOnly t; fileLocation := fileLocation t |} w)
  end.

(** [removeFile(filePath)] *)
Definition removeFile (o : nat) (filePath : string) (w : world) : world :=
  match trackers w !! o with
  | None => w
  | Some t =>
      stopFileTracker o filePath
        (set_tracker o
           {| files := files t; fileIndex := fileIndex t;
              fileToIndex := fileToIndex t;
              config := config_remove filePath (config t);
              isWatchOnly := isWatchOnly t; fileLocation := fileLocation t |} w)
  end.

(** The closure [callback] of [#startFileTracker], called with an event. *)
Definition runCallback (e : env) (cb : callback) (ev : Trim.event) (w : world)
  : world :=
  match trackers w !! owner cb with
  | None => w
  | Some t =>
      if String.eqb (fileLocation t) "" then w
      else if negb (appendOk e (fileLocation t)) then w
      else
        let cliEvent :=
          {| Trim.time := Trim.time ev; Trim.timestamp := Trim.timestamp ev;
             Trim.logFile := Some (index cb);
             Trim.fields :=
               obj_set "trackedAt" (pretty (now e "trackedAt"))
                 (obj_set "originalFile" (originalFile cb) (Trim.fields ev)) |} in
        let files' :=
          match obj_get (originalFile cb) (files t) with
          | Some fe =>
              if bool_decide (file_callback fe = cb) then
                obj_set (originalFile cb)
                  {| file_status :=
                       {| item := item (file_status fe);
                          count := count (file_status fe) + 1 |};
                     file_callback := cb |} (files t)
              else files t
          | None => files t
          end in
        {| byFilePath := byFilePath w;
           trackers :=
             <[owner cb :=
                 {| files := files'; fileIndex := fileIndex t;
                    fileToIndex := fileToIndex t; config := config t;
                    isWatchOnly := isWatchOnly t;
                    fileLocation := fileLocation t |}]> (trackers w);
           constructed := constructed w; instances := instances w;
           cliConfig := cliConfig w;
           appends :=
             appends w ++ [ {| by_callback := cb; to_file := fileLocation t;
                               written_event := cliEvent |} ] |}
  end.

(** The tail of a watched file reports a line: the file tracker handles
    it and hands the event to the manager, which calls the subscribers. *)
Definition tailLine (e : env) (filePath : string) (data : line) (w : world)
  : world :=
  match obj_get filePath (byFilePath w) with
  | None => w
  | Some en =>
      if negb (tail (tracker en)) then w
      else
        let '(t, handed) := FileTracker_onLine e data (tracker en) in
        let w :=
          set_byFilePath
            (obj_set filePath {| callbacks := callbacks en; tracker := t |}
                     (byFilePath w)) w in
        match handed with
        | None => w
        | Some ev =>
            foldl (λ w cb, runCallback e cb ev w) w
                  (sendEvent filePath (byFilePath w))
        end
  end.

(** An item of the status: a [status] object, or file statistics under
    the index of the file. *)
Record cliItem := CliItem {
  item_index : option Z;
  item_count : Z;
  item_totalEvents : option Z;
  item_isActive : option bool
}.

(** The one element of the array [getStatus()] returns. *)
Record cliStatus := CliStatus {
  status_id : string;
  status_name : string;
  status_type : string;
  status_fileLocation : string;
  items : list cliItem;
  status_count : Z;
  trackedFiles : nat
}.

(** [getStatus()] of the tracker [t]: the array, and the file tracker
    manager afterwards (a watching tracker asks it for statistics). *)
Definition CLILogsTracker_getStatus (e : env) (t : cliTracker)
    (m : fileTrackerManager) : list cliStatus * fileTrackerManager :=
  let '(its, m) :=
    if isWatchOnly t then
      foldl (λ acc filePath,
               let '(stats, m) := getStats e filePath (snd acc) in
               (fst acc
                ++ [ {| item_index := obj_get filePath (fileToIndex t);
                        item_count := stats_count stats;
                        item_totalEvents := stats_totalEvents stats;
                        item_isActive := stats_isActive stats |} ], m))
            ([], m) (obj_keys (files t))
    else
      ((λ kv, {| item_index := Some (item (file_status (snd kv)));
                 item_count := count (file_status (snd kv));
                 item_totalEvents := None; item_isActive := None |})
         <$> files t, m) in
  ([ {| status_id := "CLI"; status_name := "CLI Logs"; status_type := "cli";
        status_fileLocation := fileLocation t;
        items := its;
        status_count := foldl (λ acc it, acc + item_count it) 0 its;
        trackedFiles := length (files t) |} ], m).

(** [destroy()] of the tracker [o] *)
Definition CLILogsTracker_destroy (e : env) (o : nat) (w : world)
  : list cliStatus * world :=
  match trackers w !! o with
  | None => ([], w)
  | Some t =>
      let '(result, m) := CLILogsTracker_getStatus e t (byFilePath w) in
      (result,
       foldl (λ w filePath, stopFileTracker o filePath w)
             (set_byFilePath m w) (obj_keys (files t)))
  end.

(** ** [LogsTrackerManager] *)

(** [addCliLogFile(filePath)] *)
Definition addCliLogFile (filePath : string) (w : world) : world :=
  set_cliConfig (config_add filePath (cliConfig w)) w.

(** [removeCliLogFile(filePath)] *)
Definition removeCliLogFile (filePath : string) (w : world) : world :=
  set_cliConfig (config_remove filePath (cliConfig w)) w.

(** The instance key, [`${recorderId}_${screenId}`]. *)
Definition instanceKey (recorderId screenId : string) : string :=
  recorderId +:+ "_" +:+ screenId.

(** [startNew({ recorderId, screenId, directory })] *)
Definition startNew (e : env) (recorderId screenId directory : string)
    (w : world) : world :=
  let '(o, w) := CLILogsTracker_new e (cliConfig w) directory w in
  set_instances
    (obj_set (instanceKey recorderId screenId)
       {| recorderId := recorderId; screenId := screenId;
          directory := directory; cli := o; startTime := now e "startTime" |}
       (instances w)) w.

(** [stop({ recorderId, screenId })] *)
Definition stop (e : env) (recorderId screenId : string) (w : world)
  : list cliStatus * world :=
  match obj_get (instanceKey recorderId screenId) (instances w) with
  | None => ([], w)
  | Some inst =>
      CLILogsTracker_destroy e (cli inst)
        (set_instances
           (obj_delete (instanceKey recorderId screenId) (instances w)) w)
  end.

(** [s.split('_')] *)
Fixpoint split_underscore (s cur : string) : list string :=
  match s with
  | EmptyString => [cur]
  | String c rest =>
      if Ascii.eqb c "_"%char then cur :: split_underscore rest ""
      else split_underscore rest (cur +:+ String c "")
  end.

(** [stopAll()]: each key is taken apart at its underscores and the
    first two pieces are handed to [stop]; a missing second piece reads
    [undefined]. *)
Definition stopAll (e : env) (w : world) : world :=
  foldl (λ w key,
           let parts := split_underscore key "" in
           snd (stop e (nth 0 parts "") (nth 1 parts "undefined") w))
        w (obj_keys (instances w)).

(** What the manager's [getStatus()] returns. *)
Record managerStatus := ManagerStatus {
  activeInstances : nat;
  cliFilesCount : nat;
  fileTrackerStats : list managedStats;
  totalEvents_ : Z
}.

(** [getStatus()] *)
Definition getStatus (e : env) (w : world) : managerStatus * world :=
  let '(stats, m) := getAllStats e (byFilePath w) in
  ({| activeInstances := length (instances w);
      cliFilesCount := length (cliConfig w);
      fileTrackerStats := stats;
      totalEvents_ :=
        foldl (λ sum stat, sum + stats_count (managed_stats stat)) 0 stats |},
   set_byFilePath m w).

(** [destroy()] *)
Definition destroy (e : env) (w : world) : world :=
  set_cliConfig [] (set_byFilePath [] (stopAll e w)).

(** ** Histories *)

(** What can happen to the singleton and the objects it hands out. *)
Inductive op :=
| AddCliLogFile (filePath : string)
| RemoveCliLogFile (filePath : string)
| StartNew (recorderId screenId directory : string)
| Stop (recorderId screenId : string)
| StopAll
| GetStatus
| Destroy
| AddFile (o : nat) (filePath : string)      (* tracker.addFile(filePath) *)
| RemoveFile (o : nat) (filePath : string)   (* tracker.removeFile(filePath) *)
| TrackerStatus (o : nat)                    (* tracker.getStatus() *)
| TailLine (filePath : string) (data : line).

Definition exec (w : world) (step : env * op) : world :=
  let '(e, o) := step in
  match o with
  | AddCliLogFile filePath => addCliLogFile filePath w
  | RemoveCliLogFile filePath => removeCliLogFile filePath w
  | StartNew recorderId screenId directory =>
      startNew e recorderId screenId directory w
  | Stop recorderId screenId => snd (stop e recorderId screenId w)
  | StopAll => stopAll e w
  | GetStatus => snd (getStatus e w)
  | Destroy => destroy e w
  | AddFile o filePath => addFile e o filePath w
  | RemoveFile o filePath => removeFile o filePath w
  | TrackerStatus o =>
      match trackers w !! o with
      | Some t => set_byFilePath (snd (CLILogsTracker_getStatus e t (byFilePath w))) w
      | None => w
      end
  | TailLine filePath data => tailLine e filePath data w
  end.

(** The singleton after a history, each step with what the host answers
    during it. *)
Definition run (steps : list (env * op)) : world := foldl exec initial steps.

(** *** Vocabulary for stating what a history maintains *)

(** The closure that [#startFileTracker] creates for an entry. *)
Definition callback_of (o : nat) (filePath : string) (fe : fileEntry) : callback :=
  {| owner := o; index := item (file_status fe); originalFile := filePath |}.

(** How many appends a closure has made. *)
Definition appendedBy (cb : callback) (l : list appended) : nat :=
  length (List.filter (λ a, bool_decide (by_callback a = cb)) l).

(** The files of a tracker: under distinct paths and distinct indices,
    each index between 1 and the last one handed out, [fileToIndex] in
    step with [files]. *)
Definition tracker_ok (o : nat) (t : cliTracker) : Prop :=
  0 ≤ fileIndex t
  ∧ NoDup (obj_keys (files t))
  ∧ NoDup ((λ kv, item (file_status (snd kv))) <$> files t)
  ∧ fileToIndex t = (λ kv, (fst kv, item (file_status (snd kv)))) <$> files t
  ∧ ∀ filePath fe, (filePath, fe) ∈ files t →
      file_callback fe = callback_of o filePath fe
      ∧ 1 ≤ item (file_status fe) ≤ fileIndex t.

(** What every history maintains. *)
Record world_ok (w : world) : Prop := WorldOk {
  ok_trackers : ∀ o t, trackers w !! o = Some t →
    (o < constructed w)%nat ∧ tracker_ok o t;
  ok_counts : ∀ o t filePath fe,
    trackers w !! o = Some t → (filePath, fe) ∈ files t →
    count (file_status fe) = Z.of_nat (appendedBy (file_callback fe) (appends w));
  ok_keys : NoDup (obj_keys (byFilePath w));
  ok_entries : ∀ filePath en, (filePath, en) ∈ byFilePath w →
    callbacks en ≠ [] ∧ trackedFile (tracker en) = filePath
    ∧ Z.of_nat (length (eventTimes (tracker en))) ≤ totalEvents (tracker en);
  ok_subscribers : ∀ filePath en cb,
    (filePath, en) ∈ byFilePath w → cb ∈ callbacks en →
    originalFile cb = filePath
    ∧ ∃ t fe, trackers w !! owner cb = Some t ∧ (filePath, fe) ∈ files t
              ∧ file_callback fe = cb;
  ok_appends : ∀ a, a ∈ appends w →
    Trim.logFile (written_event a) = Some (index (by_callback a))
    ∧ obj_get "originalFile" (Trim.fields (written_event a))
      = Some (originalFile (by_callback a))
    ∧ ∃ t, trackers w !! owner (by_callback a) = Some t
           ∧ 1 ≤ index (by_callback a) ≤ fileIndex t
           ∧ to_file a = fileLocation t ∧ fileLocation t ≠ "";
  ok_instances : ∀ key inst, (key, inst) ∈ instances w →
    is_Some (trackers w !! cli inst)
}.

(** The closures of the files a tracker tracks. *)
Definition closures (t : cliTracker) : list callback :=
  (λ kv, file_callback (snd kv)) <$> files t.

(** The appends made by the given closures. *)
Definition appendsOf (cbs : list callback) (l : list appended) : list appended :=
  List.filter (λ a, bool_decide (by_callback a ∈ cbs)) l.

(** A string without underscore. *)
Fixpoint no_underscore (s : string) : bool :=
  match s with
  | EmptyString => true
  | String c rest => negb (Ascii.eqb c "_"%char) && no_underscore rest
  end.

(** What [trimLogs] reads off an element of the array [stop] returns. *)
Definition asLogStatus (s : cliStatus) : Trim.logStatus :=
  {| Trim.id := status_id s; Trim.type := status_type s;
     Trim.fileLocation := status_fileLocation s; Trim.count := status_count s;
     Trim.trimmedFileLocation := None |}.

End Logs.

(* ================================================================== *)
(** * Concrete sessions, used to instantiate the theorems *)
(* ================================================================== *)
Module Examples.

(** ** A CLI log source *)

Definition example_lines : list (option Trim.event) :=
  [ Some (Trim.Event (Js.Num 1000) Js.Undefined (Some 7) []);
    None;
    Some (Trim.Event (Js.Num 500) Js.Undefined (Some 9) []);
    Some (Trim.Event (Js.Str "  0x1F") Js.Undefined (Some 7) []);
    Some (Trim.Event (Js.Num 1200) Js.Undefined (Some 7) []);
    Some (Trim.Event Js.Undefined Js.Undefined (Some 9) []) ].

Definition example_status : Trim.logStatus :=
  Trim.LogStatus "CLI" "cli" "/rec/dashcam_cli_logs.jsonl" 5 None.

Definition example_join (a b : string) : string := a +:+ "/" +:+ b.

(** ** A recording session *)

Definition example_paths (l : list string) : string :=
  foldr (λ a b, if String.eqb b "" then a else a +:+ "/" +:+ b) "" l.

(** A host on which every collaborator answers; whether the capture left
    its temporary file is given by [captured], finalization by [attempts]. *)
Definition scenario_host (captured : bool)
    (attempts : nat → Recorder.attemptResult) : Recorder.host :=
  {| Recorder.ffmpeg := "ffmpeg";
     Recorder.platform := "linux";
     Recorder.cwd := "/work";
     Recorder.dirname := λ _, "/work/tmp/recordings";
     Recorder.basename := λ p, Recorder.lastSegment p "";
     Recorder.join := example_paths;
     Recorder.dateNow := λ site, if String.eqb site "start" then 1000 else 9000;
     Recorder.isoString := λ _, "2024-01-01T10:20:30.123Z";
     Recorder.mkdir := Recorder.Returns ();
     Recorder.spawn := λ args, Recorder.Returns (Recorder.Child 42 true false args);
     Recorder.appStart := Recorder.Returns ();
     Recorder.logsStartNew := Recorder.Returns ();
     Recorder.stdinWrite := Recorder.Returns ();
     Recorder.exitAfter := 300;
     Recorder.awaitExit := Recorder.Returns ();
     Recorder.tempExists := captured;
     Recorder.tempSize := Recorder.Returns 5000;
     Recorder.attempt := attempts;
     Recorder.unlink := Recorder.Returns ();
     Recorder.appStop := λ _, Recorder.Returns (Recorder.AppResults ["Terminal"] [] []);
     Recorder.logsStop := Recorder.Returns [];
     Recorder.createGif := Recorder.Returns ();
     Recorder.createSnapshot := Recorder.Returns ();
     Recorder.finalSize := Recorder.Returns 4000 |}.

Definition example_host := scenario_host true.

(** Attempts 1 and 2 fail, attempt 3 succeeds. *)
Definition third_time_lucky (i : nat) : Recorder.attemptResult :=
  match i with
  | 0%nat => Recorder.Exited 1 None
  | 1%nat => Recorder.Crashed "EAGAIN"
  | _ => Recorder.Exited 0 (Some 4000)
  end.

(** Every attempt exits with an error. *)
Definition never_finalizes (i : nat) : Recorder.attemptResult :=
  Recorder.Exited 1 None.


Definition example_child : Recorder.child :=
  Recorder.Child 42 true false ["ffmpeg"; "-y"; "/work/tmp/recordings/temp-9000.webm"].

(** A session in progress. *)
Definition example_session : Recorder.world :=
  {| Recorder.vars :=
       {| Recorder.currentRecording := Some example_child;
          Recorder.outputPath := Some "/work/tmp/recordings/recording-1.webm";
          Recorder.recordingStartTime := Some 1000 |};
     Recorder.trace := [] |}.

(** ** A router with two subscriptions *)

(** A matcher for the instance: the pattern, with a trailing [*] dropped,
    must be a prefix of the URL. *)
Definition example_verifyPattern (pattern : string) (u : option string) : bool :=
  match u with
  | Some s =>
      String.prefix
        (String.substring 0 (String.length pattern - 1) pattern) s
  | None => false
  end.

(** Tab 7 is leaving [old.example] for [new.example]; handler 0 listens to
    the old site, handler 1 to a third one. *)
Definition example_manager : Tracking.manager :=
  {| Tracking.tabs :=
       {[ 7 := {| Tracking.url := Some "https://new.example/";
                  Tracking.previousUrl := Some "https://old.example/cart";
                  Tracking.title := "New"; Tracking.active := true |} ]};
     Tracking.patternsByCallback :=
       [(0%nat, "https://old.example/*"); (1%nat, "https://other.example/*")];
     Tracking.globalTabsAndNavigationCallbacks := [] |}.

Definition example_request : Tracking.event :=
  {| Tracking.type := "NETWORK_REQUEST";
     Tracking.payload :=
       Some {| Tracking.tabId := Some 7;
               Tracking.payload_url := Some "https://old.example/cart";
               Tracking.requestUrl := Some "https://old.example/api" |} |}.

(** ** A sampler *)

(** A tick on which [os.totalmem()] throws while the process and the
    network probes answer. *)
Definition system_probe_throws : Perf.probes :=
  {| Perf.now := 11000;
     Perf.os_system := Perf.Raises "ENOSYS";
     Perf.pidusage := Perf.Returns (Perf.PidStats (5 # 2) 1000 1 77 0 0 11000);
     Perf.networkInterfaces := Perf.Returns ();
     Perf.platform := "linux";
     Perf.importModule := Perf.Returns ();
     Perf.counters := Perf.Returns [(1000, 500); (200, 100)];
     Perf.network_now := 11000;
     Perf.appendFile := Perf.Returns () |}.

(** A tracker started with an output directory, before its first sample. *)
Definition example_tracker : Perf.tracker * gmap string (list Perf.sample) :=
  Perf.start (Some "/out/performance.jsonl") (Perf.Returns ()) 1000
    (Perf.create 77, ∅).

End Examples.

(* ================================================================== *)
(** * Further concrete sessions *)
(* ================================================================== *)
Module Scenarios.
Import Examples.

(** ** The capture supervisor *)

(** Nothing is being recorded. *)
Definition idle_world : Recorder.world :=
  {| Recorder.vars :=
       {| Recorder.currentRecording := None;
          Recorder.outputPath := None;
          Recorder.recordingStartTime := None |};
     Recorder.trace := [] |}.

Definition default_options : Recorder.startOptions :=
  {| Recorder.fps := 10; Recorder.includeAudio := false;
     Recorder.customOutputPath := None |}.

(** The host of [example_host], except that the application tracker
    refuses to start. *)
Definition tracker_refuses : Recorder.host :=
  let base := example_host third_time_lucky in
  {| Recorder.ffmpeg := Recorder.ffmpeg base;
     Recorder.platform := Recorder.platform base;
     Recorder.cwd := Recorder.cwd base;
     Recorder.dirname := Recorder.dirname base;
     Recorder.basename := Recorder.basename base;
     Recorder.join := Recorder.join base;
     Recorder.dateNow := Recorder.dateNow base;
     Recorder.isoString := Recorder.isoString base;
     Recorder.mkdir := Recorder.mkdir base;
     Recorder.spawn := Recorder.spawn base;
     Recorder.appStart := Recorder.Raises "applicationTracker.start";
     Recorder.logsStartNew := Recorder.logsStartNew base;
     Recorder.stdinWrite := Recorder.stdinWrite base;
     Recorder.exitAfter := Recorder.exitAfter base;
     Recorder.awaitExit := Recorder.awaitExit base;
     Recorder.tempExists := Recorder.tempExists base;
     Recorder.tempSize := Recorder.tempSize base;
     Recorder.attempt := Recorder.attempt base;
     Recorder.unlink := Recorder.unlink base;
     Recorder.appStop := Recorder.appStop base;
     Recorder.logsStop := Recorder.logsStop base;
     Recorder.createGif := Recorder.createGif base;
     Recorder.createSnapshot := Recorder.createSnapshot base;
     Recorder.finalSize := Recorder.finalSize base |}.

(** ** The log router *)

(** One handler, subscribed with the pattern [constructor]; no tab is
    known. *)
Definition constructor_manager : Tracking.manager :=
  {| Tracking.tabs := ∅;
     Tracking.patternsByCallback := [(0%nat, "constructor")];
     Tracking.globalTabsAndNavigationCallbacks := [] |}.

(** A request of a tab the manager has not heard of. *)
Definition unknown_tab_request : Tracking.event :=
  {| Tracking.type := "NETWORK_REQUEST";
     Tracking.payload :=
       Some {| Tracking.tabId := Some 7;
               Tracking.payload_url := Some "https://shop.example/cart";
               Tracking.requestUrl := Some "https://shop.example/api" |} |}.

(** A tab was activated; the message carries no payload. *)
Definition tab_activated : Tracking.event :=
  {| Tracking.type := "TAB_ACTIVATED"; Tracking.payload := None |}.

(** ** The sampler *)

(** A tick on which every probe answers: the clock reading and the bytes
    received on the first interface are given. *)
Definition quiet_tick (clock received : Z) : Perf.probes :=
  {| Perf.now := clock;
     Perf.os_system :=
       Perf.Returns (16000, 4000, [Perf.CpuTimes 10 0 5 85 0]);
     Perf.pidusage := Perf.Returns (Perf.PidStats (5 # 2) 1000 1 77 0 0 clock);
     Perf.networkInterfaces := Perf.Returns ();
     Perf.platform := "linux";
     Perf.importModule := Perf.Returns ();
     Perf.counters := Perf.Returns [(received, 500); (200, 100)];
     Perf.network_now := clock;
     Perf.appendFile := Perf.Returns () |}.

(** The tracker of [example_tracker] after a first sample. *)
Definition sampled_once : Perf.tracker * gmap string (list Perf.sample) :=
  Perf.collectSample (quiet_tick 6000 1000) example_tracker.

(** A session of the sampler in time.  It is started at 1000 with an
    output directory; the initial call and the call of the tick at 6000 run
    to their end; on the next tick the system probe throws; the call of the
    tick at 16000 is still in flight, its network probe having answered. *)
Definition sampling_events : list Sampler.event :=
  [ Sampler.NetworkResumes 0; Sampler.SampleResumes 0;
    Sampler.Tick (quiet_tick 6000 1000); Sampler.NetworkResumes 1;
    Sampler.Tick system_probe_throws; Sampler.SampleResumes 1;
    Sampler.NetworkResumes 2; Sampler.SampleResumes 2;
    Sampler.Tick (quiet_tick 16000 3000); Sampler.NetworkResumes 3 ].

Definition sampling_session : Sampler.state :=
  Sampler.run sampling_events
    (Sampler.start (Some "/out/performance.jsonl") (Perf.Returns ()) 1000
       (quiet_tick 1000 800)
       {| Sampler.this := Perf.create 77; Sampler.files := ∅;
          Sampler.flights := [] |}).

(** ** Log tracking *)

(** A host on which every file exists and every call goes through. *)
Definition log_env : Logs.env :=
  {| Logs.existsSync := λ _, true;
     Logs.tailOk := λ _, true;
     Logs.now := λ _, 5000;
     Logs.join := example_join;
     Logs.appendOk := λ _, true |}.

(** Two log files are configured, a recording starts, and three lines
    arrive. *)
Definition log_history : list (Logs.env * Logs.op) :=
  [ (log_env, Logs.AddCliLogFile "/var/log/app.log");
    (log_env, Logs.AddCliLogFile "/var/log/db.log");
    (log_env, Logs.StartNew "rec" "1" "/rec");
    (log_env, Logs.TailLine "/var/log/app.log" (Logs.Text "started"));
    (log_env, Logs.TailLine "/var/log/db.log"
                (Logs.Json (Trim.Event (Js.Num 4000) Js.Undefined None [])));
    (log_env, Logs.TailLine "/var/log/app.log" (Logs.Text "ready")) ].

(** The CLI tracker of that recording after the three lines. *)
Definition log_tracker : Logs.cliTracker :=
  let closure (i : Z) (f : string) :=
    {| Logs.owner := 0; Logs.index := i; Logs.originalFile := f |} in
  {| Logs.files :=
       [ ("/var/log/app.log",
          {| Logs.file_status := {| Logs.item := 1; Logs.count := 2 |};
             Logs.file_callback := closure 1 "/var/log/app.log" |});
         ("/var/log/db.log",
          {| Logs.file_status := {| Logs.item := 2; Logs.count := 1 |};
             Logs.file_callback := closure 2 "/var/log/db.log" |}) ];
     Logs.fileIndex := 2;
     Logs.fileToIndex := [("/var/log/app.log", 1); ("/var/log/db.log", 2)];
     Logs.config := ["/var/log/app.log"; "/var/log/db.log"];
     Logs.isWatchOnly := false;
     Logs.fileLocation := "/rec/dashcam_cli_logs.jsonl" |}.

(** The event appended for the line of the second file. *)
Definition log_append : Logs.appended :=
  {| Logs.by_callback :=
       {| Logs.owner := 0; Logs.index := 2;
          Logs.originalFile := "/var/log/db.log" |};
     Logs.to_file := "/rec/dashcam_cli_logs.jsonl";
     Logs.written_event :=
       {| Trim.time := Js.Num 4000;
          Trim.timestamp := Js.Undefined;
          Trim.logFile := Some 2;
          Trim.fields := [ ("trackedFile", "/var/log/db.log");
                           ("originalFile", "/var/log/db.log");
                           ("trackedAt", "5000") ] |} |}.

End Scenarios.

(* ================================================================== *)
(** * Properties of the trim / normalize stage *)
(* ================================================================== *)
Section TrimFacts.
Import Trim.

(** ** Numbers beyond the safe integers *)

(** [parseInt] of a number reads the number's string form. *)
Lemma parseInt_of_large_numbers :
  Js.parseInt (Js.Num 1700000000000) = Some 1700000000000
  ∧ Js.parseInt (Js.Num (2 ^ 53)) = Some 9007199254740992
  ∧ Js.parseInt (Js.Num (2 ^ 64)) = Some 18446744073709552000
  ∧ Js.parseInt (Js.Num (- 2 ^ 69)) = Some (-590295810358705700000)
  ∧ Js.parseInt (Js.Num (10 ^ 21)) = Some 1
  ∧ Js.parseInt (Js.Num 99999999999999991611392) = Some 1
  ∧ Js.parseInt (Js.Num (- 25 * 10 ^ 20)) = Some (-2).
Proof. by vm_compute. Qed.

(** ** The relative time of an event *)

Lemma relativeTime_eq startMS clientStartDate now ev t :
  eventTime now ev = Some t →
  relativeTime startMS clientStartDate now ev =
    Some (if threshold <? t - startMS
          then t - startMS - clientStartDate else t - startMS).
Proof. unfold relativeTime. intros ->. reflexivity. Qed.

Lemma relativeTime_nan startMS clientStartDate now ev :
  eventTime now ev = None →
  relativeTime startMS clientStartDate now ev = None.
Proof. unfold relativeTime. intros ->. reflexivity. Qed.

(** ** Anonymization *)

Lemma fileMap_ok_empty : fileMap_ok ∅.
Proof.
  split; [|split].
  - intros k v H. rewrite lookup_empty in H. discriminate.
  - intros k1 k2 v H. rewrite lookup_empty in H. discriminate.
  - intros v. rewrite map_size_empty. lia.
Qed.

Lemma remember_spec (m : gmap Z Z) (k : Z) :
  fileMap_ok m →
  fileMap_ok (remember m k)
  ∧ remember m k !! k = Some (anonymizedName m k)
  ∧ (∀ k' v, m !! k' = Some v → remember m k !! k' = Some v)
  ∧ (∀ k' v, remember m k !! k' = Some v → k' = k ∨ m !! k' = Some v).
Proof.
  intros (Hrange & Hinj & Hsurj).
  unfold remember, anonymizedName.
  destruct (m !! k) as [v|] eqn:Hk.
  - assert ((v =? 0) = false) as ->
      by (apply Z.eqb_neq; specialize (Hrange _ _ Hk); lia).
    simpl. split; [by split|]. split; [done|]. split; [done|]. by right.
  - simpl.
    assert (Hsize : size (<[k:=Z.of_nat (size m) + 1]> m) = S (size m))
      by (by apply map_size_insert_None).
    split; [|split; [|split]].
    + split; [|split].
      * intros k' v. rewrite Hsize. rewrite lookup_insert.
        case_decide.
        -- intros [= <-]. lia.
        -- intros H'. specialize (Hrange _ _ H'). lia.
      * intros k1 k2 v. rewrite !lookup_insert.
        repeat case_decide; subst.
        -- done.
        -- intros [= <-] H2. specialize (Hrange _ _ H2). lia.
        -- intros H1 [= <-]. specialize (Hrange _ _ H1). lia.
        -- apply Hinj.
      * intros v. rewrite Hsize. intros Hv.
        destruct (decide (v = Z.of_nat (size m) + 1)) as [->|Hne].
        -- exists k. by rewrite lookup_insert_eq.
        -- destruct (Hsurj v) as [k' Hk']; [lia|].
           exists k'. rewrite lookup_insert_ne; [done|]. congruence.
    + by rewrite lookup_insert_eq.
    + intros k' v Hk'. rewrite lookup_insert_ne; [done|]. congruence.
    + intros k' v. rewrite lookup_insert. case_decide; [by left|by right].
Qed.

Lemma finalMap_spec (evs : list event) : ∀ m,
  fileMap_ok m →
  fileMap_ok (finalMap m evs)
  ∧ (∀ k v, m !! k = Some v → finalMap m evs !! k = Some v)
  ∧ (∀ k v, finalMap m evs !! k = Some v →
       m !! k = Some v ∨ ∃ e, e ∈ evs ∧ hasLogFile e = Some k).
Proof.
  induction evs as [|ev evs IH]; intros m Hm; simpl.
  - split; [done|]. split; [done|]. intros k v H. by left.
  - destruct (hasLogFile ev) as [k|] eqn:Hk.
    + destruct (remember_spec m k Hm) as (Hok & _ & Hmono & Hnew).
      destruct (IH _ Hok) as (Hok' & Hmono' & Hdom').
      split; [done|]. split; [by auto|].
      intros k' v Hk'. destruct (Hdom' _ _ Hk') as [H|(e & He & Hek)].
      * destruct (Hnew _ _ H) as [->|H']; [|by left].
        right. exists ev. split; [left|done].
      * right. exists e. split; [by right|done].
    + destruct (IH _ Hm) as (Hok' & Hmono' & Hdom').
      split; [done|]. split; [by auto|].
      intros k' v Hk'. destruct (Hdom' _ _ Hk') as [H|(e & He & Hek)]; [by left|].
      right. exists e. split; [by right|done].
Qed.

Lemma anonymize_length (evs : list event) : ∀ m,
  length (anonymize m evs) = length evs.
Proof.
  induction evs as [|ev evs IH]; intros m; simpl; [done|].
  destruct (hasLogFile ev); simpl; by rewrite IH.
Qed.

(** Anonymization touches nothing but [logFile]. *)
Lemma anonymize_time (evs : list event) : ∀ m,
  time <$> anonymize m evs = time <$> evs.
Proof.
  induction evs as [|ev evs IH]; intros m; simpl; [done|].
  destruct (hasLogFile ev); simpl; by rewrite IH.
Qed.

(** What the event at position [i] becomes. *)
Lemma anonymize_lookup (evs : list event) : ∀ m i e,
  fileMap_ok m →
  evs !! i = Some e →
  ∃ o, anonymize m evs !! i = Some o
       ∧ time o = time e ∧ timestamp o = timestamp e ∧ fields o = fields e
       ∧ match hasLogFile e with
         | Some k => ∃ v, finalMap m evs !! k = Some v ∧ logFile o = Some v
         | None => o = e
         end.
Proof.
  induction evs as [|ev evs IH]; intros m i e Hm Hi; [done|].
  destruct i as [|i]; simpl in *.
  - injection Hi as ->.
    destruct (hasLogFile e) as [k|] eqn:Hk; simpl.
    + eexists. split; [done|]. do 3 (split; [done|]).
      exists (anonymizedName m k). split; [|done].
      destruct (remember_spec m k Hm) as (Hok & Hat & _).
      by apply (finalMap_spec evs _ Hok).
    + exists e. by repeat split.
  - destruct (hasLogFile ev) as [k|] eqn:Hk; simpl.
    + destruct (remember_spec m k Hm) as (Hok & _).
      apply IH; done.
    + apply IH; done.
Qed.


(** The keys of the final map are the identifiers met. *)
Lemma finalMap_dom (evs : list event) :
  dom (finalMap ∅ evs) = (list_to_set (omap hasLogFile evs) : gset Z).
Proof.
  apply set_eq. intros k. rewrite elem_of_dom, elem_of_list_to_set, list_elem_of_omap.
  split.
  - intros [v Hv].
    destruct (finalMap_spec evs ∅ fileMap_ok_empty) as (_ & _ & Hdom).
    destruct (Hdom _ _ Hv) as [H|H]; [by rewrite lookup_empty in H|done].
  - intros (e & He & Hk).
    apply list_elem_of_lookup in He as [i Hi].
    destruct (anonymize_lookup evs ∅ i e fileMap_ok_empty Hi) as (o & _ & _ & _ & _ & H).
    rewrite Hk in H. destruct H as (v & Hv & _). by exists v.
Qed.

(** Anonymization keeps the events in place and touches nothing but a
    truthy [logFile]. *)
Lemma anonymize_sources (evs : list event) : ∀ m,
  Forall2 (λ src ev, time ev = time src ∧ timestamp ev = timestamp src
                     ∧ fields ev = fields src
                     ∧ (hasLogFile src = None → ev = src))
          evs (anonymize m evs).
Proof.
  induction evs as [|ev evs IH]; intros m; simpl; [constructor|].
  destruct (hasLogFile ev) as [k|] eqn:Hk; constructor; try apply IH.
  - by rewrite Hk.
  - done.
Qed.

(** The names handed out within one traversal: equal identifiers get
    equal names, distinct identifiers distinct names, and every name lies
    between 1 and the number of distinct identifiers. *)
Lemma anonymize_consistent (pre : list event) i j e1 e2 o1 o2 :
  pre !! i = Some e1 → pre !! j = Some e2 →
  anonymize ∅ pre !! i = Some o1 → anonymize ∅ pre !! j = Some o2 →
  (logFile e1 = logFile e2 → logFile o1 = logFile o2)
  ∧ (logFile e1 ≠ logFile e2 → logFile o1 ≠ logFile o2)
  ∧ (∀ k, hasLogFile e1 = Some k →
       ∃ n, logFile o1 = Some n
            ∧ 1 ≤ n ≤ Z.of_nat (size (list_to_set (omap hasLogFile pre)
                                        : gset Z))).
Proof.
  intros H1 H2 Ho1 Ho2.
  destruct (anonymize_lookup pre ∅ i e1 fileMap_ok_empty H1)
    as (o1' & Ho1' & _ & _ & _ & Hl1).
  destruct (anonymize_lookup pre ∅ j e2 fileMap_ok_empty H2)
    as (o2' & Ho2' & _ & _ & _ & Hl2).
  rewrite Ho1 in Ho1'. injection Ho1' as <-.
  rewrite Ho2 in Ho2'. injection Ho2' as <-.
  destruct (finalMap_spec pre ∅ fileMap_ok_empty) as ((Hrange & Hinj & _) & _ & _).
  rewrite <- finalMap_dom, size_dom.
  unfold hasLogFile in *.
  destruct (logFile e1) as [f1|] eqn:E1, (logFile e2) as [f2|] eqn:E2.
  - destruct (f1 =? 0) eqn:Z1, (f2 =? 0) eqn:Z2.
    + subst o1 o2. rewrite E1, E2. repeat split; try done.
    + subst o1. destruct Hl2 as (v2 & Hv2 & ->). rewrite E1.
      apply Z.eqb_eq in Z1 as ->. apply Z.eqb_neq in Z2.
      specialize (Hrange _ _ Hv2).
      split; [intros [= <-]; done|]. split; [intros _ [= <-]; lia|done].
    + subst o2. destruct Hl1 as (v1 & Hv1 & ->). rewrite E2.
      apply Z.eqb_eq in Z2 as ->. apply Z.eqb_neq in Z1.
      specialize (Hrange _ _ Hv1).
      split; [intros [= ->]; done|]. split; [intros _ [= ->]; lia|].
      intros k [= <-]. by exists v1.
    + destruct Hl1 as (v1 & Hv1 & ->), Hl2 as (v2 & Hv2 & ->).
      split; [intros [= <-]; congruence|].
      split.
      * intros Hne [= <-]. apply Hne. f_equal. by eapply Hinj.
      * intros k [= <-]. exists v1. split; [done|]. by eapply Hrange.
  - subst o2. rewrite E2.
    destruct (f1 =? 0) eqn:Z1.
    + subst o1. rewrite E1. repeat split; done.
    + destruct Hl1 as (v1 & Hv1 & ->).
      split; [done|]. split; [done|].
      intros k [= <-]. exists v1. split; [done|]. by eapply Hrange.
  - subst o1. rewrite E1.
    destruct (f2 =? 0) eqn:Z2.
    + subst o2. rewrite E2. repeat split; done.
    + destruct Hl2 as (v2 & Hv2 & ->). repeat split; done.
  - subst o1 o2. rewrite E1, E2. repeat split; done.
Qed.

Section TrimLogsFacts.
Variables (path_base path_dirname : string → string)
          (path_join : string → string → string).
Variable now : string → nat → Z.
Variables (startMS endMS clientStartDate : Z) (clipId : string).

Local Abbreviation survivors := (survivors now startMS endMS clientStartDate).
Local Abbreviation filteredEvents := (filteredEvents now startMS endMS clientStartDate).
Local Abbreviation relativeEvents := (relativeEvents now startMS clientStartDate).
Local Abbreviation trimOne :=
  (trimOne path_base path_dirname path_join now startMS endMS clientStartDate clipId).
Local Abbreviation trimLogs :=
  (trimLogs path_base path_dirname path_join now startMS endMS clientStartDate clipId).

Lemma relativeEvents_lookup file lines i ev :
  omap (λ x, x) lines !! i = Some ev →
  relativeEvents file lines !! i
  = Some (toRelative startMS clientStartDate (now file i) ev).
Proof.
  intros H. unfold Trim.relativeEvents. rewrite list_lookup_imap, H. reflexivity.
Qed.

Lemma survivors_window file lines ev :
  ev ∈ survivors file lines →
  ∃ r, time ev = Js.Num r ∧ 0 ≤ r ≤ endMS - startMS.
Proof.
  unfold Trim.survivors. rewrite list_elem_of_In, filter_In.
  intros [_ H]. unfold inWindow, Js.between in H.
  destruct (time ev) as [|r| |]; try discriminate.
  exists r. split; [done|]. apply andb_prop in H as [H1 H2]. lia.
Qed.

Lemma filteredEvents_times status lines :
  time <$> filteredEvents status lines
  = time <$> survivors (fileLocation status) lines.
Proof.
  unfold Trim.filteredEvents. destruct (String.eqb _ _); [|done].
  apply anonymize_time.
Qed.

Lemma filteredEvents_window status lines ev :
  ev ∈ filteredEvents status lines →
  ∃ r, time ev = Js.Num r ∧ 0 ≤ r ≤ endMS - startMS.
Proof.
  intros Hev.
  assert (Ht : time ev ∈ time <$> filteredEvents status lines)
    by (by apply list_elem_of_fmap_2).
  rewrite filteredEvents_times in Ht.
  apply list_elem_of_fmap in Ht as (ev' & -> & Hev').
  by apply survivors_window with (fileLocation status) lines.
Qed.

(** C4.  Every event processed by trim gets the session-relative time
    [eventTime - startMS], or [eventTime - startMS - clientStartDate] when
    the former exceeds the threshold of 10^12 ms; and the source events
    [{time:1000}, {time:500}] with a session from 500 to 1500 both survive,
    with relative times 500 and 0. *)
Theorem relative_time_of_every_event :
  (∀ file lines i ev t,
     omap (λ x, x) lines !! i = Some ev →
     eventTime (now file i) ev = Some t →
     ∃ ev', Trim.relativeEvents now startMS clientStartDate file lines !! i = Some ev'
            ∧ time ev' =
                Js.Num (if 1000000000000 <? t - startMS
                        then t - startMS - clientStartDate
                        else t - startMS))
  ∧ (∀ status,
       0 < count status →
       let e1 := {| time := Js.Num 1000; timestamp := Js.Undefined;
                    logFile := None; fields := [] |} in
       let e2 := {| time := Js.Num 500; timestamp := Js.Undefined;
                    logFile := None; fields := [] |} in
       written
         (Trim.trimLogs path_base path_dirname path_join now 500 1500
            clientStartDate clipId
            {[ fileLocation status := [Some e1; Some e2] ]} [status])
       = [(path_join (path_dirname (fileLocation status))
                     (clipId +:+ "_" +:+ path_base (fileLocation status)),
           [set_time e1 (Js.Num 500); set_time e2 (Js.Num 0)])]).
Proof.
  split.
  - intros file lines i ev t Hi Ht.
    rewrite (relativeEvents_lookup _ _ _ _ Hi).
    eexists. split; [reflexivity|].
    unfold toRelative. simpl.
    by rewrite (relativeTime_eq _ _ _ _ _ Ht).
  - intros status Hc e1 e2. unfold Trim.trimLogs. cbn [List.filter].
    rewrite (proj2 (Z.ltb_lt _ _) Hc). cbn [foldl].
    unfold Trim.trimOne. cbn [disk written statuses].
    rewrite lookup_singleton_eq.
    unfold Trim.filteredEvents.
    destruct (String.eqb (type status) "cli"); reflexivity.
Qed.

End TrimLogsFacts.
End TrimFacts.

(** ** Worked instances *)

Section TrimInstances.
Import Examples.

Lemma relative_time_of_every_event_witness :
  ∃ ev', Trim.relativeEvents (λ _ _, 1700000000000) 500 1690000000000
           "/rec/dashcam_cli_logs.jsonl" example_lines !! 4%nat = Some ev'
         ∧ Trim.time ev' = Js.Num 9999999500.
Proof.
  apply (proj1 (relative_time_of_every_event
                  (λ _, "dashcam_cli_logs.jsonl") (λ _, "/rec") example_join
                  (λ _ _, 1700000000000) 500 1690000000000 "clip")
           "/rec/dashcam_cli_logs.jsonl" example_lines 4%nat
           (Trim.Event Js.Undefined Js.Undefined (Some 9) []) 1700000000000);
    reflexivity.
Defined.

End TrimInstances.

(* ================================================================== *)
(** * Properties of the capture supervisor *)
(* ================================================================== *)
Section RecorderFacts.
Import Recorder.

Lemma wp_bind {A B} (m : M A) (f : A → M B) Q E w :
  wp m (λ a w1, wp (f a) Q E w1) E w → wp (m ≫= f) Q E w.
Proof.
  unfold wp, mbind, M_bind. destruct (m w) as [[a|e] w1]; auto.
Qed.

(** When every throw is acceptable, the first half of a sequence does not
    matter for what holds at its end. *)
Lemma wp_bind_skip {A B} (m : M A) (f : A → M B) Q (E : error → world → Prop) w :
  (∀ e w1, E e w1) →
  (∀ a w1, wp (f a) Q E w1) →
  wp (m ≫= f) Q E w.
Proof.
  intros HE Hf. apply wp_bind. unfold wp.
  destruct (m w) as [[a|e] w1]; [apply Hf|apply HE].
Qed.

Lemma wp_try_catch {A} (m : M A) (handler : error → M A) Q E w :
  wp m Q (λ e w1, wp (handler e) Q E w1) w → wp (try_catch m handler) Q E w.
Proof.
  unfold wp, try_catch. destruct (m w) as [[a|e] w1]; auto.
Qed.

Lemma release_run {A} (h : host) (finish : M A) w :
  ∃ w1, cleared w1
        ∧ (release h finish w = finish w1
           ∨ ∃ who, release h finish w = (Throw (External who), w1)).
Proof.
  unfold release, mbind, M_bind, set_currentRecording, set_recordingStartTime,
    stopApplicationTracker, call, emit, get, put, mbind, M_bind. simpl.
  destruct (appStop h _) as [res|who]; simpl.
  - eexists. split; [|by left]. by split.
  - eexists. split; [|right; by eexists]. by split.
Qed.

Lemma wp_release_ret {A} (h : host) (r : A) (E : error → world → Prop) w :
  (∀ e w1, cleared w1 → E e w1) →
  wp (release h (ret r)) (λ _ w', cleared w') E w.
Proof.
  intros HE. unfold wp.
  destruct (release_run h (ret r) w) as (w1 & Hc & [->|[who ->]]); simpl; auto.
Qed.

Lemma wp_release_throw {A} (h : host) (e : error) (Q : A → world → Prop) w :
  wp (release h (throw e)) Q (λ _ w', cleared w') w.
Proof.
  unfold wp.
  destruct (release_run h (throw e : M A) w) as (w1 & Hc & [->|[who ->]]); simpl; auto.
Qed.

(** C9.  [startRecording] called while a session is active throws
    'Recording already in progress' before doing anything else: the module
    state (process handle, start time, output path) is unchanged and no
    call has been issued. *)
Theorem start_while_active_rejected (h : host) (o : startOptions) (w : world)
    (p : child) :
  currentRecording (vars w) = Some p →
  startRecording h o w = (Throw AlreadyInProgress, w).
Proof.
  intros H. unfold startRecording, mbind, M_bind, get. simpl. by rewrite H.
Qed.

(** [startRecording] throws 'Recording already in progress' only on
    account of an occupied session slot. *)
Lemma start_rejects_only_when_active (h : host) (o : startOptions) (w : world) :
  currentRecording (vars w) = None →
  fst (startRecording h o w) ≠ Throw AlreadyInProgress.
Proof.
  intros H.
  unfold startRecording, generateOutputPath, try_catch, call, emit,
    set_currentRecording, set_recordingStartTime, set_outputPath,
    mbind, M_bind, get, put, ret, mret, M_ret, throw.
  simpl. rewrite H.
  destruct (customOutputPath o) as [p0|]; [destruct (String.eqb p0 "")|];
    simpl;
    repeat match goal with
           | |- context [match ?x with Returns _ => _ | Raises _ => _ end] =>
               destruct x; simpl
           end; discriminate.
Qed.

(** C2.  A call of [stopRecording] on an active session leaves
    [currentRecording] and [recordingStartTime] cleared, whether it returns
    or throws, whatever the collaborators answer; a following
    [startRecording] is therefore not rejected as already in progress. *)
Theorem stop_always_clears_session (h : host) (w : world) (p : child) :
  currentRecording (vars w) = Some p →
  currentRecording (vars (snd (stopRecording h w))) = None
  ∧ recordingStartTime (vars (snd (stopRecording h w))) = None
  ∧ ∀ h' o, fst (startRecording h' o (snd (stopRecording h w)))
            ≠ Throw AlreadyInProgress.
Proof.
  intros Hactive.
  assert (Hwp : wp (stopRecording h) (λ _ w', cleared w') (λ _ w', cleared w') w).
  { unfold stopRecording. apply wp_bind. unfold wp at 1, get. simpl. rewrite Hactive.
    apply wp_try_catch.
    assert (Hhandler : ∀ e w1,
      wp (release h (throw e)) (λ (_ : result) w', cleared w')
         (λ _ w', cleared w') w1)
      by (intros; apply wp_release_throw).
    unfold stopBody.
    do 3 (apply wp_bind_skip; [exact Hhandler|intros ? ?]).
    unfold assemble.
    repeat lazymatch goal with
           | |- wp (set_currentRecording None ≫= _) _ _ _ => fail
           | |- wp (_ ≫= _) _ _ _ =>
               apply wp_bind_skip; [exact Hhandler|intros ? ?]
           end.
    apply (wp_release_ret h). intros e w' _. apply Hhandler. }
  unfold wp, cleared in Hwp.
  assert (Hc : cleared (snd (stopRecording h w)))
    by (destruct (stopRecording h w) as [[r|e] w']; exact Hwp).
  destruct Hc as [Hc Hs]. split; [done|]. split; [done|].
  intros h' o. by apply start_rejects_only_when_active.
Qed.


(** ** The finalization loop *)

Lemma addTrace_nil w : addTrace w [] = w.
Proof. destruct w. unfold addTrace. simpl. by rewrite app_nil_r. Qed.

Lemma addTrace_app w l1 l2 : addTrace (addTrace w l1) l2 = addTrace w (l1 ++ l2).
Proof. unfold addTrace. simpl. by rewrite app_assoc. Qed.

Lemma finalizeLoop_run (h : host) (args : list string) (attempts : nat) :
  ∀ todo i w,
    (i + todo = attempts)%nat →
    finalizeLoop h args attempts todo i w
    = (loopResult h i todo,
       addTrace w (backoffTrace h args i (attemptsFrom h i todo))).
Proof.
  induction todo as [|todo IH]; intros i w Hi; simpl.
  - by rewrite addTrace_nil.
  - unfold mbind, M_bind, emit, try_catch, ret, mret, M_ret, throw. simpl.
    destruct (attempt h i) as [exitCode [size|]|who] eqn:Ha; simpl.
    + destruct ((exitCode =? 0) && (0 <? size)); simpl.
      * unfold addTrace. simpl. by rewrite <- app_assoc.
      * rewrite IH by lia. unfold addTrace. simpl. rewrite <- !app_assoc.
        by destruct todo.
    + rewrite IH by lia. unfold addTrace. simpl. rewrite <- !app_assoc.
      by destruct todo.
    + destruct (Nat.eqb_spec i (attempts - 1)) as [Heq|Hne].
      * assert (todo = 0%nat) as -> by lia. simpl.
        unfold addTrace. simpl. by rewrite <- app_assoc.
      * destruct todo as [|todo]; [lia|]. rewrite IH by lia.
        unfold addTrace. simpl. by rewrite <- !app_assoc.
Qed.

Lemma attemptsFrom_le (h : host) : ∀ todo i, (attemptsFrom h i todo ≤ todo)%nat.
Proof.
  induction todo as [|todo IH]; intros i; simpl; [done|].
  destruct (attemptSucceeded _); [lia|]. specialize (IH (S i)). lia.
Qed.


(** ** The four steps of [stopRecording], run *)

Lemma haltCapture_run (h : host) (w : world) (p : child) :
  currentRecording (vars w) = Some p →
  stdinWrite h = Returns () → awaitExit h = Returns () →
  haltCapture h w = (Normal (Some p), addTrace w (haltTrace h p)).
Proof.
  intros Hp Hq He.
  unfold haltCapture, haltTrace, call, emit, gets, addTrace,
    mbind, M_bind, ret, mret, M_ret.
  simpl. rewrite Hp, Hq, He.
  destruct (stdin p), ((2000 <? exitAfter h) && negb (killed p)),
    ((5000 <? exitAfter h) && negb (killed p)); simpl;
    by rewrite <- ?app_assoc.
Qed.

Lemma checkCapture_run (h : host) (w : world) (p : child) (tmp : string) (size : Z) :
  last (spawnargs p) = Some tmp →
  tempExists h = true → tempSize h = Returns size → size ≠ 0 →
  checkCapture h (Some p) w = (Normal tmp, w).
Proof.
  intros Hl He Hs Hz.
  unfold checkCapture, ask, mbind, M_bind, ret, mret, M_ret. simpl.
  rewrite He, Hs, Hl. simpl.
  by rewrite (proj2 (Z.eqb_neq _ _) Hz).
Qed.

Lemma finalize_run (h : host) (w : world) (tmp : string) :
  let args := finalizeArgs tmp (outputPath (vars w)) in
  let attempted := backoffTrace h args 0 (attemptsFrom h 0 3) in
  finalize h tmp w
  = match loopResult h 0 3 with
    | Normal true => (Normal (), addTrace w (attempted ++ [Unlink tmp]))
    | Normal false => (Throw FinalizeFailed, addTrace w attempted)
    | Throw e => (Throw e, addTrace w attempted)
    end.
Proof.
  intros args attempted. unfold finalize.
  unfold mbind at 1, M_bind at 1, gets at 1.
  unfold mbind at 1, M_bind at 1.
  rewrite finalizeLoop_run by done. fold args attempted.
  destruct (loopResult h 0 3) as [[|]|e]; [| reflexivity | reflexivity].
  unfold try_catch, call, emit, mbind, M_bind, ret, mret, M_ret, throw, addTrace.
  simpl. destruct (unlink h) as [[]|?]; simpl; by rewrite <- app_assoc.
Qed.

Lemma stopApplicationTracker_run (h : host) (w : world) :
  (∀ k, ∃ r, appStop h k = Returns r) →
  ∃ r, stopApplicationTracker h w = (Normal r, addTrace w [AppTrackerStop]).
Proof.
  intros H. unfold stopApplicationTracker, call, emit, mbind, M_bind. simpl.
  destruct (H (length (List.filter
     (λ a, match a with AppTrackerStop => true | _ => false end) (trace w))))
    as [r ->].
  by exists r.
Qed.

Lemma assemble_run (h : host) (w : world) (out : string) :
  outputPath (vars w) = Some out →
  othersReturn h →
  ∃ res, assemble h w
         = (Normal res,
            {| vars := released (vars w);
               trace := trace w ++ afterTrace h out |}).
Proof.
  intros Ho (Happ & [l Hl] & Hg & Hs & [size Hf]).
  unfold assemble.
  unfold mbind at 1, M_bind at 1, gets at 1. rewrite Ho.
  unfold mbind at 1, M_bind at 1, ret at 1, mret, M_ret.
  unfold mbind at 1, M_bind at 1.
  destruct (stopApplicationTracker_run h w Happ) as [r1 ->].
  unfold call, ask, emit, gets, set_currentRecording, set_recordingStartTime,
    get, put, mbind, M_bind, ret, mret, M_ret.
  cbn [vars trace addTrace]. rewrite Hl, Hg, Hs, Hf.
  match goal with
  | |- context [stopApplicationTracker h ?w1] =>
      destruct (stopApplicationTracker_run h w1 Happ) as [r2 ->]
  end.
  eexists. unfold addTrace, released, afterTrace. cbn [vars trace].
  rewrite Ho. by rewrite <- !app_assoc.
Qed.

Lemma release_throw_run (h : host) (e : error) (w : world) :
  (∀ k, ∃ r, appStop h k = Returns r) →
  release h (throw e : M result) w
  = (Throw e, {| vars := released (vars w);
                 trace := trace w ++ [AppTrackerStop] |}).
Proof.
  intros Happ. unfold release, set_currentRecording, set_recordingStartTime,
    get, put, mbind, M_bind. cbn [vars trace].
  match goal with
  | |- context [stopApplicationTracker h ?w1] =>
      destruct (stopApplicationTracker_run h w1 Happ) as [r ->]
  end.
  reflexivity.
Qed.


Lemma stopBody_run (h : host) (w : world) (p : child) (out tmp : string) :
  currentRecording (vars w) = Some p →
  outputPath (vars w) = Some out →
  last (spawnargs p) = Some tmp →
  captureDelivered h →
  let attempted :=
    backoffTrace h (finalizeArgs tmp (Some out)) 0 (attemptsFrom h 0 3) in
  stopBody h w
  = match loopResult h 0 3 with
    | Normal true =>
        assemble h (addTrace w (haltTrace h p ++ attempted ++ [Unlink tmp]))
    | Normal false =>
        (Throw FinalizeFailed, addTrace w (haltTrace h p ++ attempted))
    | Throw e => (Throw e, addTrace w (haltTrace h p ++ attempted))
    end.
Proof.
  intros Hp Ho Hl (Hq & He & Hx & size & Hs & Hz) attempted.
  unfold stopBody.
  unfold mbind at 1, M_bind at 1. rewrite (haltCapture_run h w p Hp Hq He).
  unfold mbind at 1, M_bind at 1.
  rewrite (checkCapture_run h _ p tmp size Hl Hx Hs Hz).
  unfold mbind at 1, M_bind at 1. rewrite finalize_run.
  cbn [addTrace vars]. rewrite Ho. fold attempted.
  destruct (loopResult h 0 3) as [[|]|e]; unfold addTrace; cbn [vars trace];
    by rewrite <- ?app_assoc.
Qed.

Lemma stopRecording_run (h : host) (w : world) (p : child) (out tmp : string) :
  currentRecording (vars w) = Some p →
  outputPath (vars w) = Some out →
  last (spawnargs p) = Some tmp →
  captureDelivered h → othersReturn h →
  let attempted :=
    backoffTrace h (finalizeArgs tmp (Some out)) 0 (attemptsFrom h 0 3) in
  match loopResult h 0 3 with
  | Normal true =>
      ∃ res, stopRecording h w
             = (Normal res,
                {| vars := released (vars w);
                   trace := trace w ++ haltTrace h p ++ attempted
                            ++ Unlink tmp :: afterTrace h out |})
  | Normal false =>
      stopRecording h w
      = (Throw FinalizeFailed,
         {| vars := released (vars w);
            trace := trace w ++ haltTrace h p ++ attempted ++ [AppTrackerStop] |})
  | Throw e =>
      stopRecording h w
      = (Throw e,
         {| vars := released (vars w);
            trace := trace w ++ haltTrace h p ++ attempted ++ [AppTrackerStop] |})
  end.
Proof.
  intros Hp Ho Hl Hcap Hothers attempted.
  assert (Hbody : stopRecording h w
                  = try_catch (stopBody h) (λ e, release h (throw e)) w).
  { unfold stopRecording, mbind, M_bind, get. simpl. by rewrite Hp. }
  rewrite Hbody. clear Hbody. unfold try_catch.
  rewrite (stopBody_run h w p out tmp Hp Ho Hl Hcap). fold attempted.
  destruct (loopResult h 0 3) as [[|]|e].
  - destruct (assemble_run h
                (addTrace w (haltTrace h p ++ attempted ++ [Unlink tmp]))
                out Ho Hothers) as [res ->].
    exists res. unfold addTrace, released. cbn [vars trace].
    by rewrite <- !app_assoc.
  - rewrite release_throw_run by apply Hothers.
    unfold addTrace, released. cbn [vars trace]. by rewrite <- !app_assoc.
  - rewrite release_throw_run by apply Hothers.
    unfold addTrace, released. cbn [vars trace]. by rewrite <- !app_assoc.
Qed.


Lemma no_logs_stop_before_assemble (h : host) (p : child) (args : list string) :
  ∀ n i recorderId screenId,
    LogsStop recorderId screenId
    ∉ haltTrace h p ++ backoffTrace h args i n ++ [AppTrackerStop].
Proof.
  intros n i recorderId screenId. rewrite !elem_of_app. intros [H|[H|H]].
  - unfold haltTrace in H.
    destruct (stdin p), ((2000 <? exitAfter h) && negb (killed p)),
      ((5000 <? exitAfter h) && negb (killed p)); simpl in H;
      rewrite ?elem_of_cons, ?elem_of_nil in H; intuition discriminate.
  - revert i H. induction n as [|n IH]; intros i H; simpl in H.
    + by apply elem_of_nil in H.
    + apply elem_of_cons in H as [H|H]; [discriminate|].
      apply elem_of_cons in H as [H|H]; [discriminate|]. by apply (IH (S i)).
  - apply list_elem_of_singleton in H. discriminate.
Qed.

(** A capture that left no file: the [catch] clause runs right after the
    first step. *)
Lemma stopRecording_empty_capture (h : host) (w : world) (p : child) :
  currentRecording (vars w) = Some p →
  stdinWrite h = Returns () → awaitExit h = Returns () →
  tempExists h = false →
  (∀ k, ∃ r, appStop h k = Returns r) →
  stopRecording h w
  = (Throw EmptyOrMissing,
     {| vars := released (vars w);
        trace := trace w ++ haltTrace h p ++ [AppTrackerStop] |}).
Proof.
  intros Hp Hq He Hx Happ.
  assert (Hbody : stopRecording h w
                  = try_catch (stopBody h) (λ e, release h (throw e)) w).
  { unfold stopRecording, mbind, M_bind, get. simpl. by rewrite Hp. }
  rewrite Hbody. clear Hbody. unfold try_catch, stopBody.
  unfold mbind at 1, M_bind at 1. rewrite (haltCapture_run h w p Hp Hq He).
  unfold mbind at 1, M_bind at 1.
  unfold checkCapture, ask, mbind, M_bind, ret, mret, M_ret, throw.
  cbn [addTrace]. rewrite Hx. cbn [negb orb].
  rewrite (release_throw_run h EmptyOrMissing _ Happ).
  unfold addTrace, released. cbn [vars trace]. by rewrite <- !app_assoc.
Qed.

(** The loop of three attempts, summarized by its first success. *)
Lemma three_attempts (h : host) :
  match List.find (λ i, attemptSucceeded (attempt h i)) (seq 0 3) with
  | Some k =>
      (k < 3)%nat
      ∧ (∀ i, (i < k)%nat → attemptSucceeded (attempt h i) = false)
      ∧ loopResult h 0 3 = Normal true
      ∧ attemptsFrom h 0 3 = S k
  | None =>
      attemptsFrom h 0 3 = 3%nat
      ∧ loopResult h 0 3 = match attempt h 2 with
                           | Crashed who => Throw (External who)
                           | Exited _ _ => Normal false
                           end
  end.
Proof.
  simpl.
  destruct (attemptSucceeded (attempt h 0)) eqn:H0.
  { repeat split; try done; lia. }
  destruct (attemptSucceeded (attempt h 1)) eqn:H1.
  { split; [lia|]. split.
    - intros i Hi. assert (i = 0%nat) as -> by lia. done.
    - by destruct (attempt h 0) as [? ?|?]. }
  destruct (attemptSucceeded (attempt h 2)) eqn:H2.
  { split; [lia|]. split.
    - intros i Hi. assert (i = 0%nat ∨ i = 1%nat) as [-> | ->] by lia; done.
    - by destruct (attempt h 0) as [? ?|?], (attempt h 1) as [? ?|?]. }
  split; [done|].
  by destruct (attempt h 0) as [? ?|?], (attempt h 1) as [? ?|?],
    (attempt h 2) as [? ?|third].
Qed.

(** When none of the three attempts succeeds, [stopRecording] throws
    having stopped the application tracker, and the log tracker is not
    stopped: no [logsTrackerManager.stop] is among the calls of the run. *)
Lemma log_tracker_skipped_when_finalization_fails
    (h : host) (w : world) (p : child) (out tmp : string) :
  currentRecording (vars w) = Some p →
  outputPath (vars w) = Some out →
  last (spawnargs p) = Some tmp →
  captureDelivered h → othersReturn h →
  List.find (λ i, attemptSucceeded (attempt h i)) (seq 0 3) = None →
  let calls := haltTrace h p
               ++ backoffTrace h (finalizeArgs tmp (Some out)) 0 3
               ++ [AppTrackerStop] in
  (∃ e, stopRecording h w
        = (Throw e, {| vars := released (vars w); trace := trace w ++ calls |}))
  ∧ AppTrackerStop ∈ calls
  ∧ ∀ recorderId screenId, LogsStop recorderId screenId ∉ calls.
Proof.
  intros Hp Ho Hl Hcap Hothers Hnone calls.
  pose proof (stopRecording_run h w p out tmp Hp Ho Hl Hcap Hothers) as Hrun.
  cbn zeta in Hrun.
  pose proof (three_attempts h) as Hsum. rewrite Hnone in Hsum.
  destruct Hsum as (Hn & Hres). rewrite Hn in Hrun. fold calls in Hrun.
  split; [|split].
  - destruct (attempt h 2) as [? ?|who]; rewrite Hres in Hrun; by eexists.
  - unfold calls. rewrite !elem_of_app. right. right. by left.
  - apply no_logs_stop_before_assemble.
Qed.


End RecorderFacts.

(** ** Worked instances *)

Section RecorderInstances.
Import Recorder Examples.

Lemma start_while_active_rejected_witness :
  Recorder.startRecording (example_host third_time_lucky)
    (Recorder.StartOptions 10 false None) example_session
  = (Recorder.Throw Recorder.AlreadyInProgress, example_session).
Proof.
  apply (start_while_active_rejected (example_host third_time_lucky)
           (Recorder.StartOptions 10 false None) example_session example_child).
  reflexivity.
Defined.

Lemma stop_always_clears_session_witness :
  let after := snd (Recorder.stopRecording (example_host never_finalizes)
                      example_session) in
  Recorder.currentRecording (Recorder.vars after) = None
  ∧ Recorder.recordingStartTime (Recorder.vars after) = None
  ∧ ∀ h' o, fst (Recorder.startRecording h' o after)
            ≠ Recorder.Throw Recorder.AlreadyInProgress.
Proof.
  apply (stop_always_clears_session (example_host never_finalizes)
           example_session example_child).
  reflexivity.
Defined.

Lemma example_host_cooperates attempts :
  captureDelivered (example_host attempts) ∧ othersReturn (example_host attempts).
Proof.
  split.
  - repeat split. exists 5000. by split.
  - split; [intros k; by eexists|]. split; [by eexists|].
    repeat split. by eexists.
Defined.



Lemma no_LogsStop (l : list Recorder.action) :
  existsb isLogsStop l = false →
  ∀ recorderId screenId, Recorder.LogsStop recorderId screenId ∉ l.
Proof.
  intros H recorderId screenId Hin.
  assert (existsb isLogsStop l = true); [|congruence].
  apply existsb_exists. exists (Recorder.LogsStop recorderId screenId).
  split; [by apply list_elem_of_In|done].
Qed.

(** C1.  On the error paths of [stopRecording] the log tracker is not
    stopped.  With an active session and a capture that cannot be
    finalized in three attempts, [stopRecording] throws the finalization
    error having stopped the application tracker but never called
    [logsTrackerManager.stop]; the same when the capture file is missing.
    On the path where finalization succeeds, both trackers are stopped. *)
Theorem log_tracker_not_stopped_on_error :
  let exhausted := Recorder.stopRecording (example_host never_finalizes)
                     example_session in
  let empty := Recorder.stopRecording (scenario_host false never_finalizes)
                 example_session in
  let finalized := Recorder.stopRecording (example_host third_time_lucky)
                     example_session in
  (fst exhausted = Recorder.Throw Recorder.FinalizeFailed
   ∧ Recorder.AppTrackerStop ∈ Recorder.trace (snd exhausted)
   ∧ ∀ recorderId screenId,
       Recorder.LogsStop recorderId screenId ∉ Recorder.trace (snd exhausted))
  ∧ (fst empty = Recorder.Throw Recorder.EmptyOrMissing
     ∧ Recorder.AppTrackerStop ∈ Recorder.trace (snd empty)
     ∧ ∀ recorderId screenId,
         Recorder.LogsStop recorderId screenId ∉ Recorder.trace (snd empty))
  ∧ (Recorder.AppTrackerStop ∈ Recorder.trace (snd finalized)
     ∧ Recorder.LogsStop "recording-1" "1" ∈ Recorder.trace (snd finalized)).
Proof.
  cbv zeta. split; [|split].
  - split; [reflexivity|]. split.
    + apply list_elem_of_In. vm_compute. tauto.
    + by apply no_LogsStop.
  - split; [reflexivity|]. split.
    + apply list_elem_of_In. vm_compute. tauto.
    + by apply no_LogsStop.
  - split; apply list_elem_of_In; vm_compute; tauto.
Qed.

End RecorderInstances.

(* ================================================================== *)
(** * Properties of the log router *)
(* ================================================================== *)
Section TrackingFacts.
Import Tracking.

Variable verifyPattern : string → option string → bool.
Variable updateTabsState : event → gmap Z tab → gmap Z tab.

Local Abbreviation matches := (Tracking.matches verifyPattern).
Local Abbreviation cache_ok := (Tracking.cache_ok verifyPattern).
Local Abbreviation wanted := (Tracking.wanted verifyPattern).

Lemma shouldSendEvent_spec tbs pattern ev cache p :
  payload ev = Some p →
  cache_ok tbs ev cache →
  ∃ cache', shouldSendEvent verifyPattern tbs pattern ev cache
            = Some (Js.inherited pattern || matches tbs ev pattern, cache')
            ∧ cache_ok tbs ev cache'.
Proof.
  intros Hp Hc. unfold shouldSendEvent.
  destruct (Js.inherited pattern); [by exists cache|]. cbn [orb].
  destruct (cache !! pattern) as [b|] eqn:Hb.
  - exists cache. split; [|done]. by rewrite (Hc _ _ Hb).
  - rewrite Hp.
    assert (Hm : matches tbs ev pattern
                 = match tabId p ≫= (λ i, tbs !! i) with
                   | Some tb => verifyPattern pattern (url tb)
                                || verifyPattern pattern (previousUrl tb)
                   | None => false
                   end)
      by (unfold matches, resolved; by rewrite Hp).
    destruct (tabId p ≫= (λ i, tbs !! i)) as [tb|]; eexists; (split; [by rewrite Hm|]).
    + intros P b. rewrite lookup_insert. case_decide as HP.
      * intros [= <-]. subst P. by rewrite Hm.
      * apply Hc.
    + intros P b. rewrite lookup_insert. case_decide as HP.
      * intros [= <-]. subst P. by rewrite Hm.
      * apply Hc.
Qed.

Lemma forEachCallback_spec m ev p (cbs : list callback) : ∀ cache,
  payload ev = Some p →
  cache_ok (tabs m) ev cache →
  forEachCallback verifyPattern m ev cache cbs
  = {| delivered := List.filter (wanted m ev) cbs; typeError := false |}.
Proof.
  induction cbs as [|cb cbs IH]; intros cache Hp Hc; simpl; [done|].
  unfold wanted at 1.
  destruct (map_get cb (patternsByCallback m)) as [pattern|]; [|by apply IH].
  destruct (String.eqb pattern ""); simpl; [by apply IH|].
  destruct (shouldSendEvent_spec (tabs m) pattern ev cache p Hp Hc)
    as (cache' & -> & Hc').
  destruct (Js.inherited pattern || matches (tabs m) ev pattern);
    by rewrite (IH cache' Hp Hc').
Qed.

(** The handlers called are among those gone through, in their order. *)
Lemma forEachCallback_sublist m ev (cbs : list callback) : ∀ cache,
  sublist (delivered (forEachCallback verifyPattern m ev cache cbs)) cbs.
Proof.
  induction cbs as [|cb cbs IH]; intros cache; simpl; [constructor|].
  destruct (map_get cb (patternsByCallback m)) as [pattern|];
    [|by apply sublist_cons].
  destruct (String.eqb pattern ""); [by apply sublist_cons|].
  destruct (shouldSendEvent _ _ _ _ _) as [[[|] cache']|]; cbn [delivered].
  - by apply sublist_skip.
  - by apply sublist_cons.
  - apply sublist_nil_l.
Qed.

(** Without a payload the dispatch stops at the first handler whose
    pattern needs the tab: only handlers with a pattern named like a member
    of [Object.prototype] are reached. *)
Lemma forEachCallback_no_payload m ev (cbs : list callback) :
  payload ev = None →
  ∀ cb, cb ∈ delivered (forEachCallback verifyPattern m ev ∅ cbs) →
        ∃ P, map_get cb (patternsByCallback m) = Some P
             ∧ Js.inherited P = true.
Proof.
  intros Hp. induction cbs as [|k cbs IH]; intros cb; simpl;
    [by intros H; apply elem_of_nil in H|].
  destruct (map_get k (patternsByCallback m)) as [pattern|] eqn:Hk; [|by apply IH].
  destruct (String.eqb pattern ""); [by apply IH|].
  unfold shouldSendEvent. destruct (Js.inherited pattern) eqn:Hi.
  - cbn [delivered]. intros [->|H]%elem_of_cons; [by exists pattern|by apply IH].
  - rewrite lookup_empty, Hp. cbn [delivered]. by intros H; apply elem_of_nil in H.
Qed.

(** Without a payload, taking a handler out of the dispatch loses no
    other handler. *)
Lemma forEachCallback_no_payload_without m1 m2 ev (cb : callback)
    (cbs : list callback) :
  payload ev = None →
  (∀ k, k ≠ cb →
        map_get k (patternsByCallback m2) = map_get k (patternsByCallback m1)) →
  ∀ cb', cb' ≠ cb →
    cb' ∈ delivered (forEachCallback verifyPattern m1 ev ∅ cbs) →
    cb' ∈ delivered (forEachCallback verifyPattern m2 ev ∅
                       (List.filter (λ k, negb (Nat.eqb k cb)) cbs)).
Proof.
  intros Hp Hsame cb' Hne.
  induction cbs as [|k cbs IH]; [done|]. cbn [List.filter forEachCallback].
  destruct (Nat.eqb_spec k cb) as [->|Hk]; cbn [negb forEachCallback].
  - destruct (map_get cb (patternsByCallback m1)) as [pattern|]; [|done].
    destruct (String.eqb pattern ""); [done|].
    unfold shouldSendEvent. destruct (Js.inherited pattern).
    + cbn [delivered]. intros [->|H]%elem_of_cons; [done|by apply IH].
    + rewrite lookup_empty, Hp. cbn [delivered]. by intros H; apply elem_of_nil in H.
  - rewrite (Hsame k Hk).
    destruct (map_get k (patternsByCallback m1)) as [pattern|]; [|done].
    destruct (String.eqb pattern ""); [done|].
    unfold shouldSendEvent. destruct (Js.inherited pattern).
    + cbn [delivered]. intros [->|H]%elem_of_cons; [by left|right; by apply IH].
    + rewrite lookup_empty, Hp. cbn [delivered]. by intros H; apply elem_of_nil in H.
Qed.

Lemma filter_none {A} (f : A → bool) (l : list A) :
  (∀ x, f x = false) → List.filter f l = [].
Proof.
  intros H. induction l as [|x l IH]; simpl; [done|]. by rewrite H.
Qed.

Lemma map_get_Some_elem cb pattern (l : list (callback * string)) :
  map_get cb l = Some pattern → cb ∈ fst <$> l.
Proof.
  induction l as [|[k v] l IH]; simpl; [done|].
  rewrite elem_of_cons. simpl.
  destruct (Nat.eqb_spec k cb) as [->|Hne].
  - intros _. by left.
  - intros H. right. by apply IH.
Qed.

(** Who gets an event that is not a navigation event and has a payload. *)
Lemma handleEvent_delivered (m : manager) (ev : event) :
  isNavigation (type ev) = false → is_Some (payload ev) →
  ∀ cb, cb ∈ delivered (snd (handleEvent verifyPattern updateTabsState m ev))
        ↔ cb ∈ eventCallbacks m
          ∧ ∃ P, map_get cb (patternsByCallback m) = Some P ∧ P ≠ ""
                 ∧ (Js.inherited P = true
                    ∨ matches (updateTabsState ev (tabs m)) ev P = true).
Proof.
  intros Hnav [p Hp] cb. unfold Tracking.handleEvent. rewrite Hnav. cbn [snd].
  set (m' := {| tabs := updateTabsState ev (tabs m);
                patternsByCallback := patternsByCallback m;
                globalTabsAndNavigationCallbacks :=
                  globalTabsAndNavigationCallbacks m |}).
  rewrite (forEachCallback_spec m' ev p _ ∅ Hp)
    by (intros P b H; by rewrite lookup_empty in H).
  cbn [delivered]. rewrite list_elem_of_In, filter_In, <- list_elem_of_In.
  unfold Tracking.wanted. cbn [patternsByCallback tabs m'].
  split.
  - intros [Hin Hw]. split; [done|].
    destruct (map_get cb (patternsByCallback m)) as [P|]; [|done].
    exists P. apply andb_prop in Hw as [Hne Hm]. split; [done|].
    split; [apply String.eqb_neq; by destruct (String.eqb P "")|].
    by apply orb_prop in Hm.
  - intros (Hin & P & -> & Hne & Hm). split; [done|].
    apply String.eqb_neq in Hne. rewrite Hne. cbn [negb andb].
    apply orb_true_iff. exact Hm.
Qed.

(** C7.  A subscription whose pattern is named like a member of
    [Object.prototype] ([constructor], [toString], ...) gets every event
    that is not a navigation event and has a payload: the per-dispatch
    cache is a plain object, the pattern is found in it before any tab is
    looked up, and the handler is called whether or not the [tabId]
    resolves to a known tab and whether or not the pattern matches the
    current or the previous URL. *)
Theorem inherited_pattern_skips_url_check (m : manager) (ev : event)
    (cb : callback) (P : string) :
  isNavigation (type ev) = false →
  is_Some (payload ev) →
  map_get cb (patternsByCallback m) = Some P →
  Js.inherited P = true →
  cb ∈ delivered (snd (handleEvent verifyPattern updateTabsState m ev)).
Proof.
  intros Hnav Hp Hget Hin. apply (handleEvent_delivered m ev Hnav Hp).
  split; [by apply map_get_Some_elem with P|].
  exists P. split; [done|]. split; [|by left].
  intros ->. discriminate Hin.
Qed.

(** X29.  Delivery by URL.  For a dispatched event that is not a
    navigation event and a subscription whose (non-empty) pattern [P] is
    not named like a member of [Object.prototype]: when the [tabId]
    resolves to a known tab, the handler gets the event if [P] matches the
    tab's previous URL, also when [P] does not match the current URL, and
    it gets the event exactly when [P] matches the current or the previous
    URL; when the [tabId] resolves to no known tab, the handler does not
    get the event. *)
Theorem previous_or_current_url_delivers (m : manager) (ev : event)
    (cb : callback) (P : string) :
  isNavigation (type ev) = false →
  map_get cb (patternsByCallback m) = Some P →
  P ≠ "" → Js.inherited P = false →
  let sent := delivered (snd (handleEvent verifyPattern updateTabsState m ev)) in
  match resolved (updateTabsState ev (tabs m)) ev with
  | Some tb =>
      (verifyPattern P (previousUrl tb) = true → cb ∈ sent)
      ∧ (cb ∈ sent ↔ verifyPattern P (url tb) = true
                      ∨ verifyPattern P (previousUrl tb) = true)
  | None => cb ∉ sent
  end.
Proof.
  intros Hnav Hget HP Hin sent. subst sent.
  destruct (payload ev) as [p|] eqn:Hp.
  - assert (Hd : ∀ c, c ∈ delivered (snd (handleEvent verifyPattern updateTabsState m ev))
                      ↔ c ∈ eventCallbacks m
                        ∧ ∃ P, map_get c (patternsByCallback m) = Some P ∧ P ≠ ""
                               ∧ (Js.inherited P = true
                                  ∨ matches (updateTabsState ev (tabs m)) ev P = true))
      by (apply handleEvent_delivered; [done|rewrite Hp; by eexists]).
    assert (Hcb : cb ∈ delivered (snd (handleEvent verifyPattern updateTabsState m ev))
                  ↔ matches (updateTabsState ev (tabs m)) ev P = true).
    { rewrite Hd. split.
      - intros (_ & P' & HP' & _ & [H|H]); rewrite Hget in HP';
          injection HP' as <-; [congruence|done].
      - intros H. split; [by apply map_get_Some_elem with P|].
        exists P. split; [done|]. split; [done|by right]. }
    unfold matches in Hcb.
    destruct (resolved (updateTabsState ev (tabs m)) ev) as [tb|].
    + rewrite Hcb, orb_true_iff. split; [by right|done].
    + rewrite Hcb. done.
  - assert (resolved (updateTabsState ev (tabs m)) ev = None) as ->
      by (unfold resolved; by rewrite Hp).
    unfold Tracking.handleEvent. rewrite Hnav. cbn [snd]. intros Hc.
    apply forEachCallback_no_payload in Hc as (P' & HP' & Hi'); [|done].
    cbn [patternsByCallback] in HP'. congruence.
Qed.

End TrackingFacts.

(** ** Worked instances *)

Section TrackingInstances.
Import Tracking Examples Scenarios.

Lemma inherited_pattern_skips_url_check_witness :
  resolved (tabs constructor_manager) unknown_tab_request = None
  ∧ 0%nat ∈ Tracking.delivered
              (snd (Tracking.handleEvent example_verifyPattern (λ _ tbs, tbs)
                      constructor_manager unknown_tab_request)).
Proof.
  split; [reflexivity|].
  exact (inherited_pattern_skips_url_check example_verifyPattern (λ _ tbs, tbs)
           constructor_manager unknown_tab_request 0%nat "constructor"
           eq_refl (ex_intro _ _ eq_refl) eq_refl eq_refl).
Defined.

Lemma previous_or_current_url_delivers_witness :
  let sent :=
    Tracking.delivered
      (snd (Tracking.handleEvent example_verifyPattern (λ _ tbs, tbs)
              example_manager example_request)) in
  (example_verifyPattern "https://old.example/*"
     (Some "https://old.example/cart") = true → 0%nat ∈ sent)
  ∧ (0%nat ∈ sent
     ↔ example_verifyPattern "https://old.example/*"
         (Some "https://new.example/") = true
       ∨ example_verifyPattern "https://old.example/*"
           (Some "https://old.example/cart") = true).
Proof.
  exact (previous_or_current_url_delivers example_verifyPattern
           (λ _ tbs, tbs) example_manager example_request 0%nat
           "https://old.example/*" eq_refl eq_refl ltac:(discriminate) eq_refl).
Defined.

End TrackingInstances.

(* ================================================================== *)
(** * Properties of the telemetry sampler *)
(* ================================================================== *)
Section PerfFacts.
Import Perf.

(** A failing process probe costs the process group only: the sample is
    recorded, with the fallback reading in that group and the readings of
    the other two probes in theirs. *)
Lemma process_probe_failure_isolated (p : probes) (t : tracker) (d : disk)
    (message : string) (sys : systemMetrics) :
  pidusage p = Raises message →
  getSystemMetrics p = Returns sys →
  samples (fst (collectSample p (t, d)))
  = samples t
    ++ [ {| timestamp := now p;
            elapsedMs := match startTime t with
                         | Some s => if (s =? 0)%Z then 0%Z else (now p - s)%Z
                         | None => 0%Z
                         end;
            system := sys;
            process := zeroProcess t;
            network := fst (getNetworkMetrics t p) |} ].
Proof.
  intros Hp Hs. unfold collectSample, getProcessMetrics. rewrite Hs, Hp.
  destruct (getNetworkMetrics t p) as [net l]. cbn [fst].
  cbn [set_lastNetworkStats set_samples samples performanceFile].
  destruct (performanceFile t); [destruct (appendFile p)|]; reflexivity.
Qed.

(** Likewise for the network probe, when [os.networkInterfaces()] or the
    dynamic import throws: all six network fields are zero. *)
Lemma network_probe_failure_isolated (p : probes) (t : tracker) (d : disk)
    (message : string) (sys : systemMetrics) :
  networkInterfaces p = Raises message
  ∨ networkInterfaces p = Returns () ∧ networkTotals p = Raises message →
  getSystemMetrics p = Returns sys →
  samples (fst (collectSample p (t, d)))
  = samples t
    ++ [ {| timestamp := now p;
            elapsedMs := match startTime t with
                         | Some s => if (s =? 0)%Z then 0%Z else (now p - s)%Z
                         | None => 0%Z
                         end;
            system := sys;
            process := getProcessMetrics t p;
            network := zeroNetwork |} ].
Proof.
  intros Hn Hs. unfold collectSample, getNetworkMetrics. rewrite Hs.
  destruct Hn as [->|[-> ->]];
    cbn [set_lastNetworkStats set_samples samples performanceFile];
    (destruct (performanceFile t); [destruct (appendFile p)|]; reflexivity).
Qed.

(** When only the read of the counters throws, the byte counters are zero
    but the rates are computed against the previous reading. *)
Lemma network_read_failure_rates (p : probes) (t : tracker) (last : networkStats)
    (message : string) :
  networkInterfaces p = Returns () →
  platform p = "linux" → importModule p = Returns () →
  counters p = Raises message →
  lastNetworkStats t = Some last →
  (last_timestamp last < network_now p)%Z →
  (0 < last_bytesReceived last)%Z →
  let reading := fst (getNetworkMetrics t p) in
  bytesReceived reading = 0%Z
  ∧ (bytesReceivedPerSec reading < 0)%Q.
Proof.
  intros Hi Hp Hm Hc Hl Ht Hb. unfold getNetworkMetrics, networkTotals.
  rewrite Hi, Hp, Hm, Hc, Hl. simpl.
  set (timeDelta := qdiv (inject_Z (network_now p - last_timestamp last)) 1000).
  assert (Hpos : (0 < timeDelta)%Q).
  { unfold timeDelta, qdiv. rewrite Qred_correct.
    apply Qlt_shift_div_l; [reflexivity|]. rewrite Qmult_0_l.
    rewrite <- (Zlt_Qlt 0). lia. }
  destruct (Qle_bool timeDelta 0) eqn:Hle.
  { apply Qle_bool_iff in Hle. exfalso. by apply (Qlt_not_le _ _ Hpos). }
  cbn [fst bytesReceived bytesReceivedPerSec]. split; [done|].
  unfold qdiv. rewrite Qred_correct.
  apply Qlt_shift_div_r; [done|]. rewrite Qmult_0_l.
  rewrite <- (Zlt_Qlt _ 0). lia.
Qed.

(** C8.  A sampling tick in which the system probe throws: the process
    and network probes still run (the network probe updates its previous
    reading), but no sample is recorded, in memory or on disk; the timer
    stays armed. *)
Theorem system_probe_failure_drops_sample (p : probes) (t : tracker) (d : disk)
    (message : string) :
  os_system p = Raises message →
  samples (fst (collectSample p (t, d))) = samples t
  ∧ snd (collectSample p (t, d)) = d
  ∧ interval (fst (collectSample p (t, d))) = interval t
  ∧ lastNetworkStats (fst (collectSample p (t, d)))
    = snd (getNetworkMetrics t p).
Proof.
  intros Hs. unfold collectSample, getSystemMetrics. rewrite Hs.
  destruct (getNetworkMetrics t p) as [net l]. by repeat split.
Qed.

(** C10.  [stop()] with no samples at all (no sample file on disk and
    nothing in memory) returns [{ samples: [], summary: null }]; the
    tracker is left as it was, but for the cleared timer. *)
Theorem stop_without_samples (readFile unlinkFile : answer ())
    (t : tracker) (d : disk) :
  samples t = [] →
  performanceFile t ≫= (λ f, d !! f) = None →
  stop readFile unlinkFile (t, d)
  = ({| stopped_samples := []; stopped_summary := None |},
     ({| interval := None; samples := []; startTime := startTime t;
         pid := pid t; monitorInterval := monitorInterval t;
         lastNetworkStats := lastNetworkStats t;
         performanceFile := performanceFile t |}, d)).
Proof.
  intros Hs Hf. unfold stop. cbn [performanceFile samples].
  rewrite Hf, Hs. reflexivity.
Qed.

(** The same answer when the file is there but holds no line. *)
Lemma stop_with_empty_file (unlinkFile : answer ()) (t : tracker) (d : disk)
    (f : string) :
  performanceFile t = Some f → d !! f = Some [] →
  fst (stop (Returns ()) unlinkFile (t, d))
  = {| stopped_samples := []; stopped_summary := None |}.
Proof.
  intros Hf Hd. unfold stop. cbn [performanceFile samples].
  rewrite Hf. simpl. rewrite Hd. reflexivity.
Qed.

(** Otherwise there is a summary. *)
Lemma stop_with_samples (readFile unlinkFile : answer ()) (t : tracker) (d : disk) :
  stopped_samples (fst (stop readFile unlinkFile (t, d))) ≠ [] →
  is_Some (stopped_summary (fst (stop readFile unlinkFile (t, d)))).
Proof.
  unfold stop.
  set (t1 := {| interval := None; samples := samples t; startTime := startTime t;
                pid := pid t; monitorInterval := monitorInterval t;
                lastNetworkStats := lastNetworkStats t;
                performanceFile := performanceFile t |}).
  set (t2 := match performanceFile t1 ≫= (λ f, d !! f), readFile with
             | Some lines, Returns _ => set_samples t1 lines
             | _, _ => t1
             end).
  destruct (samples t2) as [|s l] eqn:Hs; [done|]. intros _. cbn [fst stopped_summary].
  unfold calculateSummary. rewrite Hs.
  destruct (last (s :: l)) eqn:Hl; [by eexists|].
  by apply last_None in Hl.
Qed.

End PerfFacts.

(** ** Worked instances *)

Section PerfInstances.
Import Examples.

Lemma system_probe_failure_drops_sample_witness :
  Perf.samples (fst (Perf.collectSample system_probe_throws example_tracker)) = []
  ∧ snd (Perf.collectSample system_probe_throws example_tracker) = ∅
  ∧ Perf.interval (fst (Perf.collectSample system_probe_throws example_tracker))
    = Some 5000
  ∧ Perf.lastNetworkStats
      (fst (Perf.collectSample system_probe_throws example_tracker))
    = Some {| Perf.last_bytesReceived := 1200; Perf.last_bytesSent := 600;
              Perf.last_timestamp := 11000 |}.
Proof.
  exact (system_probe_failure_drops_sample system_probe_throws
           (fst example_tracker) (snd example_tracker) "ENOSYS" eq_refl).
Defined.

Lemma stop_without_samples_witness :
  Perf.stop (Perf.Returns ()) (Perf.Returns ()) example_tracker
  = ({| Perf.stopped_samples := []; Perf.stopped_summary := None |},
     ({| Perf.interval := None; Perf.samples := [];
         Perf.startTime := Some 1000; Perf.pid := 77;
         Perf.monitorInterval := 5000; Perf.lastNetworkStats := None;
         Perf.performanceFile := Some "/out/performance.jsonl" |}, ∅)).
Proof.
  exact (stop_without_samples (Perf.Returns ()) (Perf.Returns ())
           (fst example_tracker) (snd example_tracker) eq_refl eq_refl).
Defined.

End PerfInstances.

(* ================================================================== *)
(** * Further properties of the trim / normalize stage *)
(* ================================================================== *)
Section TrimPass.
Import Trim.

Variables (path_base path_dirname : string → string)
          (path_join : string → string → string).
Variable now : string → nat → Z.
Variables (startMS endMS clientStartDate : Z) (clipId : string).

Local Abbreviation relativeEvents := (relativeEvents now startMS clientStartDate).
Local Abbreviation survivors := (survivors now startMS endMS clientStartDate).
Local Abbreviation filteredEvents := (filteredEvents now startMS endMS clientStartDate).
Local Abbreviation trimOne :=
  (trimOne path_base path_dirname path_join now startMS endMS clientStartDate clipId).
Local Abbreviation trimLogs :=
  (trimLogs path_base path_dirname path_join now startMS endMS clientStartDate clipId).
Local Abbreviation trimmedPath := (λ status,
  path_join (path_dirname (fileLocation status))
            (clipId +:+ "_" +:+ path_base (fileLocation status))).

(** What one iteration adds to the three components of the outcome. *)
Lemma trimOne_step acc status :
  ∃ status' new,
    statuses (trimOne acc status) = statuses acc ++ [status']
    ∧ written (trimOne acc status) = written acc ++ new
    ∧ match disk acc !! fileLocation status with
      | None => status' = status ∧ new = [] ∧ disk (trimOne acc status) = disk acc
      | Some lines =>
          let evs := filteredEvents status lines in
          match evs with
          | [] => status' = set_count status 0 ∧ new = []
                  ∧ disk (trimOne acc status) = disk acc
          | _ :: _ =>
              status' = set_trimmed (set_count status (Z.of_nat (length evs)))
                          (trimmedPath status)
              ∧ new = [(trimmedPath status, evs)]
              ∧ disk (trimOne acc status)
                = <[trimmedPath status := Some <$> evs]> (disk acc)
          end
      end.
Proof.
  unfold Trim.trimOne.
  destruct (disk acc !! fileLocation status) as [lines|].
  - destruct (filteredEvents status lines) as [|e evs] eqn:He.
    + eexists _, []. cbn. rewrite app_nil_r. repeat split.
    + eexists _, _. cbn [length]. 
      assert ((0 <? Z.of_nat (S (length evs))) = true) as -> by (apply Z.ltb_lt; lia).
      cbn. repeat split.
  - eexists _, []. cbn. rewrite app_nil_r. repeat split.
Qed.

Lemma foldl_snoc {A B} (f : A → B → A) (a : A) (l : list B) (x : B) :
  foldl f a (l ++ [x]) = f (foldl f a l) x.
Proof. by rewrite foldl_app. Qed.

(** The returned array lists the sources that came with a positive count,
    in their order, each under its own [id], [type] and [fileLocation]. *)
Lemma foldl_trimOne_statuses sts : ∀ acc,
  Forall2 (λ s s', id s' = id s ∧ type s' = type s
                   ∧ fileLocation s' = fileLocation s)
          sts (drop (length (statuses acc)) (statuses (foldl trimOne acc sts)))
  ∧ take (length (statuses acc)) (statuses (foldl trimOne acc sts)) = statuses acc.
Proof.
  induction sts as [|s sts IH] using rev_ind; intros acc.
  - simpl. rewrite drop_all, firstn_all. split; [constructor|done].
  - rewrite foldl_snoc.
    destruct (IH acc) as [IH1 IH2].
    destruct (trimOne_step (foldl trimOne acc sts) s) as (s' & new & Hs & _ & Hcase).
    rewrite Hs.
    assert (Hlen : (length (statuses acc) ≤ length (statuses (foldl trimOne acc sts)))%nat).
    { rewrite <- IH2 at 1. rewrite length_take. lia. }
    split.
    + rewrite drop_app_le by done.
      apply Forall2_app; [done|]. constructor; [|constructor].
      destruct (disk _ !! _) as [lines|].
      * cbv zeta in Hcase. destruct (filteredEvents s lines);
          destruct Hcase as (-> & _); by repeat split.
      * destruct Hcase as (-> & _). by repeat split.
    + rewrite take_app_le by done. done.
Qed.

(** X1.  The array a pass returns lists exactly the sources that came
    with a positive count, in their order, each under its own [id], [type]
    and [fileLocation]: a source with count 0 is dropped, no other source
    is dropped or added, and nothing is reordered. *)
Theorem trim_returns_positive_sources files groupLogStatuses :
  Forall2 (λ s s', id s' = id s ∧ type s' = type s
                   ∧ fileLocation s' = fileLocation s)
          (List.filter (λ s, 0 <? count s) groupLogStatuses)
          (statuses (trimLogs files groupLogStatuses)).
Proof.
  unfold Trim.trimLogs.
  pose proof (foldl_trimOne_statuses (List.filter (λ s, 0 <? count s) groupLogStatuses)
                {| disk := files; written := []; statuses := [] |}) as [H _].
  exact H.
Qed.


(** The files of a pass only grow in number. *)
Lemma foldl_trimOne_disk sts : ∀ acc,
  let out := foldl trimOne acc sts in
  (∃ new, written out = written acc ++ new
          ∧ (∀ f, (∀ evs, (f, evs) ∉ new) → disk out !! f = disk acc !! f)
          ∧ (∀ p evs, (p, evs) ∈ new →
               ∃ evs', (p, evs') ∈ new ∧ disk out !! p = Some (Some <$> evs')))
  ∧ (∀ f, is_Some (disk acc !! f) → is_Some (disk out !! f)).
Proof.
  induction sts as [|s sts IH] using rev_ind; intros acc; cbv zeta.
  - simpl. split; [|done]. exists []. rewrite app_nil_r. split; [done|].
    split; [done|]. intros p evs H. by apply elem_of_nil in H.
  - rewrite foldl_snoc.
    destruct (IH acc) as [(new & Hw & Hkeep & Hlast) Hmono]. cbv zeta in *.
    set (mid := foldl trimOne acc sts) in *.
    destruct (trimOne_step mid s) as (s' & new1 & _ & Hw1 & Hcase).
    assert (Hsame : new1 = [] ∧ disk (trimOne mid s) = disk mid
                    ∨ ∃ evs, new1 = [(trimmedPath s, evs)]
                             ∧ disk (trimOne mid s)
                               = <[trimmedPath s := Some <$> evs]> (disk mid)).
    { destruct (disk mid !! fileLocation s) as [lines|].
      - cbv zeta in Hcase. destruct (filteredEvents s lines) as [|e evs].
        + left. by destruct Hcase as (_ & -> & ->).
        + right. exists (e :: evs). by destruct Hcase as (_ & -> & ->).
      - left. by destruct Hcase as (_ & -> & ->). }
    split.
    + exists (new ++ new1). rewrite Hw1, Hw, <- app_assoc. split; [done|].
      destruct Hsame as [[-> ->]|(evs1 & -> & ->)].
      * rewrite app_nil_r. split; [done|]. done.
      * split.
        -- intros f Hf. rewrite lookup_insert_ne.
           ++ apply Hkeep. intros evs H. apply (Hf evs). apply elem_of_app. by left.
           ++ intros <-. apply (Hf evs1). apply elem_of_app. right. by left.
        -- intros p evs Hin.
           destruct (decide (p = trimmedPath s)) as [->|Hne].
           ++ exists evs1. split; [apply elem_of_app; right; by left|].
              by rewrite lookup_insert_eq.
           ++ apply elem_of_app in Hin as [Hin|Hin].
              ** destruct (Hlast _ _ Hin) as (evs' & Hin' & Hd).
                 exists evs'. split; [apply elem_of_app; by left|].
                 by rewrite lookup_insert_ne.
              ** apply list_elem_of_singleton in Hin. congruence.
    + intros f Hf. specialize (Hmono f Hf).
      destruct Hsame as [[_ ->]|(evs1 & _ & ->)]; [done|].
      rewrite lookup_insert. case_decide; [by eexists|done].
Qed.

(** Every returned status is accounted for. *)
Lemma foldl_trimOne_account sts : ∀ acc s',
  s' ∈ statuses (foldl trimOne acc sts) →
  s' ∈ statuses acc
  ∨ ∃ s, s ∈ sts
         ∧ (s' = s ∧ disk acc !! fileLocation s = None
            ∨ s' = set_count s 0
            ∨ ∃ evs, evs ≠ []
                     ∧ (trimmedPath s, evs) ∈ written (foldl trimOne acc sts)
                     ∧ s' = set_trimmed (set_count s (Z.of_nat (length evs)))
                              (trimmedPath s)).
Proof.
  induction sts as [|s sts IH] using rev_ind; intros acc s'; [by left|].
  rewrite foldl_snoc.
  set (mid := foldl trimOne acc sts) in *.
  destruct (trimOne_step mid s) as (s1 & new1 & Hs & Hw & Hcase).
  rewrite Hs, Hw, elem_of_app, list_elem_of_singleton. intros [Hin| ->].
  - destruct (IH acc s' Hin) as [?|(s0 & Hs0 & Hd)]; [by left|].
    right. exists s0. split; [apply elem_of_app; by left|].
    destruct Hd as [?|[?|(evs & Hne & Hin' & ->)]]; [by left|right; by left|].
    right. right. exists evs. split; [done|]. split; [|done].
    apply elem_of_app. by left.
  - right. exists s. split; [apply elem_of_app; right; by left|].
    destruct (disk mid !! fileLocation s) as [lines|] eqn:Hd.
    + cbv zeta in Hcase. destruct (filteredEvents s lines) as [|e evs].
      * right. left. by destruct Hcase as (-> & _).
      * right. right. exists (e :: evs). destruct Hcase as (-> & -> & _).
        split; [done|]. split; [|done]. apply elem_of_app. right. by left.
    + left. destruct Hcase as (-> & _). split; [done|].
      destruct (disk acc !! fileLocation s) eqn:Ha; [|done].
      destruct (proj2 (foldl_trimOne_disk sts acc) (fileLocation s)) as [x Hx];
        [by eexists|]. fold mid in Hx. congruence.
Qed.

(** X2.  Each status a pass returns comes from a source that had a
    positive count, and is one of three things: the source as it was,
    when its file does not exist; the source with count 0, when no event
    of it falls inside the window; or the source with the number of events
    written to its trimmed file as count and the path of that file as
    [trimmedFileLocation]. *)
Theorem trim_status_accounts_for_written files groupLogStatuses s' :
  s' ∈ statuses (trimLogs files groupLogStatuses) →
  ∃ s, s ∈ groupLogStatuses ∧ 0 < count s
       ∧ (s' = s ∧ files !! fileLocation s = None
          ∨ s' = set_count s 0
          ∨ ∃ evs, evs ≠ []
                   ∧ (trimmedPath s, evs) ∈ written (trimLogs files groupLogStatuses)
                   ∧ s' = set_trimmed (set_count s (Z.of_nat (length evs)))
                            (trimmedPath s)).
Proof.
  unfold Trim.trimLogs. intros H.
  apply foldl_trimOne_account in H as [H|(s & Hs & Hd)]; [by apply elem_of_nil in H|].
  apply list_elem_of_In, filter_In in Hs as [Hs Hc].
  exists s. split; [by apply list_elem_of_In|]. split; [by apply Z.ltb_lt|]. exact Hd.
Qed.

(** X3.  A pass writes trimmed files and touches nothing else: a path that
    is not the target of a write holds after the pass what it held before,
    no file disappears, and a path that was written holds the events of one
    of its writes. *)
Theorem trim_touches_only_trimmed_files files groupLogStatuses :
  let out := trimLogs files groupLogStatuses in
  (∀ f, (∀ evs, (f, evs) ∉ written out) → disk out !! f = files !! f)
  ∧ (∀ f, is_Some (files !! f) → is_Some (disk out !! f))
  ∧ (∀ p evs, (p, evs) ∈ written out →
       ∃ evs', (p, evs') ∈ written out ∧ disk out !! p = Some (Some <$> evs')).
Proof.
  cbv zeta. unfold Trim.trimLogs.
  destruct (foldl_trimOne_disk (List.filter (λ s, 0 <? count s) groupLogStatuses)
              {| disk := files; written := []; statuses := [] |})
    as [(new & Hw & Hkeep & Hlast) Hmono].
  cbv zeta in *. cbn [written disk] in *. rewrite Hw. cbn [app].
  split; [exact Hkeep|]. split; [exact Hmono|exact Hlast].
Qed.

(** ** What a pass writes, and from what *)

(** A path holds after the iterations what it held before, or the events
    of a write made in between. *)
Lemma foldl_trimOne_disk_cases sts : ∀ acc f,
  disk (foldl trimOne acc sts) !! f = disk acc !! f
  ∨ ∃ evs, (f, evs) ∈ written (foldl trimOne acc sts)
           ∧ disk (foldl trimOne acc sts) !! f = Some (Some <$> evs).
Proof.
  induction sts as [|s sts IH] using rev_ind; intros acc f; [by left|].
  rewrite foldl_snoc. set (mid := foldl trimOne acc sts) in *.
  destruct (trimOne_step mid s) as (s' & new & _ & Hw & Hcase).
  assert (Hsame : new = [] ∧ disk (trimOne mid s) = disk mid
                  ∨ ∃ evs, new = [(trimmedPath s, evs)]
                           ∧ disk (trimOne mid s)
                             = <[trimmedPath s := Some <$> evs]> (disk mid)).
  { destruct (disk mid !! fileLocation s) as [lines|].
    - cbv zeta in Hcase. destruct (filteredEvents s lines) as [|e evs].
      + left. by destruct Hcase as (_ & -> & ->).
      + right. exists (e :: evs). by destruct Hcase as (_ & -> & ->).
    - left. by destruct Hcase as (_ & -> & ->). }
  rewrite Hw.
  destruct Hsame as [[-> ->]|(evs1 & -> & ->)].
  - rewrite app_nil_r. apply IH.
  - destruct (decide (f = trimmedPath s)) as [->|Hne].
    + right. exists evs1. split; [apply elem_of_app; right; by left|].
      by rewrite lookup_insert_eq.
    + rewrite lookup_insert_ne by done.
      destruct (IH acc f) as [?|(evs & Hin & Hd)]; [by left|].
      right. exists evs. split; [apply elem_of_app; by left|done].
Qed.

(** Every write of the iterations comes from one of the sources: the
    lines read at the moment the source was processed, filtered. *)
Lemma foldl_trimOne_written_origin sts : ∀ acc p evs,
  (p, evs) ∈ written (foldl trimOne acc sts) →
  (p, evs) ∈ written acc
  ∨ ∃ before status after lines,
      sts = before ++ status :: after
      ∧ disk (foldl trimOne acc before) !! fileLocation status = Some lines
      ∧ evs = filteredEvents status lines ∧ evs ≠ []
      ∧ p = trimmedPath status.
Proof.
  induction sts as [|s sts IH] using rev_ind; intros acc p evs; [by left|].
  rewrite foldl_snoc. set (mid := foldl trimOne acc sts) in *.
  destruct (trimOne_step mid s) as (s' & new & _ & Hw & Hcase).
  rewrite Hw, elem_of_app. intros [Hin|Hin].
  - destruct (IH acc p evs Hin) as [?|(before & status & after & lines & -> & H)];
      [by left|].
    right. exists before, status, (after ++ [s]), lines.
    split; [by rewrite <- app_assoc|exact H].
  - right. destruct (disk mid !! fileLocation s) as [lines|] eqn:Hd.
    + cbv zeta in Hcase. destruct (filteredEvents s lines) as [|e rest] eqn:Hf.
      * destruct Hcase as (_ & -> & _). by apply elem_of_nil in Hin.
      * destruct Hcase as (_ & -> & _).
        apply list_elem_of_singleton in Hin. injection Hin as -> ->.
        exists sts, s, [], lines. by rewrite Hf.
    + destruct Hcase as (_ & -> & _). by apply elem_of_nil in Hin.
Qed.

(** The same for a whole pass, with the lines traced back to the files
    the pass started from: a source is read from a file that was there, or
    from a trimmed file the pass has written itself. *)
Lemma trimLogs_written_origin files groupLogStatuses p evs :
  (p, evs) ∈ written (trimLogs files groupLogStatuses) →
  ∃ status lines,
    status ∈ groupLogStatuses ∧ 0 < count status
    ∧ p = trimmedPath status
    ∧ (files !! fileLocation status = Some lines
       ∨ ∃ evs', (fileLocation status, evs')
                   ∈ written (trimLogs files groupLogStatuses)
                 ∧ lines = Some <$> evs')
    ∧ evs = filteredEvents status lines ∧ evs ≠ [].
Proof.
  unfold Trim.trimLogs. intros H.
  set (init := {| disk := files; written := []; statuses := [] |}) in *.
  apply foldl_trimOne_written_origin in H
    as [H|(before & status & after & lines & Hsplit & Hd & Hevs & Hne & Hp)];
    [by apply elem_of_nil in H|].
  exists status, lines.
  assert (Hin : status ∈ List.filter (λ s, 0 <? count s) groupLogStatuses).
  { rewrite Hsplit. apply elem_of_app. right. by left. }
  apply list_elem_of_In, filter_In in Hin as [Hin Hc].
  split; [by apply list_elem_of_In|]. split; [by apply Z.ltb_lt|].
  split; [done|]. split; [|done].
  destruct (foldl_trimOne_disk_cases before init (fileLocation status))
    as [Hsame|(evs' & Hin' & Hd')].
  - left. by rewrite <- Hd, Hsame.
  - right. exists evs'. split; [|congruence].
    rewrite Hsplit, foldl_app.
    destruct (foldl_trimOne_disk (status :: after) (foldl trimOne init before))
      as [(new & -> & _) _].
    apply elem_of_app. by left.
Qed.

(** A pass over one source whose file is there. *)
Lemma trimLogs_single files status lines :
  0 < count status →
  files !! fileLocation status = Some lines →
  written (trimLogs files [status])
  = match filteredEvents status lines with
    | [] => []
    | evs => [(trimmedPath status, evs)]
    end.
Proof.
  intros Hc Hf. unfold Trim.trimLogs. cbn [List.filter].
  rewrite (proj2 (Z.ltb_lt _ _) Hc). cbn [foldl].
  unfold Trim.trimOne. cbn [disk written statuses]. rewrite Hf.
  destruct (filteredEvents status lines) as [|e evs]; [done|].
  cbn [length]. 
  assert ((0 <? Z.of_nat (S (length evs))) = true) as -> by (apply Z.ltb_lt; lia).
  reflexivity.
Qed.

(** The events written for a source are its events inside the window, in
    their order, each as it was but for an anonymized [logFile]. *)
Lemma filteredEvents_sources status lines :
  Forall2 (λ src ev, time ev = time src ∧ timestamp ev = timestamp src
                     ∧ fields ev = fields src
                     ∧ (type status ≠ "cli" → ev = src))
          (List.filter (inWindow (endMS - startMS))
             (relativeEvents (fileLocation status) lines))
          (filteredEvents status lines).
Proof.
  unfold Trim.filteredEvents, Trim.survivors.
  destruct (String.eqb_spec (type status) "cli") as [Hcli|Hne].
  - eapply Forall2_impl; [apply anonymize_sources|].
    intros src ev (? & ? & ? & _). by repeat split.
  - apply Forall_Forall2_diag, Forall_forall. intros ev _. by repeat split.
Qed.

(** C5.  Whatever a trim pass writes lies inside the session window.  A
    write of the pass is the trimmed file of one of its sources, and the
    events written are exactly the events of that source whose relative
    time lies in [0, endMS - startMS], in their order, each with its
    relative time as [time] and otherwise as it was read (but for the
    anonymized [logFile] of a CLI source): an event whose relative time is
    outside the window, or not a number, is discarded.  The events of the
    source are the lines the pass read: the file as it was, or a trimmed
    file the pass wrote itself.  A pass over one source whose file is there
    and has an event inside the window writes that file. *)
Theorem written_events_within_window files groupLogStatuses :
  (∀ p evs,
     (p, evs) ∈ written (trimLogs files groupLogStatuses) →
     ∃ status lines,
       status ∈ groupLogStatuses ∧ p = trimmedPath status
       ∧ (files !! fileLocation status = Some lines
          ∨ ∃ evs', (fileLocation status, evs')
                      ∈ written (trimLogs files groupLogStatuses)
                    ∧ lines = Some <$> evs')
       ∧ Forall2 (λ src ev, time ev = time src ∧ timestamp ev = timestamp src
                            ∧ fields ev = fields src
                            ∧ (type status ≠ "cli" → ev = src))
           (List.filter
              (λ src, match time src with
                      | Js.Num r => (0 <=? r) && (r <=? endMS - startMS)
                      | _ => false
                      end)
              (imap (λ i ev,
                       set_time ev
                         (Js.of_number
                            (relativeTime startMS clientStartDate
                               (now (fileLocation status) i) ev)))
                    (omap (λ x, x) lines)))
           evs
       ∧ ∀ ev, ev ∈ evs → ∃ r, time ev = Js.Num r ∧ 0 ≤ r ≤ endMS - startMS)
  ∧ (∀ status lines,
       groupLogStatuses = [status] → 0 < count status →
       files !! fileLocation status = Some lines →
       List.filter
         (λ src, match time src with
                 | Js.Num r => (0 <=? r) && (r <=? endMS - startMS)
                 | _ => false
                 end)
         (imap (λ i ev,
                  set_time ev
                    (Js.of_number
                       (relativeTime startMS clientStartDate
                          (now (fileLocation status) i) ev)))
               (omap (λ x, x) lines)) ≠ [] →
       ∃ evs, written (trimLogs files groupLogStatuses)
              = [(trimmedPath status, evs)]).
Proof.
  split.
  - intros p evs H.
    destruct (trimLogs_written_origin _ _ _ _ H)
      as (status & lines & Hs & _ & Hp & Hread & -> & _).
    exists status, lines. split; [done|]. split; [done|]. split; [done|].
    split.
    + apply (filteredEvents_sources status lines).
    + intros ev. apply filteredEvents_window.
  - intros status lines -> Hc Hf Hne.
    rewrite (trimLogs_single files status lines Hc Hf).
    destruct (filteredEvents status lines) as [|e evs] eqn:Ha; [|by eexists].
    exfalso. apply Hne.
    pose proof (filteredEvents_sources status lines) as Hsrc.
    rewrite Ha in Hsrc. by apply Forall2_nil_inv_r in Hsrc.
Qed.

(** C6.  Within one trim pass the anonymization of the [logFile]
    identifiers of a CLI source is a function and is injective.  The
    events written for the source stand one for one for its events inside
    the window; two of them that carried the same identifier carry the same
    number, two that carried distinct identifiers carry distinct numbers,
    and each number handed out lies between 1 and the number of distinct
    identifiers of the source.  A pass over one CLI source whose file is
    there and has an event inside the window writes one file. *)
Theorem anonymization_consistent_injective files groupLogStatuses :
  (∀ p evs,
     (p, evs) ∈ written (trimLogs files groupLogStatuses) →
     ∃ status lines,
       status ∈ groupLogStatuses ∧ p = trimmedPath status
       ∧ (files !! fileLocation status = Some lines
          ∨ ∃ evs', (fileLocation status, evs')
                      ∈ written (trimLogs files groupLogStatuses)
                    ∧ lines = Some <$> evs')
       ∧ let srcs :=
           List.filter
             (λ src, match time src with
                     | Js.Num r => (0 <=? r) && (r <=? endMS - startMS)
                     | _ => false
                     end)
             (imap (λ i ev,
                      set_time ev
                        (Js.of_number
                           (relativeTime startMS clientStartDate
                              (now (fileLocation status) i) ev)))
                   (omap (λ x, x) lines)) in
         length evs = length srcs
         ∧ (type status = "cli" →
            ∀ i j e1 e2 o1 o2,
              srcs !! i = Some e1 → srcs !! j = Some e2 →
              evs !! i = Some o1 → evs !! j = Some o2 →
              (logFile e1 = logFile e2 → logFile o1 = logFile o2)
              ∧ (logFile e1 ≠ logFile e2 → logFile o1 ≠ logFile o2)
              ∧ (∀ k, hasLogFile e1 = Some k →
                   ∃ n, logFile o1 = Some n
                        ∧ 1 ≤ n ≤ Z.of_nat (size (list_to_set
                                                    (omap hasLogFile srcs)
                                                  : gset Z)))))
  ∧ (∀ status lines,
       groupLogStatuses = [status] → type status = "cli" → 0 < count status →
       files !! fileLocation status = Some lines →
       List.filter
         (λ src, match time src with
                 | Js.Num r => (0 <=? r) && (r <=? endMS - startMS)
                 | _ => false
                 end)
         (imap (λ i ev,
                  set_time ev
                    (Js.of_number
                       (relativeTime startMS clientStartDate
                          (now (fileLocation status) i) ev)))
               (omap (λ x, x) lines)) ≠ [] →
       ∃ evs, written (trimLogs files groupLogStatuses)
              = [(trimmedPath status, evs)]).
Proof.
  split.
  - intros p evs H.
    destruct (trimLogs_written_origin _ _ _ _ H)
      as (status & lines & Hs & _ & Hp & Hread & -> & _).
    exists status, lines. split; [done|]. split; [done|]. split; [done|].
    cbv zeta. unfold Trim.filteredEvents.
    change (List.filter _ (imap _ (omap (λ x, x) lines)))
      with (survivors (fileLocation status) lines).
    split.
    + destruct (String.eqb (type status) "cli"); [apply anonymize_length|done].
    + intros Hcli. rewrite Hcli. cbn [String.eqb]. 
      intros i j e1 e2 o1 o2. apply anonymize_consistent.
  - intros status lines -> Hcli Hc Hf Hne.
    change (List.filter _ (imap _ (omap (λ x, x) lines)))
      with (survivors (fileLocation status) lines) in Hne.
    rewrite (trimLogs_single files status lines Hc Hf).
    unfold Trim.filteredEvents. rewrite Hcli.
    change (String.eqb "cli" "cli") with true. cbn iota.
    destruct (anonymize ∅ (survivors (fileLocation status) lines)) as [|e evs] eqn:Ha.
    + exfalso. apply Hne. apply (f_equal length) in Ha.
      rewrite anonymize_length in Ha. by destruct (survivors _ _).
    + by eexists.
Qed.

End TrimPass.

Section AnonymizeMore.
Import Trim.

(** A handed-out name is truthy. *)
Lemma anonymizedName_pos (m : gmap Z Z) (k : Z) :
  fileMap_ok m → 1 ≤ anonymizedName m k ≤ Z.of_nat (size (remember m k)).
Proof.
  intros Hm. destruct (remember_spec m k Hm) as ((Hrange & _) & Hat & _).
  exact (Hrange k _ Hat).
Qed.

(** Every name of the final map is carried by an output event. *)
Lemma finalMap_used (evs : list event) : ∀ m k v,
  fileMap_ok m →
  finalMap m evs !! k = Some v →
  m !! k = Some v
  ∨ ∃ i e o, evs !! i = Some e ∧ anonymize m evs !! i = Some o
             ∧ hasLogFile e = Some k ∧ logFile o = Some v.
Proof.
  induction evs as [|ev evs IH]; intros m k v Hm Hv; simpl in *; [by left|].
  destruct (hasLogFile ev) as [k0|] eqn:Hk.
  - destruct (remember_spec m k0 Hm) as (Hok & Hat & Hmono & Hnew).
    destruct (IH _ _ _ Hok Hv) as [H|(i & e & o & Hi & Ho & He & Hl)].
    + destruct (Hnew _ _ H) as [->|H']; [|by left].
      right. exists 0%nat, ev, (set_logFile ev (anonymizedName m k0)).
      simpl. repeat split; [done|congruence].
    + right. exists (S i), e, o. by repeat split.
  - destruct (IH _ _ _ Hm Hv) as [H|(i & e & o & Hi & Ho & He & Hl)]; [by left|].
    right. exists (S i), e, o. by repeat split.
Qed.

(** X4.  The numbers that anonymization hands out are exactly [1 .. N],
    [N] being the number of distinct identifiers among the events: every
    number in that range is the [logFile] of some anonymized event, and no
    identified event gets a number outside it. *)
Theorem anonymized_names_are_dense (evs : list event) (n : Z) :
  1 ≤ n ≤ Z.of_nat (size (list_to_set (omap hasLogFile evs) : gset Z))
  ↔ ∃ i e o, evs !! i = Some e ∧ anonymize ∅ evs !! i = Some o
             ∧ is_Some (hasLogFile e) ∧ logFile o = Some n.
Proof.
  rewrite <- finalMap_dom, size_dom.
  destruct (finalMap_spec evs ∅ fileMap_ok_empty) as ((Hrange & _ & Hsurj) & _ & _).
  split.
  - intros Hn. destruct (Hsurj n Hn) as [k Hk].
    destruct (finalMap_used evs ∅ k n fileMap_ok_empty Hk)
      as [H|(i & e & o & Hi & Ho & He & Hl)]; [by rewrite lookup_empty in H|].
    exists i, e, o. by repeat split.
  - intros (i & e & o & Hi & Ho & [k Hk] & Hl).
    destruct (anonymize_lookup evs ∅ i e fileMap_ok_empty Hi)
      as (o' & Ho' & _ & _ & _ & H).
    rewrite Ho in Ho'. injection Ho' as <-. rewrite Hk in H.
    destruct H as (v & Hv & Hl'). rewrite Hl in Hl'. injection Hl' as ->.
    by apply (Hrange k).
Qed.

(** Anonymizing the output of an anonymization, under the map that sends
    each name handed out so far to itself. *)
Lemma anonymize_again (evs : list event) : ∀ m m',
  fileMap_ok m →
  size m' = size m →
  (∀ v, 1 ≤ v ≤ Z.of_nat (size m) → m' !! v = Some v) →
  (∀ v v', m' !! v = Some v' → v' = v ∧ 1 ≤ v ≤ Z.of_nat (size m)) →
  anonymize m' (anonymize m evs) = anonymize m evs.
Proof.
  induction evs as [|ev evs IH]; intros m m' Hm Hsize Hid Hdom; simpl; [done|].
  destruct (hasLogFile ev) as [k|] eqn:Hk; simpl.
  - set (v := anonymizedName m k).
    assert (Hv : 1 ≤ v ≤ Z.of_nat (size (remember m k))) by (by apply anonymizedName_pos).
    assert (Hhas : hasLogFile (set_logFile ev v) = Some v).
    { unfold hasLogFile. simpl.
      destruct (Z.eqb_spec v 0); [lia|done]. }
    rewrite Hhas.
    destruct (remember_spec m k Hm) as (Hok & Hat & Hmono & Hnew).
    assert (Hname : anonymizedName m' v = v).
    { unfold anonymizedName. destruct (m' !! v) as [v'|] eqn:E.
      - simpl. by destruct (Hdom _ _ E).
      - simpl. rewrite Hsize.
        subst v. unfold anonymizedName in *. destruct (m !! k) as [v0|] eqn:E0; simpl in *.
        + destruct Hm as (Hrange & _). specialize (Hrange _ _ E0).
          rewrite Hid in E by done. discriminate.
        + done. }
    rewrite Hname. f_equal.
    apply IH; [done| | |].
    + unfold remember at 1. unfold remember at 1.
      fold v. rewrite Hname.
      destruct (m !! k) as [v0|] eqn:E0.
      * assert (v = v0) as -> by (subst v; unfold anonymizedName; by rewrite E0).
        destruct Hm as (Hrange & _). specialize (Hrange _ _ E0).
        rewrite (Hid v0) by done.
        destruct (Z.eqb_spec v0 0); [lia|]. done.
      * assert (v = Z.of_nat (size m) + 1) as Hv'
          by (subst v; unfold anonymizedName; by rewrite E0).
        assert (m' !! v = None) as E.
        { destruct (m' !! v) as [v'|] eqn:E; [|done].
          destruct (Hdom _ _ E). lia. }
        rewrite E. rewrite !map_size_insert_None by done. by rewrite Hsize.
    + intros w Hw. unfold remember at 1. rewrite Hname.
      destruct (m' !! v) as [v'|] eqn:E.
      * destruct (Hdom _ _ E) as [-> Hr].
        destruct (Z.eqb_spec v 0); [lia|].
        apply Hid. 
        assert (size (remember m k) = size m) as <-; [|done].
        unfold remember. destruct (m !! k) as [v0|] eqn:E0.
        -- destruct Hm as (Hrange & _). specialize (Hrange _ _ E0).
           destruct (Z.eqb_spec v0 0); [lia|done].
        -- exfalso. subst v. unfold anonymizedName in Hr. rewrite E0 in Hr.
           simpl in Hr. lia.
      * rewrite lookup_insert. case_decide as Hc; [by subst|].
        apply Hid.
        assert (size (remember m k) = S (size m)) as Hs.
        { unfold remember. destruct (m !! k) as [v0|] eqn:E0.
          - exfalso. destruct Hm as (Hrange & _). specialize (Hrange _ _ E0).
            assert (v = v0) as Hvv by (subst v; unfold anonymizedName; by rewrite E0).
            rewrite (Hid v) in E by lia. discriminate.
          - by apply map_size_insert_None. }
        assert (v = Z.of_nat (size m) + 1) as Hv'.
        { subst v. unfold anonymizedName.
          destruct (m !! k) as [v0|] eqn:E0; [|done].
          exfalso. destruct Hm as (Hrange & _). specialize (Hrange _ _ E0).
          unfold anonymizedName in E. rewrite E0 in E. simpl in E.
          rewrite (Hid v0) in E by lia. discriminate. }
        lia.
    + intros w w' Hw. unfold remember at 1 in Hw. rewrite Hname in Hw.
      assert (Hle : (size m ≤ size (remember m k))%nat).
      { unfold remember. destruct (m !! k) as [v0|] eqn:E0.
        - destruct (v0 =? 0); [|done].
          rewrite map_size_insert_Some by done. done.
        - rewrite map_size_insert_None by done. lia. }
      destruct (m' !! v) as [v'|] eqn:E.
      * assert (m' !! w = Some w') as Hw'
          by (destruct (v' =? 0); [|done];
              rewrite lookup_insert in Hw; case_decide; [subst|done];
              destruct (Hdom _ _ E) as [-> ?]; congruence).
        destruct (Hdom _ _ Hw'). lia.
      * rewrite lookup_insert in Hw. case_decide as Hc.
        -- injection Hw as <-. subst w. done.
        -- destruct (Hdom _ _ Hw). lia.
  - rewrite Hk. f_equal. by apply IH.
Qed.

(** X5.  Anonymization is stable on its own output: running it again over
    events it has already anonymized changes nothing. *)
Theorem anonymize_idempotent (evs : list event) :
  anonymize ∅ (anonymize ∅ evs) = anonymize ∅ evs.
Proof.
  apply anonymize_again.
  - apply fileMap_ok_empty.
  - done.
  - intros v. rewrite map_size_empty. lia.
  - intros v v' H. by rewrite lookup_empty in H.
Qed.

End AnonymizeMore.

(** ** Instances *)
Section TrimPassInstances.
Import Examples.

Lemma trim_status_accounts_for_written_witness :
  let trimmed := "/rec/clip_dashcam_cli_logs.jsonl" in
  let returned := Trim.set_trimmed (Trim.set_count example_status 3) trimmed in
  let pass :=
    Trim.trimLogs (λ _, "dashcam_cli_logs.jsonl") (λ _, "/rec") example_join
      (λ _ _, 1700000000000) 500 1500 1690000000000 "clip"
      {[ "/rec/dashcam_cli_logs.jsonl" := example_lines ]} [example_status] in
  returned ∈ Trim.statuses pass
  ∧ ∃ s, s ∈ [example_status] ∧ 0 < Trim.count s
         ∧ (returned = s
            ∧ ({[ "/rec/dashcam_cli_logs.jsonl" := example_lines ]}
                 : gmap string (list (option Trim.event)))
              !! Trim.fileLocation s = None
            ∨ returned = Trim.set_count s 0
            ∨ ∃ evs, evs ≠ []
                     ∧ (example_join "/rec"
                          ("clip" +:+ "_" +:+ "dashcam_cli_logs.jsonl"), evs)
                       ∈ Trim.written pass
                     ∧ returned
                       = Trim.set_trimmed
                           (Trim.set_count s (Z.of_nat (length evs)))
                           (example_join "/rec"
                              ("clip" +:+ "_" +:+ "dashcam_cli_logs.jsonl"))).
Proof.
  cbv zeta.
  assert (Hin : Trim.set_trimmed (Trim.set_count example_status 3)
                  "/rec/clip_dashcam_cli_logs.jsonl"
                ∈ Trim.statuses
                    (Trim.trimLogs (λ _, "dashcam_cli_logs.jsonl") (λ _, "/rec")
                       example_join (λ _ _, 1700000000000) 500 1500 1690000000000
                       "clip" {[ "/rec/dashcam_cli_logs.jsonl" := example_lines ]}
                       [example_status])).
  { vm_compute. constructor. }
  split; [exact Hin|].
  exact (trim_status_accounts_for_written
           (λ _, "dashcam_cli_logs.jsonl") (λ _, "/rec") example_join
           (λ _ _, 1700000000000) 500 1500 1690000000000 "clip"
           {[ "/rec/dashcam_cli_logs.jsonl" := example_lines ]} [example_status]
           _ Hin).
Defined.

Lemma written_events_within_window_witness :
  let files : gmap string (list (option Trim.event)) :=
    {[ "/rec/dashcam_cli_logs.jsonl" := example_lines ]} in
  let pass :=
    Trim.trimLogs (λ _, "dashcam_cli_logs.jsonl") (λ _, "/rec") example_join
      (λ _ _, 1700000000000) 500 1500 1690000000000 "clip"
      files [example_status] in
  let evs := [Trim.Event (Js.Num 500) Js.Undefined (Some 1) [];
              Trim.Event (Js.Num 0) Js.Undefined (Some 2) [];
              Trim.Event (Js.Num 700) Js.Undefined (Some 1) []] in
  Trim.written pass = [("/rec/clip_dashcam_cli_logs.jsonl", evs)]
  ∧ ∃ status lines,
      status ∈ [example_status]
      ∧ "/rec/clip_dashcam_cli_logs.jsonl"
        = example_join "/rec" ("clip" +:+ "_" +:+ "dashcam_cli_logs.jsonl")
      ∧ (files !! Trim.fileLocation status = Some lines
         ∨ ∃ evs', (Trim.fileLocation status, evs') ∈ Trim.written pass
                   ∧ lines = Some <$> evs')
      ∧ Forall2 (λ src ev, Trim.time ev = Trim.time src
                           ∧ Trim.timestamp ev = Trim.timestamp src
                           ∧ Trim.fields ev = Trim.fields src
                           ∧ (Trim.type status ≠ "cli" → ev = src))
          (List.filter
             (λ src, match Trim.time src with
                     | Js.Num r => (0 <=? r) && (r <=? 1500 - 500)
                     | _ => false
                     end)
             (imap (λ (i : nat) ev,
                      Trim.set_time ev
                        (Js.of_number
                           (Trim.relativeTime 500 1690000000000
                              1700000000000 ev)))
                   (omap (λ x, x) lines)))
          evs
      ∧ ∀ ev, ev ∈ evs → ∃ r, Trim.time ev = Js.Num r ∧ 0 ≤ r ≤ 1500 - 500.
Proof.
  cbv zeta.
  assert (Hw : Trim.written
                 (Trim.trimLogs (λ _, "dashcam_cli_logs.jsonl") (λ _, "/rec")
                    example_join (λ _ _, 1700000000000) 500 1500 1690000000000
                    "clip" {[ "/rec/dashcam_cli_logs.jsonl" := example_lines ]}
                    [example_status])
               = [("/rec/clip_dashcam_cli_logs.jsonl",
                   [Trim.Event (Js.Num 500) Js.Undefined (Some 1) [];
                    Trim.Event (Js.Num 0) Js.Undefined (Some 2) [];
                    Trim.Event (Js.Num 700) Js.Undefined (Some 1) []])])
    by (vm_compute; reflexivity).
  split; [exact Hw|].
  apply (proj1 (written_events_within_window
                  (λ _, "dashcam_cli_logs.jsonl") (λ _, "/rec") example_join
                  (λ _ _, 1700000000000) 500 1500 1690000000000 "clip"
                  {[ "/rec/dashcam_cli_logs.jsonl" := example_lines ]}
                  [example_status])
           "/rec/clip_dashcam_cli_logs.jsonl").
  rewrite Hw. by left.
Defined.

Lemma anonymization_consistent_injective_witness :
  let files : gmap string (list (option Trim.event)) :=
    {[ "/rec/dashcam_cli_logs.jsonl" := example_lines ]} in
  let pass :=
    Trim.trimLogs (λ _, "dashcam_cli_logs.jsonl") (λ _, "/rec") example_join
      (λ _ _, 1700000000000) 500 1500 1690000000000 "clip"
      files [example_status] in
  Trim.survivors (λ _ _, 1700000000000) 500 1500 1690000000000
    "/rec/dashcam_cli_logs.jsonl" example_lines
  = [Trim.Event (Js.Num 500) Js.Undefined (Some 7) [];
     Trim.Event (Js.Num 0) Js.Undefined (Some 9) [];
     Trim.Event (Js.Num 700) Js.Undefined (Some 7) []]
  ∧ Trim.written pass
    = [("/rec/clip_dashcam_cli_logs.jsonl",
        [Trim.Event (Js.Num 500) Js.Undefined (Some 1) [];
         Trim.Event (Js.Num 0) Js.Undefined (Some 2) [];
         Trim.Event (Js.Num 700) Js.Undefined (Some 1) []])]
  ∧ ∃ evs, Trim.written pass
           = [(example_join "/rec" ("clip" +:+ "_" +:+ "dashcam_cli_logs.jsonl"),
               evs)].
Proof.
  cbv zeta. split; [vm_compute; reflexivity|]. split; [vm_compute; reflexivity|].
  apply (proj2 (anonymization_consistent_injective
                  (λ _, "dashcam_cli_logs.jsonl") (λ _, "/rec") example_join
                  (λ _ _, 1700000000000) 500 1500 1690000000000 "clip"
                  {[ "/rec/dashcam_cli_logs.jsonl" := example_lines ]}
                  [example_status])
           example_status example_lines eq_refl eq_refl eq_refl).
  - reflexivity.
  - vm_compute. discriminate.
Defined.

End TrimPassInstances.

(* ================================================================== *)
(** * Further properties of the capture supervisor *)
(* ================================================================== *)
Section RecorderSessions.
Import Recorder.

(** ** Stopping *)

Lemma stopRecording_idle (h : host) (w : world) :
  currentRecording (vars w) = None →
  stopRecording h w = (Throw NoRecording, w).
Proof.
  intros H. unfold stopRecording, mbind, M_bind, get. simpl. by rewrite H.
Qed.

Lemma stopRecording_cleared (h : host) (w : world) (p : child) :
  currentRecording (vars w) = Some p →
  cleared (snd (stopRecording h w)).
Proof.
  intros Hactive.
  assert (Hwp : wp (stopRecording h) (λ _ w', cleared w') (λ _ w', cleared w') w).
  { unfold stopRecording. apply wp_bind. unfold wp at 1, get. simpl. rewrite Hactive.
    apply wp_try_catch.
    assert (Hhandler : ∀ e w1,
      wp (release h (throw e)) (λ (_ : result) w', cleared w')
         (λ _ w', cleared w') w1)
      by (intros; apply wp_release_throw).
    unfold stopBody.
    do 3 (apply wp_bind_skip; [exact Hhandler|intros ? ?]).
    unfold assemble.
    repeat lazymatch goal with
           | |- wp (set_currentRecording None ≫= _) _ _ _ => fail
           | |- wp (_ ≫= _) _ _ _ =>
               apply wp_bind_skip; [exact Hhandler|intros ? ?]
           end.
    apply (wp_release_ret h). intros e w' _. apply Hhandler. }
  unfold wp in Hwp.
  destruct (stopRecording h w) as [[r|e] w']; exact Hwp.
Qed.

(** X6.  [stopRecording] cannot be repeated: after a call on an active
    session, however it ended, a second call throws 'No recording in
    progress' without issuing any call or touching the module state, and
    [getRecordingStatus] reports that nothing is being recorded. *)
Theorem stop_is_not_repeatable (h h' : host) (w : world) (p : child) :
  currentRecording (vars w) = Some p →
  let w1 := snd (stopRecording h w) in
  stopRecording h' w1 = (Throw NoRecording, w1)
  ∧ getRecordingStatus h' (vars w1) = (false, None).
Proof.
  intros Hp w1. destruct (stopRecording_cleared h w p Hp) as [Hc _]. fold w1 in Hc.
  split; [by apply stopRecording_idle|].
  unfold getRecordingStatus. by rewrite Hc.
Qed.

(** ** Starting *)

(** The calls [startRecording] can issue. *)
Lemma startRecording_calls (h : host) (o : startOptions) (w : world) :
  currentRecording (vars w) = None →
  ∃ l, trace (snd (startRecording h o w)) = trace w ++ l
       ∧ (∀ a, a ∈ l →
            match a with
            | Mkdir _ | Spawn _ | AppTrackerStart | LogsStartNew _ _ _ => True
            | _ => False
            end)
       ∧ match fst (startRecording h o w) with
         | Normal _ => is_Some (currentRecording (vars (snd (startRecording h o w))))
         | Throw _ => currentRecording (vars (snd (startRecording h o w))) = None
         end.
Proof.
  intros H.
  unfold startRecording, generateOutputPath, try_catch, call, emit,
    set_currentRecording, set_recordingStartTime, set_outputPath,
    mbind, M_bind, get, put, ret, mret, M_ret, throw.
  simpl. rewrite H.
  destruct (customOutputPath o) as [p0|]; [destruct (String.eqb p0 "")|];
    simpl;
    repeat match goal with
           | |- context [match ?x with Returns _ => _ | Raises _ => _ end] =>
               destruct x; simpl
           end;
    rewrite <- ?app_assoc; simpl;
    (eexists; split; [reflexivity|]);
    (split; [intros act Ha; rewrite ?elem_of_cons, ?elem_of_nil in Ha;
             intuition (subst; exact I)
            | try done; by eexists]).
Qed.

(** X7.  A start that fails leaves no session behind and undoes nothing
    else: the session slot is free afterwards, and among the calls issued
    there is no kill of the capture process and no stop of the application
    tracker, also when the failure came after the process had been
    spawned. *)
Theorem failed_start_frees_slot_only (h : host) (o : startOptions) (w w' : world)
    (e : error) :
  currentRecording (vars w) = None →
  startRecording h o w = (Throw e, w') →
  currentRecording (vars w') = None
  ∧ e ≠ AlreadyInProgress
  ∧ ∃ l, trace w' = trace w ++ l
         ∧ (AppTrackerStop ∉ l)
         ∧ (∀ pid s, Kill pid s ∉ l).
Proof.
  intros Hidle Hrun.
  destruct (startRecording_calls h o w Hidle) as (l & Hl & Hkinds & Hend).
  pose proof (start_rejects_only_when_active h o w Hidle) as Hne.
  rewrite Hrun in Hl, Hend, Hne. cbn [fst snd] in *.
  split; [done|]. split; [congruence|].
  exists l. split; [done|].
  split; [intros Hin; exact (Hkinds _ Hin)|].
  intros pid s Hin. exact (Hkinds _ Hin).
Qed.


(** A start on which every collaborator answers. *)
Lemma startRecording_run (h : host) (o : startOptions) (w : world) :
  currentRecording (vars w) = None →
  mkdir h = Returns () → appStart h = Returns () → logsStartNew h = Returns () →
  (∀ command, ∃ proc, spawn h command = Returns proc) →
  let directory := join h [cwd h; "tmp"; "recordings"] in
  let generated := λ site,
    join h [directory; "recording-" +:+ dashify (isoString h site) +:+ ".webm"] in
  let custom := match customOutputPath o with
                | Some p => negb (String.eqb p "")
                | None => false
                end in
  let out := if custom then default "" (customOutputPath o)
             else generated "outputPath" in
  let tempFile :=
    join h [dirname h out; "temp-" +:+ pretty (dateNow h "tempFile") +:+ ".webm"] in
  ∃ args proc,
    last args = Some tempFile
    ∧ spawn h (ffmpeg h :: args) = Returns proc
    ∧ startRecording h o w
      = (Normal {| started_outputPath := out; startTime := dateNow h "start" |},
         {| vars := {| currentRecording := Some proc;
                       outputPath := Some out;
                       recordingStartTime := Some (dateNow h "start") |};
            trace := trace w
                     ++ (if custom then [] else [Mkdir directory])
                     ++ [Spawn (ffmpeg h :: args); AppTrackerStart;
                         Mkdir directory;
                         LogsStartNew
                           (removeFirst ".webm"
                              (lastSegment (generated "recorderId") ""))
                           "1" (dirname h out)] |}).
Proof.
  intros Hidle Hmk Happ Hlogs Hspawn directory generated custom out tempFile.
  unfold startRecording, generateOutputPath, try_catch, call, emit,
    set_currentRecording, set_recordingStartTime, set_outputPath,
    mbind, M_bind, get, put, ret, mret, M_ret, throw.
  cbn [vars trace]. rewrite Hidle, Hmk, Happ, Hlogs.
  fold directory.
  exists (getPlatformArgs h (fps o) (includeAudio o)
          ++ (["-c:v"; "libvpx"; "-b:v"; "1M"; "-pix_fmt"; "yuv420p";
               "-r"; pretty (fps o); "-g"; "30"; "-f"; "webm";
               "-flush_packets"; "1"; "-max_muxing_queue_size"; "1024"]
              ++ (if includeAudio o then ["-c:a"; "libopus"; "-b:a"; "128k"]
                  else []))
          ++ ["-y"; tempFile]).
  subst custom out tempFile generated directory.
  destruct (customOutputPath o) as [p0|]; [destruct (String.eqb p0 "")|];
    cbn [negb default vars trace currentRecording outputPath recordingStartTime];
    match goal with
    | |- context [match spawn h ?c with Returns _ => _ | Raises _ => _ end] =>
        destruct (Hspawn c) as [proc Hproc]; exists proc;
        (split; [by rewrite !last_app|]);
        (split; [exact Hproc|]);
        rewrite Hproc
    end;
    cbn [vars trace currentRecording outputPath recordingStartTime];
    rewrite <- ?app_assoc; reflexivity.
Qed.

(** X8.  A start on which every collaborator answers leaves an active
    session: the handle is the one [execa] returned, the output path is the
    custom path when one was given and a generated one otherwise, the start
    time returned is the one recorded, the capture writes to a temporary
    file next to the output path, which is the last argument of the
    command, and the log tracker is started for the directory of the output
    path under an identifier taken from a freshly generated path. *)
Theorem start_opens_session (h : host) (o : startOptions) (w : world) :
  currentRecording (vars w) = None →
  mkdir h = Returns () → appStart h = Returns () → logsStartNew h = Returns () →
  (∀ command, ∃ proc, spawn h command = Returns proc) →
  let directory := join h [cwd h; "tmp"; "recordings"] in
  let generated := λ site,
    join h [directory; "recording-" +:+ dashify (isoString h site) +:+ ".webm"] in
  let out := match customOutputPath o with
             | Some p => if String.eqb p "" then generated "outputPath" else p
             | None => generated "outputPath"
             end in
  ∃ r w' command proc,
    startRecording h o w = (Normal r, w')
    ∧ started_outputPath r = out
    ∧ outputPath (vars w') = Some out
    ∧ recordingStartTime (vars w') = Some (startTime r)
    ∧ currentRecording (vars w') = Some proc
    ∧ spawn h command = Returns proc
    ∧ Spawn command ∈ trace w'
    ∧ last command
      = Some (join h [dirname h out;
                      "temp-" +:+ pretty (dateNow h "tempFile") +:+ ".webm"])
    ∧ LogsStartNew
        (removeFirst ".webm" (lastSegment (generated "recorderId") ""))
        "1" (dirname h out) ∈ trace w'.
Proof.
  intros Hidle Hmk Happ Hlogs Hspawn directory generated out.
  destruct (startRecording_run h o w Hidle Hmk Happ Hlogs Hspawn)
    as (args & proc & Hlast & Hproc & Hrun).
  cbv zeta in Hrun, Hlast.
  change (join h [join h [cwd h; "tmp"; "recordings"];
                  "recording-" +:+ dashify (isoString h "outputPath") +:+ ".webm"])
    with (generated "outputPath") in Hrun, Hlast.
  assert (Hout : (if match customOutputPath o with
                     | Some p => negb (String.eqb p "")
                     | None => false
                     end
                  then default "" (customOutputPath o)
                  else generated "outputPath") = out).
  { subst out. destruct (customOutputPath o) as [p0|]; [|done]. simpl.
    by destruct (String.eqb p0 ""). }
  rewrite Hout in Hrun, Hlast.
  eexists _, _, (ffmpeg h :: args), proc. split; [exact Hrun|].
  cbn [started_outputPath startTime vars trace outputPath recordingStartTime
       currentRecording].
  do 5 (split; [done|]).
  split; [|split].
  - rewrite !elem_of_app. right. right. by left.
  - destruct args as [|a args]; [done|]. exact Hlast.
  - rewrite !elem_of_app. right. right. do 3 right. by left.
Qed.

(** X9.  A session started and then stopped: when [startRecording] ran
    on a host on which every collaborator answered and [execa] returned a
    child whose [spawnargs] are the command, and [stopRecording] is then
    applied to the state that start left, on a host on which the capture
    delivered, one finalization attempt succeeds and the later steps
    answer, the stop returns, and the identifier under which it stops the
    log tracker is the one under which start started it, provided the
    output path was generated (no custom path), the clock read the same at
    the two places where start generated a path, and [path.basename] is the
    last segment of a path.  No other [logsTrackerManager.stop] is issued
    by the stop. *)
Theorem log_tracker_id_round_trip (h h' : host) (o : startOptions) (w : world) :
  currentRecording (vars w) = None →
  mkdir h = Returns () → appStart h = Returns () → logsStartNew h = Returns () →
  (∀ command, ∃ proc, spawn h command = Returns proc) →
  (∀ command proc, spawn h command = Returns proc → spawnargs proc = command) →
  customOutputPath o = None →
  isoString h "recorderId" = isoString h "outputPath" →
  (∀ p, basename h' p = lastSegment p "") →
  captureDelivered h' → othersReturn h' →
  is_Some (List.find (λ i, attemptSucceeded (attempt h' i)) (seq 0 3)) →
  let w1 := snd (startRecording h o w) in
  let recorderId :=
    removeFirst ".webm"
      (lastSegment
         (join h [join h [cwd h; "tmp"; "recordings"];
                  "recording-" +:+ dashify (isoString h "recorderId") +:+ ".webm"])
         "") in
  ∃ res started stopped,
    trace w1 = trace w ++ started
    ∧ stopRecording h' w1
      = (Normal res,
         {| vars := released (vars w1); trace := trace w1 ++ stopped |})
    ∧ (∃ directory, LogsStartNew recorderId "1" directory ∈ started)
    ∧ LogsStop recorderId "1" ∈ stopped
    ∧ ∀ id screen, LogsStop id screen ∈ stopped → id = recorderId.
Proof.
  intros Hidle Hmk Happ Hlogs Hspawn Hargs Hcustom Hclock Hbase Hcap Hothers
    Hfound w1 recorderId.
  destruct (startRecording_run h o w Hidle Hmk Happ Hlogs Hspawn)
    as (args & proc & Hlast & Hproc & Hrun).
  cbv zeta in Hrun, Hlast. rewrite Hcustom in Hrun, Hlast.
  assert (Hp : last (spawnargs proc)
               = Some (join h [dirname h
                                 (join h [join h [cwd h; "tmp"; "recordings"];
                                          "recording-"
                                          +:+ dashify (isoString h "outputPath")
                                          +:+ ".webm"]);
                               "temp-" +:+ pretty (dateNow h "tempFile")
                               +:+ ".webm"])).
  { rewrite (Hargs _ _ Hproc). destruct args as [|a args]; [done|]. exact Hlast. }
  subst w1. rewrite Hrun. cbn [snd].
  match goal with
  | |- context [stopRecording h' ?w1] =>
      pose proof (stopRecording_run h' w1 proc _ _ eq_refl eq_refl Hp Hcap Hothers)
        as Hstop
  end.
  cbn zeta in Hstop.
  pose proof (three_attempts h') as Hsum.
  destruct Hfound as [k Hk]. rewrite Hk in Hsum.
  destruct Hsum as (_ & _ & Hres & Hn). rewrite Hres, Hn in Hstop.
  destruct Hstop as [res Hstop].
  eexists res, _, _. split; [reflexivity|]. split; [exact Hstop|].
  split; [|split].
  - eexists. rewrite !elem_of_app. right. do 3 right. left.
  - rewrite !elem_of_app. right. right. right.
    unfold afterTrace. rewrite Hbase. right. subst recorderId.
    rewrite Hclock. left.
  - intros id screen Hin.
    rewrite app_assoc in Hin. apply elem_of_app in Hin as [Hin|Hin].
    + exfalso.
      eapply (no_logs_stop_before_assemble h' proc _ (S k) 0%nat id screen).
      rewrite !elem_of_app. apply elem_of_app in Hin as [Hin|Hin];
        [left; exact Hin|right; left; exact Hin].
    + unfold afterTrace in Hin. rewrite Hbase in Hin.
      rewrite !elem_of_cons, elem_of_nil in Hin.
      destruct Hin as [Hin|[Hin|[Hin|[Hin|[Hin|[Hin|[]]]]]]]; try discriminate.
      injection Hin as -> _. subst recorderId. by rewrite Hclock.
Qed.

End RecorderSessions.

(** ** Instances *)
Section RecorderSessionsInstances.
Import Recorder Examples Scenarios.

Lemma stop_is_not_repeatable_witness :
  let w1 := snd (stopRecording (example_host never_finalizes) example_session) in
  stopRecording (example_host third_time_lucky) w1 = (Throw NoRecording, w1)
  ∧ getRecordingStatus (example_host third_time_lucky) (vars w1) = (false, None).
Proof.
  exact (stop_is_not_repeatable (example_host never_finalizes)
           (example_host third_time_lucky) example_session example_child eq_refl).
Defined.

Lemma failed_start_frees_slot_only_witness :
  let w' := snd (startRecording tracker_refuses default_options idle_world) in
  fst (startRecording tracker_refuses default_options idle_world)
  = Throw (External "applicationTracker.start")
  ∧ (∃ command, Spawn command ∈ trace w')
  ∧ currentRecording (vars w') = None
  ∧ External "applicationTracker.start" ≠ AlreadyInProgress
  ∧ ∃ l, trace w' = trace idle_world ++ l
         ∧ (AppTrackerStop ∉ l)
         ∧ (∀ pid s, Kill pid s ∉ l).
Proof.
  cbv zeta. split; [reflexivity|]. split.
  - eexists. vm_compute. right. left.
  - apply (failed_start_frees_slot_only tracker_refuses default_options idle_world
             (snd (startRecording tracker_refuses default_options idle_world))
             (External "applicationTracker.start")).
    + reflexivity.
    + reflexivity.
Defined.

Lemma start_opens_session_witness :
  let h := example_host third_time_lucky in
  let out := "/work/tmp/recordings/recording-2024-01-01T10-20-30-123Z.webm" in
  ∃ r w' command proc,
    startRecording h default_options idle_world = (Normal r, w')
    ∧ started_outputPath r = out
    ∧ outputPath (vars w') = Some out
    ∧ recordingStartTime (vars w') = Some (startTime r)
    ∧ currentRecording (vars w') = Some proc
    ∧ spawn h command = Returns proc
    ∧ Spawn command ∈ trace w'
    ∧ last command = Some "/work/tmp/recordings/temp-9000.webm"
    ∧ LogsStartNew "recording-2024-01-01T10-20-30-123Z" "1" "/work/tmp/recordings"
      ∈ trace w'.
Proof.
  exact (start_opens_session (example_host third_time_lucky) default_options
           idle_world eq_refl eq_refl eq_refl eq_refl
           (λ command, ex_intro _ _ eq_refl)).
Defined.

Lemma log_tracker_id_round_trip_witness :
  let h := example_host never_finalizes in
  let h' := example_host third_time_lucky in
  let w1 := snd (startRecording h default_options idle_world) in
  ∃ res started stopped,
    trace w1 = trace idle_world ++ started
    ∧ stopRecording h' w1
      = (Normal res,
         {| vars := released (vars w1); trace := trace w1 ++ stopped |})
    ∧ (∃ directory,
         LogsStartNew "recording-2024-01-01T10-20-30-123Z" "1" directory ∈ started)
    ∧ LogsStop "recording-2024-01-01T10-20-30-123Z" "1" ∈ stopped
    ∧ ∀ id screen, LogsStop id screen ∈ stopped
                   → id = "recording-2024-01-01T10-20-30-123Z".
Proof.
  exact (log_tracker_id_round_trip (example_host never_finalizes)
           (example_host third_time_lucky) default_options
           idle_world eq_refl eq_refl eq_refl eq_refl
           (λ command, ex_intro _ _ eq_refl)
           (λ command proc (H : Returns _ = Returns proc),
              match H in _ = r
                    return match r with
                           | Returns q => spawnargs q = command
                           | Raises _ => True
                           end
              with eq_refl => eq_refl end)
           eq_refl eq_refl (λ p, eq_refl)
           (proj1 (example_host_cooperates third_time_lucky))
           (proj2 (example_host_cooperates third_time_lucky))
           (ex_intro _ 2%nat eq_refl)).
Defined.

End RecorderSessionsInstances.

(* ================================================================== *)
(** * Further properties of the log router *)
(* ================================================================== *)
Section TrackingSubscriptions.
Import Tracking.

Variable verifyPattern : string → option string → bool.
Variable updateTabsState : event → gmap Z tab → gmap Z tab.

Local Abbreviation matches := (Tracking.matches verifyPattern).
Local Abbreviation wanted := (Tracking.wanted verifyPattern).
Local Abbreviation handleEvent := (Tracking.handleEvent verifyPattern updateTabsState).

(** ** The subscription map *)

Lemma map_get_set_eq cb p (l : list (callback * string)) :
  map_get cb (map_set cb p l) = Some p.
Proof.
  induction l as [|[k v] l IH]; simpl.
  - by rewrite Nat.eqb_refl.
  - destruct (Nat.eqb_spec k cb) as [->|Hne]; simpl.
    + by rewrite Nat.eqb_refl.
    + by destruct (Nat.eqb_spec k cb).
Qed.

Lemma map_get_set_ne cb cb' p (l : list (callback * string)) :
  cb' ≠ cb → map_get cb' (map_set cb p l) = map_get cb' l.
Proof.
  intros Hne. induction l as [|[k v] l IH]; simpl.
  - by destruct (Nat.eqb_spec cb cb').
  - destruct (Nat.eqb_spec k cb) as [->|Hk]; simpl.
    + by destruct (Nat.eqb_spec cb cb').
    + by rewrite IH.
Qed.

Lemma map_get_delete_eq cb (l : list (callback * string)) :
  map_get cb (map_delete cb l) = None.
Proof.
  unfold map_delete. induction l as [|[k v] l IH]; simpl; [done|].
  destruct (Nat.eqb_spec k cb) as [->|Hk]; simpl; [done|].
  by destruct (Nat.eqb_spec k cb).
Qed.

Lemma map_get_delete_ne cb cb' (l : list (callback * string)) :
  cb' ≠ cb → map_get cb' (map_delete cb l) = map_get cb' l.
Proof.
  intros Hne. unfold map_delete. induction l as [|[k v] l IH]; simpl; [done|].
  destruct (Nat.eqb_spec k cb) as [->|Hk]; simpl.
  - by destruct (Nat.eqb_spec cb cb').
  - by rewrite IH.
Qed.

Lemma keys_map_set cb p (l : list (callback * string)) :
  fst <$> map_set cb p l
  = if bool_decide (cb ∈ fst <$> l) then fst <$> l else (fst <$> l) ++ [cb].
Proof.
  induction l as [|[k v] l IH]; [done|].
  cbn [map_set]. destruct (Nat.eqb_spec k cb) as [->|Hk]; rewrite !fmap_cons; cbn [fst].
  - rewrite bool_decide_eq_true_2; [done|]. by left.
  - rewrite IH. case_bool_decide as H1; case_bool_decide as H2; try done.
    + exfalso. apply H2. by right.
    + exfalso. apply elem_of_cons in H2 as [?|?]; [congruence|done].
Qed.

Lemma keys_map_delete cb (l : list (callback * string)) :
  fst <$> map_delete cb l = List.filter (λ k, negb (Nat.eqb k cb)) (fst <$> l).
Proof.
  unfold map_delete. induction l as [|[k v] l IH]; [done|].
  rewrite fmap_cons. cbn [List.filter fst].
  destruct (Nat.eqb k cb); cbn [negb]; rewrite ?fmap_cons, IH; done.
Qed.

Lemma map_get_None_keys cb (l : list (callback * string)) :
  map_get cb l = None → cb ∉ fst <$> l.
Proof.
  induction l as [|[k v] l IH]; simpl; [intros _; apply not_elem_of_nil|].
  destruct (Nat.eqb_spec k cb) as [->|Hk]; [done|].
  intros H. apply not_elem_of_cons. split; [done|]. by apply IH.
Qed.

(** ** Dispatch of an event that is not a navigation event *)

(** X10.  Unsubscribing a handler silences it and loses no other
    handler: for an event that is not a navigation event, the handler is
    not called after [unsubscribe], and every other handler that was called
    before is still called.  When the event has a payload, the other
    handlers called are exactly those called before.  (Without a payload
    the dispatch stops at the first handler whose pattern needs the tab;
    taking that handler out can let the dispatch reach handlers after
    it.) *)
Theorem unsubscribe_silences_only_that_handler (m : manager) (ev : event)
    (cb : callback) :
  isNavigation (type ev) = false →
  (cb ∉ delivered (snd (handleEvent (unsubscribe cb m) ev)))
  ∧ (∀ cb', cb' ≠ cb →
       cb' ∈ delivered (snd (handleEvent m ev)) →
       cb' ∈ delivered (snd (handleEvent (unsubscribe cb m) ev)))
  ∧ (is_Some (payload ev) →
     ∀ cb', cb' ≠ cb →
       cb' ∈ delivered (snd (handleEvent (unsubscribe cb m) ev)) →
       cb' ∈ delivered (snd (handleEvent m ev))).
Proof.
  intros Hnav.
  assert (Hboth : is_Some (payload ev) → ∀ cb', cb' ≠ cb →
            (cb' ∈ delivered (snd (handleEvent (unsubscribe cb m) ev))
             ↔ cb' ∈ delivered (snd (handleEvent m ev)))).
  { intros Hp cb' Hne.
    rewrite !(handleEvent_delivered verifyPattern updateTabsState _ _ Hnav Hp).
    unfold eventCallbacks. cbn [unsubscribe patternsByCallback tabs].
    rewrite keys_map_delete, (map_get_delete_ne _ _ _ Hne).
    rewrite list_elem_of_In, filter_In, <- list_elem_of_In.
    destruct (Nat.eqb_spec cb' cb); [done|]. simpl. tauto. }
  split; [|split].
  - unfold Tracking.handleEvent. rewrite Hnav. cbn [snd]. intros Hin.
    apply (λ H, elem_of_sublist _ _ _ H (forEachCallback_sublist _ _ _ _ _)) in Hin.
    unfold eventCallbacks in Hin. cbn [unsubscribe patternsByCallback] in Hin.
    rewrite keys_map_delete, list_elem_of_In, filter_In in Hin.
    destruct Hin as [_ Hin]. by rewrite Nat.eqb_refl in Hin.
  - intros cb' Hne. destruct (payload ev) as [p|] eqn:Hp.
    + apply Hboth; [by eexists|done].
    + unfold Tracking.handleEvent. rewrite Hnav. cbn [snd].
      unfold eventCallbacks. cbn [unsubscribe patternsByCallback tabs].
      rewrite keys_map_delete.
      apply forEachCallback_no_payload_without; [done| |done].
      intros k Hk. cbn [patternsByCallback]. by apply map_get_delete_ne.
  - intros Hp cb' Hne. by apply Hboth.
Qed.

(** X11.  A handler holds one subscription: after [subscribe(P, cb)] the
    handler is dispatched on [P] alone, whatever pattern it was subscribed
    with before.  It gets an event that is not a navigation event and has
    a payload exactly when [P] is not empty and either matches the current
    or the previous URL of the tab the event names or is named like a
    member of [Object.prototype]; and the other handlers are called as
    before. *)
Theorem subscribe_replaces_pattern (m : manager) (ev : event) (cb : callback)
    (P : string) :
  isNavigation (type ev) = false →
  is_Some (payload ev) →
  (cb ∈ delivered (snd (handleEvent (subscribe P cb m) ev))
   ↔ P ≠ ""
     ∧ (Js.inherited P = true
        ∨ matches (updateTabsState ev (tabs m)) ev P = true))
  ∧ ∀ cb', cb' ≠ cb →
      (cb' ∈ delivered (snd (handleEvent (subscribe P cb m) ev))
       ↔ cb' ∈ delivered (snd (handleEvent m ev))).
Proof.
  intros Hnav Hp. split.
  - rewrite (handleEvent_delivered verifyPattern updateTabsState _ _ Hnav Hp).
    unfold eventCallbacks. cbn [subscribe patternsByCallback tabs].
    rewrite map_get_set_eq, keys_map_set. split.
    + intros (_ & P' & [= <-] & Hne & Hm). done.
    + intros (Hne & Hm). split; [|by exists P].
      case_bool_decide; [done|]. apply elem_of_app. right. by left.
  - intros cb' Hne.
    rewrite !(handleEvent_delivered verifyPattern updateTabsState _ _ Hnav Hp).
    unfold eventCallbacks. cbn [subscribe patternsByCallback tabs].
    rewrite keys_map_set, (map_get_set_ne _ _ _ _ Hne).
    case_bool_decide; [done|].
    rewrite elem_of_app, list_elem_of_singleton. split.
    + intros ([?|?] & ?); [done|congruence].
    + intros (? & ?). split; [by left|done].
Qed.

(** ** Handlers are called once *)

Lemma NoDup_keys_subscribe P cb (m : manager) :
  NoDup (eventCallbacks m) → NoDup (eventCallbacks (subscribe P cb m)).
Proof.
  unfold eventCallbacks. cbn [subscribe patternsByCallback].
  rewrite keys_map_set. intros H. case_bool_decide as Hin; [done|].
  apply NoDup_app. split; [done|]. split; [|apply NoDup_singleton].
  intros x Hx Hx'. apply list_elem_of_singleton in Hx'. by subst.
Qed.

Lemma NoDup_keys_unsubscribe cb (m : manager) :
  NoDup (eventCallbacks m) → NoDup (eventCallbacks (unsubscribe cb m)).
Proof.
  unfold eventCallbacks. cbn [unsubscribe patternsByCallback].
  rewrite keys_map_delete. intros H.
  induction H as [|x l Hx Hl IH]; simpl; [constructor|].
  destruct (Nat.eqb x cb); simpl; [done|]. constructor; [|done].
  rewrite list_elem_of_In, filter_In, <- list_elem_of_In. tauto.
Qed.

Lemma NoDup_set_add cb (s : list callback) : NoDup s → NoDup (set_add cb s).
Proof.
  unfold set_add. intros H. destruct (existsb (Nat.eqb cb) s) eqn:E; [done|].
  apply NoDup_app. split; [done|]. split; [|apply NoDup_singleton].
  intros x Hx Hx'. apply list_elem_of_singleton in Hx'. subst x.
  assert (existsb (Nat.eqb cb) s = true); [|congruence].
  apply existsb_exists. exists cb. split; [by apply list_elem_of_In|].
  apply Nat.eqb_refl.
Qed.

Lemma NoDup_filter_list {A} (f : A → bool) (l : list A) :
  NoDup l → NoDup (List.filter f l).
Proof.
  induction 1 as [|x l Hx Hl IH]; simpl; [constructor|].
  destruct (f x); [|done]. constructor; [|done].
  rewrite list_elem_of_In, filter_In, <- list_elem_of_In. tauto.
Qed.

(** X12.  No handler is called twice for one event.  The keys of the
    subscription map and the members of the set of global handlers stay
    free of repetitions under [subscribe], [unsubscribe] and
    [subscribeToGlobalTabsAndNavigation]; and with that, whatever the
    event, the handlers of one dispatch are pairwise distinct. *)
Theorem handlers_called_at_most_once (m : manager) (ev : event) :
  NoDup (eventCallbacks m) →
  NoDup (globalTabsAndNavigationCallbacks m) →
  NoDup (delivered (snd (handleEvent m ev)))
  ∧ (∀ P cb, NoDup (eventCallbacks (subscribe P cb m))
             ∧ NoDup (globalTabsAndNavigationCallbacks (subscribe P cb m)))
  ∧ (∀ cb, NoDup (eventCallbacks (unsubscribe cb m))
           ∧ NoDup (globalTabsAndNavigationCallbacks (unsubscribe cb m)))
  ∧ (∀ cb, NoDup (eventCallbacks (subscribeToGlobalTabsAndNavigation cb m))
           ∧ NoDup (globalTabsAndNavigationCallbacks
                      (subscribeToGlobalTabsAndNavigation cb m))).
Proof.
  intros Hk Hg. split; [|split; [|split]].
  - unfold Tracking.handleEvent.
    destruct (isNavigation (type ev)); cbn [snd delivered]; [done|].
    set (m' := {| tabs := updateTabsState ev (tabs m);
                  patternsByCallback := patternsByCallback m;
                  globalTabsAndNavigationCallbacks :=
                    globalTabsAndNavigationCallbacks m |}).
    exact (sublist_NoDup _ _ Hk (forEachCallback_sublist _ _ _ _ _)).
  - intros P cb. split; [by apply NoDup_keys_subscribe|done].
  - intros cb. split; [by apply NoDup_keys_unsubscribe|done].
  - intros cb. split; [done|by apply NoDup_set_add].
Qed.

(** X13.  A navigation event goes to the global handlers and to nobody
    else: once a handler has subscribed with
    [subscribeToGlobalTabsAndNavigation], each of the five navigation
    events is handed to it, once even when it subscribed twice, in the
    order of subscription, whatever its payload; a handler that holds only
    a pattern subscription does not get it. *)
Theorem navigation_goes_to_global_handlers (m : manager) (ev : event)
    (cb : callback) :
  isNavigation (type ev) = true →
  NoDup (globalTabsAndNavigationCallbacks m) →
  let m1 := subscribeToGlobalTabsAndNavigation cb m in
  let m2 := subscribeToGlobalTabsAndNavigation cb m1 in
  delivered (snd (handleEvent m2 ev)) = delivered (snd (handleEvent m1 ev))
  ∧ delivered (snd (handleEvent m1 ev))
    = (if bool_decide (cb ∈ globalTabsAndNavigationCallbacks m)
       then globalTabsAndNavigationCallbacks m
       else globalTabsAndNavigationCallbacks m ++ [cb])
  ∧ NoDup (delivered (snd (handleEvent m1 ev)))
  ∧ typeError (snd (handleEvent m1 ev)) = false
  ∧ ∀ cb', cb' ∈ delivered (snd (handleEvent m1 ev)) →
           cb' = cb ∨ cb' ∈ globalTabsAndNavigationCallbacks m.
Proof.
  intros Hnav Hg m1 m2.
  assert (Hadd : ∀ s, set_add cb s
                      = if bool_decide (cb ∈ s) then s else s ++ [cb]).
  { intros s. unfold set_add. destruct (existsb (Nat.eqb cb) s) eqn:E.
    - apply existsb_exists in E as (x & Hx & Hxc).
      apply Nat.eqb_eq in Hxc as <-.
      rewrite bool_decide_eq_true_2; [done|by apply list_elem_of_In].
    - rewrite bool_decide_eq_false_2; [done|]. intros Hin.
      assert (existsb (Nat.eqb cb) s = true); [|congruence].
      apply existsb_exists. exists cb. split; [by apply list_elem_of_In|].
      apply Nat.eqb_refl. }
  unfold Tracking.handleEvent. rewrite Hnav. cbn [snd delivered typeError].
  subst m2 m1. cbn [subscribeToGlobalTabsAndNavigation globalTabsAndNavigationCallbacks].
  rewrite !Hadd.
  split; [|split; [|split; [|split]]].
  - destruct (bool_decide (cb ∈ globalTabsAndNavigationCallbacks m)) eqn:E.
    + by rewrite E.
    + rewrite bool_decide_eq_true_2; [done|]. apply elem_of_app. right. by left.
  - done.
  - rewrite <- Hadd. by apply NoDup_set_add.
  - done.
  - intros cb'. case_bool_decide; [by right|].
    rewrite elem_of_app, list_elem_of_singleton. tauto.
Qed.

End TrackingSubscriptions.

(** ** Instances *)
Section TrackingSubscriptionsInstances.
Import Tracking Examples Scenarios.

Lemma unsubscribe_silences_only_that_handler_witness :
  let sent m :=
    delivered (snd (handleEvent example_verifyPattern (λ _ tbs, tbs) m
                      example_request)) in
  (0%nat ∉ sent (unsubscribe 0%nat example_manager))
  ∧ (∀ cb', cb' ≠ 0%nat →
       cb' ∈ sent example_manager →
       cb' ∈ sent (unsubscribe 0%nat example_manager))
  ∧ (is_Some (payload example_request) →
     ∀ cb', cb' ≠ 0%nat →
       cb' ∈ sent (unsubscribe 0%nat example_manager) →
       cb' ∈ sent example_manager).
Proof.
  exact (unsubscribe_silences_only_that_handler example_verifyPattern
           (λ _ tbs, tbs) example_manager example_request 0%nat eq_refl).
Defined.

Lemma subscribe_replaces_pattern_witness :
  let sent m :=
    delivered (snd (handleEvent example_verifyPattern (λ _ tbs, tbs) m
                      example_request)) in
  let P := "https://new.example/*" in
  (0%nat ∈ sent (subscribe P 0%nat example_manager)
   ↔ P ≠ ""
     ∧ (Js.inherited P = true
        ∨ Tracking.matches example_verifyPattern (tabs example_manager)
            example_request P = true))
  ∧ ∀ cb', cb' ≠ 0%nat →
      (cb' ∈ sent (subscribe P 0%nat example_manager)
       ↔ cb' ∈ sent example_manager).
Proof.
  exact (subscribe_replaces_pattern example_verifyPattern (λ _ tbs, tbs)
           example_manager example_request 0%nat "https://new.example/*" eq_refl
           (ex_intro _ _ eq_refl)).
Defined.

Lemma handlers_called_at_most_once_witness :
  NoDup (delivered (snd (handleEvent example_verifyPattern (λ _ tbs, tbs)
                           example_manager example_request)))
  ∧ (∀ P cb, NoDup (eventCallbacks (subscribe P cb example_manager))
             ∧ NoDup (globalTabsAndNavigationCallbacks
                        (subscribe P cb example_manager)))
  ∧ (∀ cb, NoDup (eventCallbacks (unsubscribe cb example_manager))
           ∧ NoDup (globalTabsAndNavigationCallbacks
                      (unsubscribe cb example_manager)))
  ∧ (∀ cb, NoDup (eventCallbacks
                    (subscribeToGlobalTabsAndNavigation cb example_manager))
           ∧ NoDup (globalTabsAndNavigationCallbacks
                      (subscribeToGlobalTabsAndNavigation cb example_manager))).
Proof.
  apply (handlers_called_at_most_once example_verifyPattern (λ _ tbs, tbs)
           example_manager example_request).
  - apply (bool_decide_unpack _). vm_compute. exact I.
  - constructor.
Defined.

Lemma navigation_goes_to_global_handlers_witness :
  let m1 := subscribeToGlobalTabsAndNavigation 5%nat example_manager in
  let m2 := subscribeToGlobalTabsAndNavigation 5%nat m1 in
  let sent m :=
    delivered (snd (handleEvent example_verifyPattern (λ _ tbs, tbs) m
                      tab_activated)) in
  sent m2 = sent m1
  ∧ sent m1
    = (if bool_decide (5%nat ∈ globalTabsAndNavigationCallbacks example_manager)
       then globalTabsAndNavigationCallbacks example_manager
       else globalTabsAndNavigationCallbacks example_manager ++ [5%nat])
  ∧ NoDup (sent m1)
  ∧ typeError (snd (handleEvent example_verifyPattern (λ _ tbs, tbs) m1
                      tab_activated)) = false
  ∧ ∀ cb', cb' ∈ sent m1 →
           cb' = 5%nat ∨ cb' ∈ globalTabsAndNavigationCallbacks example_manager.
Proof.
  exact (navigation_goes_to_global_handlers example_verifyPattern (λ _ tbs, tbs)
           example_manager tab_activated 5%nat eq_refl NoDup_nil_2).
Defined.

End TrackingSubscriptionsInstances.

(* ================================================================== *)
(** * Properties of the life cycle of the log router *)
(* ================================================================== *)
Section RouterFacts.
Import Tracking Router.

Variable verifyPattern : string → option string → bool.
Variable updateTabsState : event → gmap Z tab → gmap Z tab.

Local Abbreviation exec := (Router.exec verifyPattern updateTabsState).
Local Abbreviation run := (Router.run verifyPattern updateTabsState).

Lemma listening_on_app c l1 l2 :
  listening_on c (l1 ++ l2) = listening_on c l1 + listening_on c l2.
Proof.
  unfold listening_on. rewrite foldl_app. generalize (foldl
    (λ n e, match e with
            | Listen c0 => if String.eqb c0 c then n + 1 else n
            | Unlisten c0 => if String.eqb c0 c then n - 1 else n
            | _ => n
            end) 0 l1) as a.
  induction l2 as [|e l2 IH] using rev_ind; intros a; [simpl; lia|].
  rewrite !foldl_app. simpl. rewrite IH.
  destruct e as [| |c0|c0|]; try lia; destruct (String.eqb c0 c); lia.
Qed.

Lemma listening_on_handed c (l : list callback) (t : string) :
  listening_on c ((λ cb, Handed cb t) <$> l) = 0.
Proof.
  induction l as [|x l IH] using rev_ind; [done|].
  by rewrite fmap_app, listening_on_app, IH.
Qed.

Lemma listening_on_both c msg :
  listening_on c [Broadcast msg; Listen "message"; Listen "connection"]
  = if bool_decide (c ∈ ["message"; "connection"]) then 1 else 0.
Proof.
  unfold listening_on. cbn [foldl fmap list_fmap]. case_bool_decide as H;
    rewrite !elem_of_cons, elem_of_nil in H.
  - destruct H as [->|[->|[]]]; reflexivity.
  - destruct (String.eqb_spec "message" c); [subst; tauto|].
    destruct (String.eqb_spec "connection" c); [subst; tauto|]. done.
Qed.

Lemma listening_on_unlisten_both c :
  listening_on c (Unlisten <$> ["message"; "connection"])
  = if bool_decide (c ∈ ["message"; "connection"]) then -1 else 0.
Proof.
  unfold listening_on. cbn [foldl fmap list_fmap]. case_bool_decide as H;
    rewrite !elem_of_cons, elem_of_nil in H.
  - destruct H as [->|[->|[]]]; reflexivity.
  - destruct (String.eqb_spec "message" c); [subst; tauto|].
    destruct (String.eqb_spec "connection" c); [subst; tauto|]. done.
Qed.

Lemma router_start_ok (r : router) :
  router_ok r →
  router_ok (start r)
  ∧ isListening (start r) = isListening r
  ∧ isStarted (start r) = isListening r.
Proof.
  intros [Hc Hl]. unfold start, isStarted.
  destruct (isListening r) eqn:Hi; cbn [negb].
  - destruct Hc as [Hc|[Hc _]]; rewrite Hc in *; cbn [length Nat.ltb Nat.leb].
    + cbn [set_cleanups emit isListening cleanups effects app length].
      rewrite Hi. split; [|done]. split; [by right|].
      intros c. cbn [effects cleanups set_cleanups emit app].
      rewrite listening_on_app, Hl, listening_on_both.
      rewrite bool_decide_eq_false_2 by apply not_elem_of_nil. lia.
    + rewrite Hc, Hi. split; [|done]. split; [by right|].
      intros c. by rewrite Hl, Hc.
  - rewrite Hi, andb_false_r. split; [|done]. split; [|done].
    destruct Hc as [?|[_ ?]]; [by left|done].
Qed.

Lemma router_stop_ok (r : router) :
  router_ok r →
  router_ok (stop r) ∧ isListening (stop r) = isListening r
  ∧ cleanups (stop r) = [].
Proof.
  intros [Hc Hl]. unfold stop.
  set (r1 := if isListening r then emit [Broadcast STOP_RECORDING] r else r).
  assert (H1 : cleanups r1 = cleanups r ∧ isListening r1 = isListening r
               ∧ ∀ c, listening_on c (effects r1) = listening_on c (effects r)).
  { subst r1. destruct (isListening r) eqn:Hi; [|by repeat split].
    cbn [emit cleanups isListening effects].
    split; [done|]. split; [done|]. intros c. rewrite listening_on_app.
    unfold listening_on at 2. cbn [foldl]. lia. }
  destruct H1 as (H1 & H2 & H3).
  split; [|by split].
  split; [by left|]. intros c. cbn [set_cleanups emit isListening cleanups effects].
  rewrite listening_on_app, H3, Hl, H1.
  rewrite (bool_decide_eq_false_2 (c ∈ [])) by apply not_elem_of_nil.
  destruct Hc as [->|[-> _]].
  - by rewrite bool_decide_eq_false_2 by apply not_elem_of_nil.
  - rewrite listening_on_unlisten_both. case_bool_decide; lia.
Qed.

Lemma router_emit_ok (r : router) (l : list effect) :
  (∀ c, listening_on c l = 0) → router_ok r → router_ok (emit l r).
Proof.
  intros Hz [Hc Hl]. split; [done|]. intros c. cbn [emit effects cleanups].
  by rewrite listening_on_app, Hl, Hz, Z.add_0_r.
Qed.

Lemma size_subscribe P cb (m : manager) :
  (0 <? size (Tracking.subscribe P cb m))%nat = true.
Proof.
  apply Nat.ltb_lt. unfold size, eventCallbacks.
  cbn [Tracking.subscribe patternsByCallback].
  destruct (patternsByCallback m) as [|[k v] l]; cbn [map_set].
  - rewrite fmap_cons. simpl. lia.
  - destruct (Nat.eqb k cb); rewrite fmap_cons; simpl; lia.
Qed.

Lemma size_subscribeToGlobal cb (m : manager) :
  (0 <? size (Tracking.subscribeToGlobalTabsAndNavigation cb m))%nat = true.
Proof.
  apply Nat.ltb_lt. unfold size.
  cbn [Tracking.subscribeToGlobalTabsAndNavigation globalTabsAndNavigationCallbacks].
  unfold set_add.
  destruct (existsb (Nat.eqb cb) _) eqn:E.
  - destruct (globalTabsAndNavigationCallbacks m); [done|simpl; lia].
  - rewrite length_app. simpl. lia.
Qed.

Lemma router_exec_ok (r : router) (o : op) :
  router_ok r →
  router_ok (exec r o)
  ∧ isListening (exec r o) = isListening r
  ∧ isStarted (exec r o)
    = match o with
      | Destroy => false
      | Subscribe _ _ | SubscribeGlobal _ => isListening r
      | _ => isStarted r
      end.
Proof.
  intros Hok. destruct o as [P cb|cb|cb|cb| |ev|client]; cbn [Router.exec].
  - unfold subscribe. cbv zeta.
    set (m := Tracking.subscribe P cb (subscriptions r)).
    set (r0 := set_subscriptions m r).
    set (r1 := if (0 <? length (cleanups r0))%nat && isListening r0
               then emit [Broadcast (START_RECORDING (patterns (subscriptions r0)))] r0
               else r0).
    assert (Hr1 : router_ok r1 ∧ isListening r1 = isListening r
                  ∧ subscriptions r1 = m).
    { subst r1. destruct (_ && _).
      - split; [|done]. apply router_emit_ok; [|by destruct Hok].
        intros c. unfold listening_on. by cbn [foldl].
      - split; [|done]. by destruct Hok. }
    destruct Hr1 as (Hok1 & Hl1 & Hs1).
    rewrite Hl1, Hs1, (size_subscribe P cb (subscriptions r) : (0 <? size m)%nat = true),
      andb_true_r.
    destruct (isListening r) eqn:Hi.
    + destruct (router_start_ok r1 Hok1) as (H1 & H2 & H3). rewrite Hl1 in H2, H3. done.
    + split; [done|]. split; [done|]. unfold isStarted. rewrite Hl1. apply andb_false_r.
  - split; [|done]. by destruct Hok.
  - unfold subscribeToGlobalTabsAndNavigation. cbv zeta.
    set (m := Tracking.subscribeToGlobalTabsAndNavigation cb (subscriptions r)).
    set (r1 := emit [Handed cb "INITIAL_TABS"] (set_subscriptions m r)).
    assert (Hok1 : router_ok r1).
    { apply router_emit_ok; [|by destruct Hok]. intros c. unfold listening_on. by cbn [foldl]. }
    assert (Hl1 : isListening r1 = isListening r) by done.
    assert (Hs1 : subscriptions r1 = m) by done.
    rewrite Hl1, Hs1,
      (size_subscribeToGlobal cb (subscriptions r) : (0 <? size m)%nat = true),
      andb_true_r.
    destruct (isListening r) eqn:Hi.
    + destruct (router_start_ok r1 Hok1) as (H1 & H2 & H3). rewrite Hl1 in H2, H3. done.
    + split; [done|]. split; [done|]. unfold isStarted. rewrite Hl1. apply andb_false_r.
  - split; [|done]. by destruct Hok.
  - unfold destroy. destruct (router_stop_ok r Hok) as ([Hc Hl] & H2 & H3).
    split; [|split; [done|]].
    + split; [done|]. exact Hl.
    + unfold isStarted. cbn [set_subscriptions cleanups]. by rewrite H3.
  - unfold onMessage. case_bool_decide; [|done].
    destruct (handleEvent _ _ _ _) as [m d].
    split; [|done]. apply router_emit_ok; [|by destruct Hok].
    intros c. apply listening_on_handed.
  - unfold onConnection. case_bool_decide; [|done].
    split; [|done]. apply router_emit_ok; [|done].
    intros c. unfold listening_on. by cbn [foldl].
Qed.

Lemma router_create_ok (listening : bool) :
  router_ok (create listening)
  ∧ isListening (create listening) = listening
  ∧ isStarted (create listening) = false.
Proof.
  unfold create.
  set (r0 := {| subscriptions := _; cleanups := []; isListening := listening;
                effects := [] |}).
  assert (Hok : router_ok r0).
  { split; [by left|]. intros c. cbn [effects cleanups r0].
    by rewrite bool_decide_eq_false_2 by apply not_elem_of_nil. }
  destruct (router_stop_ok r0 Hok) as (H1 & H2 & H3).
  split; [done|]. split; [done|]. unfold isStarted. by rewrite H3.
Qed.

Lemma router_run_ok (listening : bool) (ops : list op) :
  router_ok (run listening ops)
  ∧ isListening (run listening ops) = listening
  ∧ isStarted (run listening ops) = listening && subscribedSinceDestroy ops.
Proof.
  unfold Router.run, subscribedSinceDestroy.
  induction ops as [|o ops IH] using rev_ind.
  - simpl. rewrite andb_false_r. apply router_create_ok.
  - rewrite !foldl_app. cbn [foldl].
    destruct IH as (Hok & Hl & Hs).
    destruct (router_exec_ok _ o Hok) as (Hok' & Hl' & Hs').
    split; [done|]. split; [congruence|].
    rewrite Hs', Hl, Hs. destruct o; try done; by destruct listening.
Qed.

(** X14.  Whether a manager is started, read off its history: it is
    started exactly when the server was listening as it was built and a
    handler has subscribed since it was built or last destroyed;
    unsubscribing does not stop it, also when the last handler leaves.
    Whatever the history, the manager holds no cleanup function or the two
    of [#start], and on each channel the listeners registered on the server
    and not removed are exactly those it holds a cleanup for: no listener
    is registered twice and none is left behind. *)
Theorem started_iff_subscribed_since_destroy (listening : bool) (ops : list op) :
  let r := Router.run verifyPattern updateTabsState listening ops in
  isStarted r = listening && subscribedSinceDestroy ops
  ∧ cleanups r = (if isStarted r then ["message"; "connection"] else [])
  ∧ ∀ channel, listening_on channel (effects r)
               = if bool_decide (channel ∈ cleanups r) then 1 else 0.
Proof.
  cbv zeta. destruct (router_run_ok listening ops) as ([Hc Hl] & Hi & Hs).
  split; [done|]. split; [|done].
  unfold isStarted. destruct Hc as [->|[-> ->]]; done.
Qed.

(** The effects of a manager on a server that is not listening. *)
Lemma router_exec_silent (r : router) (o : op) :
  isListening r = false → cleanups r = [] →
  isListening (exec r o) = false ∧ cleanups (exec r o) = []
  ∧ ∃ l, effects (exec r o) = effects r ++ l ∧ Forall (λ e, onServer e = false) l.
Proof.
  intros Hi Hc. destruct o as [P cb|cb|cb|cb| |ev|client]; cbn [Router.exec].
  - unfold subscribe. cbn [set_subscriptions cleanups isListening]. rewrite Hi, Hc.
    cbn. rewrite Hi. cbn. do 2 (split; [done|]). exists []. by rewrite app_nil_r.
  - do 2 (split; [done|]). exists []. by rewrite app_nil_r.
  - unfold subscribeToGlobalTabsAndNavigation. cbn [emit set_subscriptions isListening].
    rewrite Hi. cbn [andb]. do 2 (split; [done|]). eexists. split; [done|].
    by constructor.
  - do 2 (split; [done|]). exists []. by rewrite app_nil_r.
  - unfold destroy, stop. rewrite Hi, Hc. cbn. do 2 (split; [done|]).
    exists []. done.
  - unfold onMessage. rewrite Hc. rewrite bool_decide_eq_false_2 by apply not_elem_of_nil.
    do 2 (split; [done|]). exists []. by rewrite app_nil_r.
  - unfold onConnection. rewrite Hc. rewrite bool_decide_eq_false_2 by apply not_elem_of_nil.
    do 2 (split; [done|]). exists []. by rewrite app_nil_r.
Qed.

(** X15.  A manager built on a server that is not listening never calls
    the server: whatever is subscribed, unsubscribed or destroyed, nothing
    is broadcast or sent and no listener is registered; all it ever does is
    hand the initial tabs to a handler that subscribes globally. *)
Theorem silent_when_not_listening (ops : list op) :
  Forall (λ e, onServer e = false)
         (effects (Router.run verifyPattern updateTabsState false ops))
  ∧ isStarted (Router.run verifyPattern updateTabsState false ops) = false.
Proof.
  split; [|by destruct (router_run_ok false ops) as (_ & _ & ->)].
  assert (H : isListening (run false ops) = false ∧ cleanups (run false ops) = []
              ∧ Forall (λ e, onServer e = false) (effects (run false ops))).
  { unfold Router.run. induction ops as [|o ops IH] using rev_ind.
    - simpl. repeat split. constructor.
    - rewrite foldl_app. cbn [foldl]. destruct IH as (Hi & Hc & He).
      destruct (router_exec_silent _ o Hi Hc) as (Hi' & Hc' & l & Hl & Hf).
      split; [done|]. split; [done|]. rewrite Hl. by apply Forall_app. }
  apply H.
Qed.

End RouterFacts.

Section RouterAnnouncements.
Import Tracking Router.

(** ** What is announced to the extension *)

Lemma distinct_spec (l : list string) : ∀ seen,
  NoDup (distinct seen l)
  ∧ ∀ x, x ∈ distinct seen l ↔ x ∈ l ∧ x ∉ seen.
Proof.
  induction l as [|y l IH]; intros seen; cbn [distinct].
  - split; [constructor|]. intros x. rewrite elem_of_nil. tauto.
  - destruct (existsb (String.eqb y) seen) eqn:E.
    + destruct (IH seen) as [H1 H2]. split; [done|]. intros x.
      rewrite H2, elem_of_cons. split; [tauto|]. intros [[->|Hx] Hn]; [|done].
      exfalso. apply Hn. apply existsb_exists in E as (z & Hz & Hyz).
      apply String.eqb_eq in Hyz as ->. by apply list_elem_of_In.
    + assert (Hy : y ∉ seen).
      { intros Hin. assert (existsb (String.eqb y) seen = true); [|congruence].
        apply existsb_exists. exists y. split; [by apply list_elem_of_In|].
        apply String.eqb_refl. }
      destruct (IH (y :: seen)) as [H1 H2]. split.
      * constructor; [|done]. rewrite H2, not_elem_of_cons. tauto.
      * intros x. rewrite !elem_of_cons, H2, not_elem_of_cons.
        split; [intros [->|?]; tauto|].
        intros [[->|Hx] Hn]; [by left|].
        destruct (decide (x = y)) as [->|Hne]; [by left|right; done].
Qed.

(** X16.  What a subscription announces while the server is listening.
    [subscribe(P, cb)] broadcasts one START_RECORDING message, whether the
    manager was started before or is started by this call; the message
    carries the patterns of all subscriptions once each, [P] among them;
    the two listeners are registered only when the manager holds none.  A
    global subscription that starts a manager without any pattern
    subscription announces the pattern ["*"]. *)
Theorem subscribe_announces_patterns (r : router) (P : string) (cb : callback) :
  isListening r = true →
  let ps := patterns (Tracking.subscribe P cb (subscriptions r)) in
  effects (subscribe P cb r)
  = effects r ++ Broadcast (START_RECORDING ps)
      :: (if (0 <? length (cleanups r))%nat then []
          else [Listen "message"; Listen "connection"])
  ∧ NoDup ps ∧ P ∈ ps
  ∧ (∀ p, p ∈ ps
          ↔ p ∈ snd <$> patternsByCallback
                          (Tracking.subscribe P cb (subscriptions r)))
  ∧ (cleanups r = [] → patternsByCallback (subscriptions r) = [] →
     effects (subscribeToGlobalTabsAndNavigation cb r)
     = effects r ++ [Handed cb "INITIAL_TABS"; Broadcast (START_RECORDING ["*"]);
                     Listen "message"; Listen "connection"]).
Proof.
  intros Hi ps.
  destruct (distinct_spec
              (snd <$> patternsByCallback (Tracking.subscribe P cb (subscriptions r)))
              []) as [Hnd Hin].
  fold (patterns (Tracking.subscribe P cb (subscriptions r))) in Hnd, Hin.
  fold ps in Hnd, Hin.
  assert (Hmem : ∀ p, p ∈ ps
            ↔ p ∈ snd <$> patternsByCallback
                            (Tracking.subscribe P cb (subscriptions r))).
  { intros p. rewrite Hin. split; [tauto|]. intros H. split; [done|].
    apply not_elem_of_nil. }
  assert (HP : P ∈ ps).
  { apply Hmem. cbn [Tracking.subscribe patternsByCallback].
    generalize (patternsByCallback (subscriptions r)) as l.
    induction l as [|[k v] l IH]; cbn [map_set].
    - rewrite fmap_cons. by left.
    - destruct (Nat.eqb k cb); rewrite fmap_cons; [by left|by right]. }
  split; [|split; [done|split; [done|split; [done|]]]].
  - unfold subscribe. cbv zeta.
    cbn [set_subscriptions cleanups isListening subscriptions].
    rewrite Hi, andb_true_r. fold ps.
    destruct (0 <? length (cleanups r))%nat eqn:Hc.
    + cbn [emit set_subscriptions isListening subscriptions].
      rewrite Hi, size_subscribe. cbn [andb].
      unfold start. cbn [emit set_subscriptions isListening cleanups].
      rewrite Hi, Hc. done.
    + cbn [emit set_subscriptions isListening subscriptions].
      rewrite Hi, size_subscribe. cbn [andb].
      unfold start. cbn [set_subscriptions isListening cleanups subscriptions].
      rewrite Hi, Hc. cbn [negb set_cleanups set_subscriptions emit effects]. fold ps.
      destruct ps; [by apply elem_of_nil in HP|done].
  - intros Hc Hp. unfold subscribeToGlobalTabsAndNavigation. cbv zeta.
    cbn [emit set_subscriptions isListening subscriptions].
    rewrite Hi, size_subscribeToGlobal. cbn [andb].
    unfold start.
    cbn [isListening cleanups subscriptions set_cleanups set_subscriptions emit effects].
    rewrite Hi, Hc. cbn [negb length Nat.ltb Nat.leb].
    unfold patterns.
    cbn [Tracking.subscribeToGlobalTabsAndNavigation patternsByCallback].
    rewrite Hp. cbn [fmap list_fmap distinct].
    cbn [set_cleanups set_subscriptions emit effects]. by rewrite <- app_assoc.
Qed.

End RouterAnnouncements.

(** ** Instances *)
Section RouterInstances.
Import Tracking Router Examples.

Lemma subscribe_announces_patterns_witness :
  let r := Router.create true in
  let P := "https://old.example/*" in
  let ps := patterns (Tracking.subscribe P 0%nat (subscriptions r)) in
  effects (Router.subscribe P 0%nat r)
  = effects r ++ Broadcast (START_RECORDING ps)
      :: (if (0 <? length (cleanups r))%nat then []
          else [Listen "message"; Listen "connection"])
  ∧ NoDup ps ∧ P ∈ ps
  ∧ (∀ p, p ∈ ps
          ↔ p ∈ snd <$> patternsByCallback
                          (Tracking.subscribe P 0%nat (subscriptions r)))
  ∧ (cleanups r = [] → patternsByCallback (subscriptions r) = [] →
     effects (Router.subscribeToGlobalTabsAndNavigation 0%nat r)
     = effects r ++ [Handed 0%nat "INITIAL_TABS"; Broadcast (START_RECORDING ["*"]);
                     Listen "message"; Listen "connection"]).
Proof.
  exact (subscribe_announces_patterns (Router.create true)
           "https://old.example/*" 0%nat eq_refl).
Defined.

End RouterInstances.

(* ================================================================== *)
(** * Further properties of the telemetry sampler *)
(* ================================================================== *)
Section PerfSessions.
Import Perf.

Local Open Scope Q_scope.

(** ** Network rates *)

Lemma timeDelta_sign (dt : Z) :
  Qle_bool (qdiv (inject_Z dt) 1000) 0 = bool_decide (dt ≤ 0)%Z.
Proof.
  unfold qdiv. case_bool_decide as H.
  - apply Qle_bool_iff. rewrite Qred_correct.
    apply Qle_shift_div_r; [reflexivity|]. rewrite Qmult_0_l.
    change (inject_Z dt <= inject_Z 0). by rewrite <- Zle_Qle.
  - destruct (Qle_bool _ 0) eqn:E; [|done]. exfalso. apply H.
    apply Qle_bool_iff in E. rewrite Qred_correct in E.
    rewrite Zle_Qle.
    assert (Hm : inject_Z dt == inject_Z dt / 1000 * 1000) by field.
    rewrite Hm. change (inject_Z 0) with (0 * 1000).
    apply Qmult_le_compat_r; [done|discriminate].
Qed.

Lemma rate_value (delta dt : Z) :
  (0 < dt)%Z →
  qdiv (inject_Z delta) (qdiv (inject_Z dt) 1000)
  == inject_Z (delta * 1000) / inject_Z dt.
Proof.
  intros Hdt. unfold qdiv. rewrite !Qred_correct, inject_Z_mult.
  assert (Hnz : ¬ inject_Z dt == 0).
  { intros H. apply (Qlt_irrefl 0). rewrite <- H at 2.
    rewrite <- (Zlt_Qlt 0). done. }
  field. exact Hnz.
Qed.

Lemma rate_follows (delta dt : Z) :
  (0 < dt)%Z →
  let rate := qdiv (inject_Z delta) (qdiv (inject_Z dt) 1000) in
  ((0 < delta)%Z → 0 < rate)
  ∧ (delta = 0%Z → rate == 0)
  ∧ ((delta < 0)%Z → rate < 0)
  ∧ (dt = 1000%Z → rate == inject_Z delta)
  ∧ ((1000 ≤ dt)%Z → (0 ≤ delta)%Z → rate <= inject_Z delta)
  ∧ ((1000 ≤ dt)%Z → (delta ≤ 0)%Z → inject_Z delta <= rate).
Proof.
  intros Hdt rate.
  assert (Hrate : rate == inject_Z (delta * 1000) / inject_Z dt)
    by (by apply rate_value).
  assert (Hpos : 0 < inject_Z dt) by (by rewrite <- (Zlt_Qlt 0)).
  repeat split.
  - intros Hd. rewrite Hrate. apply Qlt_shift_div_l; [done|].
    rewrite Qmult_0_l, <- (Zlt_Qlt 0). lia.
  - intros ->. rewrite Hrate. simpl. unfold Qdiv. by rewrite Qmult_0_l.
  - intros Hd. rewrite Hrate. apply Qlt_shift_div_r; [done|].
    rewrite Qmult_0_l, <- (Zlt_Qlt _ 0). lia.
  - intros ->. rewrite Hrate, inject_Z_mult. field.
  - intros Hs Hd. rewrite Hrate. apply Qle_shift_div_r; [done|].
    rewrite <- inject_Z_mult, <- Zle_Qle. nia.
  - intros Hs Hd. rewrite Hrate. apply Qle_shift_div_l; [done|].
    rewrite <- inject_Z_mult, <- Zle_Qle. nia.
Qed.

Lemma megabytes_scale (rate : Q) : qdiv rate (1024 * 1024) * (1024 * 1024) == rate.
Proof. unfold qdiv. rewrite Qred_correct. field. Qed.

(** X17.  The network rates of a reading that went through.  The reading
    reports the byte counters summed over the interfaces and becomes the
    new baseline in every case.  The first reading of a tracker reports
    zero rates.  A later reading is measured against the previous one:
    when the clock has not advanced since, the rates are zero (nothing is
    divided by zero); otherwise each rate has the sign of the difference of
    its byte counter (zero when the counter has not moved), is that
    difference itself when exactly one second has passed, and does not
    exceed it in magnitude when at least one second has passed.  The rate
    in megabytes is the rate in bytes scaled by 2^20.  The quotients of the
    code are doubles; what is stated here holds of the rounded quotients
    as it does of the exact ones. *)
Theorem network_rates_between_readings (p : probes) (t : tracker) (rx tx : Z) :
  networkInterfaces p = Returns () →
  networkTotals p = Returns (rx, tx) →
  let reading := fst (getNetworkMetrics t p) in
  bytesReceived reading = rx ∧ bytesSent reading = tx
  ∧ snd (getNetworkMetrics t p)
    = Some {| last_bytesReceived := rx; last_bytesSent := tx;
              last_timestamp := network_now p |}
  ∧ mbReceivedPerSec reading * (1024 * 1024) == bytesReceivedPerSec reading
  ∧ mbSentPerSec reading * (1024 * 1024) == bytesSentPerSec reading
  ∧ match lastNetworkStats t with
    | None => bytesReceivedPerSec reading = 0 ∧ bytesSentPerSec reading = 0
    | Some last =>
        let dt := (network_now p - last_timestamp last)%Z in
        ((dt ≤ 0)%Z →
           bytesReceivedPerSec reading = 0 ∧ bytesSentPerSec reading = 0)
        ∧ ((0 < dt)%Z →
           Forall (λ '(delta, rate),
                     ((0 < delta)%Z → 0 < rate)
                     ∧ (delta = 0%Z → rate == 0)
                     ∧ ((delta < 0)%Z → rate < 0)
                     ∧ (dt = 1000%Z → rate == inject_Z delta)
                     ∧ ((1000 ≤ dt)%Z → (0 ≤ delta)%Z → rate <= inject_Z delta)
                     ∧ ((1000 ≤ dt)%Z → (delta ≤ 0)%Z → inject_Z delta <= rate))
             [ ((rx - last_bytesReceived last)%Z, bytesReceivedPerSec reading);
               ((tx - last_bytesSent last)%Z, bytesSentPerSec reading) ])
    end.
Proof.
  intros Hi Ht reading. subst reading. unfold getNetworkMetrics. rewrite Hi, Ht.
  destruct (lastNetworkStats t) as [last|];
    [|cbn [fst snd bytesReceived bytesSent bytesReceivedPerSec bytesSentPerSec
           mbReceivedPerSec mbSentPerSec];
      repeat split; apply megabytes_scale].
  rewrite timeDelta_sign.
  case_bool_decide as Hdt; cbn [fst snd bytesReceived bytesSent
    bytesReceivedPerSec bytesSentPerSec mbReceivedPerSec mbSentPerSec].
  - split; [done|]. split; [done|]. split; [done|].
    split; [apply megabytes_scale|]. split; [apply megabytes_scale|].
    split; [done|]. lia.
  - split; [done|]. split; [done|]. split; [done|].
    split; [apply megabytes_scale|]. split; [apply megabytes_scale|].
    split; [lia|]. intros Hpos.
    repeat constructor; by apply rate_follows.
Qed.

End PerfSessions.

Section PerfSummary.
Import Perf.

Local Open Scope Q_scope.

Lemma qmax_ge (a b : Q) : a <= qmax a b ∧ b <= qmax a b.
Proof.
  unfold qmax. destruct (Qle_bool a b) eqn:E.
  - split; [by apply Qle_bool_iff|apply Qle_refl].
  - split; [apply Qle_refl|].
    destruct (Qlt_le_dec a b) as [Hlt|Hle]; [|done].
    apply Qlt_le_weak in Hlt. apply Qle_bool_iff in Hlt. congruence.
Qed.

Lemma foldl_qmax_bound {A} (g : A → Q) (l : list A) : ∀ acc,
  acc <= foldl (λ a s, qmax a (g s)) acc l
  ∧ ∀ x, x ∈ l → g x <= foldl (λ a s, qmax a (g s)) acc l.
Proof.
  induction l as [|y l IH]; intros acc; simpl.
  - split; [apply Qle_refl|]. intros x H. by apply elem_of_nil in H.
  - destruct (IH (qmax acc (g y))) as [H1 H2].
    destruct (qmax_ge acc (g y)) as [Ha Hb]. split.
    + by apply Qle_trans with (qmax acc (g y)).
    + intros x Hx. apply elem_of_cons in Hx as [->|Hx]; [|by apply H2].
      by apply Qle_trans with (qmax acc (g y)).
Qed.

Lemma foldl_zmax_bound {A} (g : A → Z) (l : list A) : ∀ acc,
  (acc ≤ foldl (λ a s, Z.max a (g s)) acc l)%Z
  ∧ ∀ x, x ∈ l → (g x ≤ foldl (λ a s, Z.max a (g s)) acc l)%Z.
Proof.
  induction l as [|y l IH]; intros acc; simpl.
  - split; [lia|]. intros x H. by apply elem_of_nil in H.
  - destruct (IH (Z.max acc (g y))) as [H1 H2]. split; [lia|].
    intros x Hx. apply elem_of_cons in Hx as [->|Hx]; [lia|by apply H2].
Qed.

(** X20.  What a summary says about the samples it was computed from:
    there is one only when there is a sample; it counts the samples; the
    duration is the time between the first and the last; each maximum is
    an upper bound of the readings of every sample, and is not negative;
    the network totals are the counters of the last sample, and the
    system memory is that of the first. *)
Theorem summary_describes_samples (t : tracker) :
  match calculateSummary t with
  | None => samples t = []
  | Some s =>
      ∃ first rest final,
        samples t = first :: rest ∧ last (samples t) = Some final
        ∧ sampleCount s = Z.of_nat (length (samples t))
        ∧ durationMs s = (timestamp final - timestamp first)%Z
        ∧ (∀ x, x ∈ samples t →
             cpu (process x) <= maxProcessCPU s
             ∧ (memory (process x) ≤ maxProcessMemoryBytes s)%Z
             ∧ memoryUsagePercent (system x) <= maxSystemMemoryUsagePercent s)
        ∧ 0 <= maxProcessCPU s ∧ (0 ≤ maxProcessMemoryBytes s)%Z
        ∧ 0 <= maxSystemMemoryUsagePercent s
        ∧ totalBytesReceived s = bytesReceived (network final)
        ∧ totalBytesSent s = bytesSent (network final)
        ∧ totalSystemMemoryBytes s = totalMemory (system first)
  end.
Proof.
  unfold calculateSummary.
  destruct (samples t) as [|first rest] eqn:Hs; [done|].
  destruct (last (first :: rest)) as [final|] eqn:Hl;
    [|by apply last_None in Hl].
  exists first, rest, final.
  cbn [sampleCount durationMs maxProcessCPU maxProcessMemoryBytes
       maxSystemMemoryUsagePercent totalBytesReceived totalBytesSent
       totalSystemMemoryBytes].
  set (l := first :: rest) in *.
  split; [done|]. split; [done|]. split; [done|]. split; [done|].
  split; [|split; [|split; [|split]]].
  - intros x Hx.
    split; [apply (foldl_qmax_bound (λ s, cpu (process s)) l 0); done|].
    split; [apply (foldl_zmax_bound (λ s, memory (process s)) l 0%Z); done|].
    apply (foldl_qmax_bound (λ s, memoryUsagePercent (system s)) l 0); done.
  - apply (foldl_qmax_bound (λ s, cpu (process s)) l 0).
  - apply (foldl_zmax_bound (λ s, memory (process s)) l 0%Z).
  - apply (foldl_qmax_bound (λ s, memoryUsagePercent (system s)) l 0).
  - done.
Qed.

End PerfSummary.

(* ================================================================== *)
(** * The sampler in time *)
(* ================================================================== *)
Section SamplerFacts.
Import Perf Sampler.

Lemma sampleOf_pid (t t' : tracker) (fl : flight) :
  pid t = pid t' → sampleOf t fl = sampleOf t' fl.
Proof. intros H. unfold sampleOf, getProcessMetrics. by rewrite H. Qed.

Lemma evolves_refl (s : state) : evolves s s.
Proof. repeat split. intros i fl H. by exists fl. Qed.

Lemma evolves_trans (s1 s2 s3 : state) :
  evolves s1 s2 → evolves s2 s3 → evolves s1 s3.
Proof.
  intros (Hi & Hs & Hf & Hp & H12) (Hi' & Hs' & Hf' & Hp' & H23).
  split; [congruence|]. split; [congruence|]. split; [congruence|].
  split; [congruence|].
  intros i fl Hl. destruct (H12 i fl Hl) as (fl2 & Hl2 & Ha & He & Hfix).
  destruct (H23 i fl2 Hl2) as (fl3 & Hl3 & Ha' & He' & Hfix').
  exists fl3. split; [done|]. split; [congruence|]. split; [congruence|].
  intros Hset. rewrite <- (Hfix Hset). apply Hfix'. by rewrite (Hfix Hset).
Qed.

Lemma collectSample_evolves (p : probes) (s : state) :
  evolves s (collectSample p s).
Proof.
  unfold collectSample.
  destruct (suspends p); [|destruct (getNetworkMetrics (this s) p) as [m l]];
    unfold evolves; cbn [this flights]; (do 4 (split; [done|]));
    intros i fl Hl; exists fl; by rewrite (lookup_app_l_Some _ _ _ _ Hl).
Qed.

Lemma insert_evolves (s : state) (t : tracker) (d : disk) (i : nat)
    (fl : flight) (st : stage) :
  interval t = interval (this s) → startTime t = startTime (this s) →
  performanceFile t = performanceFile (this s) → pid t = pid (this s) →
  flights s !! i = Some fl → settled fl = false →
  evolves s {| this := t; files := d;
               flights := <[i := Flight (answers fl) (flight_elapsedMs fl) st]>
                            (flights s) |}.
Proof.
  intros Hi Hs Hf Hp Hl Hset. unfold evolves. cbn [this flights].
  do 4 (split; [done|]). intros j fl0 Hl0. cbn [flights].
  destruct (decide (i = j)) as [<-|Hne].
  - rewrite list_lookup_insert_eq by (by eapply lookup_lt_Some).
    eexists. split; [done|]. simplify_eq. cbn [answers flight_elapsedMs].
    split; [done|]. split; [done|]. congruence.
  - rewrite list_lookup_insert_ne by done. by exists fl0.
Qed.

Lemma step_evolves (s : state) (e : event) : evolves s (step s e).
Proof.
  destruct e as [p|i|i]; cbn [step].
  - destruct (interval (this s)); [apply collectSample_evolves|apply evolves_refl].
  - unfold networkResumes.
    destruct (flights s !! i) as [fl|] eqn:Hl; [|apply evolves_refl].
    destruct (progress fl) eqn:Hp; try apply evolves_refl.
    destruct (getNetworkMetrics (this s) (answers fl)) as [m l].
    apply insert_evolves; try done. unfold settled. by rewrite Hp.
  - unfold sampleResumes.
    destruct (flights s !! i) as [fl|] eqn:Hl; [|apply evolves_refl].
    destruct (progress fl) as [|m|m] eqn:Hp; try apply evolves_refl.
    assert (Hset : settled fl = false) by (unfold settled; by rewrite Hp).
    destruct (sampleOf (this s) fl) as [smp|]; [|by apply insert_evolves].
    cbn [set_samples performanceFile].
    destruct (performanceFile (this s)) as [file|];
      [destruct (appendFile (answers fl))|]; by apply insert_evolves.
Qed.

Lemma run_snoc (events : list event) (e : event) (s : state) :
  run (events ++ [e]) s = step (run events s) e.
Proof. unfold run. by rewrite foldl_app. Qed.

Lemma run_evolves (events : list event) (s : state) : evolves s (run events s).
Proof.
  induction events as [|e events IH] using rev_ind; [apply evolves_refl|].
  rewrite run_snoc. eapply evolves_trans; [exact IH|apply step_evolves].
Qed.

Lemma evolves_settledAt (s s' : state) (i : nat) :
  evolves s s' → settledAt s i → settledAt s' i.
Proof.
  intros (_ & _ & _ & _ & H) (fl & Hl & Hset).
  destruct (H i fl Hl) as (fl' & Hl' & _ & _ & Hfix).
  exists fl'. split; [done|]. by rewrite (Hfix Hset).
Qed.

Lemma evolves_answers (s s' : state) (P : probes → Prop) :
  evolves s s' →
  Forall (λ fl, P (answers fl)) (flights s') →
  Forall (λ fl, P (answers fl)) (flights s).
Proof.
  intros (_ & _ & _ & _ & H) HP. apply Forall_lookup. intros i fl Hl.
  destruct (H i fl Hl) as (fl' & Hl' & Ha & _).
  rewrite <- Ha. exact (proj1 (Forall_lookup _ _) HP i fl' Hl').
Qed.

(** ** What a step adds to the samples *)

Lemma nothing_arrived (s s' : state) :
  (∀ i fl, flights s' !! i = Some fl → settled fl = true →
           is_Some (sampleOf (this s') fl) → settledAt s i) →
  arrivedBetween s s' [] [].
Proof.
  intros H. split; [constructor|]. split; [|constructor].
  intros i. split; [by intros ?%elem_of_nil|].
  intros (Hn & fl & Hl & Hset & Hsmp). destruct Hn. by eapply H.
Qed.

Lemma insert_unsettled (s : state) (t : tracker) (d : disk) (i : nat)
    (fl fl' : flight) :
  flights s !! i = Some fl →
  settled fl' = false ∨ sampleOf t fl' = None →
  arrivedBetween s {| this := t; files := d; flights := <[i := fl']> (flights s) |}
    [] [].
Proof.
  intros Hl Hnot. apply nothing_arrived. cbn [this flights].
  intros j fl0 Hl0 Hset Hsmp.
  destruct (decide (i = j)) as [<-|Hne].
  - rewrite list_lookup_insert_eq in Hl0 by (by eapply lookup_lt_Some).
    simplify_eq. destruct Hnot as [Hnot|Hnot]; [congruence|].
    rewrite Hnot in Hsmp. by destruct Hsmp.
  - rewrite list_lookup_insert_ne in Hl0 by done. by exists fl0.
Qed.

Lemma insert_settled (s : state) (t : tracker) (d : disk) (i : nat)
    (fl : flight) (m : networkMetrics) (smp : sample) :
  pid t = pid (this s) →
  flights s !! i = Some fl → progress fl = Answered m →
  sampleOf (this s) fl = Some smp →
  arrivedBetween s
    {| this := t; files := d;
       flights := <[i := Flight (answers fl) (flight_elapsedMs fl) (Settled m)]>
                    (flights s) |}
    [smp] [i].
Proof.
  intros Hpid Hl Hp Hsmp.
  assert (Hsmp' : sampleOf t (Flight (answers fl) (flight_elapsedMs fl) (Settled m))
                  = Some smp).
  { rewrite (sampleOf_pid t (this s)) by done. rewrite <- Hsmp.
    unfold sampleOf. cbn [answers flight_elapsedMs progress]. by rewrite Hp. }
  assert (Hat : <[i := Flight (answers fl) (flight_elapsedMs fl) (Settled m)]>
                  (flights s) !! i
                = Some (Flight (answers fl) (flight_elapsedMs fl) (Settled m)))
    by (apply list_lookup_insert_eq; by eapply lookup_lt_Some).
  split; [apply NoDup_singleton|]. cbn [this flights]. split.
  - intros j. rewrite list_elem_of_singleton. split.
    + intros ->. split.
      * intros (fl0 & Hl0 & Hset). simplify_eq. unfold settled in Hset.
        by rewrite Hp in Hset.
      * eexists. split; [exact Hat|]. split; [done|]. by rewrite Hsmp'.
    + intros (Hn & fl0 & Hl0 & Hset & _).
      destruct (decide (i = j)) as [<-|Hne]; [done|].
      rewrite list_lookup_insert_ne in Hl0 by done. destruct Hn. by exists fl0.
  - constructor; [|constructor]. eexists. split; [exact Hat|]. by split.
Qed.

Lemma step_arrivals (s : state) (e : event) :
  ∃ new arrived,
    samples (this (step s e)) = samples (this s) ++ new
    ∧ arrivedBetween s (step s e) new arrived
    ∧ (performanceFile (this s) = None → files (step s e) = files s)
    ∧ ∀ f, performanceFile (this s) = Some f →
           Forall (λ fl, appendFile (answers fl) = Returns ()) (flights s) →
           default [] (files (step s e) !! f) = default [] (files s !! f) ++ new.
Proof.
  assert (Hstay : ∃ new arrived,
            samples (this s) = samples (this s) ++ new
            ∧ arrivedBetween s s new arrived
            ∧ (performanceFile (this s) = None → files s = files s)
            ∧ ∀ f, performanceFile (this s) = Some f →
                   Forall (λ fl, appendFile (answers fl) = Returns ()) (flights s) →
                   default [] (files s !! f) = default [] (files s !! f) ++ new).
  { exists [], []. rewrite !app_nil_r. split; [done|].
    split; [|by split; intros; rewrite ?app_nil_r].
    apply nothing_arrived. intros i fl Hl Hset _. by exists fl. }
  destruct e as [p|i|i]; cbn [step].
  - destruct (interval (this s)); [|exact Hstay].
    exists [], []. unfold collectSample.
    destruct (suspends p); [|destruct (getNetworkMetrics (this s) p) as [m l]];
      cbn [this files flights set_lastNetworkStats samples]; rewrite app_nil_r;
      (split; [done|]);
      (split; [|by split; intros; rewrite ?app_nil_r]);
      apply nothing_arrived; cbn [this flights]; intros i fl Hl Hset _;
      apply lookup_snoc_Some in Hl as [[_ Hl]|[_ <-]]; try done; by exists fl.
  - unfold networkResumes.
    destruct (flights s !! i) as [fl|] eqn:Hl; [|exact Hstay].
    destruct (progress fl) eqn:Hp; try exact Hstay.
    destruct (getNetworkMetrics (this s) (answers fl)) as [m l].
    exists [], []. cbn [this files set_lastNetworkStats samples].
    rewrite app_nil_r. split; [done|].
    split; [|by split; intros; rewrite ?app_nil_r].
    eapply insert_unsettled; [exact Hl|]. by left.
  - unfold sampleResumes.
    destruct (flights s !! i) as [fl|] eqn:Hl; [|exact Hstay].
    destruct (progress fl) as [|m|m] eqn:Hp; try exact Hstay.
    destruct (sampleOf (this s) fl) as [smp|] eqn:Hsmp.
    + exists [smp], [i]. cbn [set_samples performanceFile].
      destruct (performanceFile (this s)) as [file|] eqn:Hfile.
      * destruct (appendFile (answers fl)) as [[]|msg] eqn:Happ;
          cbn [this files samples]; (split; [done|]);
          (split; [by apply insert_settled|]); (split; [done|]);
          intros f [= <-] Hok.
        -- unfold append. by rewrite lookup_insert_eq.
        -- pose proof (proj1 (Forall_lookup _ _) Hok i fl Hl) as Hret.
           cbn beta in Hret. congruence.
      * cbn [this files samples]. split; [done|].
        split; [by apply insert_settled|]. by split.
    + exists [], []. cbn [this files samples]. rewrite app_nil_r.
      split; [done|]. split; [|by split; intros; rewrite ?app_nil_r].
      eapply insert_unsettled; [exact Hl|]. right.
      rewrite <- Hsmp. unfold sampleOf.
      cbn [answers flight_elapsedMs progress]. by rewrite Hp.
Qed.

Lemma arrived_trans (s1 s2 s3 : state) (n1 n2 : list sample) (a1 a2 : list nat) :
  evolves s1 s2 → evolves s2 s3 →
  arrivedBetween s1 s2 n1 a1 → arrivedBetween s2 s3 n2 a2 →
  arrivedBetween s1 s3 (n1 ++ n2) (a1 ++ a2).
Proof.
  intros H12 H23 (Hd1 & Hin1 & Hs1) (Hd2 & Hin2 & Hs2).
  assert (Hkeep : ∀ fl i, flights s2 !! i = Some fl → settled fl = true →
            flights s3 !! i = Some fl
            ∧ sampleOf (this s3) fl = sampleOf (this s2) fl).
  { intros fl i Hl Hset. destruct H23 as (_ & _ & _ & Hpid & H).
    destruct (H i fl Hl) as (fl' & Hl' & _ & _ & Hfix).
    rewrite (Hfix Hset) in Hl'. split; [done|]. by apply sampleOf_pid. }
  split; [|split].
  - apply NoDup_app. split; [done|]. split; [|done].
    intros i Hi1 Hi2. apply Hin1 in Hi1 as (_ & fl & Hl & Hset & _).
    apply Hin2 in Hi2 as (Hn & _). destruct Hn. by exists fl.
  - intros i. rewrite elem_of_app, Hin1, Hin2. split.
    + intros [(Hn & fl & Hl & Hset & Hsmp)|(Hn & Hrest)].
      * split; [done|]. destruct (Hkeep fl i Hl Hset) as [Hl3 Heq].
        exists fl. by rewrite Heq.
      * split; [|done]. intros Hset. destruct Hn.
        by apply (evolves_settledAt s1 s2).
    + intros (Hn & fl & Hl & Hset & Hsmp).
      destruct (flights s2 !! i) as [fl2|] eqn:Hl2.
      * destruct (settled fl2) eqn:Hset2.
        -- left. split; [done|]. destruct (Hkeep fl2 i Hl2 Hset2) as [Hl3 Heq].
           exists fl2. split; [done|]. split; [done|]. rewrite <- Heq.
           by simplify_eq.
        -- right. split; [|by exists fl].
           intros (fl0 & Hl0 & Hset0). congruence.
      * right. split; [|by exists fl]. intros (fl0 & Hl0 & _). congruence.
  - apply Forall2_app; [|done].
    eapply Forall2_impl; [exact Hs1|]. cbn beta.
    intros smp i (fl & Hl & Hset & Hsmp).
    destruct (Hkeep fl i Hl Hset) as [Hl3 Heq]. exists fl. by rewrite Heq.
Qed.

Lemma run_arrivals (events : list event) (s : state) :
  ∃ new arrived,
    samples (this (run events s)) = samples (this s) ++ new
    ∧ arrivedBetween s (run events s) new arrived
    ∧ (performanceFile (this s) = None → files (run events s) = files s)
    ∧ ∀ f, performanceFile (this s) = Some f →
           Forall (λ fl, appendFile (answers fl) = Returns ())
             (flights (run events s)) →
           default [] (files (run events s) !! f)
           = default [] (files s !! f) ++ new.
Proof.
  induction events as [|e events IH] using rev_ind.
  - exists [], []. cbn [run foldl]. rewrite !app_nil_r. split; [done|].
    split; [|by split; intros; rewrite ?app_nil_r].
    apply nothing_arrived. intros i fl Hl Hset _. by exists fl.
  - destruct IH as (n1 & a1 & Hn1 & Ha1 & Hnone1 & Hfile1).
    rewrite run_snoc.
    destruct (step_arrivals (run events s) e) as (n2 & a2 & Hn2 & Ha2 & Hnone2 & Hfile2).
    pose proof (run_evolves events s) as Hev.
    pose proof (step_evolves (run events s) e) as Hstep.
    exists (n1 ++ n2), (a1 ++ a2). rewrite Hn2, Hn1, <- app_assoc.
    split; [done|]. split; [by eapply arrived_trans|].
    destruct Hev as (_ & _ & Hpf & _). split.
    + intros Hnone. rewrite Hnone2 by congruence. by apply Hnone1.
    + intros f Hf Hok.
      assert (Hok1 : Forall (λ fl, appendFile (answers fl) = Returns ())
                       (flights (run events s)))
        by (by apply (evolves_answers _ _ (λ p, appendFile p = Returns ()) Hstep)).
      rewrite Hfile2 by (done || congruence).
      rewrite Hfile1 by done. by rewrite <- app_assoc.
Qed.

(** ** The calls issued and their elapsed times *)

Lemma insert_answers (l : list flight) (i : nat) (fl : flight) (st : stage) :
  l !! i = Some fl →
  answers <$> <[i := Flight (answers fl) (flight_elapsedMs fl) st]> l
  = answers <$> l.
Proof.
  intros Hl. rewrite list_fmap_insert. apply list_insert_id.
  by rewrite list_lookup_fmap, Hl.
Qed.

Lemma step_flights (s : state) (e : event) :
  answers <$> flights (step s e)
  = (answers <$> flights s)
    ++ (if isTracking (this s) then ticks [e] else []).
Proof.
  assert (Hstay : ∀ l : list probes, l = l ++ (if isTracking (this s) then [] else []))
    by (intros l; destruct (isTracking (this s)); by rewrite app_nil_r).
  destruct e as [p|i|i]; cbn [step ticks omap].
  - unfold isTracking. destruct (interval (this s)); [|by rewrite app_nil_r].
    unfold collectSample.
    destruct (suspends p); [|destruct (getNetworkMetrics (this s) p) as [m l]];
      cbn [flights]; by rewrite fmap_app.
  - rewrite <- Hstay. unfold networkResumes.
    destruct (flights s !! i) as [fl|] eqn:Hl; [|done].
    destruct (progress fl); try done.
    destruct (getNetworkMetrics (this s) (answers fl)) as [m l].
    cbn [flights]. by apply insert_answers.
  - rewrite <- Hstay. unfold sampleResumes.
    destruct (flights s !! i) as [fl|] eqn:Hl; [|done].
    destruct (progress fl); try done.
    destruct (sampleOf (this s) fl);
      [cbn [set_samples performanceFile];
       destruct (performanceFile (this s)); [destruct (appendFile (answers fl))|]|];
      cbn [flights]; by apply insert_answers.
Qed.

Lemma run_flights (events : list event) (s : state) :
  answers <$> flights (run events s)
  = (answers <$> flights s)
    ++ (if isTracking (this s) then ticks events else []).
Proof.
  induction events as [|e events IH] using rev_ind.
  - cbn [run foldl ticks omap]. destruct (isTracking (this s)); by rewrite app_nil_r.
  - rewrite run_snoc, step_flights, IH.
    destruct (run_evolves events s) as (Hi & _).
    unfold isTracking. rewrite Hi. unfold ticks. rewrite omap_app.
    destruct (interval (this s)); by rewrite <- app_assoc, ?app_nil_r.
Qed.

Lemma step_elapsed (s : state) (e : event) (P : probes → Z → Prop) :
  (∀ p, P p match startTime (this s) with
            | Some c => if (c =? 0)%Z then 0%Z else (now p - c)%Z
            | None => 0%Z
            end) →
  Forall (λ fl, P (answers fl) (flight_elapsedMs fl)) (flights s) →
  Forall (λ fl, P (answers fl) (flight_elapsedMs fl)) (flights (step s e)).
Proof.
  intros Hnew Hall.
  assert (Hins : ∀ i fl st, flights s !! i = Some fl →
            Forall (λ fl, P (answers fl) (flight_elapsedMs fl))
              (<[i := Flight (answers fl) (flight_elapsedMs fl) st]> (flights s))).
  { intros i fl st Hl. apply Forall_insert; [done|].
    exact (proj1 (Forall_lookup _ _) Hall i fl Hl). }
  destruct e as [p|i|i]; cbn [step].
  - destruct (interval (this s)); [|done]. unfold collectSample.
    destruct (suspends p); [|destruct (getNetworkMetrics (this s) p) as [m l]];
      cbn [flights]; apply Forall_app; (split; [done|]);
      constructor; [apply Hnew|constructor|apply Hnew|constructor].
  - unfold networkResumes.
    destruct (flights s !! i) as [fl|] eqn:Hl; [|done].
    destruct (progress fl); try done.
    destruct (getNetworkMetrics (this s) (answers fl)) as [m l].
    cbn [flights]. by apply Hins.
  - unfold sampleResumes.
    destruct (flights s !! i) as [fl|] eqn:Hl; [|done].
    destruct (progress fl); try done.
    destruct (sampleOf (this s) fl);
      [cbn [set_samples performanceFile];
       destruct (performanceFile (this s)); [destruct (appendFile (answers fl))|]|];
      cbn [flights]; by apply Hins.
Qed.

Lemma run_elapsed (events : list event) (s : state) (P : probes → Z → Prop) :
  (∀ p, P p match startTime (this s) with
            | Some c => if (c =? 0)%Z then 0%Z else (now p - c)%Z
            | None => 0%Z
            end) →
  Forall (λ fl, P (answers fl) (flight_elapsedMs fl)) (flights s) →
  Forall (λ fl, P (answers fl) (flight_elapsedMs fl)) (flights (run events s)).
Proof.
  intros Hnew Hall. induction events as [|e events IH] using rev_ind; [done|].
  rewrite run_snoc. apply step_elapsed; [|done].
  destruct (run_evolves events s) as (_ & Hs & _). by rewrite Hs.
Qed.

Lemma sampleOf_answered (t : tracker) (fl : flight) :
  settled fl = true →
  is_Some (sampleOf t fl)
  ↔ match os_system (answers fl) with Returns _ => True | Raises _ => False end.
Proof.
  unfold settled, sampleOf, getSystemMetrics. intros Hset.
  destruct (progress fl); try done.
  destruct (os_system (answers fl)) as [[[totalMem freeMem] cpus]|msg].
  - split; [done|]. intros _. by eexists.
  - split; [by intros [? ?]|done].
Qed.

Lemma sampleOf_Some (t : tracker) (fl : flight) (smp : sample) :
  sampleOf t fl = Some smp →
  timestamp smp = now (answers fl) ∧ elapsedMs smp = flight_elapsedMs fl.
Proof.
  unfold sampleOf. destruct (getSystemMetrics (answers fl)); [|done].
  destruct (progress fl); [done| |]; by intros [= <-].
Qed.

(** A call of [collectSample] that nothing interrupts is the atomic
    [Perf.collectSample]. *)
Lemma collectSample_uninterrupted (p : probes) (s : state) :
  let i := length (flights s) in
  let s' := sampleResumes i (networkResumes i (collectSample p s)) in
  (this s', files s') = Perf.collectSample p (this s, files s).
Proof.
  cbv zeta.
  assert (Hat : ∀ fl : flight, (flights s ++ [fl]) !! length (flights s) = Some fl).
  { intros fl. rewrite lookup_app_r by done. by rewrite Nat.sub_diag. }
  assert (Hlen : ∀ fl : flight, (length (flights s) < length (flights s ++ [fl]))%nat).
  { intros fl. rewrite length_app. simpl. lia. }
  unfold collectSample, Perf.collectSample.
  destruct (suspends p).
  - unfold networkResumes. cbn [this files flights]. rewrite Hat.
    cbn [progress answers flight_elapsedMs].
    destruct (getNetworkMetrics (this s) p) as [m l].
    unfold sampleResumes. cbn [this files flights].
    rewrite list_lookup_insert_eq by apply Hlen.
    cbn [progress answers flight_elapsedMs]. unfold sampleOf.
    cbn [progress answers flight_elapsedMs].
    destruct (getSystemMetrics p) as [sys|msg]; [|done].
    cbn [set_samples set_lastNetworkStats performanceFile samples].
    destruct (performanceFile (this s)); [destruct (appendFile p)|]; done.
  - destruct (getNetworkMetrics (this s) p) as [m l].
    unfold networkResumes. cbn [this files flights]. rewrite Hat.
    cbn [progress]. unfold sampleResumes. cbn [this files flights]. rewrite Hat.
    cbn [progress answers flight_elapsedMs]. unfold sampleOf.
    cbn [progress answers flight_elapsedMs].
    destruct (getSystemMetrics p) as [sys|msg]; [|done].
    cbn [set_samples set_lastNetworkStats performanceFile samples].
    destruct (performanceFile (this s)); [destruct (appendFile p)|]; done.
Qed.

(** ** A session *)

Lemma stop_without_file (r u : answer ()) (s : state) :
  performanceFile (this s) = None →
  stopped_samples (fst (stop r u s)) = samples (this s).
Proof.
  intros Hf. unfold stop, Perf.stop. cbn [performanceFile samples].
  rewrite Hf. cbn [mbind option_bind samples].
  by destruct (samples (this s)).
Qed.

Lemma stop_with_file (u : answer ()) (s : state) (f : string) :
  performanceFile (this s) = Some f →
  default [] (files s !! f) = samples (this s) →
  stopped_samples (fst (stop (Returns ()) u s)) = samples (this s).
Proof.
  intros Hf Hd. unfold stop, Perf.stop. cbn [performanceFile samples].
  rewrite Hf. cbn [mbind option_bind].
  destruct (files s !! f) as [lines|]; simpl in Hd.
  - subst lines. cbn [set_samples samples]. by destruct (samples (this s)).
  - rewrite <- Hd. done.
Qed.

Lemma start_session (t : tracker) (d : disk) (f : string) (clock : Z)
    (first : probes) :
  interval t = None →
  let s := start (Some f) (Returns ()) clock first
             {| this := t; files := d; flights := [] |} in
  performanceFile (this s) = Some f
  ∧ isTracking (this s) = true
  ∧ samples (this s) = []
  ∧ startTime (this s) = Some clock
  ∧ default [] (files s !! f) = []
  ∧ ∃ st, flights s
          = [Flight first (if (clock =? 0)%Z then 0%Z else (now first - clock)%Z) st]
          ∧ ∀ m, st ≠ Settled m.
Proof.
  intros Hidle. unfold start, Perf.start. cbn [this files flights].
  rewrite Hidle. unfold collectSample. cbn [this files flights startTime app].
  assert (Hd : default [] (match d !! f with
                           | Some _ => delete f d
                           | None => d
                           end !! f) = []).
  { destruct (d !! f) eqn:E; [by rewrite lookup_delete_eq|by rewrite E]. }
  destruct (suspends first); [|destruct (getNetworkMetrics _ first) as [m l]];
    cbn [this files flights set_lastNetworkStats performanceFile isTracking
         interval samples startTime];
    (do 4 (split; [done|])); (split; [exact Hd|]); by eexists.
Qed.

(** X18.  A sampling session from start to stop.  The tracker is started
    with an output directory while it is idle and no call of
    [collectSample] is in flight, the stale sample file is deleted, and
    then the timer fires and the calls in flight resume in any order,
    every append going through.  The calls issued are the initial one of
    [start] and one per tick.  [stop] then returns exactly the samples in
    the sample file, which are those of the calls that have run to their
    end by then with a reading of the system probe, one each; a call that
    is still in flight when [stop] runs, whatever its probes answered, is
    not among them.  Each sample bears the clock reading of its call as
    timestamp and the time since the start as elapsed time. *)
Theorem start_run_stop_round_trip (t : tracker) (d : disk) (f : string)
    (clock : Z) (first : probes) (events : list event)
    (unlinkFile : answer ()) :
  interval t = None →
  Forall (λ p, appendFile p = Returns ()) (first :: ticks events) →
  let session :=
    run events (start (Some f) (Returns ()) clock first
                  {| this := t; files := d; flights := [] |}) in
  let returned := stopped_samples (fst (stop (Returns ()) unlinkFile session)) in
  answers <$> flights session = first :: ticks events
  ∧ default [] (files session !! f) = returned
  ∧ ∃ arrived,
      NoDup arrived
      ∧ (∀ i, i ∈ arrived
              ↔ ∃ fl, flights session !! i = Some fl ∧ settled fl = true
                      ∧ match os_system (answers fl) with
                        | Returns _ => True
                        | Raises _ => False
                        end)
      ∧ Forall2 (λ smp i,
                   ∃ fl, flights session !! i = Some fl
                         ∧ sampleOf (this session) fl = Some smp
                         ∧ timestamp smp = now (answers fl)
                         ∧ elapsedMs smp
                           = if (clock =? 0)%Z then 0%Z
                             else (now (answers fl) - clock)%Z)
          returned arrived.
Proof.
  intros Hidle Hok session returned.
  destruct (start_session t d f clock first Hidle)
    as (Hf & Hi & Hs & Hc & Hd & st & Hfl & Hst).
  cbv zeta in Hf, Hi, Hs, Hc, Hd, Hfl.
  set (s1 := start (Some f) (Returns ()) clock first
               {| this := t; files := d; flights := [] |}) in *.
  assert (Hissued : answers <$> flights session = first :: ticks events).
  { subst session. rewrite run_flights, Hi, Hfl. done. }
  assert (Happ : Forall (λ fl, appendFile (answers fl) = Returns ())
                   (flights session)).
  { rewrite <- Hissued in Hok. by apply Forall_fmap in Hok. }
  destruct (run_arrivals events s1) as (new & arrived & Hnew & Harr & _ & Hfile).
  fold session in Hnew, Harr, Hfile.
  rewrite Hs in Hnew. cbn [app] in Hnew.
  specialize (Hfile f Hf Happ). rewrite Hd in Hfile. cbn [app] in Hfile.
  destruct (run_evolves events s1) as (_ & Hc' & Hf' & _).
  fold session in Hc', Hf'.
  assert (Hret : returned = new).
  { subst returned. rewrite <- Hnew. apply (stop_with_file _ _ f); congruence. }
  split; [done|]. split; [congruence|].
  assert (Hel : Forall (λ fl, flight_elapsedMs fl
                              = if (clock =? 0)%Z then 0%Z
                                else (now (answers fl) - clock)%Z)
                  (flights session)).
  { subst session.
    apply (run_elapsed events s1
             (λ p e, e = if (clock =? 0)%Z then 0%Z else (now p - clock)%Z)).
    - intros p. by rewrite Hc.
    - rewrite Hfl. by repeat constructor. }
  destruct Harr as (Hnd & Hin & Hall).
  exists arrived. split; [done|]. split.
  - intros i. rewrite Hin. split.
    + intros (_ & fl & Hl & Hset & Hsmp). exists fl.
      split; [done|]. split; [done|]. by apply (sampleOf_answered (this session)).
    + intros (fl & Hl & Hset & Hsys). split.
      * intros (fl0 & Hl0 & Hset0). rewrite Hfl in Hl0.
        destruct i as [|i]; [|done]. cbn in Hl0. simplify_eq.
        unfold settled in Hset0. cbn [progress] in Hset0.
        destruct st as [|m|m]; try done; by destruct (Hst m).
      * exists fl. split; [done|]. split; [done|].
        by apply sampleOf_answered.
  - rewrite Hret. eapply Forall2_impl; [exact Hall|]. cbn beta.
    intros smp i (fl & Hl & Hset & Hsmp). exists fl.
    destruct (sampleOf_Some _ _ _ Hsmp) as [Hts Hms].
    split; [done|]. split; [done|]. split; [done|].
    rewrite Hms. exact (proj1 (Forall_lookup _ _) Hel i fl Hl).
Qed.

(** ** Stopping *)

Lemma stop_returned_resets (readFile unlinkFile : answer ()) (t : tracker)
    (d : disk) :
  stopped_samples (fst (Perf.stop readFile unlinkFile (t, d))) ≠ [] →
  ∃ d', snd (Perf.stop readFile unlinkFile (t, d))
        = ({| interval := None; samples := []; startTime := None; pid := pid t;
              monitorInterval := monitorInterval t;
              lastNetworkStats := lastNetworkStats t;
              performanceFile := None |}, d')
        ∧ ∀ f, performanceFile t = Some f → unlinkFile = Returns () →
               d' !! f = None.
Proof.
  unfold Perf.stop.
  set (t1 := {| interval := None; samples := samples t; startTime := startTime t;
                pid := pid t; monitorInterval := monitorInterval t;
                lastNetworkStats := lastNetworkStats t;
                performanceFile := performanceFile t |}).
  set (t2 := match performanceFile t1 ≫= (λ f, d !! f), readFile with
             | Some lines, Returns _ => set_samples t1 lines
             | _, _ => t1
             end).
  assert (Hpf : performanceFile t2 = performanceFile t
                ∧ pid t2 = pid t ∧ monitorInterval t2 = monitorInterval t
                ∧ lastNetworkStats t2 = lastNetworkStats t).
  { subst t2. destruct (performanceFile t1 ≫= _), readFile; done. }
  destruct Hpf as (Hpf & Hpid & Hmi & Hlast).
  destruct (samples t2) as [|s l] eqn:Hs; [done|]. intros _.
  cbn [fst snd]. rewrite Hpid, Hmi, Hlast. eexists. split; [reflexivity|].
  intros f Hf ->. rewrite Hpf, Hf.
  destruct (d !! f) eqn:E; [by rewrite lookup_delete_eq|done].
Qed.

(** X19.  A [stop] that returned samples leaves the tracker idle and
    empty: no timer, no samples in memory, no start time, no sample file
    configured, and the file deleted when the delete went through; it
    cancels no call of [collectSample] in flight.  A second [stop] right
    after it returns no samples and no summary, and a following [start] is
    accepted.  When calls that were in flight resume before the second
    [stop], no tick fires and no file is written, and the second [stop]
    returns exactly the samples of the calls that were in flight at the
    first [stop] and have run to their end since with a reading of the
    system probe. *)
Theorem stop_resets_tracker (readFile unlinkFile : answer ()) (s : state) :
  stopped_samples (fst (stop readFile unlinkFile s)) ≠ [] →
  let after := snd (stop readFile unlinkFile s) in
  isTracking (this after) = false
  ∧ samples (this after) = [] ∧ startTime (this after) = None
  ∧ performanceFile (this after) = None
  ∧ flights after = flights s
  ∧ (∀ f, performanceFile (this s) = Some f → unlinkFile = Returns () →
          files after !! f = None)
  ∧ (∀ r u, fst (stop r u after)
            = {| stopped_samples := []; stopped_summary := None |})
  ∧ (∀ joined u clock first,
       isTracking (this (start joined u clock first after)) = true)
  ∧ ∀ events r u,
      let later := run events after in
      let returned := stopped_samples (fst (stop r u later)) in
      answers <$> flights later = answers <$> flights s
      ∧ files later = files after
      ∧ ∃ arrived,
          NoDup arrived
          ∧ (∀ i, i ∈ arrived
                  ↔ ∃ fl fl', flights s !! i = Some fl ∧ settled fl = false
                              ∧ flights later !! i = Some fl'
                              ∧ settled fl' = true
                              ∧ match os_system (answers fl') with
                                | Returns _ => True
                                | Raises _ => False
                                end)
          ∧ Forall2 (λ smp i, ∃ fl, flights later !! i = Some fl
                                    ∧ sampleOf (this later) fl = Some smp)
              returned arrived.
Proof.
  intros Hret after.
  assert (Hstop : ∃ d', after
            = {| this := {| interval := None; samples := []; startTime := None;
                            pid := pid (this s);
                            monitorInterval := monitorInterval (this s);
                            lastNetworkStats := lastNetworkStats (this s);
                            performanceFile := None |};
                 files := d'; flights := flights s |}
            ∧ ∀ f, performanceFile (this s) = Some f → unlinkFile = Returns () →
                   d' !! f = None).
  { subst after. unfold stop in *.
    destruct (stop_returned_resets readFile unlinkFile (this s) (files s))
      as (d' & Heq & Hdel).
    - by destruct (Perf.stop readFile unlinkFile (this s, files s)) as [r [t' d0]].
    - exists d'. split; [|done].
      destruct (Perf.stop readFile unlinkFile (this s, files s)) as [r [t' d0]].
      cbn [snd] in *. by simplify_eq. }
  destruct Hstop as (d' & Hafter & Hdel).
  assert (Hfl : flights after = flights s) by (by rewrite Hafter).
  assert (Hpf : performanceFile (this after) = None) by (by rewrite Hafter).
  assert (Hidle : isTracking (this after) = false) by (by rewrite Hafter).
  assert (Hsm : samples (this after) = []) by (by rewrite Hafter).
  do 2 (split; [done|]). split; [by rewrite Hafter|]. do 2 (split; [done|]).
  split; [by rewrite Hafter|]. split; [by rewrite Hafter|].
  split.
  { intros joined u clock first. rewrite Hafter. unfold start, Perf.start.
    cbn [this files flights interval]. unfold collectSample.
    destruct (suspends first); [|destruct (getNetworkMetrics _ first) as [m l]];
      done. }
  intros events r u later returned.
  assert (Hissued : answers <$> flights later = answers <$> flights s).
  { subst later. by rewrite run_flights, Hidle, app_nil_r, Hfl. }
  destruct (run_arrivals events after) as (new & arrived & Hnew & Harr & Hnone & _).
  fold later in Hnew, Harr, Hnone. rewrite Hsm in Hnew. cbn [app] in Hnew.
  destruct (run_evolves events after) as (_ & _ & Hpf' & _ & Hkeep).
  fold later in Hpf', Hkeep.
  split; [done|]. split; [by apply Hnone|].
  assert (Hreturned : returned = new).
  { subst returned. rewrite <- Hnew. apply stop_without_file. congruence. }
  destruct Harr as (Hnd & Hin & Hall).
  exists arrived. split; [done|]. split.
  - intros i. rewrite Hin. split.
    + intros (Hn & fl' & Hl' & Hset' & Hsmp).
      assert (Hlt : (i < length (flights s))%nat).
      { apply lookup_lt_Some in Hl'.
        apply (f_equal length) in Hissued. by rewrite !length_fmap in Hissued; lia. }
      destruct (lookup_lt_is_Some_2 _ _ Hlt) as [fl Hl].
      exists fl, fl'. split; [done|]. split.
      * destruct (settled fl) eqn:Hset; [|done]. destruct Hn.
        exists fl. by rewrite Hfl.
      * split; [done|]. split; [done|].
        by apply (sampleOf_answered (this later)).
    + intros (fl & fl' & Hl & Hset & Hl' & Hset' & Hsys). split.
      * intros (fl0 & Hl0 & Hset0). rewrite Hfl in Hl0. congruence.
      * exists fl'. split; [done|]. split; [done|]. by apply sampleOf_answered.
  - rewrite Hreturned. eapply Forall2_impl; [exact Hall|]. cbn beta.
    intros smp i (fl & Hl & _ & Hsmp). by exists fl.
Qed.

End SamplerFacts.

(** ** Instances *)
Section PerfSessionsInstances.
Import Perf Examples Scenarios.

Local Open Scope Q_scope.

Lemma network_rates_between_readings_witness :
  let t := fst sampled_once in
  let p := quiet_tick 11000 3000 in
  let reading := fst (getNetworkMetrics t p) in
  bytesReceived reading = 3200%Z ∧ bytesSent reading = 600%Z
  ∧ snd (getNetworkMetrics t p)
    = Some {| last_bytesReceived := 3200; last_bytesSent := 600;
              last_timestamp := 11000 |}
  ∧ mbReceivedPerSec reading * (1024 * 1024) == bytesReceivedPerSec reading
  ∧ mbSentPerSec reading * (1024 * 1024) == bytesSentPerSec reading
  ∧ match lastNetworkStats t with
    | None => bytesReceivedPerSec reading = 0 ∧ bytesSentPerSec reading = 0
    | Some last =>
        let dt := (network_now p - last_timestamp last)%Z in
        ((dt ≤ 0)%Z →
           bytesReceivedPerSec reading = 0 ∧ bytesSentPerSec reading = 0)
        ∧ ((0 < dt)%Z →
           Forall (λ '(delta, rate),
                     ((0 < delta)%Z → 0 < rate)
                     ∧ (delta = 0%Z → rate == 0)
                     ∧ ((delta < 0)%Z → rate < 0)
                     ∧ (dt = 1000%Z → rate == inject_Z delta)
                     ∧ ((1000 ≤ dt)%Z → (0 ≤ delta)%Z → rate <= inject_Z delta)
                     ∧ ((1000 ≤ dt)%Z → (delta ≤ 0)%Z → inject_Z delta <= rate))
             [ ((3200 - last_bytesReceived last)%Z, bytesReceivedPerSec reading);
               ((600 - last_bytesSent last)%Z, bytesSentPerSec reading) ])
    end.
Proof.
  exact (network_rates_between_readings (quiet_tick 11000 3000) (fst sampled_once)
           3200 600 eq_refl eq_refl).
Defined.

End PerfSessionsInstances.

Section SamplerInstances.
Import Perf Sampler Examples Scenarios.

Lemma start_run_stop_round_trip_witness :
  let session := sampling_session in
  let returned := stopped_samples (fst (stop (Returns ()) (Returns ()) session)) in
  (timestamp <$> returned = [1000; 6000]
   ∧ now ∘ answers <$> List.filter (λ fl, negb (settled fl)) (flights session)
     = [16000])
  ∧ answers <$> flights session = quiet_tick 1000 800 :: ticks sampling_events
  ∧ default [] (files session !! "/out/performance.jsonl") = returned
  ∧ ∃ arrived,
      NoDup arrived
      ∧ (∀ i, i ∈ arrived
              ↔ ∃ fl, flights session !! i = Some fl ∧ settled fl = true
                      ∧ match os_system (answers fl) with
                        | Returns _ => True
                        | Raises _ => False
                        end)
      ∧ Forall2 (λ smp i,
                   ∃ fl, flights session !! i = Some fl
                         ∧ sampleOf (this session) fl = Some smp
                         ∧ timestamp smp = now (answers fl)
                         ∧ elapsedMs smp
                           = if (1000 =? 0)%Z then 0%Z
                             else (now (answers fl) - 1000)%Z)
          returned arrived.
Proof.
  split; [by vm_compute|].
  apply (start_run_stop_round_trip (create 77) ∅ "/out/performance.jsonl" 1000
           (quiet_tick 1000 800) sampling_events (Returns ()) eq_refl).
  vm_compute. repeat constructor.
Defined.

Lemma stop_resets_tracker_witness :
  let s := sampling_session in
  let after := snd (stop (Returns ()) (Returns ()) s) in
  (timestamp <$> stopped_samples (fst (stop (Returns ()) (Returns ()) s))
   = [1000; 6000]
   ∧ timestamp
     <$> stopped_samples
           (fst (stop (Returns ()) (Returns ()) (run [SampleResumes 3] after)))
     = [16000])
  ∧ isTracking (this after) = false
  ∧ samples (this after) = [] ∧ startTime (this after) = None
  ∧ performanceFile (this after) = None
  ∧ flights after = flights s
  ∧ (∀ f, performanceFile (this s) = Some f → Returns () = Returns () →
          files after !! f = None)
  ∧ (∀ r u, fst (stop r u after)
            = {| stopped_samples := []; stopped_summary := None |})
  ∧ (∀ joined u clock first,
       isTracking (this (start joined u clock first after)) = true)
  ∧ ∀ events r u,
      let later := run events after in
      let returned := stopped_samples (fst (stop r u later)) in
      answers <$> flights later = answers <$> flights s
      ∧ files later = files after
      ∧ ∃ arrived,
          NoDup arrived
          ∧ (∀ i, i ∈ arrived
                  ↔ ∃ fl fl', flights s !! i = Some fl ∧ settled fl = false
                              ∧ flights later !! i = Some fl'
                              ∧ settled fl' = true
                              ∧ match os_system (answers fl') with
                                | Returns _ => True
                                | Raises _ => False
                                end)
          ∧ Forall2 (λ smp i, ∃ fl, flights later !! i = Some fl
                                    ∧ sampleOf (this later) fl = Some smp)
              returned arrived.
Proof.
  split; [by vm_compute|].
  apply (stop_resets_tracker (Returns ()) (Returns ()) sampling_session).
  vm_compute. discriminate.
Defined.

End SamplerInstances.

(* ================================================================== *)
(** * Properties of log tracking *)
(* ================================================================== *)
Section ObjectFacts.
Import Logs.
Context {V : Type}.
Implicit Types (o : list (string * V)) (k : string) (v : V).

Lemma obj_get_set_eq k v o : obj_get k (obj_set k v o) = Some v.
Proof.
  induction o as [|[k' v'] o IH]; cbn [obj_set obj_get].
  - by rewrite String.eqb_refl.
  - destruct (String.eqb_spec k' k) as [->|Hne]; cbn [obj_get].
    + by rewrite String.eqb_refl.
    + by destruct (String.eqb_spec k' k).
Qed.

Lemma obj_get_set_ne k k' v o : k' ≠ k → obj_get k' (obj_set k v o) = obj_get k' o.
Proof.
  intros Hne. induction o as [|[k0 v0] o IH]; cbn [obj_set obj_get].
  - by destruct (String.eqb_spec k k').
  - destruct (String.eqb_spec k0 k) as [->|Hk]; cbn [obj_get].
    + by destruct (String.eqb_spec k k').
    + by rewrite IH.
Qed.

Lemma obj_get_delete_eq k o : obj_get k (obj_delete k o) = None.
Proof.
  unfold obj_delete. induction o as [|[k0 v0] o IH]; cbn [List.filter fst obj_get]; [done|].
  destruct (String.eqb_spec k0 k) as [->|Hk]; cbn [negb obj_get]; [done|].
  by destruct (String.eqb_spec k0 k).
Qed.


Lemma obj_get_None k o : obj_get k o = None ↔ k ∉ obj_keys o.
Proof.
  unfold obj_keys. induction o as [|[k0 v0] o IH]; cbn [obj_get].
  - split; [intros _; apply not_elem_of_nil|done].
  - rewrite fmap_cons, not_elem_of_cons. cbn [fst].
    destruct (String.eqb_spec k0 k) as [->|Hk]; [split; [done|tauto]|].
    rewrite IH. split; [|tauto]. intros H. split; [congruence|done].
Qed.

Lemma obj_get_elem k v o : obj_get k o = Some v → (k, v) ∈ o.
Proof.
  induction o as [|[k0 v0] o IH]; cbn [obj_get]; [done|].
  destruct (String.eqb_spec k0 k) as [->|Hk].
  - intros [= ->]. by left.
  - intros H. right. by apply IH.
Qed.

Lemma elem_obj_get k v o : NoDup (obj_keys o) → (k, v) ∈ o → obj_get k o = Some v.
Proof.
  unfold obj_keys. induction o as [|[k0 v0] o IH]; [intros _ H; by apply elem_of_nil in H|].
  rewrite fmap_cons. cbn [fst obj_get]. intros Hnd Hin.
  apply NoDup_cons in Hnd as [Hk0 Hnd].
  apply elem_of_cons in Hin as [[= -> ->]|Hin].
  - by rewrite String.eqb_refl.
  - destruct (String.eqb_spec k0 k) as [->|Hk]; [|by apply IH].
    exfalso. apply Hk0. apply list_elem_of_fmap. by exists (k, v).
Qed.

Lemma obj_set_absent k v o : obj_get k o = None → obj_set k v o = o ++ [(k, v)].
Proof.
  induction o as [|[k0 v0] o IH]; cbn [obj_get obj_set]; [done|].
  destruct (String.eqb k0 k); [done|]. intros H. by rewrite IH.
Qed.

Lemma obj_keys_set_present k v o :
  is_Some (obj_get k o) → obj_keys (obj_set k v o) = obj_keys o.
Proof.
  unfold obj_keys. induction o as [|[k0 v0] o IH]; cbn [obj_get obj_set].
  - by intros [? ?].
  - destruct (String.eqb_spec k0 k) as [->|Hk]; [done|].
    intros H. rewrite !fmap_cons. by rewrite IH.
Qed.

Lemma NoDup_obj_keys_set k v o :
  NoDup (obj_keys o) → NoDup (obj_keys (obj_set k v o)).
Proof.
  intros Hnd. destruct (obj_get k o) as [v0|] eqn:E.
  - by rewrite obj_keys_set_present by (by eexists).
  - rewrite obj_set_absent by done. unfold obj_keys. rewrite fmap_app.
    apply NoDup_app. split; [done|]. split; [|apply NoDup_singleton].
    intros x Hx Hx'. apply list_elem_of_singleton in Hx'. subst x.
    by apply obj_get_None in E.
Qed.

Lemma elem_of_obj_delete k k' v o :
  (k', v) ∈ obj_delete k o ↔ k' ≠ k ∧ (k', v) ∈ o.
Proof.
  unfold obj_delete. rewrite list_elem_of_In, filter_In, <- list_elem_of_In.
  cbn [fst]. destruct (String.eqb_spec k' k); cbn [negb]; intuition congruence.
Qed.

Lemma obj_keys_delete k o :
  obj_keys (obj_delete k o) = List.filter (λ k', negb (String.eqb k' k)) (obj_keys o).
Proof.
  unfold obj_keys, obj_delete. induction o as [|[k0 v0] o IH]; [done|].
  rewrite fmap_cons. cbn [List.filter fst].
  destruct (String.eqb k0 k); cbn [negb]; rewrite ?fmap_cons, IH; done.
Qed.

Lemma NoDup_obj_keys_delete k o :
  NoDup (obj_keys o) → NoDup (obj_keys (obj_delete k o)).
Proof.
  rewrite obj_keys_delete. induction 1 as [|x l Hx Hl IH]; cbn [List.filter]; [constructor|].
  destruct (negb _); [|done]. constructor; [|done].
  rewrite list_elem_of_In, filter_In, <- list_elem_of_In. tauto.
Qed.

Lemma elem_of_obj_set k k' v v' o :
  NoDup (obj_keys o) →
  (k', v') ∈ obj_set k v o ↔ (k' = k ∧ v' = v) ∨ (k' ≠ k ∧ (k', v') ∈ o).
Proof.
  intros Hnd. split.
  - intros Hin. apply elem_obj_get in Hin; [|by apply NoDup_obj_keys_set].
    destruct (decide (k' = k)) as [->|Hne].
    + rewrite obj_get_set_eq in Hin. left. split; congruence.
    + rewrite obj_get_set_ne in Hin by done. right. split; [done|].
      by apply obj_get_elem.
  - intros [[-> ->]|[Hne Hin]].
    + apply obj_get_elem, obj_get_set_eq.
    + apply obj_get_elem. rewrite obj_get_set_ne by done. by apply elem_obj_get.
Qed.

Lemma obj_get_fmap {B} (h : V → B) k o :
  obj_get k ((λ kv, (fst kv, h (snd kv))) <$> o) = h <$> obj_get k o.
Proof.
  induction o as [|[k0 v0] o IH]; [done|]. rewrite fmap_cons. cbn [obj_get fst snd].
  by destruct (String.eqb k0 k).
Qed.

Lemma obj_delete_fmap {B} (h : V → B) k o :
  obj_delete k ((λ kv, (fst kv, h (snd kv))) <$> o)
  = (λ kv, (fst kv, h (snd kv))) <$> obj_delete k o.
Proof.
  unfold obj_delete. induction o as [|[k0 v0] o IH]; [done|].
  rewrite fmap_cons. cbn [List.filter fst snd].
  destruct (String.eqb k0 k); cbn [negb]; rewrite ?fmap_cons, IH; done.
Qed.

Lemma fmap_obj_set_same {B} (g : string * V → B) k v o :
  (∀ old, (k, old) ∈ o → g (k, v) = g (k, old)) →
  is_Some (obj_get k o) →
  g <$> obj_set k v o = g <$> o.
Proof.
  induction o as [|[k0 v0] o IH]; cbn [obj_get obj_set]; [by intros _ [? ?]|].
  intros Hg Hs. destruct (String.eqb_spec k0 k) as [->|Hk]; rewrite !fmap_cons.
  - f_equal. apply Hg. by left.
  - f_equal. apply IH; [|done]. intros old Hin. apply Hg. by right.
Qed.

Lemma NoDup_fmap_obj_delete {B} (g : string * V → B) k o :
  NoDup (g <$> o) → NoDup (g <$> obj_delete k o).
Proof.
  unfold obj_delete. induction o as [|kv o IH]; [done|].
  rewrite fmap_cons. intros Hnd. apply NoDup_cons in Hnd as [Hx Hnd].
  cbn [List.filter]. destruct (negb _); [|by apply IH].
  rewrite fmap_cons. constructor; [|by apply IH].
  intros Hin. apply Hx. apply list_elem_of_fmap in Hin as (y & -> & Hy).
  apply list_elem_of_fmap. exists y. split; [done|].
  apply list_elem_of_In, filter_In in Hy as [Hy _]. by apply list_elem_of_In.
Qed.

Lemma elem_of_obj_set_1 k k' v v' o :
  (k', v') ∈ obj_set k v o → (k' = k ∧ v' = v) ∨ (k', v') ∈ o.
Proof.
  induction o as [|[k0 v0] o IH]; cbn [obj_set].
  - rewrite list_elem_of_singleton. intros [= -> ->]. by left.
  - destruct (String.eqb_spec k0 k) as [->|Hk]; rewrite !elem_of_cons.
    + intros [[= -> ->]|Hin]; [by left|right; by right].
    + intros [Heq|Hin]; [right; by left|].
      destruct (IH Hin) as [?|?]; [by left|right; by right].
Qed.

End ObjectFacts.


Section LogsInvariant.
Import Logs.

(** ** Framing *)

Lemma world_ok_frame (w w' : world) :
  world_ok w →
  byFilePath w' = byFilePath w → trackers w' = trackers w →
  constructed w' = constructed w → appends w' = appends w →
  (∀ key inst, (key, inst) ∈ instances w' → is_Some (trackers w !! cli inst)) →
  world_ok w'.
Proof.
  intros [H1 H2 H3 H4 H5 H6 H7] Hb Ht Hc Ha Hi.
  split; rewrite ?Hb, ?Ht, ?Hc, ?Ha; done.
Qed.

Lemma set_cliConfig_ok l w : world_ok w → world_ok (set_cliConfig l w).
Proof. intros H. apply (world_ok_frame w); try done. apply H. Qed.

Lemma initial_ok : world_ok initial.
Proof.
  split; cbn [initial trackers byFilePath appends instances obj_keys].
  - intros o t H. by rewrite lookup_empty in H.
  - intros o t f fe H. by rewrite lookup_empty in H.
  - constructor.
  - intros f en H. by apply elem_of_nil in H.
  - intros f en cb H. by apply elem_of_nil in H.
  - intros a H. by apply elem_of_nil in H.
  - intros k i H. by apply elem_of_nil in H.
Qed.

(** ** The file tracker manager *)

(** An entry gets another file tracker state. *)
Lemma retrack_ok (w : world) (filePath : string) (en : entry) (t : fileTracker) :
  world_ok w →
  obj_get filePath (byFilePath w) = Some en →
  trackedFile t = filePath →
  Z.of_nat (length (eventTimes t)) ≤ totalEvents t →
  world_ok (set_byFilePath
              (obj_set filePath {| callbacks := callbacks en; tracker := t |}
                       (byFilePath w)) w).
Proof.
  intros [H1 H2 H3 H4 H5 H6 H7] Hen Hf Hlen.
  pose proof (obj_get_elem _ _ _ Hen) as Hin.
  split; cbn [set_byFilePath byFilePath trackers constructed appends instances]; try done.
  - by apply NoDup_obj_keys_set.
  - intros f en' Hin'. apply elem_of_obj_set in Hin' as [[-> ->]|[Hne Hin']]; [|by apply H4|done].
    cbn [callbacks tracker]. split; [by apply (H4 _ _ Hin)|]. done.
  - intros f en' cb Hin' Hcb.
    apply elem_of_obj_set in Hin' as [[-> ->]|[Hne Hin']]; [|by apply (H5 _ en')|done].
    by apply (H5 _ en).
Qed.

Lemma FileTracker_getStats_bound (e : env) (t : fileTracker) :
  Z.of_nat (length (eventTimes t)) ≤ totalEvents t →
  trackedFile (snd (FileTracker_getStats e t)) = trackedFile t
  ∧ Z.of_nat (length (eventTimes (snd (FileTracker_getStats e t))))
    ≤ totalEvents (snd (FileTracker_getStats e t))
  ∧ stats_count (fst (FileTracker_getStats e t)) ≤ totalEvents t
  ∧ 0 ≤ stats_count (fst (FileTracker_getStats e t)).
Proof.
  intros H. unfold FileTracker_getStats.
  cbn [fst snd trackedFile eventTimes totalEvents stats_count].
  pose proof (filter_length_le (λ time, now e "getStats" - time <=? 60000)
                (eventTimes t)).
  repeat split; lia.
Qed.

Lemma getStats_ok (e : env) (filePath : string) (w : world) :
  world_ok w →
  world_ok (set_byFilePath (snd (getStats e filePath (byFilePath w))) w).
Proof.
  intros Hok. unfold getStats.
  destruct (obj_get filePath (byFilePath w)) as [en|] eqn:Hen.
  - pose proof (obj_get_elem _ _ _ Hen) as Hin.
    destruct (ok_entries w Hok _ _ Hin) as (_ & Hf & Hlen).
    destruct (FileTracker_getStats_bound e (tracker en) Hlen) as (Hf' & Hlen' & _).
    destruct (FileTracker_getStats e (tracker en)) as [stats t]. cbn [snd] in *.
    apply retrack_ok; try done. congruence.
  - cbn [snd]. by apply (world_ok_frame w); try apply Hok.
Qed.

Lemma fold_getStats_ok {A} (e : env)
    (f : A → fileStats → fileTrackerManager → string → A)
    (keys : list string) : ∀ (w : world) (acc : A),
  world_ok w →
  world_ok (set_byFilePath
              (snd (foldl (λ acc filePath,
                             let '(stats, m) := getStats e filePath (snd acc) in
                             (f (fst acc) stats m filePath, m))
                          (acc, byFilePath w) keys)) w).
Proof.
  induction keys as [|k keys IH]; intros w acc Hok; cbn [foldl snd fst].
  - by apply (world_ok_frame w); try apply Hok.
  - pose proof (getStats_ok e k w Hok) as Hok'.
    destruct (getStats e k (byFilePath w)) as [stats m] eqn:E. cbn [snd] in Hok'.
    specialize (IH _ (f acc stats m k) Hok').
    cbn [set_byFilePath byFilePath] in IH.
    eapply world_ok_frame; [exact IH|..]; try done. apply IH.
Qed.

Lemma getAllStats_ok (e : env) (w : world) :
  world_ok w → world_ok (set_byFilePath (snd (getAllStats e (byFilePath w))) w).
Proof.
  intros Hok. unfold getAllStats.
  apply (fold_getStats_ok e
           (λ acc stats m filePath,
              acc ++ [ {| managed_filePath := filePath; managed_stats := stats;
                          callbackCount :=
                            match obj_get filePath m with
                            | Some en => length (callbacks en)
                            | None => 0%nat
                            end |} ])
           (obj_keys (byFilePath w)) w [] Hok).
Qed.

Lemma CLILogsTracker_getStatus_ok (e : env) (t : cliTracker) (w : world) :
  world_ok w →
  world_ok (set_byFilePath (snd (CLILogsTracker_getStatus e t (byFilePath w))) w).
Proof.
  intros Hok. unfold CLILogsTracker_getStatus.
  destruct (isWatchOnly t).
  - pose proof (fold_getStats_ok e
           (λ acc stats m filePath,
              acc ++ [ {| item_index := obj_get filePath (fileToIndex t);
                          item_count := stats_count stats;
                          item_totalEvents := stats_totalEvents stats;
                          item_isActive := stats_isActive stats |} ])
           (obj_keys (files t)) w [] Hok) as H.
    destruct (foldl _ _ _) as [its m]. exact H.
  - cbn [snd]. by apply (world_ok_frame w); try apply Hok.
Qed.

(** ** The files of a CLI tracker *)

Lemma tracker_files_unique (o : nat) (t : cliTracker) f fe fe' :
  tracker_ok o t → (f, fe) ∈ files t → (f, fe') ∈ files t → fe = fe'.
Proof.
  intros (_ & Hk & _) H1 H2.
  apply (elem_obj_get _ _ _ Hk) in H1. apply (elem_obj_get _ _ _ Hk) in H2. congruence.
Qed.

Lemma appendedBy_none (cb : callback) (l : list appended) :
  (∀ a, a ∈ l → by_callback a ≠ cb) → appendedBy cb l = 0%nat.
Proof.
  unfold appendedBy. induction l as [|a l IH]; intros H; [done|].
  cbn [List.filter]. rewrite bool_decide_eq_false_2 by (apply H; by left).
  apply IH. intros a' Ha'. apply H. by right.
Qed.

Lemma appendedBy_snoc (cb : callback) (l : list appended) (a : appended) :
  appendedBy cb (l ++ [a])
  = (appendedBy cb l + if bool_decide (by_callback a = cb) then 1 else 0)%nat.
Proof.
  unfold appendedBy. rewrite List.filter_app, length_app. cbn [List.filter].
  by destruct (bool_decide _).
Qed.

Lemma startFileTracker_ok (e : env) (o : nat) (filePath : string) (w : world) :
  world_ok w → world_ok (startFileTracker e o filePath w).
Proof.
  intros Hok. unfold startFileTracker.
  destruct (trackers w !! o) as [t|] eqn:Ht; [|done].
  destruct (obj_get filePath (files t)) as [fe0|] eqn:Hget; [done|].
  destruct (existsSync e filePath); cbn [negb]; [|done].
  destruct Hok as [H1 H2 H3 H4 H5 H6 H7].
  destruct (H1 _ _ Ht) as (Hlt & Hpos & Hk & Hi & Hfi & Hr).
  set (cb := {| owner := o; index := fileIndex t + 1; originalFile := filePath |}).
  set (fe := {| file_status := {| item := fileIndex t + 1; count := 0 |};
                file_callback := cb |}).
  set (t1 := {| files := obj_set filePath fe (files t); fileIndex := fileIndex t + 1;
                fileToIndex := obj_set filePath (fileIndex t + 1) (fileToIndex t);
                config := config t; isWatchOnly := isWatchOnly t;
                fileLocation := fileLocation t |}).
  assert (Hfiles : files t1 = files t ++ [(filePath, fe)])
    by (by apply obj_set_absent).
  assert (Hold : ∀ o' t', trackers w !! o' = Some t' →
            ∃ t'', <[o := t1]> (trackers w) !! o' = Some t''
                   ∧ (∀ f' fe', (f', fe') ∈ files t' → (f', fe') ∈ files t'')
                   ∧ fileIndex t' ≤ fileIndex t''
                   ∧ fileLocation t'' = fileLocation t').
  { intros o' t' Ht'. rewrite lookup_insert. case_decide as Ho.
    - subst o'. rewrite Ht in Ht'. injection Ht' as <-. exists t1.
      split; [done|]. rewrite Hfiles. split; [|split; [cbn; lia|done]].
      intros f' fe' Hin. apply elem_of_app. by left.
    - exists t'. split; [done|]. split; [done|]. split; [lia|done]. }
  split; cbn [set_tracker set_byFilePath byFilePath trackers constructed appends instances].
  - intros o' t'. rewrite lookup_insert. case_decide as Ho; [|by apply H1].
    intros [= <-]. subst o'. split; [done|].
    unfold tracker_ok. rewrite Hfiles. cbn [fileIndex fileToIndex t1].
    split; [lia|]. split; [|split; [|split]].
    + unfold obj_keys. rewrite fmap_app. apply NoDup_app. split; [done|].
      split; [|apply NoDup_singleton].
      intros x Hx Hx'. apply list_elem_of_singleton in Hx'. subst x.
      by apply obj_get_None in Hget.
    + rewrite fmap_app. apply NoDup_app. split; [done|].
      split; [|apply NoDup_singleton].
      intros x Hx Hx'. apply list_elem_of_singleton in Hx'. subst x.
      apply list_elem_of_fmap in Hx as ([f' fe'] & Heq & Hin).
      destruct (Hr _ _ Hin) as [_ Hrange]. cbn in Heq. lia.
    + rewrite fmap_app, <- Hfi. apply obj_set_absent. cbn [fst].
      rewrite Hfi, (obj_get_fmap (λ fe, item (file_status fe))), Hget. done.
    + intros f' fe'. rewrite elem_of_app, list_elem_of_singleton.
      intros [Hin|[= -> ->]].
      * destruct (Hr _ _ Hin) as [Hcb Hrange]. split; [done|lia].
      * split; [done|]. cbn. lia.
  - intros o' t' f' fe'. rewrite lookup_insert. case_decide as Ho; [|by apply H2].
    intros [= <-]. subst o'. rewrite Hfiles, elem_of_app, list_elem_of_singleton.
    intros [Hin|[= -> ->]]; [by apply (H2 o t f' fe')|].
    cbn [fe file_status file_callback count]. rewrite appendedBy_none; [done|].
    intros a Ha Heq. destruct (H6 _ Ha) as (_ & _ & t0 & Ht0 & Hrange & _).
    rewrite Heq in Ht0, Hrange. cbn in Ht0, Hrange.
    rewrite Ht in Ht0. injection Ht0 as <-. lia.
  - unfold subscribe. destruct (obj_get filePath (byFilePath w));
      by apply NoDup_obj_keys_set.
  - intros f' en'. unfold subscribe.
    destruct (obj_get filePath (byFilePath w)) as [en|] eqn:Hen;
      rewrite elem_of_obj_set by done; (intros [[-> ->]|[Hne Hin]]; [|by apply H4]);
      cbn [callbacks tracker].
    + destruct (H4 _ _ (obj_get_elem _ _ _ Hen)) as (_ & Hf & Hlen).
      split; [|done]. by destruct (callbacks en).
    + split; [done|]. split; [done|]. cbn. lia.
  - assert (Hkeep : ∀ f' en' cb', (f', en') ∈ byFilePath w → cb' ∈ callbacks en' →
              originalFile cb' = f'
              ∧ ∃ t' fe', <[o := t1]> (trackers w) !! owner cb' = Some t'
                          ∧ (f', fe') ∈ files t' ∧ file_callback fe' = cb').
    { intros f' en' cb' Hin Hcb.
      destruct (H5 _ _ _ Hin Hcb) as (Hof & t' & fe' & Ht' & Hfe' & Hcb').
      split; [done|]. destruct (Hold _ _ Ht') as (t'' & Ht'' & Hsub & _).
      exists t'', fe'. split; [done|]. split; [by apply Hsub|done]. }
    assert (Hnew : originalFile cb = filePath
              ∧ ∃ t' fe', <[o := t1]> (trackers w) !! owner cb = Some t'
                          ∧ (filePath, fe') ∈ files t' ∧ file_callback fe' = cb).
    { split; [done|]. exists t1, fe. cbn [owner cb]. rewrite lookup_insert_eq.
      split; [done|]. split; [|done]. rewrite Hfiles. apply elem_of_app. right. by left. }
    intros f' en' cb'. unfold subscribe.
    destruct (obj_get filePath (byFilePath w)) as [en|] eqn:Hen;
      rewrite elem_of_obj_set by done;
      (intros [[-> ->]|[Hne Hin]]; [|by apply Hkeep]); cbn [callbacks].
    + rewrite elem_of_app, list_elem_of_singleton. intros [Hcb| ->]; [|done].
      apply (Hkeep _ en); [by apply obj_get_elem|done].
    + rewrite list_elem_of_singleton. by intros ->.
  - intros a Ha. destruct (H6 _ Ha) as (Hl & Hf & t0 & Ht0 & Hrange & Hto & Hne).
    split; [done|]. split; [done|].
    destruct (Hold _ _ Ht0) as (t'' & Ht'' & _ & Hle & Hloc).
    exists t''. split; [done|]. split; [lia|]. by rewrite Hloc.
  - intros key inst Hin. destruct (H7 _ _ Hin) as [t0 Ht0].
    destruct (Hold _ _ Ht0) as (t'' & Ht'' & _). by eexists.
Qed.


Lemma stopFileTracker_ok (o : nat) (filePath : string) (w : world) :
  world_ok w → world_ok (stopFileTracker o filePath w).
Proof.
  intros Hok. unfold stopFileTracker.
  destruct (trackers w !! o) as [t|] eqn:Ht; [|done].
  destruct (obj_get filePath (files t)) as [fe|] eqn:Hget; [|done].
  destruct Hok as [H1 H2 H3 H4 H5 H6 H7].
  destruct (H1 _ _ Ht) as (Hlt & Hpos & Hk & Hi & Hfi & Hr).
  pose proof (obj_get_elem _ _ _ Hget) as Hfe.
  set (t1 := {| files := obj_delete filePath (files t); fileIndex := fileIndex t;
                fileToIndex := obj_delete filePath (fileToIndex t);
                config := config t; isWatchOnly := isWatchOnly t;
                fileLocation := fileLocation t |}).
  assert (Hold : ∀ o' t', trackers w !! o' = Some t' →
            ∃ t'', <[o := t1]> (trackers w) !! o' = Some t''
                   ∧ (∀ f' fe', (f', fe') ∈ files t'' → (f', fe') ∈ files t')
                   ∧ (∀ f' fe', (f', fe') ∈ files t' → o' ≠ o ∨ f' ≠ filePath →
                                (f', fe') ∈ files t'')
                   ∧ fileIndex t'' = fileIndex t'
                   ∧ fileLocation t'' = fileLocation t').
  { intros o' t' Ht'. rewrite lookup_insert. case_decide as Ho.
    - subst o'. rewrite Ht in Ht'. injection Ht' as <-. exists t1.
      split; [done|]. cbn [t1 files]. split; [|split; [|done]].
      + intros f' fe'. rewrite elem_of_obj_delete. tauto.
      + intros f' fe' Hin [?|?]; [done|]. by apply elem_of_obj_delete.
    - exists t'. split; [done|]. split; [done|]. split; [|done].
      intros f' fe' Hin _. done. }
  split; cbn [set_tracker set_byFilePath byFilePath trackers constructed appends instances].
  - intros o' t'. rewrite lookup_insert. case_decide as Ho; [|by apply H1].
    intros [= <-]. subst o'. split; [done|].
    unfold tracker_ok. cbn [files fileIndex fileToIndex t1].
    split; [done|]. split; [by apply NoDup_obj_keys_delete|].
    split; [by apply NoDup_fmap_obj_delete|]. split.
    + rewrite Hfi. apply (obj_delete_fmap (λ fe, item (file_status fe))).
    + intros f' fe'. rewrite elem_of_obj_delete. intros [_ Hin]. by apply Hr.
  - intros o' t' f' fe' Ht' Hin.
    rewrite lookup_insert in Ht'. case_decide as Ho; [|by apply (H2 o' t' f')].
    injection Ht' as <-. subst o'. cbn [t1 files] in Hin.
    apply elem_of_obj_delete in Hin as [_ Hin]. by apply (H2 o t f').
  - unfold unsubscribe. destruct (obj_get filePath (byFilePath w)) as [en|]; [|done].
    destruct (List.filter _ _); [by apply NoDup_obj_keys_delete|by apply NoDup_obj_keys_set].
  - intros f' en'. unfold unsubscribe.
    destruct (obj_get filePath (byFilePath w)) as [en|] eqn:Hen; [|by apply H4].
    destruct (List.filter _ (callbacks en)) as [|c l] eqn:Hfl.
    + rewrite elem_of_obj_delete. intros [_ Hin]. by apply H4.
    + rewrite elem_of_obj_set by done. intros [[-> ->]|[Hne Hin]]; [|by apply H4].
      cbn [callbacks tracker]. split; [done|].
      by apply (H4 _ _ (obj_get_elem _ _ _ Hen)).
  - assert (Hkeep : ∀ f' en' cb', (f', en') ∈ byFilePath w → cb' ∈ callbacks en' →
              f' ≠ filePath ∨ cb' ≠ file_callback fe →
              originalFile cb' = f'
              ∧ ∃ t' fe', <[o := t1]> (trackers w) !! owner cb' = Some t'
                          ∧ (f', fe') ∈ files t' ∧ file_callback fe' = cb').
    { intros f' en' cb' Hin Hcb Hdiff.
      destruct (H5 _ _ _ Hin Hcb) as (Hof & t' & fe' & Ht' & Hfe' & Hcb').
      split; [done|]. destruct (Hold _ _ Ht') as (t'' & Ht'' & _ & Hsub & _).
      exists t'', fe'. split; [done|]. split; [|done]. apply Hsub; [done|].
      destruct (decide (owner cb' = o)) as [Ho|Ho]; [|by left]. right.
      intros ->. destruct Hdiff as [?|Hdiff]; [done|]. apply Hdiff.
      rewrite Ho, Ht in Ht'. injection Ht' as <-.
      rewrite <- Hcb'. f_equal.
      apply (tracker_files_unique o t filePath); [by apply H1|done|done]. }
    intros f' en' cb'. unfold unsubscribe.
    destruct (obj_get filePath (byFilePath w)) as [en|] eqn:Hen.
    + destruct (List.filter _ (callbacks en)) as [|c l] eqn:Hfl.
      * rewrite elem_of_obj_delete. intros [Hne Hin] Hcb. apply (Hkeep _ en'); auto.
      * rewrite elem_of_obj_set by done. intros [[-> ->]|[Hne Hin]] Hcb.
        -- cbn [callbacks] in Hcb. rewrite <- Hfl in Hcb.
           apply list_elem_of_In, filter_In in Hcb as [Hcb Hne].
           apply bool_decide_eq_true in Hne.
           apply (Hkeep _ en); [by apply obj_get_elem|by apply list_elem_of_In|by right].
        -- apply (Hkeep _ en'); auto.
    + intros Hin Hcb. apply (Hkeep _ en'); [done|done|]. left. intros ->.
      apply (elem_obj_get _ _ _ H3) in Hin. congruence.
  - intros a Ha. destruct (H6 _ Ha) as (Hl & Hf & t0 & Ht0 & Hrange & Hto & Hne).
    split; [done|]. split; [done|].
    destruct (Hold _ _ Ht0) as (t'' & Ht'' & _ & _ & Hle & Hloc).
    exists t''. split; [done|]. split; [lia|]. by rewrite Hloc.
  - intros key inst Hin. destruct (H7 _ _ Hin) as [t0 Ht0].
    destruct (Hold _ _ Ht0) as (t'' & Ht'' & _). by eexists.
Qed.


(** A tracker replaced by one with the same files. *)
Lemma same_files_ok (o : nat) (t t1 : cliTracker) (w : world) :
  world_ok w → trackers w !! o = Some t →
  files t1 = files t → fileIndex t1 = fileIndex t →
  fileToIndex t1 = fileToIndex t → fileLocation t1 = fileLocation t →
  world_ok (set_tracker o t1 w).
Proof.
  intros [H1 H2 H3 H4 H5 H6 H7] Ht Hf Hi Hfi Hl.
  assert (Hold : ∀ o' t', trackers w !! o' = Some t' →
            ∃ t'', <[o := t1]> (trackers w) !! o' = Some t''
                   ∧ files t'' = files t' ∧ fileIndex t'' = fileIndex t'
                   ∧ fileLocation t'' = fileLocation t').
  { intros o' t' Ht'. rewrite lookup_insert. case_decide as Ho.
    - subst o'. rewrite Ht in Ht'. injection Ht' as <-. by exists t1.
    - by exists t'. }
  split; cbn [set_tracker byFilePath trackers constructed appends instances]; try done.
  - intros o' t'. rewrite lookup_insert. case_decide as Ho; [|by apply H1].
    intros [= <-]. subst o'. destruct (H1 _ _ Ht) as [Hlt Hok]. split; [done|].
    unfold tracker_ok. by rewrite Hf, Hi, Hfi.
  - intros o' t' f' fe'. rewrite lookup_insert. case_decide as Ho; [|by apply H2].
    intros [= <-]. subst o'. rewrite Hf. by apply (H2 o t).
  - intros f' en' cb' Hin Hcb.
    destruct (H5 _ _ _ Hin Hcb) as (Hof & t' & fe' & Ht' & Hfe' & Hcb').
    split; [done|]. destruct (Hold _ _ Ht') as (t'' & Ht'' & Hf'' & _).
    exists t'', fe'. by rewrite Hf''.
  - intros a Ha. destruct (H6 _ Ha) as (Hlf & Hof & t0 & Ht0 & Hrange & Hto & Hne).
    split; [done|]. split; [done|].
    destruct (Hold _ _ Ht0) as (t'' & Ht'' & _ & Hi'' & Hl'').
    exists t''. by rewrite Hi'', Hl''.
  - intros key inst Hin. destruct (H7 _ _ Hin) as [t0 Ht0].
    destruct (Hold _ _ Ht0) as (t'' & Ht'' & _). by eexists.
Qed.

Lemma addFile_ok (e : env) (o : nat) (filePath : string) (w : world) :
  world_ok w → world_ok (addFile e o filePath w).
Proof.
  intros Hok. unfold addFile. destruct (trackers w !! o) as [t|] eqn:Ht; [|done].
  apply startFileTracker_ok. by apply (same_files_ok o t).
Qed.

Lemma removeFile_ok (o : nat) (filePath : string) (w : world) :
  world_ok w → world_ok (removeFile o filePath w).
Proof.
  intros Hok. unfold removeFile. destruct (trackers w !! o) as [t|] eqn:Ht; [|done].
  apply stopFileTracker_ok. by apply (same_files_ok o t).
Qed.

Lemma fold_startFileTracker_ok (e : env) (o : nat) (l : list string) : ∀ w,
  world_ok w → world_ok (foldl (λ w filePath, startFileTracker e o filePath w) w l).
Proof.
  induction l as [|f l IH]; intros w Hok; [done|]. cbn [foldl].
  by apply IH, startFileTracker_ok.
Qed.

Lemma fold_stopFileTracker_ok (o : nat) (l : list string) : ∀ w,
  world_ok w → world_ok (foldl (λ w filePath, stopFileTracker o filePath w) w l).
Proof.
  induction l as [|f l IH]; intros w Hok; [done|]. cbn [foldl].
  by apply IH, stopFileTracker_ok.
Qed.

(** Construction *)
Lemma CLILogsTracker_new_ok (e : env) (cfg : list string) (dir : string) (w : world) :
  world_ok w →
  world_ok (snd (CLILogsTracker_new e cfg dir w))
  ∧ is_Some (trackers (snd (CLILogsTracker_new e cfg dir w))
               !! fst (CLILogsTracker_new e cfg dir w))
  ∧ instances (snd (CLILogsTracker_new e cfg dir w)) = instances w.
Proof.
  intros Hok. unfold CLILogsTracker_new. cbn [fst snd].
  set (t := {| files := []; fileIndex := 0; fileToIndex := []; config := cfg;
               isWatchOnly := String.eqb dir "";
               fileLocation := if String.eqb dir "" then "" else join e dir filename |}).
  set (w1 := {| byFilePath := byFilePath w;
                trackers := <[constructed w := t]> (trackers w);
                constructed := S (constructed w); instances := instances w;
                cliConfig := cliConfig w; appends := appends w |}).
  assert (Hfresh : trackers w !! constructed w = None).
  { destruct (trackers w !! constructed w) as [t0|] eqn:E; [|done].
    destruct (ok_trackers w Hok _ _ E). lia. }
  assert (Hok1 : world_ok w1).
  { destruct Hok as [H1 H2 H3 H4 H5 H6 H7].
    assert (Hold : ∀ o' t', trackers w !! o' = Some t' →
              <[constructed w := t]> (trackers w) !! o' = Some t').
    { intros o' t' Ht'. rewrite lookup_insert_ne; [done|]. intros <-. congruence. }
    split; cbn [w1 byFilePath trackers constructed appends instances]; try done.
    - intros o' t'. rewrite lookup_insert. case_decide as Ho.
      + intros [= <-]. split; [lia|]. unfold tracker_ok. cbn [t files fileIndex fileToIndex].
        split; [done|]. split; [constructor|]. split; [constructor|]. split; [done|].
        intros f fe H. by apply elem_of_nil in H.
      + intros Ht'. destruct (H1 _ _ Ht'). split; [lia|done].
    - intros o' t' f' fe'. rewrite lookup_insert. case_decide as Ho; [|by apply H2].
      intros [= <-] H. by apply elem_of_nil in H.
    - intros f' en' cb' Hin Hcb.
      destruct (H5 _ _ _ Hin Hcb) as (Hof & t' & fe' & Ht' & Hfe' & Hcb').
      split; [done|]. exists t', fe'. split; [by apply Hold|done].
    - intros a Ha. destruct (H6 _ Ha) as (Hlf & Hof & t0 & Ht0 & Hrest).
      split; [done|]. split; [done|]. exists t0. split; [by apply Hold|done].
    - intros key inst Hin. destruct (H7 _ _ Hin) as [t0 Ht0].
      exists t0. by apply Hold. }
  assert (Hfold : ∀ (l : list string) w0,
            is_Some (trackers w0 !! constructed w) →
            is_Some (trackers (foldl (λ w' filePath,
                                 startFileTracker e (constructed w) filePath w') w0 l)
                       !! constructed w)
            ∧ instances (foldl (λ w' filePath,
                                 startFileTracker e (constructed w) filePath w') w0 l)
              = instances w0).
  { induction l as [|f l IH]; intros w0 Hs; [done|]. cbn [foldl].
    assert (Hstep : is_Some (trackers (startFileTracker e (constructed w) f w0)
                               !! constructed w)
                    ∧ instances (startFileTracker e (constructed w) f w0)
                      = instances w0).
    { unfold startFileTracker. destruct (trackers w0 !! constructed w) as [t0|] eqn:E; [|done].
      destruct (obj_get f (files t0)); [by rewrite E|].
      destruct (existsSync e f); cbn [negb]; [|by rewrite E].
      cbn [set_tracker set_byFilePath trackers instances].
      rewrite lookup_insert_eq. split; [by eexists|done]. }
    destruct Hstep as [Hs1 Hi1]. destruct (IH _ Hs1) as [Hs2 Hi2].
    split; [exact Hs2|]. rewrite Hi2. exact Hi1. }
  split; [by apply fold_startFileTracker_ok|].
  destruct (Hfold cfg w1) as [Ha Hb];
    [cbn [w1 trackers]; rewrite lookup_insert_eq; by eexists|].
  split; [exact Ha|exact Hb].
Qed.

Lemma set_instances_ok (l : list (string * instance)) (w : world) :
  world_ok w →
  (∀ key inst, (key, inst) ∈ l → is_Some (trackers w !! cli inst)) →
  world_ok (set_instances l w).
Proof. intros Hok Hl. by apply (world_ok_frame w). Qed.

Lemma clear_manager_ok (w : world) : world_ok w → world_ok (set_byFilePath [] w).
Proof.
  intros [H1 H2 H3 H4 H5 H6 H7].
  split; cbn [set_byFilePath byFilePath trackers constructed appends instances obj_keys];
    try done.
  - constructor.
  - intros f en H. by apply elem_of_nil in H.
  - intros f en cb H. by apply elem_of_nil in H.
Qed.


(** A subscribed closure is called with an event. *)
Lemma runCallback_ok (e : env) (cb : callback) (ev : Trim.event) (w : world)
    (filePath : string) (en : entry) :
  world_ok w → (filePath, en) ∈ byFilePath w → cb ∈ callbacks en →
  world_ok (runCallback e cb ev w)
  ∧ byFilePath (runCallback e cb ev w) = byFilePath w
  ∧ instances (runCallback e cb ev w) = instances w.
Proof.
  intros Hok Hen Hcb. unfold runCallback.
  destruct (ok_subscribers w Hok _ _ _ Hen Hcb) as (Hof & t & fe & Ht & Hfe & Hcbfe).
  rewrite Ht.
  destruct (String.eqb_spec (fileLocation t) "") as [Hloc|Hloc]; [done|].
  destruct (appendOk e (fileLocation t)); cbn [negb]; [|done].
  cbn [byFilePath instances]. split; [|done].
  destruct Hok as [H1 H2 H3 H4 H5 H6 H7].
  destruct (H1 _ _ Ht) as (Hlt & Hpos & Hk & Hi & Hfi & Hr).
  rewrite Hof. rewrite (elem_obj_get _ _ _ Hk Hfe).
  rewrite bool_decide_eq_true_2 by done.
  set (fe1 := {| file_status := {| item := item (file_status fe);
                                   count := count (file_status fe) + 1 |};
                 file_callback := cb |}).
  set (t1 := {| files := obj_set filePath fe1 (files t); fileIndex := fileIndex t;
                fileToIndex := fileToIndex t; config := config t;
                isWatchOnly := isWatchOnly t; fileLocation := fileLocation t |}).
  set (a := {| by_callback := cb; to_file := fileLocation t; written_event := _ |}).
  assert (Hcbo : cb = callback_of (owner cb) filePath fe).
  { destruct (Hr _ _ Hfe) as [Hc _]. by rewrite Hcbfe in Hc. }
  assert (Hsame : ∀ old, (filePath, old) ∈ files t → old = fe).
  { intros old Hold. apply (tracker_files_unique (owner cb) t filePath); [|done|done].
    by apply H1. }
  assert (Hnew : ∀ f' fe', (f', fe') ∈ files t1 ↔
            (f' = filePath ∧ fe' = fe1) ∨ (f' ≠ filePath ∧ (f', fe') ∈ files t)).
  { intros f' fe'. cbn [t1 files]. by apply elem_of_obj_set. }
  assert (Hold : ∀ o' t', trackers w !! o' = Some t' →
            ∃ t'', <[owner cb := t1]> (trackers w) !! o' = Some t''
                   ∧ fileIndex t'' = fileIndex t'
                   ∧ fileLocation t'' = fileLocation t'
                   ∧ ∀ f' fe0, (f', fe0) ∈ files t' →
                       ∃ fe', (f', fe') ∈ files t''
                              ∧ file_callback fe' = file_callback fe0).
  { intros o' t' Ht'. rewrite lookup_insert. case_decide as Ho.
    - subst o'. rewrite Ht in Ht'. injection Ht' as <-. exists t1.
      split; [done|]. split; [done|]. split; [done|].
      intros f' fe0 Hin. destruct (decide (f' = filePath)) as [->|Hne].
      + exists fe1. split; [apply Hnew; by left|]. by rewrite (Hsame _ Hin).
      + exists fe0. split; [apply Hnew; by right|done].
    - exists t'. do 3 (split; [done|]). intros f' fe0 Hin. by exists fe0. }
  assert (Hother : ∀ o' t' f' fe', trackers w !! o' = Some t' → (f', fe') ∈ files t' →
            o' ≠ owner cb ∨ f' ≠ filePath → file_callback fe' ≠ cb).
  { intros o' t' f' fe' Ht' Hin Hdiff Heq.
    destruct (H1 _ _ Ht') as (_ & _ & _ & _ & _ & Hr').
    destruct (Hr' _ _ Hin) as [Hc _]. rewrite Heq in Hc.
    destruct Hdiff as [Hd|Hd]; apply Hd; [by rewrite Hc|].
    rewrite <- Hof, Hc. done. }
  split; cbn [byFilePath trackers constructed appends instances]; try done.
  - intros o' t'. rewrite lookup_insert. case_decide as Ho; [|by apply H1].
    intros [= <-]. subst o'. split; [done|].
    unfold tracker_ok. cbn [t1 files fileIndex fileToIndex].
    split; [done|]. split; [|split; [|split]].
    + rewrite obj_keys_set_present; [done|]. rewrite (elem_obj_get _ _ _ Hk Hfe). by eexists.
    + rewrite fmap_obj_set_same; [done| |].
      * intros old Hold'. by rewrite (Hsame _ Hold').
      * rewrite (elem_obj_get _ _ _ Hk Hfe). by eexists.
    + rewrite fmap_obj_set_same; [done| |].
      * intros old Hold'. by rewrite (Hsame _ Hold').
      * rewrite (elem_obj_get _ _ _ Hk Hfe). by eexists.
    + intros f' fe' Hin. apply Hnew in Hin as [[-> ->]|[Hne Hin]]; [|by apply Hr].
      cbn [fe1 file_callback file_status item]. split; [exact Hcbo|]. by apply (Hr filePath).
  - intros o' t' f' fe' Ht' Hin. rewrite appendedBy_snoc. cbn [a by_callback].
    rewrite lookup_insert in Ht'. case_decide as Ho.
    + injection Ht' as <-. subst o'. apply Hnew in Hin as [[-> ->]|[Hne Hin]].
      * cbn [fe1 file_status file_callback count].
        rewrite bool_decide_eq_true_2 by done.
        rewrite (H2 _ _ _ _ Ht Hfe), Hcbfe. lia.
      * rewrite bool_decide_eq_false_2.
        -- rewrite (H2 _ _ _ _ Ht Hin). lia.
        -- intros Heq. by apply (Hother _ _ _ _ Ht Hin); [right|].
    + rewrite bool_decide_eq_false_2.
      * rewrite (H2 _ _ _ _ Ht' Hin). lia.
      * intros Heq. apply (Hother _ _ _ _ Ht' Hin); [left; congruence|done].
  - intros f' en' cb' Hin' Hcb'.
    destruct (H5 _ _ _ Hin' Hcb') as (Hof' & t' & fe' & Ht' & Hfe' & Hcbfe').
    split; [done|]. destruct (Hold _ _ Ht') as (t'' & Ht'' & _ & _ & Hmap).
    destruct (Hmap _ _ Hfe') as (fe'' & Hin'' & Hc'').
    exists t'', fe''. split; [done|]. split; [done|]. congruence.
  - intros a'. rewrite elem_of_app, list_elem_of_singleton. intros [Ha| ->].
    + destruct (H6 _ Ha) as (Hlf & Hofl & t0 & Ht0 & Hrange & Hto & Hne).
      split; [done|]. split; [done|].
      destruct (Hold _ _ Ht0) as (t'' & Ht'' & Hi'' & Hl'' & _).
      exists t''. by rewrite Hi'', Hl''.
    + cbn [a by_callback written_event to_file Trim.logFile Trim.fields].
      split; [done|]. split.
      * rewrite obj_get_set_ne by done. by rewrite obj_get_set_eq, Hof.
      * exists t1. rewrite lookup_insert_eq. split; [done|].
        cbn [t1 fileIndex fileLocation]. split; [|done].
        destruct (Hr _ _ Hfe) as [_ Hrange]. rewrite Hcbo. exact Hrange.
  - intros key inst Hin. destruct (H7 _ _ Hin) as [t0 Ht0].
    destruct (Hold _ _ Ht0) as (t'' & Ht'' & _). by eexists.
Qed.

Lemma fold_runCallback_ok (e : env) (ev : Trim.event) (filePath : string)
    (en : entry) (cbs : list callback) : ∀ w,
  world_ok w → (filePath, en) ∈ byFilePath w →
  (∀ cb, cb ∈ cbs → cb ∈ callbacks en) →
  world_ok (foldl (λ w cb, runCallback e cb ev w) w cbs)
  ∧ instances (foldl (λ w cb, runCallback e cb ev w) w cbs) = instances w.
Proof.
  induction cbs as [|cb cbs IH]; intros w Hok Hen Hsub; [done|]. cbn [foldl].
  destruct (runCallback_ok e cb ev w filePath en Hok Hen) as (Hok1 & Hb1 & Hi1);
    [apply Hsub; by left|].
  destruct (IH (runCallback e cb ev w) Hok1) as (Hok2 & Hi2).
  - by rewrite Hb1.
  - intros cb' Hcb'. apply Hsub. by right.
  - split; [done|congruence].
Qed.

Lemma FileTracker_onLine_bound (e : env) (data : line) (t : fileTracker) :
  Z.of_nat (length (eventTimes t)) ≤ totalEvents t →
  trackedFile (fst (FileTracker_onLine e data t)) = trackedFile t
  ∧ tail (fst (FileTracker_onLine e data t)) = tail t
  ∧ Z.of_nat (length (eventTimes (fst (FileTracker_onLine e data t))))
    ≤ totalEvents (fst (FileTracker_onLine e data t)).
Proof.
  intros H. unfold FileTracker_onLine.
  destruct data; cbn [fst trackedFile tail eventTimes totalEvents];
    rewrite ?length_app; cbn [length]; repeat split; lia.
Qed.

Lemma tailLine_ok (e : env) (filePath : string) (data : line) (w : world) :
  world_ok w →
  world_ok (tailLine e filePath data w)
  ∧ instances (tailLine e filePath data w) = instances w.
Proof.
  intros Hok. unfold tailLine.
  destruct (obj_get filePath (byFilePath w)) as [en|] eqn:Hen; [|done].
  destruct (tail (tracker en)); cbn [negb]; [|done].
  destruct (ok_entries w Hok _ _ (obj_get_elem _ _ _ Hen)) as (_ & Hf & Hlen).
  destruct (FileTracker_onLine_bound e data (tracker en) Hlen) as (Hf' & _ & Hlen').
  destruct (FileTracker_onLine e data (tracker en)) as [t handed]. cbn [fst] in *.
  assert (Hok1 : world_ok (set_byFilePath
                   (obj_set filePath {| callbacks := callbacks en; tracker := t |}
                      (byFilePath w)) w))
    by (apply retrack_ok; [done|done|congruence|done]).
  destruct handed as [ev|]; [|done].
  unfold sendEvent. cbn [set_byFilePath byFilePath]. rewrite obj_get_set_eq.
  cbn [callbacks].
  destruct (fold_runCallback_ok e ev filePath
              {| callbacks := callbacks en; tracker := t |} (callbacks en) _ Hok1)
    as [Ha Hb]; [|done|].
  - cbn [set_byFilePath byFilePath]. apply obj_get_elem, obj_get_set_eq.
  - split; [exact Ha|exact Hb].
Qed.


Lemma stopFileTracker_instances (o : nat) (filePath : string) (w : world) :
  instances (stopFileTracker o filePath w) = instances w.
Proof.
  unfold stopFileTracker. destruct (trackers w !! o) as [t|]; [|done].
  by destruct (obj_get filePath (files t)).
Qed.

Lemma fold_stopFileTracker_instances (o : nat) (l : list string) : ∀ w,
  instances (foldl (λ w filePath, stopFileTracker o filePath w) w l) = instances w.
Proof.
  induction l as [|f l IH]; intros w; [done|]. cbn [foldl].
  by rewrite IH, stopFileTracker_instances.
Qed.

Lemma CLILogsTracker_destroy_ok (e : env) (o : nat) (w : world) :
  world_ok w →
  world_ok (snd (CLILogsTracker_destroy e o w))
  ∧ instances (snd (CLILogsTracker_destroy e o w)) = instances w.
Proof.
  intros Hok. unfold CLILogsTracker_destroy.
  destruct (trackers w !! o) as [t|] eqn:Ht; [|done].
  pose proof (CLILogsTracker_getStatus_ok e t w Hok) as Hok1.
  destruct (CLILogsTracker_getStatus e t (byFilePath w)) as [result m].
  cbn [snd] in *. split; [by apply fold_stopFileTracker_ok|].
  by rewrite fold_stopFileTracker_instances.
Qed.

Lemma stop_ok (e : env) (recorderId screenId : string) (w : world) :
  world_ok w → world_ok (snd (stop e recorderId screenId w)).
Proof.
  intros Hok. unfold stop.
  destruct (obj_get (instanceKey recorderId screenId) (instances w)) as [inst|]; [|done].
  apply CLILogsTracker_destroy_ok, set_instances_ok; [done|].
  intros key i Hin. apply elem_of_obj_delete in Hin as [_ Hin].
  by apply (ok_instances w Hok key).
Qed.

Lemma stopAll_ok (e : env) (w : world) : world_ok w → world_ok (stopAll e w).
Proof.
  unfold stopAll. generalize (obj_keys (instances w)) as keys.
  intros keys. revert w. induction keys as [|k keys IH]; intros w Hok; [done|].
  cbn [foldl]. by apply IH, stop_ok.
Qed.

Lemma startNew_ok (e : env) (recorderId screenId directory : string) (w : world) :
  world_ok w → world_ok (startNew e recorderId screenId directory w).
Proof.
  intros Hok. unfold startNew.
  destruct (CLILogsTracker_new_ok e (cliConfig w) directory w Hok) as (Hok1 & Hs & Hi).
  destruct (CLILogsTracker_new e (cliConfig w) directory w) as [o w1].
  cbn [fst snd] in *. apply set_instances_ok; [done|].
  intros key inst Hin. apply elem_of_obj_set_1 in Hin as [[-> ->]|Hin]; [done|].
  rewrite Hi in Hin.
  apply (ok_instances w1 Hok1 key). by rewrite Hi.
Qed.

Lemma getStatus_ok (e : env) (w : world) : world_ok w → world_ok (snd (getStatus e w)).
Proof.
  intros Hok. unfold getStatus.
  pose proof (getAllStats_ok e w Hok) as H.
  destruct (getAllStats e (byFilePath w)) as [stats m]. exact H.
Qed.

Lemma destroy_ok (e : env) (w : world) : world_ok w → world_ok (destroy e w).
Proof.
  intros Hok. unfold destroy. by apply set_cliConfig_ok, clear_manager_ok, stopAll_ok.
Qed.

Lemma exec_ok (w : world) (step : env * op) : world_ok w → world_ok (exec w step).
Proof.
  intros Hok. destruct step as [e o]. destruct o; cbn [exec].
  - by apply set_cliConfig_ok.
  - by apply set_cliConfig_ok.
  - by apply startNew_ok.
  - by apply stop_ok.
  - by apply stopAll_ok.
  - by apply getStatus_ok.
  - by apply destroy_ok.
  - by apply addFile_ok.
  - by apply removeFile_ok.
  - destruct (trackers w !! o) as [t|]; [|done]. by apply CLILogsTracker_getStatus_ok.
  - by apply tailLine_ok.
Qed.

Lemma run_ok (steps : list (env * op)) : world_ok (run steps).
Proof.
  unfold run. induction steps as [|s steps IH] using rev_ind; [apply initial_ok|].
  rewrite foldl_app. by apply exec_ok.
Qed.


End LogsInvariant.

(** ** What a history of log tracking guarantees *)
Section LogsFacts.
Import Logs.


(** X25.  Every event a CLI tracker appends to its log carries the index
    of the file it came from as [logFile], a number from 1 on and so a
    truthy one, which is what trimming anonymizes; it carries the path of
    that file as [originalFile]; and it went to the [fileLocation] of the
    tracker, which is not empty: a tracker without directory appends
    nothing. *)
Theorem appended_events_are_stamped (steps : list (env * op)) (a : appended) :
  a ∈ appends (run steps) →
  Trim.hasLogFile (written_event a) = Some (index (by_callback a))
  ∧ 1 ≤ index (by_callback a)
  ∧ obj_get "originalFile" (Trim.fields (written_event a))
    = Some (originalFile (by_callback a))
  ∧ ∃ t, trackers (run steps) !! owner (by_callback a) = Some t
         ∧ to_file a = fileLocation t ∧ to_file a ≠ ""
         ∧ index (by_callback a) ≤ fileIndex t.
Proof.
  intros Ha.
  destruct (ok_appends _ (run_ok steps) _ Ha) as (Hl & Hf & t & Ht & Hrange & Hto & Hne).
  split; [|split; [lia|split; [done|]]].
  - unfold Trim.hasLogFile. rewrite Hl.
    destruct (Z.eqb_spec (index (by_callback a)) 0); [lia|done].
  - exists t. split; [done|]. split; [done|]. split; [congruence|lia].
Qed.


Lemma appendsOf_cons (cb : callback) (cbs : list callback) (l : list appended) :
  cb ∉ cbs →
  length (appendsOf (cb :: cbs) l)
  = (appendedBy cb l + length (appendsOf cbs l))%nat.
Proof.
  intros Hcb. unfold appendsOf, appendedBy.
  induction l as [|a l IH]; [done|]. cbn [List.filter].
  destruct (decide (by_callback a = cb)) as [Heq|Hne].
  - rewrite (bool_decide_eq_true_2 (by_callback a = cb)) by done.
    rewrite (bool_decide_eq_true_2 (by_callback a ∈ cb :: cbs)) by (rewrite Heq; by left).
    rewrite (bool_decide_eq_false_2 (by_callback a ∈ cbs)) by (by rewrite Heq).
    cbn [length]. lia.
  - rewrite (bool_decide_eq_false_2 (by_callback a = cb)) by done.
    destruct (decide (by_callback a ∈ cbs)) as [Hin|Hin].
    + rewrite (bool_decide_eq_true_2 (by_callback a ∈ cb :: cbs)) by (by right).
      rewrite (bool_decide_eq_true_2 (by_callback a ∈ cbs)) by done.
      cbn [length]. lia.
    + rewrite (bool_decide_eq_false_2 (by_callback a ∈ cb :: cbs))
        by (rewrite elem_of_cons; tauto).
      by rewrite (bool_decide_eq_false_2 (by_callback a ∈ cbs)) by done.
Qed.

Lemma sum_counts (l : list appended) (fs : list (string * fileEntry)) : ∀ acc,
  NoDup ((λ kv, file_callback (snd kv)) <$> fs) →
  (∀ f fe, (f, fe) ∈ fs →
     count (file_status fe) = Z.of_nat (appendedBy (file_callback fe) l)) →
  foldl (λ acc it, acc + item_count it) acc
    ((λ kv, {| item_index := Some (item (file_status (snd kv)));
               item_count := count (file_status (snd kv));
               item_totalEvents := None; item_isActive := None |}) <$> fs)
  = acc + Z.of_nat (length (appendsOf ((λ kv, file_callback (snd kv)) <$> fs) l)).
Proof.
  induction fs as [|[f fe] fs IH]; intros acc Hnd Hc.
  - cbn. unfold appendsOf.
    assert (List.filter (λ a, bool_decide (by_callback a ∈ [])) l = []) as ->.
    { clear. induction l as [|a l IHl]; [done|]. cbn [List.filter].
      rewrite bool_decide_eq_false_2 by apply not_elem_of_nil. exact IHl. }
    cbn. lia.
  - rewrite !fmap_cons in *. cbn [foldl snd item_count].
    apply NoDup_cons in Hnd as [Hx Hnd].
    rewrite IH; [|done|intros f' fe' Hin; apply (Hc f'); by right].
    rewrite appendsOf_cons by done.
    rewrite (Hc f fe) by (by left). lia.
Qed.

(** X26.  What the status of a CLI tracker with a directory counts.
    Whatever has happened, the count of each tracked file is the number of
    events its closure has appended, and the status [getStatus] returns
    (one element, of type [cli], under the [fileLocation] of the tracker)
    counts the events appended by the closures of the files tracked at that
    moment; asking does not change the file tracker manager. *)
Theorem status_counts_appended_events (steps : list (env * op)) (o : nat)
    (t : cliTracker) (e : env) :
  trackers (run steps) !! o = Some t →
  isWatchOnly t = false →
  (∀ f fe, (f, fe) ∈ files t →
     count (file_status fe)
     = Z.of_nat (appendedBy (callback_of o f fe) (appends (run steps))))
  ∧ ∃ s, CLILogsTracker_getStatus e t (byFilePath (run steps))
         = ([s], byFilePath (run steps))
         ∧ status_id s = "CLI" ∧ status_type s = "cli"
         ∧ status_fileLocation s = fileLocation t
         ∧ trackedFiles s = length (files t)
         ∧ status_count s
           = Z.of_nat (length (appendsOf (closures t) (appends (run steps)))).
Proof.
  intros Ht Hw. pose proof (run_ok steps) as Hok.
  destruct (ok_trackers _ Hok _ _ Ht) as (Hlt & Hpos & Hk & Hi & Hfi & Hr).
  split.
  - intros f fe Hin. rewrite (ok_counts _ Hok _ _ _ _ Ht Hin).
    by destruct (Hr _ _ Hin) as [-> _].
  - unfold CLILogsTracker_getStatus. rewrite Hw. eexists. split; [reflexivity|].
    cbn [status_id status_type status_fileLocation trackedFiles status_count].
    do 4 (split; [done|]).
    rewrite sum_counts with (l := appends (run steps)); [unfold closures; lia| |].
    + assert (Heq : (λ kv : string * fileEntry, file_callback (snd kv)) <$> files t
                    = (λ kv, callback_of o (fst kv) (snd kv)) <$> files t).
      { apply list_eq. intros i. rewrite !list_lookup_fmap.
        destruct (files t !! i) as [[f fe]|] eqn:E; [|done]. cbn.
        f_equal. apply (Hr f). by apply list_elem_of_lookup_2 with i. }
      rewrite Heq. apply NoDup_fmap_2_strong; [|].
      * intros [f1 fe1] [f2 fe2] H1 H2 Hcb. cbn in Hcb.
        injection Hcb as _ Hf. subst f2. f_equal.
        by apply (tracker_files_unique o t f1); [apply (ok_trackers _ Hok)|..].
      * apply NoDup_fmap_1 with (f := fst). exact Hk.
    + intros f fe Hin. by apply (ok_counts _ Hok o t f).
Qed.


(** ** Stopping *)

Lemma obj_delete_absent {V} (k : string) (o : list (string * V)) :
  obj_get k o = None → obj_delete k o = o.
Proof.
  unfold obj_delete. induction o as [|[k0 v0] o IH]; cbn [obj_get List.filter fst]; [done|].
  destruct (String.eqb k0 k); [done|]. intros H. cbn [negb]. by rewrite IH.
Qed.

Lemma fold_obj_delete_all {V} (l : list string) : ∀ (o : list (string * V)),
  (∀ k v, (k, v) ∈ o → k ∈ l) →
  foldl (λ o k, obj_delete k o) o l = [].
Proof.
  induction l as [|k l IH]; intros o Hin; cbn [foldl].
  - destruct o as [|[k v] o]; [done|]. exfalso.
    specialize (Hin k v). rewrite elem_of_nil in Hin. apply Hin. by left.
  - apply IH. intros k' v'. rewrite elem_of_obj_delete. intros [Hne H].
    specialize (Hin _ _ H). apply elem_of_cons in Hin as [?|?]; done.
Qed.

Lemma stopFileTracker_files (o : nat) (f : string) (w : world) (t : cliTracker) :
  trackers w !! o = Some t →
  ∃ t', trackers (stopFileTracker o f w) !! o = Some t'
        ∧ files t' = obj_delete f (files t)
        ∧ fileIndex t' = fileIndex t.
Proof.
  intros Ht. unfold stopFileTracker. rewrite Ht.
  destruct (obj_get f (files t)) as [fe|] eqn:E.
  - cbn [set_tracker set_byFilePath trackers]. rewrite lookup_insert_eq. by eexists.
  - exists t. by rewrite obj_delete_absent.
Qed.

Lemma fold_stopFileTracker_files (o : nat) (l : list string) : ∀ (w : world) t,
  trackers w !! o = Some t →
  ∃ t', trackers (foldl (λ w f, stopFileTracker o f w) w l) !! o = Some t'
        ∧ files t' = foldl (λ fs f, obj_delete f fs) (files t) l
        ∧ fileIndex t' = fileIndex t.
Proof.
  induction l as [|f l IH]; intros w t Ht; cbn [foldl]; [by exists t|].
  destruct (stopFileTracker_files o f w t Ht) as (t1 & Ht1 & Hf1 & Hi1).
  destruct (IH _ _ Ht1) as (t2 & Ht2 & Hf2 & Hi2).
  exists t2. split; [done|]. split; congruence.
Qed.

(** X27.  Stopping the log tracking of a recording.  For an instance
    that is registered, [stop] returns what [getStatus] of its CLI tracker
    says at that moment, removes the instance, and leaves the tracker
    without tracked files and none of its closures subscribed to a file
    tracker; a second [stop] for the same recording returns the empty
    array and changes nothing.  For a recording that is not registered,
    [stop] returns the empty array and changes nothing. *)
Theorem stop_collects_and_releases (steps : list (env * op)) (e : env)
    (recorderId screenId : string) :
  let w := run steps in
  let key := instanceKey recorderId screenId in
  match obj_get key (instances w) with
  | None => stop e recorderId screenId w = ([], w)
  | Some inst =>
      let after := snd (stop e recorderId screenId w) in
      (∃ t, trackers w !! cli inst = Some t
            ∧ fst (stop e recorderId screenId w)
              = fst (CLILogsTracker_getStatus e t (byFilePath w)))
      ∧ obj_get key (instances after) = None
      ∧ (∃ t', trackers after !! cli inst = Some t' ∧ files t' = [])
      ∧ (∀ f cb, cb ∈ sendEvent f (byFilePath after) → owner cb ≠ cli inst)
      ∧ ∀ e', stop e' recorderId screenId after = ([], after)
  end.
Proof.
  cbv zeta. pose proof (run_ok steps) as Hok.
  destruct (obj_get (instanceKey recorderId screenId) (instances (run steps)))
    as [inst|] eqn:Hinst; [|unfold stop; by rewrite Hinst].
  assert (Hstop : stop e recorderId screenId (run steps)
                  = CLILogsTracker_destroy e (cli inst)
                      (set_instances
                         (obj_delete (instanceKey recorderId screenId)
                            (instances (run steps))) (run steps)))
    by (unfold stop; by rewrite Hinst).
  pose proof (stop_ok e recorderId screenId _ Hok) as Hok'.
  rewrite Hstop in *. clear Hstop.
  destruct (ok_instances _ Hok _ _ (obj_get_elem _ _ _ Hinst)) as [t Ht].
  unfold CLILogsTracker_destroy in *.
  cbn [set_instances trackers byFilePath] in *. rewrite Ht in *.
  destruct (CLILogsTracker_getStatus e t (byFilePath (run steps))) as [result m] eqn:Hst.
  cbn [fst snd] in *.
  set (w1 := set_byFilePath m _) in *.
  destruct (fold_stopFileTracker_files (cli inst) (obj_keys (files t)) w1 t Ht)
    as (t' & Ht' & Hf' & _).
  rewrite fold_obj_delete_all in Hf'
    by (intros k v Hin; apply list_elem_of_fmap; by exists (k, v)).
  assert (Hgone : obj_get (instanceKey recorderId screenId)
                    (instances (foldl (λ w f, stopFileTracker (cli inst) f w) w1
                                  (obj_keys (files t)))) = None).
  { rewrite fold_stopFileTracker_instances. cbn [w1 set_byFilePath instances].
    apply obj_get_delete_eq. }
  split; [exists t; by rewrite Hst|]. split; [done|]. split; [by exists t'|]. split.
  - intros f cb Hcb Ho. unfold sendEvent in Hcb.
    destruct (obj_get f (byFilePath _)) as [en|] eqn:Hen; [|by apply elem_of_nil in Hcb].
    destruct (ok_subscribers _ Hok' _ _ _ (obj_get_elem _ _ _ Hen) Hcb)
      as (_ & t0 & fe & Ht0 & Hin & _).
    rewrite Ho, Ht' in Ht0. injection Ht0 as <-. rewrite Hf' in Hin.
    by apply elem_of_nil in Hin.
  - intros e'. unfold stop. by rewrite Hgone.
Qed.


(** ** Stopping every instance *)

Lemma string_app_nil_r (s : string) : s +:+ "" = s.
Proof.
  induction s as [|c s IH]; [done|].
  change (String c (s +:+ "") = String c s). by rewrite IH.
Qed.

Lemma string_app_snoc (cur : string) (c : ascii) (s : string) :
  (cur +:+ String c "") +:+ s = cur +:+ String c s.
Proof.
  induction cur as [|c0 cur IH]; [done|].
  change (String c0 ((cur +:+ String c "") +:+ s) = String c0 (cur +:+ String c s)).
  by rewrite IH.
Qed.

Lemma split_no_underscore (s : string) : ∀ cur,
  no_underscore s = true → split_underscore s cur = [cur +:+ s].
Proof.
  induction s as [|c s IH]; intros cur Hs; cbn [split_underscore].
  - by rewrite string_app_nil_r.
  - cbn [no_underscore] in Hs. apply andb_prop in Hs as [Hc Hs].
    apply negb_true_iff in Hc. rewrite Hc, IH by done.
    by rewrite string_app_snoc.
Qed.

Lemma split_instanceKey (r s : string) : ∀ cur,
  no_underscore r = true → no_underscore s = true →
  split_underscore (instanceKey r s) cur = [cur +:+ r; s].
Proof.
  unfold instanceKey.
  induction r as [|c r IH]; intros cur Hr Hs.
  - change ("" +:+ "_" +:+ s) with (String "_" s). cbn [split_underscore].
    change (Ascii.eqb "_" "_") with true. cbn iota.
    rewrite string_app_nil_r. by rewrite split_no_underscore.
  - cbn [no_underscore] in Hr. apply andb_prop in Hr as [Hc Hr].
    apply negb_true_iff in Hc.
    change (String c r +:+ "_" +:+ s) with (String c (r +:+ "_" +:+ s)).
    cbn [split_underscore]. rewrite Hc, IH by done.
    by rewrite string_app_snoc.
Qed.

Lemma stop_instances (e : env) (r s : string) (w : world) :
  instances (snd (stop e r s w)) = obj_delete (instanceKey r s) (instances w).
Proof.
  unfold stop.
  destruct (obj_get (instanceKey r s) (instances w)) as [inst|] eqn:Hinst.
  - unfold CLILogsTracker_destroy. cbn [set_instances trackers byFilePath].
    destruct (trackers w !! cli inst) as [t|]; [|done].
    destruct (CLILogsTracker_getStatus e t (byFilePath w)) as [result m].
    cbn [snd]. by rewrite fold_stopFileTracker_instances.
  - cbn [snd]. by rewrite obj_delete_absent.
Qed.

Lemma fold_stop_instances (e : env) (l : list string) : ∀ w,
  Forall (λ key, ∃ r s, key = instanceKey r s
                        ∧ no_underscore r = true ∧ no_underscore s = true) l →
  instances (foldl (λ w key,
                      let parts := split_underscore key "" in
                      snd (stop e (nth 0 parts "") (nth 1 parts "undefined") w))
               w l)
  = foldl (λ o key, obj_delete key o) (instances w) l.
Proof.
  induction l as [|key l IH]; intros w Hl; [done|].
  apply Forall_cons in Hl as [(r & s & -> & Hr & Hs) Hl].
  cbn [foldl]. rewrite IH by done. cbv zeta.
  rewrite split_instanceKey by done. cbn [nth String.app].
  by rewrite stop_instances.
Qed.

(** X28.  [stopAll] recovers the two identifiers of an instance by cutting
    its key at the underscores.  When the identifiers of every registered
    instance are free of underscores, no instance is registered after
    [stopAll]. *)
Theorem stopAll_stops_every_instance (steps : list (env * op)) (e : env) :
  (∀ key inst, (key, inst) ∈ instances (run steps) →
     ∃ r s, key = instanceKey r s
            ∧ no_underscore r = true ∧ no_underscore s = true) →
  instances (stopAll e (run steps)) = [].
Proof.
  intros Hkeys. unfold stopAll. rewrite fold_stop_instances.
  - apply fold_obj_delete_all. intros k v Hin.
    apply list_elem_of_fmap. by exists (k, v).
  - apply Forall_forall. intros key Hin.
    apply list_elem_of_fmap in Hin as ([k inst] & -> & Hin). by apply (Hkeys k inst).
Qed.

(** An identifier with an underscore defeats the cut: the instance of
    recorder [a_b] on screen [1] is looked up as recorder [a] on screen
    [b], which is not registered. *)
Lemma stopAll_misses_underscored_id (e : env) (w : world) (inst : instance) :
  instances w = [(instanceKey "a_b" "1", inst)] →
  instances (stopAll e w) = instances w.
Proof.
  intros Hi. unfold stopAll. rewrite Hi. cbn [obj_keys fmap list_fmap fst foldl].
  cbv zeta. change (split_underscore (instanceKey "a_b" "1") "") with ["a"; "b"; "1"].
  cbn [nth]. rewrite stop_instances, Hi. reflexivity.
Qed.

(** ** The file tracker manager *)





(** X22.  Who is called for a line of a file.  Whatever has happened, a
    file has a file tracker exactly when it has a subscriber, and every
    subscriber of a file is the closure of a file that a CLI tracker
    tracks at that moment under that very path: no closure of a file that
    was removed, or of a tracker that was stopped, is still called. *)
Theorem subscribers_are_tracked_files (steps : list (env * op)) (f : string) :
  let w := run steps in
  (obj_get f (byFilePath w) = None ↔ sendEvent f (byFilePath w) = [])
  ∧ ∀ cb, cb ∈ sendEvent f (byFilePath w) →
      originalFile cb = f
      ∧ ∃ t fe, trackers w !! owner cb = Some t
                ∧ obj_get f (files t) = Some fe
                ∧ index cb = item (file_status fe).
Proof.
  cbv zeta. pose proof (run_ok steps) as Hok. unfold sendEvent.
  destruct (obj_get f (byFilePath (run steps))) as [en|] eqn:Hen.
  - pose proof (obj_get_elem _ _ _ Hen) as Hin. split.
    + split; [done|]. intros Hnil. by destruct (ok_entries _ Hok _ _ Hin) as [? _].
    + intros cb Hcb.
      destruct (ok_subscribers _ Hok _ _ _ Hin Hcb) as (Ho & t & fe & Ht & Hfe & Hcbe).
      split; [done|]. exists t, fe. split; [done|].
      destruct (ok_trackers _ Hok _ _ Ht) as (_ & _ & Hk & _ & _ & Hr).
      split; [by apply elem_obj_get|].
      destruct (Hr _ _ Hfe) as [Hc _]. rewrite <- Hcbe, Hc. done.
  - split; [done|]. intros cb Hcb. by apply elem_of_nil in Hcb.
Qed.


End LogsFacts.

(** ** Instances *)
Section LogsInstances.
Import Logs Examples Scenarios.

Lemma log_tracker_found : trackers (run log_history) !! 0%nat = Some log_tracker.
Proof. vm_compute. reflexivity. Qed.


Lemma appended_events_are_stamped_witness :
  appends (run log_history) !! 1%nat = Some log_append
  ∧ Trim.hasLogFile (written_event log_append) = Some 2
  ∧ 1 ≤ index (by_callback log_append)
  ∧ obj_get "originalFile" (Trim.fields (written_event log_append))
    = Some "/var/log/db.log"
  ∧ ∃ t, trackers (run log_history) !! owner (by_callback log_append) = Some t
         ∧ to_file log_append = fileLocation t ∧ to_file log_append ≠ ""
         ∧ index (by_callback log_append) ≤ fileIndex t.
Proof.
  assert (Hat : appends (run log_history) !! 1%nat = Some log_append)
    by (vm_compute; reflexivity).
  split; [exact Hat|].
  exact (appended_events_are_stamped log_history log_append
           (list_elem_of_lookup_2 _ _ _ Hat)).
Defined.

Lemma status_counts_appended_events_witness :
  trackers (run log_history) !! 0%nat = Some log_tracker
  ∧ (∀ f fe, (f, fe) ∈ files log_tracker →
       count (file_status fe)
       = Z.of_nat (appendedBy (callback_of 0%nat f fe)
                     (appends (run log_history))))
  ∧ ∃ s, CLILogsTracker_getStatus log_env log_tracker
           (byFilePath (run log_history))
         = ([s], byFilePath (run log_history))
         ∧ status_id s = "CLI" ∧ status_type s = "cli"
         ∧ status_fileLocation s = "/rec/dashcam_cli_logs.jsonl"
         ∧ trackedFiles s = 2%nat
         ∧ status_count s
           = Z.of_nat (length (appendsOf (closures log_tracker)
                                 (appends (run log_history)))).
Proof.
  split; [exact log_tracker_found|].
  exact (status_counts_appended_events log_history 0%nat log_tracker log_env
           log_tracker_found eq_refl).
Defined.

Lemma stopAll_stops_every_instance_witness :
  obj_keys (instances (run log_history)) = ["rec_1"]
  ∧ instances (stopAll log_env (run log_history)) = [].
Proof.
  assert (Hkeys : obj_keys (instances (run log_history)) = ["rec_1"])
    by (vm_compute; reflexivity).
  split; [exact Hkeys|].
  apply (stopAll_stops_every_instance log_history log_env).
  intros key inst Hin.
  assert (Hk : key ∈ obj_keys (instances (run log_history))).
  { apply list_elem_of_fmap. exists (key, inst). split; [reflexivity|exact Hin]. }
  rewrite Hkeys in Hk.
  apply list_elem_of_singleton in Hk as ->.
  exists "rec", "1". split; [reflexivity|split; reflexivity].
Defined.

End LogsInstances.

